(** * mendeleyBibFix: the entry scanner and the field rewriter of
    [mendeleyBibFix.c], embedded as executable functions, and the
    properties of them that the specification states. *)

From Stdlib Require Import ZArith Ascii String List Bool Lia.
Import ListNotations.
Open Scope Z_scope.

(** ** Characters and C strings *)

Definition NUL : ascii := Ascii.zero.
Definition LF : ascii := "010"%char.

(** A string literal of the source, as the bytes it denotes. *)
Definition lit (s : string) : list ascii := list_ascii_of_string s.

Definition kw_month : list ascii := lit "month =".
Definition kw_title : list ascii := lit "title =".
Definition kw_annote : list ascii := lit "annote =".
Definition kw_abstract : list ascii := lit "abstract =".
Definition kw_doi : list ascii := lit "doi =".
Definition kw_file : list ascii := lit "file =".
Definition kw_url : list ascii := lit "url =".
Definition kw_year : list ascii := lit "year =".
Definition kw_issn : list ascii := lit "issn =".
(** The two escaped braces, [{\{}] and [{\}}]. *)
Definition esc_open : list ascii := ["{"; "\"; "{"; "}"]%char.
Definition esc_close : list ascii := ["{"; "\"; "}"; "}"]%char.
(** The end of a field: a closing brace, a comma and a newline. *)
Definition field_end : list ascii := ["}"%char; ","%char; LF].

(** ** [unsigned long] *)

Definition ULONG_MOD : Z := 2 ^ 64.

(** Every index of the source is an [unsigned long]; [ul] is its wrap-around.
    Unsigned arithmetic is arithmetic modulo [2^64], so reducing a whole
    expression once gives the value the source computes step by step. *)
Definition ul (z : Z) : Z := z mod ULONG_MOD.

Definition BIB_TYPE_MAX : Z := 25.

(** ** Buffers

    A buffer is the block of bytes behind a [char *]; an access outside of
    it has no result. *)

Definition buffer := list ascii.

Definition blen (b : buffer) : Z := Z.of_nat (length b).

Definition get (b : buffer) (i : Z) : option ascii :=
  if i <? 0 then None else nth_error b (Z.to_nat i).

Definition put (b : buffer) (i : Z) (c : ascii) : option buffer :=
  if (0 <=? i) && (i <? blen b)
  then Some (firstn (Z.to_nat i) b ++ c :: skipn (S (Z.to_nat i)) b)
  else None.

(** [memmove(&b[dst], &b[src], n)]: the [n] bytes are copied as if through a
    temporary, so the ranges may overlap. *)
Definition memmove (b : buffer) (dst src n : Z) : option buffer :=
  if (0 <=? dst) && (0 <=? src) && (0 <=? n)
     && (src + n <=? blen b) && (dst + n <=? blen b)
  then Some (firstn (Z.to_nat dst) b
             ++ firstn (Z.to_nat n) (skipn (Z.to_nat src) b)
             ++ skipn (Z.to_nat (dst + n)) b)
  else None.

Notation "x <- e ;; k" :=
  (match e with Some x => k | None => None end)
  (at level 61, e at next level, right associativity).

(** [strncmp(&b[i], l, n) == 0] for a literal [l] of [n] bytes without NUL:
    the bytes are compared in order up to the first difference, so [b] is
    read only as far as it agrees with [l]. *)
Fixpoint strncmp0 (b : buffer) (i : Z) (l : list ascii) : option bool :=
  match l with
  | [] => Some true
  | c :: l' =>
      x <- get b i ;;
      if Ascii.eqb x c then strncmp0 b (i + 1) l' else Some false
  end.

(** The bytes of a C string: those before its first NUL. *)
Fixpoint cstr (b : list ascii) : list ascii :=
  match b with
  | [] => []
  | c :: b' => if Ascii.eqb c NUL then [] else c :: cstr b'
  end.

Definition list_eqb (x y : list ascii) : bool :=
  if list_eq_dec ascii_dec x y then true else false.

(** [strcmp(t, e) == 0] for a literal [e]. *)
Definition strcmp0 (t : list ascii) (e : list ascii) : bool :=
  list_eqb (cstr t) e.

(** ** The line and field locators

    [findEndOfLine] (lines 459-466) and [findEndOfField] (lines 469-476)
    advance an index until their test holds.  The fuel is the length of the
    buffer and one more: the scan leaves the buffer before it is used up. *)

Fixpoint findEndOfLine_from (fuel : nat) (str : buffer) (curInd : Z)
  : option Z :=
  match fuel with
  | O => None
  | S f =>
      c <- get str curInd ;;
      if Ascii.eqb c LF then Some curInd
      else findEndOfLine_from f str (ul (curInd + 1))
  end.

Definition findEndOfLine (str : buffer) (startInd : Z) : option Z :=
  findEndOfLine_from (S (length str)) str startInd.

Fixpoint findEndOfField_from (fuel : nat) (str : buffer) (curInd : Z)
  : option Z :=
  match fuel with
  | O => None
  | S f =>
      m <- strncmp0 str (ul (curInd + 1)) field_end ;;
      if m then Some (ul (curInd + 3))
      else findEndOfField_from f str (ul (curInd + 1))
  end.

Definition findEndOfField (str : buffer) (startInd : Z) : option Z :=
  findEndOfField_from (S (length str)) str startInd.

(** ** Configuration *)

Record config := {
  turn_issn_into_missing_year : bool;
  turn_every_entry_url_exception : bool;
  keep_url_only_if_no_doi : bool;
  keep_annote : bool;
  keep_abstract : bool
}.

(** The values [main] starts with. *)
Definition default_config : config := {|
  turn_issn_into_missing_year := false;
  turn_every_entry_url_exception := true;
  keep_url_only_if_no_doi := true;
  keep_annote := false;
  keep_abstract := false
|}.

Definition URL_EXCEPTION_TYPES : list (list ascii) :=
  [lit "misc"; lit "unpublished"].

(** ** The state of the scan of one entry *)

Record scan_state := {
  curBibEntry : buffer;
  curBibInd : Z;
  curBibLength : Z;
  bHasYear : bool;
  bHasISSN : bool;
  issnInd : Z;
  has_doi : bool
}.

Definition with_entry (s : scan_state) (b : buffer) (len : Z) : scan_state :=
  {| curBibEntry := b; curBibInd := curBibInd s; curBibLength := len;
     bHasYear := bHasYear s; bHasISSN := bHasISSN s; issnInd := issnInd s;
     has_doi := has_doi s |}.

Definition with_ind (s : scan_state) (i : Z) : scan_state :=
  {| curBibEntry := curBibEntry s; curBibInd := i;
     curBibLength := curBibLength s;
     bHasYear := bHasYear s; bHasISSN := bHasISSN s; issnInd := issnInd s;
     has_doi := has_doi s |}.

Definition with_doi (s : scan_state) : scan_state :=
  {| curBibEntry := curBibEntry s; curBibInd := curBibInd s;
     curBibLength := curBibLength s;
     bHasYear := bHasYear s; bHasISSN := bHasISSN s; issnInd := issnInd s;
     has_doi := true |}.

Definition with_year (s : scan_state) : scan_state :=
  {| curBibEntry := curBibEntry s; curBibInd := curBibInd s;
     curBibLength := curBibLength s;
     bHasYear := true; bHasISSN := bHasISSN s; issnInd := issnInd s;
     has_doi := has_doi s |}.

Definition with_issn (s : scan_state) (i : Z) : scan_state :=
  {| curBibEntry := curBibEntry s; curBibInd := curBibInd s;
     curBibLength := curBibLength s;
     bHasYear := bHasYear s; bHasISSN := true; issnInd := i;
     has_doi := has_doi s |}.

(** ** The fixes of the scan, one per branch of its body *)

(** [month = {mmm}] (lines 306-312): the three bytes move one place left
    and the two bytes at offsets 12 and 13 are deleted. *)
Definition fix_month (s : scan_state) : option scan_state :=
  let i := curBibInd s in
  let b := curBibEntry s in
  c10 <- get b (ul (i + 10)) ;;
  b1 <- put b (ul (i + 9)) c10 ;;
  c11 <- get b1 (ul (i + 11)) ;;
  b2 <- put b1 (ul (i + 10)) c11 ;;
  c12 <- get b2 (ul (i + 12)) ;;
  b3 <- put b2 (ul (i + 11)) c12 ;;
  b4 <- memmove b3 (ul (i + 12)) (ul (i + 14))
          (ul (curBibLength s - i - 13)) ;;
  Some (with_entry s b4 (ul (curBibLength s - 2))).

(** [title = {{...}}] (lines 319-326): no test of the braces is made. *)
Definition fix_title (s : scan_state) : option scan_state :=
  let i := curBibInd s in
  let b := curBibEntry s in
  indEOL <- findEndOfLine b (ul (i + 1)) ;;
  b1 <- memmove b (ul (i + 10)) (ul (i + 11)) (ul (indEOL - i - 13)) ;;
  b2 <- memmove b1 (ul (indEOL - 3)) (ul (indEOL - 1))
          (ul (curBibLength s - indEOL + 2)) ;;
  Some (with_entry s b2 (ul (curBibLength s - 2))).

(** The erasure shared by the [annote], [abstract], [file] and [url]
    branches (lines 332-335, 345-348, 358-361): the bytes after [curBibInd]
    up to and including [indEOL] are deleted and the index steps back, so
    that the line that follows is examined next. *)
Definition erase_to (s : scan_state) (indEOL : Z) : option scan_state :=
  let i := curBibInd s in
  b1 <- memmove (curBibEntry s) (ul (i + 1)) (ul (indEOL + 1))
          (ul (curBibLength s - indEOL + 1)) ;;
  Some (with_ind
          (with_entry s b1 (ul (curBibLength s - ul (indEOL - i))))
          (ul (i - 1))).

Definition erase_field (s : scan_state) : option scan_state :=
  indEOL <- findEndOfField (curBibEntry s) (ul (curBibInd s + 1)) ;;
  erase_to s indEOL.

Definition erase_line (s : scan_state) : option scan_state :=
  indEOL <- findEndOfLine (curBibEntry s) (ul (curBibInd s + 1)) ;;
  erase_to s indEOL.

(** The two escaped braces (lines 380-382 and 388-391). *)
Definition fix_open_brace (s : scan_state) : option scan_state :=
  let i := curBibInd s in
  b1 <- memmove (curBibEntry s) (ul (i + 1)) (ul (i + 4))
          (ul (curBibLength s - i - 2)) ;;
  Some (with_entry s b1 (ul (curBibLength s - 3))).

Definition fix_close_brace (s : scan_state) : option scan_state :=
  let i := curBibInd s in
  b0 <- put (curBibEntry s) i "}"%char ;;
  b1 <- memmove b0 (ul (i + 1)) (ul (i + 4))
          (ul (curBibLength s - i - 2)) ;;
  Some (with_entry s b1 (ul (curBibLength s - 3))).

Section Scan.

Variable cfg : config.
Variable bUrlException : bool.

(** The test that guards the erasure of [annote] and [abstract]; [&&] and
    [||] evaluate their right operand only when the left one asks for it. *)
Definition note_line (b : buffer) (j : Z) : option bool :=
  m1 <- (if keep_annote cfg then Some false else strncmp0 b j kw_annote) ;;
  if m1 then Some true
  else if keep_abstract cfg then Some false else strncmp0 b j kw_abstract.

(** The test that guards the erasure of [url], on the value of [has_doi]. *)
Definition url_unwanted (d : bool) : bool :=
  negb bUrlException
  || (bUrlException && keep_url_only_if_no_doi cfg && d).

(** The body of the scanning loop (lines 295-392), without its final
    [curBibInd++]. *)
Definition scan_body (s : scan_state) : option scan_state :=
  let i := curBibInd s in
  let b := curBibEntry s in
  let j := ul (i + 1) in
  c <- get b i ;;
  if Ascii.eqb c LF then
    m <- strncmp0 b j kw_month ;;
    if m then
      c9 <- get b (ul (i + 9)) ;;
      if Ascii.eqb c9 "{" then
        c13 <- get b (ul (i + 13)) ;;
        if Ascii.eqb c13 "}" then fix_month s else Some s
      else Some s
    else
    m <- strncmp0 b j kw_title ;;
    if m then fix_title s else
    m <- note_line b j ;;
    if m then erase_field s else
    m <- strncmp0 b j kw_doi ;;
    if m then Some (with_doi s) else
    m <- strncmp0 b j kw_file ;;
    if m then erase_line s else
    m <- strncmp0 b j kw_url ;;
    if m then (if url_unwanted (has_doi s) then erase_line s else Some s) else
    m <- strncmp0 b j kw_year ;;
    if m then Some (with_year s) else
    m <- strncmp0 b j kw_issn ;;
    if m then Some (with_issn s j) else Some s
  else
    m <- strncmp0 b i esc_open ;;
    if m then fix_open_brace s else
    m <- strncmp0 b i esc_close ;;
    if m then fix_close_brace s else Some s.

(** [while(curBibEntry[curBibInd] != '\0') { body; curBibInd++; }] *)
Fixpoint scan_loop (fuel : nat) (s : scan_state) : option scan_state :=
  match fuel with
  | O => None
  | S f =>
      c <- get (curBibEntry s) (curBibInd s) ;;
      if Ascii.eqb c NUL then Some s
      else
        s' <- scan_body s ;;
        scan_loop f (with_ind s' (ul (curBibInd s' + 1)))
  end.

(** The renaming of [issn] to [year] after the scan (lines 397-404). *)
Definition backfill (s : scan_state) : option buffer :=
  if turn_issn_into_missing_year cfg && negb (bHasYear s) && bHasISSN s
  then
    b1 <- put (curBibEntry s) (issnInd s) "y"%char ;;
    b2 <- put b1 (ul (issnInd s + 1)) "e"%char ;;
    b3 <- put b2 (ul (issnInd s + 2)) "a"%char ;;
    put b3 (ul (issnInd s + 3)) "r"%char
  else Some (curBibEntry s).

End Scan.

(** The entry type (lines 270-276): the bytes after the [@] up to the first
    [{], at most [BIB_TYPE_MAX - 1] of them.  [bibType] receives them in
    order. *)
Fixpoint scan_type (fuel : nat) (b : buffer) (curBibInd : Z)
    (bibType : list ascii) : option (list ascii * Z) :=
  c <- get b curBibInd ;;
  if negb (Ascii.eqb c "{") && (curBibInd <? BIB_TYPE_MAX) then
    match fuel with
    | O => None
    | S f => scan_type f b (ul (curBibInd + 1)) (bibType ++ [c])
    end
  else Some (bibType, curBibInd).

(** The search of [URL_EXCEPTION_TYPES] (lines 278-285). *)
Definition url_exception (bibType : list ascii) : bool :=
  existsb (strcmp0 bibType) URL_EXCEPTION_TYPES.

(** ** The field rewriter *)

(** The state in which the scan starts; [issnInd] is not read before the
    scan has set it. *)
Definition scan_start (b : buffer) (len ind : Z) : scan_state :=
  {| curBibEntry := b; curBibInd := ind; curBibLength := len;
     bHasYear := false; bHasISSN := false; issnInd := 0;
     has_doi := false |}.

(** [bUrlException] as the scan uses it (line 287). *)
Definition exception_flag (cfg : config) (bibType : list ascii) : bool :=
  url_exception bibType || turn_every_entry_url_exception cfg.

(** What [main] does with one entry (lines 262-407).  [entry] holds the
    [curBibLength] bytes copied from the input; [curBibEntry] is the block
    [malloc] returned for them, [entry] followed by its terminator.  The
    erasing branches and the two brace fixes copy through index
    [curBibLength + 1], one byte beyond the terminator: on an entry that
    was not shortened before, that is the byte that follows the block in
    memory.  The model carries this byte as [pad].  The scan is given two
    rounds for every byte of the block.  The result is what [strcat]
    appends to the output, the C string left in the block.  There is no
    result where the scan reads or writes outside these bytes: the model
    carries no more of the memory, and it states nothing about what the
    program does from there on. *)
Definition fix_entry (cfg : config) (pad : ascii) (entry : list ascii)
  : option (list ascii) :=
  let b := entry ++ [NUL; pad] in
  r <- scan_type (Z.to_nat BIB_TYPE_MAX) b 1 [] ;;
  s <- scan_loop cfg (exception_flag cfg (fst r)) (S (2 * length b))
         (scan_start b (blen entry) (snd r)) ;;
  b' <- backfill cfg s ;;
  Some (cstr b').

(** ** The entry extractor

    [inp] holds the bytes that the loops of [main] read from
    [inputContent], from index 0 on.  The searches stop at the first NUL
    and read nothing behind it; [rdin] gives NUL for every index behind
    [inp].  [main] reads the bytes of the file into the block and does not
    set the byte behind them (lines 196-204): [inp] is the content of the
    file in a run in which that byte, as [malloc] left it, is NUL, or in
    which the file itself holds a NUL.  [main] below applies the extractor
    in such runs only. *)
Definition rdin (inp : list ascii) (i : Z) : ascii :=
  nth (Z.to_nat i) inp NUL.

(** The search for the next [@] (lines 219-225). *)
Fixpoint find_start (fuel : nat) (inp : list ascii) (curInputInd : Z) : Z :=
  match fuel with
  | O => curInputInd
  | S f =>
      if Ascii.eqb (rdin inp curInputInd) "@" then curInputInd
      else if Ascii.eqb (rdin inp curInputInd) NUL then curInputInd
      else find_start f inp (ul (curInputInd + 1))
  end.

(** The test that ends the search for the end of an entry
    (lines 235-239). *)
Definition at_entry_end (inp : list ascii) (i : Z) : bool :=
  (Ascii.eqb (rdin inp i) "}"
   && Ascii.eqb (rdin inp (ul (i - 1))) LF
   && (Ascii.eqb (rdin inp (ul (i + 1))) LF
       || Ascii.eqb (rdin inp (ul (i + 1))) NUL))
  || Ascii.eqb (rdin inp i) NUL.

(** The search for the end of the entry (lines 233-244). *)
Fixpoint find_end (fuel : nat) (inp : list ascii) (curInputInd : Z) : Z :=
  match fuel with
  | O => curInputInd
  | S f =>
      if at_entry_end inp curInputInd then curInputInd
      else find_end f inp (ul (curInputInd + 1))
  end.

(** The bytes [inp[anchor]], ..., [inp[anchor + len - 1]]
    (lines 258-261). *)
Definition copy_entry (inp : list ascii) (anchor len : Z) : list ascii :=
  map (fun k => rdin inp (ul (anchor + Z.of_nat k))) (seq 0 (Z.to_nat len)).

(** One round of the outer loop of [main] (lines 218-251) up to the copy of
    the entry: the anchor, the index of the closing brace (where the next
    round starts) and [curBibLength]; [None] when the loop is left. *)
Definition next_entry (inp : list ascii) (curInputInd : Z)
  : option (Z * Z * Z) :=
  let fuel := S (length inp) in
  let a := find_start fuel inp curInputInd in
  if Ascii.eqb (rdin inp a) NUL then None
  else
    let e := find_end fuel inp (ul (a + 1)) in
    if Ascii.eqb (rdin inp e) NUL then None
    else Some (a, e, ul (e - a + 2)).

(** The entries in the order in which [main] meets them. *)
Fixpoint entries_from (fuel : nat) (inp : list ascii) (curInputInd : Z)
  : list (Z * Z * Z) :=
  match fuel with
  | O => []
  | S f =>
      match next_entry inp curInputInd with
      | None => []
      | Some (a, e, len) => (a, e, len) :: entries_from f inp e
      end
  end.

Definition entries (inp : list ascii) : list (Z * Z * Z) :=
  entries_from (S (length inp)) inp 0.

(** The loop of [main] (lines 216-410): every entry is copied, fixed and
    appended. *)
Fixpoint main_loop (fuel : nat) (cfg : config) (pad : ascii)
    (inp : list ascii) (curInputInd : Z) (outputContent : list ascii)
  : option (list ascii) :=
  match fuel with
  | O => None
  | S f =>
      match next_entry inp curInputInd with
      | None => Some outputContent
      | Some (a, e, len) =>
          fixed <- fix_entry cfg pad (copy_entry inp a len) ;;
          main_loop f cfg pad inp e (outputContent ++ fixed)
      end
  end.

Definition mendeleyBibFix (cfg : config) (pad : ascii) (inp : list ascii)
  : option (list ascii) :=
  main_loop (S (length inp)) cfg pad inp 0 [].

(** * Definitions for the statements

    What follows belongs to the statements of the properties, not to the
    program. *)

(** [field_end] stands in [str] at index [k]. *)
Definition field_end_at (str : buffer) (k : Z) : Prop :=
  get str k = Some "}"%char
  /\ get str (k + 1) = Some ","%char
  /\ get str (k + 2) = Some LF.

(** ** Text that the scan leaves alone

    The tests of the scanning loop look forward only, so whether the scan
    edits at a byte is a property of the text from that byte on.  Below [l]
    is that text, terminator included. *)

Section Quiet.

Variable cfg : config.
Variable bUrlException : bool.

(** [strncmp(&l[j], kw, n)] is defined and not zero. *)
Definition absent (l : list ascii) (j : Z) (kw : list ascii) : bool :=
  match strncmp0 l j kw with Some false => true | _ => false end.

(** [l[j]] is inside [l] and differs from [c]. *)
Definition byte_isnt (l : list ascii) (j : Z) (c : ascii) : bool :=
  match get l j with Some x => negb (Ascii.eqb x c) | None => false end.

(** [l] starts with a newline and the line after it is not edited:
    it is no [month] line with braces at offsets 9 and 13, no [title] line,
    no [annote] or [abstract] line that is to go, no [file] line, and no
    [url] line that is to go when [has_doi] is [d]. *)
Definition quiet_line (d : bool) (l : list ascii) : bool :=
  (absent l 1 kw_month || byte_isnt l 9 "{" || byte_isnt l 13 "}")
  && absent l 1 kw_title
  && (keep_annote cfg || absent l 1 kw_annote)
  && (keep_abstract cfg || absent l 1 kw_abstract)
  && absent l 1 kw_file
  && (absent l 1 kw_url || negb (url_unwanted cfg bUrlException d)).

(** The first byte of [l] is not the terminator and the scan edits nothing
    when it stands there. *)
Definition quiet_here (d : bool) (l : list ascii) : bool :=
  match l with
  | [] => false
  | c :: _ =>
      negb (Ascii.eqb c NUL)
      && (if Ascii.eqb c LF then quiet_line d l
          else absent l 0 esc_open && absent l 0 esc_close)
  end.

(** [l] starts with a newline and a [doi] line. *)
Definition doi_here (l : list ascii) : bool :=
  match l with
  | [] => false
  | c :: _ =>
      Ascii.eqb c LF
      && match strncmp0 l 1 kw_doi with Some true => true | _ => false end
  end.

(** The scan edits nothing while it passes over the bytes of [seg], which
    are followed by [rest]; it enters with [has_doi = d] and the result is
    the value of [has_doi] behind [seg]. *)
Fixpoint untouched (d : bool) (seg rest : list ascii) : option bool :=
  match seg with
  | [] => Some d
  | c :: seg' =>
      if quiet_here d ((c :: seg') ++ rest)
      then untouched (d || doi_here ((c :: seg') ++ rest)) seg' rest
      else None
  end.

End Quiet.

(** [n] rounds of the loop lead from [s] to [s']. *)
Definition runs (cfg : config) (bUrlException : bool)
    (s s' : scan_state) (n : nat) : Prop :=
  forall (fuel : nat) (r : scan_state),
    scan_loop cfg bUrlException fuel s' = Some r ->
    scan_loop cfg bUrlException (n + fuel) s = Some r.

(** What a round of the loop needs of its state: a block well below the
    range of the indices, an index behind the [@], a length in range. *)
Definition round_pre (s : scan_state) : Prop :=
  2 * blen (curBibEntry s) + 32 < ULONG_MOD
  /\ 1 <= curBibInd s < blen (curBibEntry s)
  /\ 0 <= curBibLength s < ULONG_MOD.

(** What the body of the loop does to the state when it goes through: the
    block keeps its size, and either the index stays and the length does
    not grow, or the index steps back by one and the length, which was
    inside the block, shrinks. *)
Definition round_ok (s s' : scan_state) : Prop :=
  blen (curBibEntry s') = blen (curBibEntry s)
  /\ 0 <= curBibLength s' < ULONG_MOD
  /\ ((curBibInd s' = curBibInd s /\ curBibLength s' <= curBibLength s)
      \/ (ul (curBibInd s' + 1) = curBibInd s
          /\ curBibLength s' < curBibLength s
          /\ curBibLength s <= blen (curBibEntry s))).

(** An entry type that fits [bibType] and holds no brace and no NUL. *)
Definition tag_ok (tag : list ascii) : bool :=
  (blen tag <? BIB_TYPE_MAX)
  && forallb (fun c => negb (Ascii.eqb c "{") && negb (Ascii.eqb c NUL)) tag.

(** The text of an entry: [@], its type, [{] and what follows. *)
Definition entry_of (tag body : list ascii) : list ascii :=
  "@"%char :: tag ++ "{"%char :: body.

(** [p] is a prefix of [l]. *)
Fixpoint prefixb (p l : list ascii) : bool :=
  match p, l with
  | [], _ => true
  | c :: p', x :: l' => Ascii.eqb x c && prefixb p' l'
  | _ :: _, [] => false
  end.

(** [field_end] does not start at any byte of [F] when [F] is followed by
    [field_end]: the one after [F] is the first. *)
Fixpoint no_field_end (F : list ascii) : bool :=
  match F with
  | [] => true
  | c :: F' =>
      negb (prefixb field_end ((c :: F') ++ field_end)) && no_field_end F'
  end.

(** [l] holds no newline. *)
Definition one_line (l : list ascii) : bool :=
  forallb (fun c => negb (Ascii.eqb c LF)) l.

(** The end of an entry: a closing brace after a newline and before a
    newline or the end of the input. *)
Definition is_terminator (inp : list ascii) (t : Z) : Prop :=
  rdin inp t = "}"%char
  /\ rdin inp (t - 1) = LF
  /\ (rdin inp (t + 1) = LF \/ rdin inp (t + 1) = NUL).

(** [a] is the first [@] from [c] on, and the input does not end before. *)
Definition first_start (inp : list ascii) (c a : Z) : Prop :=
  c <= a /\ rdin inp a = "@"%char
  /\ forall k, c <= k < a -> rdin inp k <> "@"%char /\ rdin inp k <> NUL.

(** [t] is the first end of an entry behind [a], and the input does not end
    before. *)
Definition first_terminator (inp : list ascii) (a t : Z) : Prop :=
  a < t /\ is_terminator inp t
  /\ forall k, a < k < t -> ~ is_terminator inp k /\ rdin inp k <> NUL.

(** The input ends without an [@] from [c] on. *)
Definition ends_without_start (inp : list ascii) (c : Z) : Prop :=
  exists e,
    c <= e /\ rdin inp e = NUL
    /\ forall k, c <= k < e -> rdin inp k <> "@"%char /\ rdin inp k <> NUL.

(** The input ends behind [a] without an end of an entry. *)
Definition ends_without_terminator (inp : list ascii) (a : Z) : Prop :=
  exists e,
    a < e /\ rdin inp e = NUL
    /\ forall k, a < k < e -> ~ is_terminator inp k /\ rdin inp k <> NUL.

(** The records of the input from [c] on, in the words of the
    specification: each runs from the next [@] to the next end of an entry
    and the search goes on from there; what follows the last one holds no
    [@], or an [@] and no end of an entry. *)
Inductive records_from (inp : list ascii) : Z -> list (Z * Z * Z) -> Prop :=
| records_none (c : Z) :
    ends_without_start inp c -> records_from inp c []
| records_partial (c a : Z) :
    first_start inp c a -> ends_without_terminator inp a ->
    records_from inp c []
| records_next (c a t : Z) (l : list (Z * Z * Z)) :
    first_start inp c a -> first_terminator inp a t ->
    records_from inp t l ->
    records_from inp c ((a, t, t - a + 2) :: l).

(** The default configuration with the global override off. *)
Definition override_off : config := {|
  turn_issn_into_missing_year := false;
  turn_every_entry_url_exception := false;
  keep_url_only_if_no_doi := true;
  keep_annote := false;
  keep_abstract := false
|}.

(** The last lines of the entries below: a year and the closing brace. *)
Definition sample_tail : list ascii :=
  lit "year = {2010}" ++ [LF; "}"%char; LF].

(** [p] occurs in [l]. *)
Fixpoint occurs (p l : list ascii) : bool :=
  prefixb p l || match l with [] => false | _ :: l' => occurs p l' end.

Definition sample_url_body : list ascii :=
  lit "k," ++ LF :: kw_url ++ lit " {http://x}," ++ LF :: sample_tail.

Definition sample_url_entry : list ascii :=
  entry_of (lit "article") sample_url_body.

Definition sample_month_entry : list ascii :=
  entry_of (lit "article")
    (lit "k," ++ LF :: kw_month ++ lit " {{jan}}," ++ LF :: sample_tail).

Definition sample_title_entry : list ascii :=
  entry_of (lit "article")
    (lit "k," ++ LF :: kw_title ++ lit " {Some Title}," ++ LF :: sample_tail).

Definition sample_fixed_entry : list ascii :=
  entry_of (lit "book")
    (lit "b2," ++ LF :: kw_title ++ lit " {Collected Papers}," ++ LF
         :: sample_tail).

Definition sample_doi_body : list ascii :=
  lit "k3," ++ LF :: kw_doi ++ lit " {10.1000/182}," ++ LF :: sample_tail.


(** The text of a note with closing braces inside: one before a space, one
    before a comma, one at the end of a line. *)
Definition sample_note : list ascii :=
  lit " {a } b}, c" ++ LF :: lit "d }" ++ LF :: lit "e" ++ [LF].

(** An input with text before the first entry, two entries and the start
    of a third one. *)
Definition sample_input : list ascii :=
  lit "junk" ++ LF :: sample_url_entry ++ LF
    :: entry_of (lit "misc") sample_doi_body
    ++ lit "@partial{" ++ [LF; "}"%char; "x"%char].

Definition sample_field : buffer :=
  kw_annote ++ sample_note ++ field_end ++ lit "year" ++ [NUL].

(** The first NUL of [b] stands at index [p]: [p] is [strlen(b)]. *)
Definition nul_at (b : buffer) (p : Z) : Prop :=
  get b p = Some NUL /\ forall k, 0 <= k < p -> get b k <> Some NUL.

(** The byte of [b] at [k] is no NUL, no newline and no opening brace. *)
Definition plain_at (b : buffer) (k : Z) : Prop :=
  exists c, get b k = Some c /\ c <> NUL /\ c <> LF /\ c <> "{"%char.

(** What the scan keeps true of its state: the index is not behind the
    first NUL of the block, which stands at [p]; [curBibLength] is not
    beyond it, or one beyond it with a second NUL there (the last entry of
    an input that does not end in a newline); the four bytes at [issnInd]
    are behind the index and are text. *)
Definition scan_inv (s : scan_state) (p : Z) : Prop :=
  2 * blen (curBibEntry s) + 32 < ULONG_MOD
  /\ 1 <= curBibInd s <= p
  /\ 0 <= curBibLength s < ULONG_MOD
  /\ nul_at (curBibEntry s) p
  /\ (curBibLength s <= p
      \/ (p = curBibLength s - 1
          /\ get (curBibEntry s) (curBibLength s) = Some NUL))
  /\ (bHasISSN s = true ->
      0 <= issnInd s <= curBibInd s
      /\ forall k, issnInd s <= k <= issnInd s + 3 ->
                   plain_at (curBibEntry s) k).

(** [l] starts with a newline and a line that begins with [kw]. *)
Definition line_here (kw l : list ascii) : bool :=
  match l with
  | [] => false
  | c :: _ =>
      Ascii.eqb c LF
      && match strncmp0 l 1 kw with Some true => true | _ => false end
  end.

(** A line that begins with [kw] starts at a byte of [seg], which is
    followed by [rest]. *)
Fixpoint line_starts (kw seg rest : list ascii) : bool :=
  match seg with
  | [] => false
  | c :: seg' =>
      line_here kw ((c :: seg') ++ rest) || line_starts kw seg' rest
  end.

(** The index of the last [issn] line that starts in [seg], whose first
    byte has index [pos]; [cur] when there is none. *)
Fixpoint issn_pos (seg rest : list ascii) (pos cur : Z) : Z :=
  match seg with
  | [] => cur
  | c :: seg' =>
      issn_pos seg' rest (pos + 1)
        (if line_here kw_issn ((c :: seg') ++ rest) then pos + 1 else cur)
  end.

(** The fixed texts of the entries of [l], one after the other; no result
    when the rewriter has none for one of them. *)
Fixpoint fix_all (cfg : config) (pad : ascii) (inp : list ascii)
    (l : list (Z * Z * Z)) : option (list ascii) :=
  match l with
  | [] => Some []
  | (a, _, len) :: l' =>
      o <- fix_entry cfg pad (copy_entry inp a len) ;;
      r <- fix_all cfg pad inp l' ;;
      Some (o ++ r)
  end.

(** The lines that close an entry. *)
Definition closing : list ascii := [LF; "}"%char; LF].

(** The text of an entry of type [tag] whose body is [body]. *)
Definition record_text (tag body : list ascii) : list ascii :=
  entry_of tag (body ++ closing).

(** A record of a well-formed input with nothing to fix: the text before
    it holds no [@] and no NUL; the scan leaves the entry alone; the entry
    is not closed before its end. *)
Definition clean_record (cfg : config)
    (r : list ascii * list ascii * list ascii) : bool :=
  let '(junk, tag, body) := r in
  forallb (fun c => negb (Ascii.eqb c "@") && negb (Ascii.eqb c NUL)) junk
  && tag_ok tag
  && match untouched cfg (exception_flag cfg tag) false
             ("{"%char :: body ++ closing) [NUL] with
     | Some _ => true
     | None => false
     end
  && negb (occurs closing (removelast (record_text tag body))).

(** The input made of the records of [rs], each behind its leading text,
    and the entries alone. *)
Definition file_of (rs : list (list ascii * list ascii * list ascii))
  : list ascii :=
  concat (map (fun r => fst (fst r) ++ record_text (snd (fst r)) (snd r)) rs).

Definition records_of (rs : list (list ascii * list ascii * list ascii))
  : list ascii :=
  concat (map (fun r => record_text (snd (fst r)) (snd r)) rs).

(** The default configuration with the renaming of [issn] to [year] on. *)
Definition year_backfill_on : config := {|
  turn_issn_into_missing_year := true;
  turn_every_entry_url_exception := true;
  keep_url_only_if_no_doi := true;
  keep_annote := false;
  keep_abstract := false
|}.

(** Two records with nothing to fix, with text before them. *)
Definition sample_records : list (list ascii * list ascii * list ascii) :=
  [(lit "% exported" ++ [LF], lit "article",
    lit "k1," ++ LF :: lit "year = {2010}");
   ([LF; LF], lit "misc", lit "k2," ++ LF :: kw_doi ++ lit " {10.1000/182}")].

(** * The program in its surroundings

    [main] (lines 100-434) with what it takes from outside: its arguments,
    the files, and the heap.  A [world] fixes what the calls of the C
    library answer: what a file holds, whether a file can be created,
    whether the [k]-th call of [malloc] returns a block, what bytes that
    block holds when it is returned, and what byte lies behind it. *)

Record world := {
  file_content : list ascii -> option (list ascii);
  can_create : list ascii -> bool;
  malloc_ok : nat -> bool;
  fresh : nat -> nat -> ascii;
  beyond : nat -> ascii
}.

(** [malloc(size)] as the [k]-th call: [None] is the null pointer. *)
Definition malloc (w : world) (k : nat) (size : Z) : option buffer :=
  if malloc_ok w k then Some (map (fresh w k) (seq 0 (Z.to_nat size)))
  else None.

(** The messages on [stderr] that precede [exit(EXIT_FAILURE)]
    (lines 441, 186, 201, 255, 418). *)
Inductive failure :=
| No_memory_for_string
| Input_not_found (inputName : list ascii)
| No_memory_for_contents
| No_memory_for_entry (numEntry : Z)
| Cannot_create_output (outputName : list ascii).

(** The ways in which the program leaves what C defines. *)
Inductive fault :=
| String_unterminated
| String_overrun
| Entry_fault
| Output_overrun
| Free_of_unset_pointer.

(** How a run ends: [return 0] after the message with the number of
    entries, [exit(EXIT_FAILURE)], or a fault. *)
Inductive status :=
| Returned (numEntry : Z)
| Exited (f : failure)
| Undefined (u : fault).

(** A call that returns, or ends the run. *)
Inductive step (A : Type) :=
| Ok (a : A)
| Stop (s : status).

Arguments Ok {A} a.
Arguments Stop {A} s.

(** [strlen(b)]: the index of the first NUL; no result when [b] holds
    none. *)
Fixpoint strlen (b : buffer) : option Z :=
  match b with
  | [] => None
  | c :: b' =>
      if Ascii.eqb c NUL then Some 0
      else n <- strlen b' ;; Some (1 + n)
  end.

(** [strcpy(dst, src)]: the bytes of [src] up to and with its first NUL
    replace the first bytes of [dst]; no result when [src] holds no NUL or
    [dst] is too short. *)
Fixpoint strcpy (dst src : buffer) : option buffer :=
  match src, dst with
  | c :: src', _ :: dst' =>
      if Ascii.eqb c NUL then Some (c :: dst')
      else d <- strcpy dst' src' ;; Some (c :: d)
  | _, _ => None
  end.

(** [stringAllocate] (lines 437-447) as the [k]-th call of [malloc]. *)
Definition stringAllocate (w : world) (k : nat) (stringLength : Z)
  : step buffer :=
  match malloc w k (stringLength + 1) with
  | Some string => Ok string
  | None => Stop (Exited No_memory_for_string)
  end.

(** [stringWrite] (lines 450-456). *)
Definition stringWrite (w : world) (k : nat) (src : buffer) : step buffer :=
  match strlen src with
  | None => Stop (Undefined String_unterminated)
  | Some n =>
      match stringAllocate w k n with
      | Ok string =>
          match strcpy string src with
          | Some string' => Ok string'
          | None => Stop (Undefined String_overrun)
          end
      | Stop s => Stop s
      end
  end.

Definition INPUT_DEFAULT : buffer := lit "library.bib" ++ [NUL].
Definition OUTPUT_DEFAULT : buffer := lit "library_fixed.bib" ++ [NUL].

(** How the loop of [main] is left: through its [break]s, with the output
    string, [numEntry] and the number of blocks allocated so far, or by
    the end of the run. *)
Inductive loop_end :=
| Done (outputContent : list ascii) (numEntry : Z) (blocks : nat)
| Stopped (s : status).

(** The loop of [main] (lines 216-410) with the allocation of the block of
    every entry (lines 252-257), the bound of the block of the output, into
    which [strcat] writes the fixed entry and a NUL (line 407), and the
    count of the entries (line 409).  The block of the output has as many
    bytes as [inp] and one more. *)
Fixpoint main_run (fuel : nat) (w : world) (cfg : config) (inp : list ascii)
    (curInputInd : Z) (outputContent : list ascii) (numEntry : Z)
    (blocks : nat) : option loop_end :=
  match fuel with
  | O => None
  | S f =>
      match next_entry inp curInputInd with
      | None => Some (Done outputContent numEntry blocks)
      | Some (a, e, len) =>
          if malloc_ok w blocks then
            match fix_entry cfg (beyond w blocks) (copy_entry inp a len) with
            | None => Some (Stopped (Undefined Entry_fault))
            | Some fixed =>
                if blen outputContent + blen fixed <=? blen inp then
                  main_run f w cfg inp e (outputContent ++ fixed)
                    (ul (numEntry + 1)) (S blocks)
                else Some (Stopped (Undefined Output_overrun))
            end
          else Some (Stopped (Exited (No_memory_for_entry numEntry)))
      end
  end.

(** What a run leaves: the file it wrote, by name and content, if it wrote
    one, and how it ended. *)
Record run := {
  written : option (list ascii * list ascii);
  ending : status
}.

Definition ends (s : status) : run := {| written := None; ending := s |}.

(** A run that ends before the output file is opened: after
    [exit(EXIT_FAILURE)] no file is written; after a step that C leaves
    undefined the program goes on in a way that the source does not tell,
    and the model states nothing about the run. *)
Definition stops (s : status) : option run :=
  match s with
  | Exited _ => Some (ends s)
  | Returned _ | Undefined _ => None
  end.

(** [b] holds a NUL. *)
Definition terminated (b : buffer) : bool := existsb (Ascii.eqb NUL) b.

(** [main] (lines 100-434).  The blocks are numbered in the order of their
    allocation: the two names, the input, the output, then the entries.
    [fread] fills the block of the input up to its last byte, which stays
    as [malloc] left it; the searches of the loop stop at a NUL only, so
    they stay inside the block when it holds one, and then what they read
    is what [rdin] reads from the bytes of the file.  [curBibEntry] is set
    by the allocation of an entry only, and freed at the end, after the
    output file has been written and closed.  Where the block of the input
    holds no NUL, a name holds none, the rewriter leaves the block of an
    entry or [strcat] the block of the output, there is no result: see
    [stops].  The messages on [stdout] and the timing are left out, but
    for the number of entries in the last message. *)
Definition main (w : world) (argv : list buffer) : option run :=
  let argc := Z.of_nat (length argv) in
  match stringWrite w 0 (if 2 <? argc then nth 2 argv [] else INPUT_DEFAULT)
  with
  | Stop s => stops s
  | Ok inputName =>
  match stringWrite w 1 (if 1 <? argc then nth 1 argv [] else OUTPUT_DEFAULT)
  with
  | Stop s => stops s
  | Ok outputName =>
  match file_content w (cstr inputName) with
  | None => Some (ends (Exited (Input_not_found (cstr inputName))))
  | Some content =>
  let fileLength := blen content in
  match malloc w 2 (ul (fileLength + 1)), malloc w 3 (ul (fileLength + 1))
  with
  | Some inputBlock, Some _ =>
      let inputContent := content ++ skipn (length content) inputBlock in
      if terminated inputContent then
        match main_run (S (length content)) w default_config content 0 [] 0 4
        with
        | None => None
        | Some (Stopped s) => stops s
        | Some (Done outputContent numEntry blocks) =>
            if can_create w (cstr outputName) then
              Some {| written := Some (cstr outputName, outputContent);
                      ending := if (blocks =? 4)%nat
                                then Undefined Free_of_unset_pointer
                                else Returned numEntry |}
            else Some (ends (Exited (Cannot_create_output
                                       (cstr outputName))))
        end
      else None
  | _, _ => Some (ends (Exited No_memory_for_contents))
  end
  end
  end
  end.

(** The names of the files of a run: the second argument names the input,
    the first the output. *)
Definition input_name (argv : list buffer) : list ascii :=
  cstr (nth 2 argv INPUT_DEFAULT).

Definition output_name (argv : list buffer) : list ascii :=
  cstr (nth 1 argv OUTPUT_DEFAULT).

(** A world in which [name] holds [content], every file can be created,
    every allocation succeeds and the heap holds [junk] where [zeroed]
    does not say otherwise. *)
Definition sample_world (name content : list ascii) (junk : ascii)
    (zeroed : nat -> bool) : world := {|
  file_content := fun n => if list_eqb n name then Some content else None;
  can_create := fun _ => true;
  malloc_ok := fun _ => true;
  fresh := fun k _ => if zeroed k then NUL else junk;
  beyond := fun _ => junk
|}.

Definition sample_argv : list buffer :=
  [lit "mendeleyBibFix" ++ [NUL]; lit "out.bib" ++ [NUL];
   lit "in.bib" ++ [NUL]].

(** ** The rewriting of an entry, on its text

    What the scan does to an entry, told on the text alone: no block, no
    index, no move.  [text_fix] walks through the text as the scan does;
    where the scan would read behind the terminator, or finds no end of a
    line or of a field, it has no result. *)

(** The line at the head of [l] and the text behind its newline. *)
Fixpoint split_line (l : list ascii) : option (list ascii * list ascii) :=
  match l with
  | [] => None
  | c :: l' =>
      if Ascii.eqb c LF then Some ([], l')
      else p <- split_line l' ;; Some (c :: fst p, snd p)
  end.

(** The text behind the first [},] newline of [l]. *)
Fixpoint after_field (l : list ascii) : option (list ascii) :=
  match l with
  | [] => None
  | _ :: l' =>
      if prefixb field_end l then Some (skipn 3 l) else after_field l'
  end.

(** The value of a title line of five bytes or more without its third
    byte and the one before its last. *)
Definition title_value (v : list ascii) : list ascii :=
  firstn 2 v ++ firstn (length v - 5) (skipn 3 v) ++ skipn (length v - 1) v.

(** A month line with braces at offsets 9 and 13, without the two. *)
Definition month_fix (r : list ascii) : option (list ascii) :=
  if prefixb kw_month r then
    match skipn 7 r with
    | c8 :: c9 :: a :: b :: c :: c13 :: R =>
        if Ascii.eqb c9 "{" && Ascii.eqb c13 "}"
        then Some (kw_month ++ c8 :: a :: b :: c :: R)
        else None
    | _ => None
    end
  else None.

Section TextFix.

Variable cfg : config.
Variable bUrlException : bool.

(** An [annote] or [abstract] line that is to go. *)
Definition note_to_go (r : list ascii) : bool :=
  (negb (keep_annote cfg) && prefixb kw_annote r)
  || (negb (keep_abstract cfg) && prefixb kw_abstract r).

(** The text that the scan makes of [rest] when it enters with
    [has_doi = d]. *)
Fixpoint text_fix (fuel : nat) (d : bool) (rest : list ascii)
  : option (list ascii) :=
  match fuel with
  | O => None
  | S f =>
      match rest with
      | [] => Some []
      | c :: r =>
          if quiet_here cfg bUrlException d (rest ++ [NUL]) then
            out <- text_fix f (d || doi_here (rest ++ [NUL])) r ;;
            Some (c :: out)
          else if Ascii.eqb c LF then
            match month_fix r with
            | Some r' => out <- text_fix f d r' ;; Some (LF :: out)
            | None =>
                if prefixb kw_title r then
                  p <- split_line (skipn 7 r) ;;
                  if 5 <=? blen (fst p) then
                    out <- text_fix f d
                             (kw_title ++ title_value (fst p)
                                ++ LF :: snd p) ;;
                    Some (LF :: out)
                  else None
                else if note_to_go r then
                  R <- after_field (tl r) ;; text_fix f d (LF :: R)
                else if prefixb kw_file r
                        || (prefixb kw_url r
                            && url_unwanted cfg bUrlException d) then
                  p <- split_line r ;; text_fix f d (LF :: snd p)
                else None
            end
          else if prefixb esc_open rest then
            out <- text_fix f d (skipn 4 rest) ;; Some ("{"%char :: out)
          else if prefixb esc_close rest then
            out <- text_fix f d (skipn 4 rest) ;; Some ("}"%char :: out)
          else None
      end
  end.

(** The scan stands at the head of [rest], behind [A], in a block of [N]
    bytes. *)
Definition at_text (s : scan_state) (A rest : list ascii) (d : bool)
    (N : Z) : Prop :=
  (exists junk, curBibEntry s = A ++ rest ++ NUL :: junk /\ 1 <= blen junk)
  /\ curBibInd s = blen A
  /\ curBibLength s = blen (A ++ rest)
  /\ has_doi s = d
  /\ blen (curBibEntry s) = N.

End TextFix.

(** An entry as Mendeley exports it, with an abstract, a file, a braced
    month, a double-braced title with an escaped brace in it, a doi and a
    url. *)
Definition sample_export_body : list ascii :=
  lit "Smith2010," ++ LF
  :: kw_abstract ++ lit " {We show" ++ LF :: lit "that x.}," ++ LF
  :: lit "author = {Smith, J.}," ++ LF
  :: kw_doi ++ lit " {10.1000/182}," ++ LF
  :: kw_file ++ lit " {:home/x.pdf:pdf}," ++ LF
  :: kw_month ++ lit " {jan}," ++ LF
  :: kw_title ++ lit " {{Sets " ++ esc_open ++ lit "a" ++ esc_close
       ++ lit "}}," ++ LF
  :: kw_url ++ lit " {http://x.org}," ++ LF
  :: lit "year = {2010}" ++ closing.

Definition sample_export_fixed : list ascii :=
  lit "Smith2010," ++ LF
  :: lit "author = {Smith, J.}," ++ LF
  :: kw_doi ++ lit " {10.1000/182}," ++ LF
  :: kw_month ++ lit " jan," ++ LF
  :: kw_title ++ lit " {Sets {a}}," ++ LF
  :: lit "year = {2010}" ++ closing.

Section TextWalk.

Variable cfg : config.
Variable bUrlException : bool.

(** One step of the walk of [text_fix] at the head of [rest]: the bytes
    put out, [has_doi], and the text still to walk. *)
Definition text_next (d : bool) (rest : list ascii)
  : option (list ascii * bool * list ascii) :=
  match rest with
  | [] => None
  | c :: r =>
      if quiet_here cfg bUrlException d (rest ++ [NUL]) then
        Some ([c], d || doi_here (rest ++ [NUL]), r)
      else if Ascii.eqb c LF then
        match month_fix r with
        | Some r' => Some ([LF], d, r')
        | None =>
            if prefixb kw_title r then
              p <- split_line (skipn 7 r) ;;
              if 5 <=? blen (fst p) then
                Some ([LF], d, kw_title ++ title_value (fst p) ++ LF :: snd p)
              else None
            else if note_to_go cfg r then
              R <- after_field (tl r) ;; Some ([], d, LF :: R)
            else if prefixb kw_file r
                    || (prefixb kw_url r
                        && url_unwanted cfg bUrlException d) then
              p <- split_line r ;; Some ([], d, LF :: snd p)
            else None
        end
      else if prefixb esc_open rest then
        Some (["{"%char], d, skipn 4 rest)
      else if prefixb esc_close rest then
        Some (["}"%char], d, skipn 4 rest)
      else None
  end.

(** The walk of [text_fix] from [rest] up to the point where the text
    still to walk is [stop]: what has been put out by then, and
    [has_doi] there.  No result when the walk does not come to [stop]. *)
Fixpoint text_upto (fuel : nat) (d : bool) (rest stop : list ascii)
  : option (list ascii * bool) :=
  if list_eqb rest stop then Some ([], d)
  else
    match fuel with
    | O => None
    | S f =>
        match text_next d rest with
        | Some (o, d', rest') =>
            p <- text_upto f d' rest' stop ;; Some (o ++ fst p, snd p)
        | None => None
        end
    end.

End TextWalk.

(** A key and a double-braced title line, as they stand at the head of an
    exported entry, and what the scan makes of them. *)
Definition sample_head : list ascii :=
  lit "k," ++ LF :: kw_title ++ lit " {{Some Title}},".

Definition sample_head_fixed : list ascii :=
  lit "k," ++ LF :: kw_title ++ lit " {Some Title},".

(** A file whose last byte is the closing brace of its only record. *)
Definition sample_last : list ascii := lit "@a{k," ++ [LF; "}"%char].

(** * Properties *)

(** ** Arithmetic and buffers *)

Lemma ul_small (z : Z) : 0 <= z < ULONG_MOD -> ul z = z.
Proof. intros H. unfold ul. apply Z.mod_small. exact H. Qed.

Lemma ULONG_MOD_val : ULONG_MOD = 18446744073709551616.
Proof. reflexivity. Qed.

Lemma blen_nonneg (l : list ascii) : 0 <= blen l.
Proof. unfold blen. lia. Qed.

Lemma blen_app (a b : list ascii) : blen (a ++ b) = blen a + blen b.
Proof. unfold blen. rewrite length_app. lia. Qed.

Lemma blen_cons (c : ascii) (l : list ascii) : blen (c :: l) = 1 + blen l.
Proof. unfold blen. simpl length. lia. Qed.

Lemma blen_nil : blen [] = 0.
Proof. reflexivity. Qed.

Ltac blen_norm :=
  repeat first [rewrite blen_app | rewrite blen_cons | rewrite blen_nil].

Ltac blen_norm_in H :=
  repeat first
    [rewrite blen_app in H | rewrite blen_cons in H | rewrite blen_nil in H].

(** The lengths of the literals. *)
Ltac blen_kw :=
  change (blen kw_month) with 7 in *;
  change (blen kw_title) with 7 in *;
  change (blen kw_annote) with 8 in *;
  change (blen kw_abstract) with 10 in *;
  change (blen kw_doi) with 5 in *;
  change (blen kw_url) with 5 in *;
  change (blen field_end) with 3 in *.

Lemma to_nat_blen (l : list ascii) : Z.to_nat (blen l) = length l.
Proof. unfold blen. lia. Qed.

Lemma get_Some_lt (l : list ascii) (j : Z) (c : ascii) :
  get l j = Some c -> 0 <= j < blen l.
Proof.
  unfold get, blen. destruct (Z.ltb_spec j 0); [discriminate|].
  intros H1. assert (Z.to_nat j < length l)%nat.
  { apply nth_error_Some. congruence. }
  lia.
Qed.

Lemma get_None_ge (l : list ascii) (j : Z) :
  0 <= j -> get l j = None -> blen l <= j.
Proof.
  unfold get, blen. destruct (Z.ltb_spec j 0); [lia|].
  intros _ H1. apply nth_error_None in H1. lia.
Qed.

Lemma get_ge_None (l : list ascii) (j : Z) : blen l <= j -> get l j = None.
Proof.
  unfold get, blen. intros H. destruct (Z.ltb_spec j 0); [reflexivity|].
  apply nth_error_None. lia.
Qed.

Lemma get_lt_Some (l : list ascii) (j : Z) :
  0 <= j < blen l -> exists c, get l j = Some c.
Proof.
  intros H. destruct (get l j) eqn:E; [eauto|].
  apply get_None_ge in E; lia.
Qed.

Lemma get_shift (A l : list ascii) (j : Z) :
  0 <= j -> get (A ++ l) (blen A + j) = get l j.
Proof.
  unfold get, blen. intros H.
  destruct (Z.ltb_spec (Z.of_nat (length A) + j) 0); [lia|].
  destruct (Z.ltb_spec j 0); [lia|].
  replace (Z.to_nat (Z.of_nat (length A) + j))
    with (length A + Z.to_nat j)%nat by lia.
  rewrite nth_error_app2 by lia. f_equal. lia.
Qed.

Lemma get_ext (l x : list ascii) (j : Z) (c : ascii) :
  get l j = Some c -> get (l ++ x) j = Some c.
Proof.
  intros H. pose proof (get_Some_lt _ _ _ H) as Hlt. revert H.
  unfold get, blen in *. destruct (j <? 0); [discriminate|].
  intros H. rewrite nth_error_app1 by lia. exact H.
Qed.

Lemma get_head (c : ascii) (l : list ascii) : get (c :: l) 0 = Some c.
Proof. reflexivity. Qed.

Lemma get_tail (c : ascii) (l : list ascii) (j : Z) :
  0 <= j -> get (c :: l) (1 + j) = get l j.
Proof.
  intros H. change (c :: l) with ([c] ++ l).
  change 1 with (blen [c]). apply get_shift. exact H.
Qed.

Lemma get_in (A l x : list ascii) (j : Z) (c : ascii) :
  get l j = Some c -> get (A ++ l ++ x) (blen A + j) = Some c.
Proof.
  intros H. pose proof (get_Some_lt _ _ _ H).
  rewrite get_shift by lia. apply get_ext. exact H.
Qed.

Lemma get_at (A l : list ascii) (c : ascii) :
  get (A ++ c :: l) (blen A) = Some c.
Proof.
  replace (blen A) with (blen A + 0) by lia.
  rewrite get_shift by lia. reflexivity.
Qed.

(** Two lists that differ in the nesting of their appends only. *)
Ltac list_eq :=
  repeat first
    [rewrite <- app_assoc | rewrite <- app_comm_cons | rewrite app_nil_l];
  reflexivity.

(** ** [strncmp] *)

Lemma strncmp0_shift (A l : list ascii) (kw : list ascii) :
  forall j, 0 <= j -> strncmp0 (A ++ l) (blen A + j) kw = strncmp0 l j kw.
Proof.
  induction kw as [|c kw IH]; intros j Hj; simpl; [reflexivity|].
  rewrite get_shift by lia. destruct (get l j) as [x|]; [|reflexivity].
  destruct (Ascii.eqb x c); [|reflexivity].
  replace (blen A + j + 1) with (blen A + (j + 1)) by lia.
  apply IH. lia.
Qed.

Lemma strncmp0_ext (l x : list ascii) (kw : list ascii) :
  forall j v, strncmp0 l j kw = Some v -> strncmp0 (l ++ x) j kw = Some v.
Proof.
  induction kw as [|c kw IH]; intros j v; simpl; [auto|].
  destruct (get l j) as [y|] eqn:E; [|discriminate].
  rewrite (get_ext _ x _ _ E).
  destruct (Ascii.eqb y c); [apply IH|auto].
Qed.

Lemma strncmp0_in (A l x : list ascii) (kw : list ascii) (j : Z) (v : bool) :
  0 <= j -> strncmp0 l j kw = Some v ->
  strncmp0 (A ++ l ++ x) (blen A + j) kw = Some v.
Proof.
  intros Hj H. rewrite strncmp0_shift by lia. apply strncmp0_ext. exact H.
Qed.

(** A comparison that starts inside a NUL-terminated text has a result: it
    stops at the terminator at the latest. *)
Lemma strncmp0_total (t : list ascii) (kw : list ascii) :
  ~ In NUL kw ->
  forall j, 0 <= j <= blen t -> exists v, strncmp0 (t ++ [NUL]) j kw = Some v.
Proof.
  induction kw as [|c kw IH]; intros Hn j Hj; simpl; [eauto|].
  destruct (get_lt_Some (t ++ [NUL]) j) as [x Hx].
  { rewrite blen_app, blen_cons, blen_nil. lia. }
  rewrite Hx. destruct (Ascii.eqb_spec x c) as [->|Hne]; [|eauto].
  apply IH; [intros Hin; apply Hn; right; exact Hin|].
  destruct (Z.eq_dec j (blen t)) as [->|Hneq]; [|lia].
  replace (blen t) with (blen t + 0) in Hx by lia.
  rewrite get_shift in Hx by lia. simpl in Hx. injection Hx as <-.
  exfalso. apply Hn. left. reflexivity.
Qed.

Lemma strncmp0_head_ne (l : list ascii) (j : Z) (x c : ascii)
    (kw : list ascii) :
  get l j = Some x -> x <> c -> strncmp0 l j (c :: kw) = Some false.
Proof.
  intros H Hne. simpl. rewrite H.
  destruct (Ascii.eqb_spec x c); [contradiction|reflexivity].
Qed.

(** The literal itself, found where it stands. *)
Lemma strncmp0_here (kw l : list ascii) :
  strncmp0 (kw ++ l) 0 kw = Some true.
Proof.
  assert (G : forall A, strncmp0 (A ++ kw ++ l) (blen A) kw = Some true).
  { induction kw as [|c kw IH]; intros A; simpl; [reflexivity|].
    replace (blen A) with (blen A + 0) at 1 by lia.
    rewrite get_shift by lia. simpl. rewrite Ascii.eqb_refl.
    specialize (IH (A ++ [c])). rewrite blen_app, blen_cons, blen_nil in IH.
    rewrite <- app_assoc in IH. simpl in IH.
    replace (blen A + 1) with (blen A + (1 + 0)) by lia. exact IH. }
  exact (G []).
Qed.

(** ** [memmove] *)

Lemma firstn_len_app (A l : list ascii) : firstn (length A) (A ++ l) = A.
Proof. induction A as [|a A IH]; simpl; [reflexivity|f_equal; exact IH]. Qed.

Lemma skipn_len_app (A l : list ascii) : skipn (length A) (A ++ l) = l.
Proof. induction A as [|a A IH]; simpl; [reflexivity|exact IH]. Qed.

Lemma skipn_add_app (A l : list ascii) (n : nat) :
  skipn (length A + n) (A ++ l) = skipn n l.
Proof. induction A as [|a A IH]; simpl; [reflexivity|exact IH]. Qed.

Lemma memmove_ok (b : buffer) (dst src n : Z) :
  0 <= dst -> 0 <= src -> 0 <= n -> src + n <= blen b -> dst + n <= blen b ->
  memmove b dst src n
  = Some (firstn (Z.to_nat dst) b
          ++ firstn (Z.to_nat n) (skipn (Z.to_nat src) b)
          ++ skipn (Z.to_nat (dst + n)) b).
Proof.
  intros. unfold memmove.
  replace ((0 <=? dst) && (0 <=? src) && (0 <=? n)
           && (src + n <=? blen b) && (dst + n <=? blen b)) with true;
    [reflexivity|].
  symmetry. repeat (apply andb_true_intro; split); apply Z.leb_le; lia.
Qed.

(** Moving [B] over [X]: [X] is deleted, and what was behind the moved bytes
    stays where it was. *)
Lemma memmove_delete (A X B S : list ascii) :
  memmove (A ++ X ++ B ++ S) (blen A) (blen A + blen X) (blen B)
  = Some (A ++ B ++ skipn (length B) (X ++ B) ++ S).
Proof.
  rewrite memmove_ok;
    try (repeat rewrite blen_app;
         pose proof (blen_nonneg A); pose proof (blen_nonneg X);
         pose proof (blen_nonneg B); pose proof (blen_nonneg S); lia).
  f_equal.
  rewrite to_nat_blen, firstn_len_app. f_equal.
  replace (Z.to_nat (blen A + blen X)) with (length (A ++ X))
    by (rewrite length_app; unfold blen; lia).
  replace (A ++ X ++ B ++ S) with ((A ++ X) ++ B ++ S) at 1
    by (rewrite <- app_assoc; reflexivity).
  rewrite skipn_len_app, to_nat_blen, firstn_len_app. f_equal.
  replace (Z.to_nat (blen A + blen B)) with (length A + length B)%nat
    by (unfold blen; lia).
  rewrite skipn_add_app.
  replace (X ++ B ++ S) with ((X ++ B) ++ S)
    by (rewrite <- app_assoc; reflexivity).
  rewrite skipn_app.
  replace (length B - length (X ++ B))%nat with 0%nat
    by (rewrite length_app; lia).
  reflexivity.
Qed.

(** ** The end of a line *)

Lemma findEndOfLine_from_at (L : list ascii) :
  forall (A R : list ascii) (fuel : nat),
    ~ In LF L -> blen (A ++ L ++ LF :: R) < ULONG_MOD ->
    (length L < fuel)%nat ->
    findEndOfLine_from fuel (A ++ L ++ LF :: R) (blen A)
    = Some (blen A + blen L).
Proof.
  induction L as [|c L IH]; intros A R fuel Hn Hs Hf.
  - destruct fuel as [|f]; [simpl in Hf; lia|]. simpl.
    replace (blen A) with (blen A + 0) at 1 by lia.
    rewrite get_shift by lia. simpl. rewrite blen_nil. apply f_equal. lia.
  - destruct fuel as [|f]; [simpl in Hf; lia|].
    simpl findEndOfLine_from.
    replace (blen A) with (blen A + 0) at 1 by lia.
    rewrite get_shift by lia. simpl app. rewrite get_head.
    destruct (Ascii.eqb_spec c LF) as [->|Hne];
      [exfalso; apply Hn; left; reflexivity|].
    pose proof (blen_nonneg A). pose proof (blen_nonneg L).
    pose proof (blen_nonneg R).
    blen_norm_in Hs.
    rewrite ul_small by lia.
    specialize (IH (A ++ [c]) R f).
    replace (blen (A ++ [c])) with (blen A + 1) in IH
      by (rewrite blen_app, blen_cons, blen_nil; lia).
    rewrite <- app_assoc in IH. simpl in IH.
    rewrite IH.
    + rewrite blen_cons. apply f_equal. lia.
    + intros Hin. apply Hn. right. exact Hin.
    + blen_norm. lia.
    + simpl in Hf. lia.
Qed.

Lemma findEndOfLine_at (A L R : list ascii) :
  ~ In LF L -> blen (A ++ L ++ LF :: R) < ULONG_MOD ->
  findEndOfLine (A ++ L ++ LF :: R) (blen A) = Some (blen A + blen L).
Proof.
  intros Hn Hs. unfold findEndOfLine. apply findEndOfLine_from_at; auto.
  repeat rewrite length_app. simpl. lia.
Qed.

(** ** The end of a field *)

Lemma strncmp0_field_end (str : buffer) (k : Z) :
  0 <= k ->
  match strncmp0 str k field_end with
  | Some true => field_end_at str k
  | Some false => ~ field_end_at str k /\ k < blen str
  | None => ~ field_end_at str k /\ blen str <= k + 2
  end.
Proof.
  intros Hk. unfold field_end_at, field_end. simpl.
  destruct (get str k) as [x|] eqn:E0.
  2:{ apply get_None_ge in E0; [|lia]. split; [|lia].
      intros (H & _). discriminate. }
  pose proof (get_Some_lt _ _ _ E0) as L0.
  destruct (Ascii.eqb_spec x "}") as [->|N0].
  2:{ split; [|lia]. intros (H & _). congruence. }
  destruct (get str (k + 1)) as [y|] eqn:E1.
  2:{ apply get_None_ge in E1; [|lia]. split; [|lia].
      intros (_ & H & _). discriminate. }
  destruct (Ascii.eqb_spec y ",") as [->|N1].
  2:{ split; [|lia]. intros (_ & H & _). congruence. }
  replace (k + 1 + 1) with (k + 2) by lia.
  destruct (get str (k + 2)) as [z|] eqn:E2.
  2:{ apply get_None_ge in E2; [|lia]. split; [|lia].
      intros (_ & _ & H). discriminate. }
  destruct (Ascii.eqb_spec z LF) as [->|N2]; [auto|].
  split; [|lia]. intros (_ & _ & H). congruence.
Qed.

Lemma findEndOfField_from_spec (str : buffer) :
  blen str + 3 < ULONG_MOD ->
  forall (fuel : nat) (cur : Z),
    0 <= cur -> cur + 3 < ULONG_MOD -> blen str <= cur + Z.of_nat fuel ->
    match findEndOfField_from fuel str cur with
    | Some r =>
        cur + 1 <= r - 2 /\ field_end_at str (r - 2)
        /\ (forall k, cur + 1 <= k < r - 2 -> ~ field_end_at str k)
    | None => forall k, cur + 1 <= k -> ~ field_end_at str k
    end.
Proof.
  intros Hs. induction fuel as [|f IH]; intros cur H0 H1 Hf;
    cbn [findEndOfField_from].
  - intros k Hk (E & _). apply get_Some_lt in E. simpl in Hf. lia.
  - rewrite ul_small by lia.
    pose proof (strncmp0_field_end str (cur + 1)) as Hc.
    destruct (strncmp0 str (cur + 1) field_end) as [[|]|]; cbv beta iota.
    + rewrite ul_small by lia.
      replace (cur + 3 - 2) with (cur + 1) by lia.
      split; [lia|]. split; [apply Hc; lia|]. intros k Hk. lia.
    + destruct Hc as [Hn Hlt]; [lia|].
      specialize (IH (cur + 1)).
      destruct (findEndOfField_from f str (cur + 1)) as [r|].
      * destruct IH as (Ha & Hb & Hc); try lia.
        split; [lia|]. split; [exact Hb|].
        intros k Hk. destruct (Z.eq_dec k (cur + 1)) as [->|Hne];
          [exact Hn|apply Hc; lia].
      * intros k Hk. destruct (Z.eq_dec k (cur + 1)) as [->|Hne];
          [exact Hn|apply IH; lia].
    + destruct Hc as [Hn Hge]; [lia|].
      intros k Hk (_ & _ & E). apply get_Some_lt in E. lia.
Qed.

Lemma findEndOfField_spec (str : buffer) (startInd : Z) :
  0 <= startInd -> startInd + 3 < ULONG_MOD -> blen str + 3 < ULONG_MOD ->
  match findEndOfField str startInd with
  | Some r =>
      startInd + 1 <= r - 2 /\ field_end_at str (r - 2)
      /\ (forall k, startInd + 1 <= k < r - 2 -> ~ field_end_at str k)
  | None => forall k, startInd + 1 <= k -> ~ field_end_at str k
  end.
Proof.
  intros H0 H1 Hs. unfold findEndOfField.
  apply findEndOfField_from_spec; auto.
  unfold blen. lia.
Qed.

(** The first [field_end] decides the result. *)
Lemma findEndOfField_first (str : buffer) (startInd k : Z) :
  0 <= startInd -> blen str + 3 < ULONG_MOD ->
  startInd + 1 <= k -> field_end_at str k ->
  (forall k', startInd + 1 <= k' < k -> ~ field_end_at str k') ->
  findEndOfField str startInd = Some (k + 2).
Proof.
  intros H0 Hs Hk Hat Hfirst.
  assert (k + 2 < blen str) by (destruct Hat as (_ & _ & E);
                                 apply get_Some_lt in E; lia).
  pose proof (findEndOfField_spec str startInd H0) as Hsp.
  destruct (findEndOfField str startInd) as [r|].
  - destruct Hsp as (Ha & Hb & Hc); try lia.
    f_equal.
    destruct (Z.lt_trichotomy (r - 2) k) as [Hlt|[Heq|Hgt]].
    + exfalso. apply (Hfirst (r - 2)); [lia|exact Hb].
    + lia.
    + exfalso. apply (Hc k); [lia|exact Hat].
  - exfalso. apply (Hsp ltac:(lia) ltac:(lia) k Hk Hat).
Qed.

Lemma strncmp0_true_head (l : list ascii) (j : Z) (c : ascii)
    (kw : list ascii) :
  strncmp0 l j (c :: kw) = Some true -> get l j = Some c.
Proof.
  simpl. destruct (get l j) as [x|]; [|discriminate].
  destruct (Ascii.eqb_spec x c) as [->|]; [reflexivity|discriminate].
Qed.

Lemma strncmp0_other (l : list ascii) (j : Z) (x : ascii) (kw : list ascii) :
  get l j = Some x -> hd_error kw <> Some x -> kw <> [] ->
  strncmp0 l j kw = Some false.
Proof.
  intros H Hne Hnil. destruct kw as [|c kw]; [contradiction|].
  apply strncmp0_head_ne with (x := x); [exact H|].
  intros ->. apply Hne. reflexivity.
Qed.

Lemma absent_true (l : list ascii) (j : Z) (kw : list ascii) :
  absent l j kw = true -> strncmp0 l j kw = Some false.
Proof.
  unfold absent. destruct (strncmp0 l j kw) as [[|]|]; congruence.
Qed.

Lemma byte_isnt_true (l : list ascii) (j : Z) (c : ascii) :
  byte_isnt l j c = true ->
  exists x, get l j = Some x /\ Ascii.eqb x c = false.
Proof.
  unfold byte_isnt. destruct (get l j) as [x|]; [|discriminate].
  intros H. exists x. split; [reflexivity|].
  destruct (Ascii.eqb x c); [discriminate|reflexivity].
Qed.

Lemma kw_no_NUL :
  Forall (fun kw => ~ In NUL kw)
    [kw_month; kw_title; kw_annote; kw_abstract; kw_doi; kw_file; kw_url;
     kw_year; kw_issn; esc_open; esc_close].
Proof.
  repeat constructor; intros H; simpl in H;
    repeat (destruct H as [H|H]; [discriminate H|]); exact H.
Qed.

(** ** One round of the loop on text that is left alone *)

(** Rewrite with a fact after bringing its appends to the form of the
    goal. *)
Ltac rew_app H :=
  let G := fresh "G" in
  pose proof H as G; simpl app in G; rewrite G; clear G.

Section QuietScan.

Variable cfg : config.
Variable bUrlException : bool.

Lemma keyword_at (t x A : list ascii) (c : ascii) (kw : list ascii) :
  ~ In NUL kw ->
  exists v,
    strncmp0 ((c :: t) ++ [NUL]) 1 kw = Some v
    /\ strncmp0 (A ++ ((c :: t) ++ [NUL]) ++ x) (blen A + 1) kw = Some v.
Proof.
  intros Hn.
  destruct (strncmp0_total (c :: t) kw Hn 1) as [v Hv].
  { rewrite blen_cons. pose proof (blen_nonneg t). lia. }
  exists v. split; [exact Hv|]. apply strncmp0_in; [lia|exact Hv].
Qed.

Lemma scan_body_quiet (s : scan_state) (A t x : list ascii) :
  curBibEntry s = A ++ (t ++ [NUL]) ++ x ->
  curBibInd s = blen A ->
  blen (curBibEntry s) + 16 < ULONG_MOD ->
  quiet_here cfg bUrlException (has_doi s) (t ++ [NUL]) = true ->
  exists s',
    scan_body cfg bUrlException s = Some s'
    /\ curBibEntry s' = curBibEntry s
    /\ curBibInd s' = curBibInd s
    /\ curBibLength s' = curBibLength s
    /\ has_doi s' = has_doi s || doi_here (t ++ [NUL]).
Proof.
  destruct s as [b i len y isn ii d]. simpl. intros -> -> Hs Hq.
  destruct t as [|c t]; [discriminate Hq|].
  pose proof (blen_nonneg A) as HA. pose proof (blen_nonneg t) as Ht.
  pose proof (blen_nonneg x) as Hx.
  blen_norm_in Hs.
  simpl app in Hq. unfold quiet_here in Hq.
  apply andb_true_iff in Hq. destruct Hq as [Hnul Hq].
  unfold scan_body. cbn [curBibEntry curBibInd has_doi].
  replace (get (A ++ ((c :: t) ++ [NUL]) ++ x) (blen A)) with (Some c)
    by (symmetry; replace (blen A) with (blen A + 0) at 1 by lia;
        apply get_in; reflexivity).
  rewrite !ul_small by lia.
  pose proof kw_no_NUL as K.
  repeat match type of K with
         | Forall _ (_ :: _) =>
             let K1 := fresh "K" in
             let K2 := fresh "K" in
             inversion K as [|? ? K1 K2]; subst; clear K; rename K2 into K;
             apply (keyword_at t x A c) in K1
         end.
  clear K.
  destruct K0 as (vm & Lm & Bm), K1 as (vt & Lt & Bt),
           K2 as (va & La & Ba), K3 as (vb & Lb & Bb),
           K4 as (vd & Ld & Bd), K5 as (vf & Lf & Bf),
           K6 as (vu & Lu & Bu), K7 as (vy & Ly & By),
           K8 as (vi & Li & Bi).
  clear K9 K10.
  simpl app in *.
  destruct (Ascii.eqb c LF) eqn:Ec.
  - unfold quiet_line in Hq.
    apply andb_true_iff in Hq. destruct Hq as [Hq HU].
    apply andb_true_iff in Hq. destruct Hq as [Hq HF].
    apply andb_true_iff in Hq. destruct Hq as [Hq HB].
    apply andb_true_iff in Hq. destruct Hq as [Hq HN].
    apply andb_true_iff in Hq. destruct Hq as [Hq HT].
    rewrite Bm. unfold doi_here. rewrite Ec, Ld. cbn [andb].
    destruct vm.
    + (* a month line whose braces are not where expected *)
      assert (Hd : vd = false).
      { apply strncmp0_true_head in Lm.
        assert (E : strncmp0 (c :: t ++ [NUL]) 1 kw_doi = Some false).
        { apply strncmp0_other with (x := "m"%char);
            [exact Lm|discriminate|discriminate]. }
        congruence. }
      subst vd. rewrite orb_false_r.
      unfold absent in Hq. rewrite Lm in Hq. cbn [orb] in Hq.
      apply orb_true_iff in Hq. destruct Hq as [Hq|Hq];
        apply byte_isnt_true in Hq; destruct Hq as (z & Hz & Hne).
      * rew_app (get_in A _ x 9 z Hz). rewrite Hne.
        eexists; repeat split.
      * destruct (get_lt_Some (c :: t ++ [NUL]) 9) as [z9 Hz9].
        { apply get_Some_lt in Hz. lia. }
        rew_app (get_in A _ x 9 z9 Hz9). rew_app (get_in A _ x 13 z Hz).
        rewrite Hne.
        destruct (Ascii.eqb z9 "{"); eexists; repeat split.
    + apply absent_true in HT. rewrite Lt in HT. injection HT as ->.
      rewrite Bt. unfold note_line.
      assert (Hn1 : (if keep_annote cfg then Some false
                     else strncmp0 (A ++ c :: (t ++ [NUL]) ++ x)
                            (blen A + 1) kw_annote) = Some false).
      { destruct (keep_annote cfg); [reflexivity|].
        simpl in HN. apply absent_true in HN. rewrite La in HN.
        injection HN as ->. exact Ba. }
      rewrite Hn1.
      assert (Hn2 : (if keep_abstract cfg then Some false
                     else strncmp0 (A ++ c :: (t ++ [NUL]) ++ x)
                            (blen A + 1) kw_abstract) = Some false).
      { destruct (keep_abstract cfg); [reflexivity|].
        simpl in HB. apply absent_true in HB. rewrite Lb in HB.
        injection HB as ->. exact Bb. }
      rewrite Hn2. rewrite Bd.
      destruct vd;
        [eexists; repeat split; simpl; symmetry; apply orb_true_r|].
      rewrite orb_false_r.
      apply absent_true in HF. rewrite Lf in HF. injection HF as ->.
      rewrite Bf, Bu.
      assert (Hu : (if vu then negb (url_unwanted cfg bUrlException d)
                    else true) = true).
      { destruct vu; [|reflexivity].
        unfold absent in HU. rewrite Lu in HU. exact HU. }
      destruct vu.
      * apply negb_true_iff in Hu. rewrite Hu. eexists; repeat split.
      * rewrite By. destruct vy; [eexists; repeat split|].
        rewrite Bi. destruct vi; eexists; repeat split.
  - apply andb_true_iff in Hq. destruct Hq as [H1 H2].
    apply absent_true in H1, H2.
    replace (blen A) with (blen A + 0) by lia.
    rew_app (strncmp0_in A _ x esc_open 0 false ltac:(lia) H1).
    rew_app (strncmp0_in A _ x esc_close 0 false ltac:(lia) H2).
    unfold doi_here. rewrite Ec. cbn [andb]. rewrite orb_false_r.
    eexists; repeat split.
Qed.

End QuietScan.

(** ** Runs of the scanning loop *)

Section Runs.

Variable cfg : config.
Variable bUrlException : bool.

Lemma runs_refl (s : scan_state) : runs cfg bUrlException s s 0.
Proof. intros fuel r H. exact H. Qed.

Lemma runs_trans (s1 s2 s3 : scan_state) (n m : nat) :
  runs cfg bUrlException s1 s2 n -> runs cfg bUrlException s2 s3 m -> runs cfg bUrlException s1 s3 (n + m).
Proof.
  intros H1 H2 fuel r H. rewrite <- Nat.add_assoc. apply H1, H2, H.
Qed.

Lemma runs_step (s s' : scan_state) (c : ascii) :
  get (curBibEntry s) (curBibInd s) = Some c ->
  Ascii.eqb c NUL = false ->
  scan_body cfg bUrlException s = Some s' ->
  runs cfg bUrlException s (with_ind s' (ul (curBibInd s' + 1))) 1.
Proof.
  intros Hg Hc Hb fuel r H. simpl. rewrite Hg, Hc, Hb. exact H.
Qed.

Lemma scan_loop_stop (s : scan_state) (fuel : nat) :
  get (curBibEntry s) (curBibInd s) = Some NUL ->
  scan_loop cfg bUrlException (S fuel) s = Some s.
Proof. intros H. simpl. rewrite H. reflexivity. Qed.

Lemma scan_loop_mono (f : nat) :
  forall (f' : nat) (s r : scan_state),
    scan_loop cfg bUrlException f s = Some r -> (f <= f')%nat ->
    scan_loop cfg bUrlException f' s = Some r.
Proof.
  induction f as [|f IH]; intros f' s r H Hle; [discriminate H|].
  destruct f' as [|f']; [lia|]. simpl in *.
  destruct (get (curBibEntry s) (curBibInd s)) as [c|]; [|discriminate].
  destruct (Ascii.eqb c NUL); [exact H|].
  destruct (scan_body cfg bUrlException s) as [s'|]; [|discriminate].
  apply IH; [exact H|lia].
Qed.

(** The loop passes over text that is left alone and changes nothing but
    the index and the flags. *)
Lemma runs_untouched (seg : list ascii) :
  forall (s : scan_state) (A t x : list ascii) (d' : bool),
    curBibEntry s = A ++ (seg ++ t ++ [NUL]) ++ x ->
    curBibInd s = blen A ->
    blen (curBibEntry s) + 16 < ULONG_MOD ->
    untouched cfg bUrlException (has_doi s) seg (t ++ [NUL]) = Some d' ->
    exists s',
      curBibEntry s' = curBibEntry s
      /\ curBibInd s' = blen A + blen seg
      /\ curBibLength s' = curBibLength s
      /\ has_doi s' = d'
      /\ runs cfg bUrlException s s' (length seg).
Proof.
  induction seg as [|c seg IH]; intros s A t x d' Hb Hi Hs Hu.
  - simpl in Hu. injection Hu as <-. exists s.
    rewrite blen_nil. repeat split; try lia. apply runs_refl.
  - cbn [untouched] in Hu.
    destruct (quiet_here cfg bUrlException (has_doi s)
                ((c :: seg) ++ t ++ [NUL])) eqn:Hq; [|discriminate].
    assert (Hb' : curBibEntry s = A ++ (((c :: seg) ++ t) ++ [NUL]) ++ x).
    { rewrite Hb. rewrite <- (app_assoc (c :: seg) t [NUL]). reflexivity. }
    assert (Hq' : quiet_here cfg bUrlException (has_doi s)
                    (((c :: seg) ++ t) ++ [NUL]) = true).
    { rewrite <- app_assoc. exact Hq. }
    destruct (scan_body_quiet cfg bUrlException s A _ x Hb' Hi Hs Hq')
      as (s1 & Hbody & E1 & E2 & E3 & E4).
    assert (Hc : Ascii.eqb c NUL = false).
    { simpl in Hq. apply andb_true_iff in Hq. destruct Hq as [Hq _].
      apply negb_true_iff in Hq. exact Hq. }
    assert (Hg : get (curBibEntry s) (curBibInd s) = Some c).
    { rewrite Hb, Hi. simpl app. apply get_at. }
    pose proof (runs_step s s1 c Hg Hc Hbody) as R1.
    pose proof (blen_nonneg A) as HA.
    assert (Hsm : blen A + 1 < ULONG_MOD).
    { rewrite Hb in Hs. blen_norm_in Hs.
      pose proof (blen_nonneg seg). pose proof (blen_nonneg t).
      pose proof (blen_nonneg x). lia. }
    destruct (IH (with_ind s1 (ul (curBibInd s1 + 1))) (A ++ [c]) t x d')
      as (s2 & F1 & F2 & F3 & F4 & R2).
    + simpl. rewrite E1, Hb. rewrite <- (app_assoc A [c]). reflexivity.
    + simpl. rewrite E2, Hi. rewrite ul_small by lia.
      blen_norm. lia.
    + simpl. rewrite E1. exact Hs.
    + simpl. rewrite E4. rewrite <- (app_assoc (c :: seg) t [NUL]).
      exact Hu.
    + exists s2. simpl in F1, F3. rewrite F1, F2, F3, E1, E3.
      blen_norm. repeat split; try lia; [exact F4|].
      change (length (c :: seg)) with (1 + length seg)%nat.
      eapply runs_trans; [exact R1|exact R2].
Qed.

End Runs.

(** ** The entry type *)

Lemma scan_type_from (todo : list ascii) :
  forall (done acc rest : list ascii) (fuel : nat),
    (length todo <= fuel)%nat ->
    blen done + blen todo < BIB_TYPE_MAX ->
    forallb (fun c => negb (Ascii.eqb c "{") && negb (Ascii.eqb c NUL)) todo
    = true ->
    scan_type fuel (("@"%char :: done) ++ todo ++ "{"%char :: rest)
      (1 + blen done) acc
    = Some (acc ++ todo, 1 + blen done + blen todo).
Proof.
  induction todo as [|c todo IH]; intros done acc rest fuel Hf Hl Hall.
  - assert (G : get (("@"%char :: done) ++ [] ++ "{"%char :: rest)
                  (1 + blen done) = Some "{"%char).
    { replace (1 + blen done) with (blen ("@"%char :: done))
        by (rewrite blen_cons; lia).
      apply get_at. }
    rewrite app_nil_r, blen_nil, Z.add_0_r.
    destruct fuel; cbn [scan_type]; rewrite G; reflexivity.
  - destruct fuel as [|fuel]; [simpl in Hf; lia|].
    simpl in Hall. apply andb_true_iff in Hall. destruct Hall as [Hc Hall].
    apply andb_true_iff in Hc. destruct Hc as [Hc _].
    pose proof (blen_nonneg done) as Hd. pose proof (blen_nonneg todo) as Ht.
    rewrite blen_cons in Hl.
    cbn [scan_type].
    replace (get (("@"%char :: done) ++ (c :: todo) ++ "{"%char :: rest)
               (1 + blen done)) with (Some c).
    2:{ symmetry.
        replace (1 + blen done) with (blen ("@"%char :: done) + 0)
          by (rewrite blen_cons; lia).
        rewrite get_shift by lia. reflexivity. }
    rewrite Hc. cbn [andb].
    replace (1 + blen done <? BIB_TYPE_MAX) with true
      by (symmetry; apply Z.ltb_lt; lia).
    unfold BIB_TYPE_MAX in Hl.
    rewrite ul_small by (rewrite ULONG_MOD_val; lia).
    specialize (IH (done ++ [c]) (acc ++ [c]) rest fuel).
    replace (blen (done ++ [c])) with (blen done + 1) in IH
      by (blen_norm; lia).
    replace (("@"%char :: done ++ [c]) ++ todo ++ "{"%char :: rest)
      with (("@"%char :: done) ++ (c :: todo) ++ "{"%char :: rest) in IH
      by (simpl; rewrite <- app_assoc; reflexivity).
    replace (1 + blen done + 1) with (1 + (blen done + 1)) by lia.
    rewrite IH.
    + rewrite <- app_assoc. rewrite blen_cons.
      apply f_equal. apply f_equal2; [reflexivity|lia].
    + simpl in Hf. lia.
    + unfold BIB_TYPE_MAX. lia.
    + exact Hall.
Qed.

Lemma scan_type_tag (tag rest : list ascii) :
  tag_ok tag = true ->
  scan_type (Z.to_nat BIB_TYPE_MAX) ("@"%char :: tag ++ "{"%char :: rest) 1 []
  = Some (tag, 1 + blen tag).
Proof.
  unfold tag_ok. intros H. apply andb_true_iff in H. destruct H as [Hl Hall].
  apply Z.ltb_lt in Hl.
  pose proof (scan_type_from tag [] [] rest (Z.to_nat BIB_TYPE_MAX)) as G.
  rewrite blen_nil in G. simpl app in G.
  replace (1 + 0) with 1 in G by lia. apply G.
  - unfold blen, BIB_TYPE_MAX in *. lia.
  - lia.
  - exact Hall.
Qed.

(** ** C strings *)

Lemma cstr_text (t x : list ascii) :
  ~ In NUL t -> cstr (t ++ NUL :: x) = t.
Proof.
  induction t as [|c t IH]; intros Hn; simpl; [reflexivity|].
  destruct (Ascii.eqb_spec c NUL) as [->|Hne];
    [exfalso; apply Hn; left; reflexivity|].
  f_equal. apply IH. intros Hin. apply Hn. right. exact Hin.
Qed.

Lemma untouched_no_NUL (cfg : config) (bUrl : bool) (seg : list ascii) :
  forall (d d' : bool) (rest : list ascii),
    untouched cfg bUrl d seg rest = Some d' -> ~ In NUL seg.
Proof.
  induction seg as [|c seg IH]; intros d d' rest H; [intros []|].
  cbn [untouched] in H.
  destruct (quiet_here cfg bUrl d ((c :: seg) ++ rest)) eqn:Hq;
    [|discriminate].
  simpl in Hq. apply andb_true_iff in Hq. destruct Hq as [Hq _].
  intros [->|Hin]; [discriminate Hq|].
  exact (IH _ _ _ H Hin).
Qed.

Lemma tag_ok_no_NUL (tag : list ascii) : tag_ok tag = true -> ~ In NUL tag.
Proof.
  unfold tag_ok. intros H. apply andb_true_iff in H. destruct H as [_ H].
  rewrite forallb_forall in H. intros Hin. specialize (H _ Hin).
  discriminate H.
Qed.

(** ** From a run of the loop to the result of the rewriter *)

Lemma fix_entry_scan (cfg : config) (pad : ascii) (tag body : list ascii)
    (sf : scan_state) (fuel : nat) :
  turn_issn_into_missing_year cfg = false ->
  tag_ok tag = true ->
  scan_loop cfg (exception_flag cfg tag) fuel
    (scan_start (entry_of tag body ++ [NUL; pad])
       (blen (entry_of tag body)) (1 + blen tag)) = Some sf ->
  (fuel <= S (length (entry_of tag body ++ [NUL; pad])))%nat ->
  fix_entry cfg pad (entry_of tag body) = Some (cstr (curBibEntry sf)).
Proof.
  intros Hy Ht Hrun Hf. unfold fix_entry.
  replace (entry_of tag body ++ [NUL; pad])
    with ("@"%char :: tag ++ "{"%char :: (body ++ [NUL; pad]))
    by (unfold entry_of; simpl; rewrite <- app_assoc; reflexivity).
  rewrite (scan_type_tag tag _ Ht). cbn [fst snd].
  replace ("@"%char :: tag ++ "{"%char :: (body ++ [NUL; pad]))
    with (entry_of tag body ++ [NUL; pad])
    by (unfold entry_of; simpl; rewrite <- app_assoc; reflexivity).
  rewrite (scan_loop_mono cfg _ fuel
             (S (2 * length (entry_of tag body ++ [NUL; pad]))) _ _ Hrun)
    by lia.
  unfold backfill. rewrite Hy. reflexivity.
Qed.

(** An entry that the scan leaves alone comes out as it went in. *)
Lemma fix_entry_untouched (cfg : config) (pad : ascii)
    (tag body : list ascii) (d' : bool) :
  turn_issn_into_missing_year cfg = false ->
  tag_ok tag = true ->
  untouched cfg (exception_flag cfg tag) false ("{"%char :: body) [NUL]
  = Some d' ->
  blen (entry_of tag body) + 18 < ULONG_MOD ->
  fix_entry cfg pad (entry_of tag body) = Some (entry_of tag body).
Proof.
  intros Hy Ht Hu Hs.
  set (s0 := scan_start (entry_of tag body ++ [NUL; pad])
               (blen (entry_of tag body)) (1 + blen tag)).
  assert (Hb : curBibEntry s0
               = ("@"%char :: tag) ++ (("{"%char :: body) ++ [] ++ [NUL])
                 ++ [pad]).
  { unfold s0, entry_of. simpl. rewrite <- !app_assoc. reflexivity. }
  destruct (runs_untouched cfg (exception_flag cfg tag) ("{"%char :: body)
              s0 ("@"%char :: tag) [] [pad] d')
    as (s1 & E1 & E2 & E3 & E4 & R).
  - exact Hb.
  - unfold s0. simpl. rewrite blen_cons. reflexivity.
  - unfold s0. cbn [scan_start curBibEntry]. blen_norm. blen_norm_in Hs.
    lia.
  - exact Hu.
  - assert (Hstop : scan_loop cfg (exception_flag cfg tag) 1 s1 = Some s1).
    { apply scan_loop_stop. rewrite E1, E2, Hb.
      replace (("@"%char :: tag) ++ (("{"%char :: body) ++ [] ++ [NUL])
               ++ [pad])
        with ((("@"%char :: tag) ++ "{"%char :: body) ++ NUL :: [pad])
        by (simpl; rewrite <- !app_assoc; reflexivity).
      rewrite <- blen_app. apply get_at. }
    apply R in Hstop.
    rewrite (fix_entry_scan cfg pad tag body s1 _ Hy Ht Hstop).
    + rewrite E1, Hb.
      replace (("@"%char :: tag) ++ (("{"%char :: body) ++ [] ++ [NUL])
               ++ [pad])
        with (entry_of tag body ++ NUL :: [pad])
        by (unfold entry_of; simpl; rewrite <- !app_assoc; reflexivity).
      rewrite cstr_text; [reflexivity|].
      unfold entry_of. intros [H|H]; [discriminate H|].
      apply in_app_or in H. destruct H as [H|H].
      * exact (tag_ok_no_NUL tag Ht H).
      * exact (untouched_no_NUL _ _ _ _ _ _ Hu H).
    + unfold entry_of. simpl. rewrite !length_app. simpl. lia.
Qed.

(** ** The erasing branches *)

Lemma put_at (P l : list ascii) (c c' : ascii) :
  put (P ++ c :: l) (blen P) c' = Some (P ++ c' :: l).
Proof.
  unfold put. pose proof (blen_nonneg P) as HP. pose proof (blen_nonneg l).
  replace ((0 <=? blen P) && (blen P <? blen (P ++ c :: l))) with true.
  2:{ symmetry. apply andb_true_intro. split;
        [apply Z.leb_le; lia|apply Z.ltb_lt; blen_norm; lia]. }
  rewrite to_nat_blen, firstn_len_app.
  replace (S (length P)) with (length P + 1)%nat by lia.
  rewrite skipn_add_app. reflexivity.
Qed.

Lemma blen_skipn (n : nat) (l : list ascii) :
  blen (skipn n l) = blen l - Z.min (Z.of_nat n) (blen l).
Proof. unfold blen. rewrite length_skipn. lia. Qed.

Lemma erase_to_spec (s : scan_state) (A X R junk : list ascii) (j0 : ascii) :
  curBibEntry s = A ++ LF :: X ++ R ++ NUL :: j0 :: junk ->
  curBibInd s = blen A ->
  1 <= blen A ->
  curBibLength s = blen (A ++ LF :: X ++ R) ->
  blen (curBibEntry s) + 16 < ULONG_MOD ->
  exists s' junk',
    erase_to s (blen A + blen X) = Some s'
    /\ curBibEntry s' = A ++ LF :: R ++ NUL :: j0 :: junk'
    /\ blen (curBibEntry s') = blen (curBibEntry s)
    /\ curBibInd s' = blen A - 1
    /\ curBibLength s' = blen (A ++ LF :: R)
    /\ has_doi s' = has_doi s.
Proof.
  destruct s as [b i len y isn ii d]. simpl. intros -> -> HA -> Hs.
  pose proof (blen_nonneg X) as HX. pose proof (blen_nonneg R) as HR.
  pose proof (blen_nonneg junk) as HJ.
  unfold erase_to. cbn [curBibEntry curBibInd curBibLength].
  assert (Hs' : blen A + blen X + blen R + blen junk + 19 < ULONG_MOD)
    by (blen_norm_in Hs; lia).
  replace (ul (blen A + 1)) with (blen (A ++ [LF]))
    by (rewrite ul_small; blen_norm; lia).
  replace (ul (blen A + blen X + 1)) with (blen (A ++ [LF]) + blen X)
    by (rewrite ul_small; blen_norm; lia).
  replace (ul (blen (A ++ LF :: X ++ R) - (blen A + blen X) + 1))
    with (blen (R ++ [NUL; j0]))
    by (rewrite ul_small; blen_norm; lia).
  replace (A ++ LF :: X ++ R ++ NUL :: j0 :: junk)
    with ((A ++ [LF]) ++ X ++ (R ++ [NUL; j0]) ++ junk)
    by (rewrite <- !app_assoc; reflexivity).
  rewrite memmove_delete.
  eexists. exists (skipn (length (R ++ [NUL; j0])) (X ++ R ++ [NUL; j0])
                   ++ junk).
  split; [reflexivity|]. cbn [with_ind with_entry curBibEntry curBibInd
                              curBibLength has_doi].
  split; [rewrite <- !app_assoc; reflexivity|].
  split.
  { blen_norm. rewrite blen_skipn. blen_norm. unfold blen.
    rewrite length_app. simpl length. lia. }
  split; [apply ul_small; lia|].
  split; [|reflexivity].
  replace (blen A + blen X - blen A) with (blen X) by lia.
  rewrite (ul_small (blen X)) by lia.
  rewrite ul_small; blen_norm; lia.
Qed.

Lemma erase_line_spec (s : scan_state) (A L R junk : list ascii)
    (j0 : ascii) :
  curBibEntry s = A ++ LF :: L ++ LF :: R ++ NUL :: j0 :: junk ->
  ~ In LF L ->
  curBibInd s = blen A ->
  1 <= blen A ->
  curBibLength s = blen (A ++ LF :: L ++ LF :: R) ->
  blen (curBibEntry s) + 16 < ULONG_MOD ->
  exists s' junk',
    erase_line s = Some s'
    /\ curBibEntry s' = A ++ LF :: R ++ NUL :: j0 :: junk'
    /\ blen (curBibEntry s') = blen (curBibEntry s)
    /\ curBibInd s' = blen A - 1
    /\ curBibLength s' = blen (A ++ LF :: R)
    /\ has_doi s' = has_doi s.
Proof.
  intros Hb Hn Hi HA Hl Hs. unfold erase_line.
  assert (E : findEndOfLine (curBibEntry s) (ul (curBibInd s + 1))
              = Some (blen A + blen (L ++ [LF]))).
  { rewrite Hb in Hs |- *. rewrite Hi.
    pose proof (blen_nonneg L). pose proof (blen_nonneg R).
    pose proof (blen_nonneg junk).
    rewrite ul_small by (blen_norm_in Hs; lia).
    replace (A ++ LF :: L ++ LF :: R ++ NUL :: j0 :: junk)
      with ((A ++ [LF]) ++ L ++ LF :: (R ++ NUL :: j0 :: junk))
      by (rewrite <- !app_assoc; reflexivity).
    replace (blen A + 1) with (blen (A ++ [LF])) by (blen_norm; lia).
    rewrite findEndOfLine_at; [apply f_equal; blen_norm; lia|exact Hn|].
    blen_norm. blen_norm_in Hs. lia. }
  rewrite E.
  apply (erase_to_spec s A (L ++ [LF]) R junk j0); auto.
  - rewrite Hb. rewrite <- !app_assoc. reflexivity.
  - rewrite Hl. rewrite <- !app_assoc. reflexivity.
Qed.

Lemma field_end_at_0 (l : list ascii) :
  field_end_at l 0 -> prefixb field_end l = true.
Proof.
  unfold field_end_at. intros (H0 & H1 & H2).
  destruct l as [|a [|b [|c l]]]; try discriminate.
  simpl in *. injection H0 as ->. injection H1 as ->. injection H2 as ->.
  reflexivity.
Qed.

Lemma prefixb_field_end_at (l R : list ascii) :
  prefixb field_end l = true -> field_end_at (l ++ R) 0.
Proof.
  destruct l as [|a [|b [|c l]]]; simpl; intros H;
    try discriminate H;
    try (rewrite ?andb_false_r in H; discriminate H).
  apply andb_true_iff in H. destruct H as [Ha H].
  apply andb_true_iff in H. destruct H as [Hb H].
  apply andb_true_iff in H. destruct H as [Hc _].
  apply Ascii.eqb_eq in Ha, Hb, Hc. subst.
  unfold field_end_at. repeat split.
Qed.

Lemma prefixb_field_end_app (l R : list ascii) :
  (3 <= length l)%nat ->
  prefixb field_end (l ++ R) = prefixb field_end l.
Proof.
  destruct l as [|a [|b [|c l]]]; simpl; try lia. intros _.
  rewrite !andb_true_r. reflexivity.
Qed.

Lemma field_end_at_shift (P l : list ascii) (j : Z) :
  0 <= j -> field_end_at (P ++ l) (blen P + j) <-> field_end_at l j.
Proof.
  intros Hj. unfold field_end_at.
  replace (blen P + j + 1) with (blen P + (j + 1)) by lia.
  replace (blen P + j + 2) with (blen P + (j + 2)) by lia.
  rewrite !get_shift by lia. reflexivity.
Qed.

Lemma no_field_end_spec (R : list ascii) (F : list ascii) :
  forall (P : list ascii) (j : Z),
    no_field_end F = true -> 0 <= j < blen F ->
    ~ field_end_at (P ++ F ++ field_end ++ R) (blen P + j).
Proof.
  induction F as [|c F IH]; intros P j Hno Hj.
  - rewrite blen_nil in Hj. lia.
  - cbn [no_field_end] in Hno. apply andb_true_iff in Hno.
    destruct Hno as [Hh Hno]. apply negb_true_iff in Hh.
    destruct (Z.eq_dec j 0) as [->|Hne].
    + intros Hat. apply field_end_at_shift in Hat; [|lia].
      apply field_end_at_0 in Hat.
      rewrite app_assoc in Hat. rewrite prefixb_field_end_app in Hat.
      * congruence.
      * rewrite length_app. simpl. lia.
    + rewrite blen_cons in Hj.
      specialize (IH (P ++ [c]) (j - 1) Hno ltac:(lia)).
      replace (blen (P ++ [c]) + (j - 1)) with (blen P + j) in IH
        by (blen_norm; lia).
      rewrite <- app_assoc in IH. exact IH.
Qed.


Lemma erase_field_spec (s : scan_state) (A F R junk : list ascii)
    (c j0 : ascii) :
  curBibEntry s
  = A ++ LF :: (c :: F ++ field_end) ++ R ++ NUL :: j0 :: junk ->
  no_field_end F = true ->
  curBibInd s = blen A ->
  1 <= blen A ->
  curBibLength s = blen (A ++ LF :: (c :: F ++ field_end) ++ R) ->
  blen (curBibEntry s) + 16 < ULONG_MOD ->
  exists s' junk',
    erase_field s = Some s'
    /\ curBibEntry s' = A ++ LF :: R ++ NUL :: j0 :: junk'
    /\ blen (curBibEntry s') = blen (curBibEntry s)
    /\ curBibInd s' = blen A - 1
    /\ curBibLength s' = blen (A ++ LF :: R)
    /\ has_doi s' = has_doi s.
Proof.
  intros Hb Hno Hi HA Hl Hs. unfold erase_field.
  assert (E : findEndOfField (curBibEntry s) (ul (curBibInd s + 1))
              = Some (blen A + blen (c :: F ++ field_end))).
  { rewrite Hi.
    pose proof (blen_nonneg F). pose proof (blen_nonneg R).
    pose proof (blen_nonneg junk).
    assert (Hs' : blen A + blen F + blen R + blen junk + 22 < ULONG_MOD).
    { rewrite Hb in Hs. blen_norm_in Hs. unfold field_end in Hs.
      blen_norm_in Hs. lia. }
    rewrite ul_small by lia.
    replace (blen A + blen (c :: F ++ field_end))
      with (blen (A ++ [LF; c]) + blen F + 2)
      by (unfold field_end; blen_norm; lia).
    assert (Hb' : curBibEntry s
                  = (A ++ [LF; c]) ++ F ++ field_end
                    ++ (R ++ NUL :: j0 :: junk)).
    { rewrite Hb. simpl. rewrite <- !app_assoc. reflexivity. }
    apply findEndOfField_first.
    - lia.
    - lia.
    - blen_norm. lia.
    - rewrite Hb'. rewrite app_assoc.
      rewrite <- blen_app. replace (blen (((A ++ [LF; c]) ++ F)))
        with (blen ((A ++ [LF; c]) ++ F) + 0) by lia.
      apply field_end_at_shift; [lia|].
      apply prefixb_field_end_at. reflexivity.
    - intros k Hk. rewrite Hb'.
      replace k with (blen (A ++ [LF; c]) + (k - blen (A ++ [LF; c])))
        by lia.
      apply no_field_end_spec; [exact Hno|].
      revert Hk. blen_norm. lia. }
  rewrite E.
  apply (erase_to_spec s A (c :: F ++ field_end) R junk j0); auto.
Qed.

(** ** The month and the title fix *)

Lemma get_at' (b P l : list ascii) (c : ascii) (i : Z) :
  b = P ++ c :: l -> i = blen P -> get b i = Some c.
Proof. intros -> ->. apply get_at. Qed.

Lemma put_at' (b P l : list ascii) (c c' : ascii) (i : Z) :
  b = P ++ c :: l -> i = blen P -> put b i c' = Some (P ++ c' :: l).
Proof. intros -> ->. apply put_at. Qed.

Lemma memmove_delete' (b P X B S : list ascii) (dst src n : Z) :
  b = P ++ X ++ B ++ S -> dst = blen P -> src = blen P + blen X ->
  n = blen B ->
  memmove b dst src n = Some (P ++ B ++ skipn (length B) (X ++ B) ++ S).
Proof. intros -> -> -> ->. apply memmove_delete. Qed.

Ltac reassoc :=
  repeat (simpl; rewrite <- app_assoc); try (simpl; reflexivity).

Lemma fix_month_spec (s : scan_state) (A R junk : list ascii)
    (c8 a b c : ascii) :
  curBibEntry s
  = A ++ LF :: kw_month
      ++ c8 :: "{"%char :: a :: b :: c :: "}"%char :: R ++ NUL :: junk ->
  curBibInd s = blen A ->
  curBibLength s = blen A + 14 + blen R ->
  blen A + blen R + blen junk + 16 < ULONG_MOD ->
  exists s' junk',
    fix_month s = Some s'
    /\ curBibEntry s'
       = A ++ LF :: kw_month ++ c8 :: a :: b :: c :: R ++ NUL :: junk'
    /\ blen (curBibEntry s') = blen (curBibEntry s)
    /\ curBibInd s' = blen A
    /\ curBibLength s' = blen A + 12 + blen R
    /\ has_doi s' = has_doi s.
Proof.
  destruct s as [buf i len y isn ii d].
  cbn [curBibEntry curBibInd curBibLength has_doi]. intros -> -> -> Hs.
  pose proof (blen_nonneg A) as HA. pose proof (blen_nonneg R) as HR.
  pose proof (blen_nonneg junk) as HJ.
  unfold fix_month. cbn [curBibEntry curBibInd curBibLength].
  rewrite !ul_small by lia.
  set (T := R ++ NUL :: junk).
  set (P := A ++ LF :: kw_month ++ [c8]).
  assert (HP : blen P = blen A + 9) by (unfold P; blen_norm; blen_kw; lia).
  rewrite (get_at' _ (P ++ ["{"%char]) (b :: c :: "}"%char :: T) a)
    by (unfold P; first [solve [reassoc] | blen_norm; blen_kw; lia]).
  rewrite (put_at' _ P (a :: b :: c :: "}"%char :: T) "{" a)
    by (unfold P; first [solve [reassoc] | blen_norm; blen_kw; lia]).
  rewrite (get_at' _ (P ++ [a; a]) (c :: "}"%char :: T) b)
    by (unfold P; first [solve [reassoc] | blen_norm; blen_kw; lia]).
  rewrite (put_at' _ (P ++ [a]) (b :: c :: "}"%char :: T) a b)
    by (unfold P; first [solve [reassoc] | blen_norm; blen_kw; lia]).
  rewrite (get_at' _ (P ++ [a; b; b]) ("}"%char :: T) c)
    by (unfold P; first [solve [reassoc] | blen_norm; blen_kw; lia]).
  rewrite (put_at' _ (P ++ [a; b]) (c :: "}"%char :: T) b c)
    by (unfold P; first [solve [reassoc] | blen_norm; blen_kw; lia]).
  rewrite (memmove_delete' _ (P ++ [a; b; c]) [c; "}"%char] (R ++ [NUL])
             junk)
    by (unfold P, T; first [solve [reassoc] | blen_norm; blen_kw; lia]).
  eexists.
  exists (skipn (length (R ++ [NUL])) ([c; "}"%char] ++ R ++ [NUL]) ++ junk).
  split; [reflexivity|].
  cbn [with_entry curBibEntry curBibInd curBibLength has_doi].
  split; [unfold P; reassoc|].
  split.
  { unfold P, T. blen_norm. rewrite blen_skipn. blen_norm. blen_kw.
    unfold blen. rewrite length_app. simpl length. lia. }
  split; [reflexivity|]. split; [lia|reflexivity].
Qed.

Lemma kw_title_no_LF : ~ In LF kw_title.
Proof.
  intros H. simpl in H.
  repeat (destruct H as [H|H]; [discriminate H|]). exact H.
Qed.

Lemma fix_title_spec (s : scan_state) (A M R junk : list ascii)
    (v0 v1 v2 w2 w3 : ascii) :
  curBibEntry s
  = A ++ LF :: kw_title
      ++ v0 :: v1 :: v2 :: M ++ w2 :: w3 :: LF :: R ++ NUL :: junk ->
  ~ In LF (v0 :: v1 :: v2 :: M ++ [w2; w3]) ->
  curBibInd s = blen A ->
  curBibLength s = blen A + 14 + blen M + blen R ->
  blen A + blen M + blen R + blen junk + 16 < ULONG_MOD ->
  exists s' junk',
    fix_title s = Some s'
    /\ curBibEntry s'
       = A ++ LF :: kw_title
           ++ v0 :: v1 :: M ++ w3 :: LF :: R ++ NUL :: junk'
    /\ blen (curBibEntry s') = blen (curBibEntry s)
    /\ curBibInd s' = blen A
    /\ curBibLength s' = blen A + 12 + blen M + blen R
    /\ has_doi s' = has_doi s.
Proof.
  destruct s as [buf i len y isn ii d].
  cbn [curBibEntry curBibInd curBibLength has_doi]. intros -> Hn -> -> Hs.
  pose proof (blen_nonneg A) as HA. pose proof (blen_nonneg R) as HR.
  pose proof (blen_nonneg M) as HM. pose proof (blen_nonneg junk) as HJ.
  unfold fix_title. cbn [curBibEntry curBibInd curBibLength].
  rewrite (ul_small (blen A + 1)) by lia.
  set (L := kw_title ++ v0 :: v1 :: v2 :: M ++ [w2; w3]).
  assert (HL : blen L = 12 + blen M)
    by (unfold L; blen_norm; blen_kw; lia).
  assert (E : findEndOfLine
                (A ++ LF :: kw_title
                   ++ v0 :: v1 :: v2 :: M
                   ++ w2 :: w3 :: LF :: R ++ NUL :: junk) (blen A + 1)
              = Some (blen A + 13 + blen M)).
  { replace (A ++ LF :: kw_title
               ++ v0 :: v1 :: v2 :: M
               ++ w2 :: w3 :: LF :: R ++ NUL :: junk)
      with ((A ++ [LF]) ++ L ++ LF :: (R ++ NUL :: junk))
      by (unfold L; reassoc).
    replace (blen A + 1) with (blen (A ++ [LF])) by (blen_norm; lia).
    rewrite findEndOfLine_at.
    - apply f_equal. blen_norm. lia.
    - unfold L. intros H. apply in_app_or in H. destruct H as [H|H];
        [exact (kw_title_no_LF H)|exact (Hn H)].
    - blen_norm. lia. }
  rewrite E. clear E.
  rewrite !ul_small by lia.
  set (P := A ++ LF :: kw_title ++ [v0; v1]).
  assert (HP : blen P = blen A + 10)
    by (unfold P; blen_norm; blen_kw; lia).
  set (Z1 := skipn (length M) ([v2] ++ M)).
  assert (HZ : blen Z1 = 1).
  { unfold Z1. rewrite blen_skipn. blen_norm. unfold blen. lia. }
  rewrite (memmove_delete' _ P [v2] M
             (w2 :: w3 :: LF :: R ++ NUL :: junk))
    by (unfold P; first [solve [reassoc] | blen_norm; blen_kw; lia]).
  fold Z1.
  rewrite (memmove_delete' _ (P ++ M) (Z1 ++ [w2])
             (w3 :: LF :: R ++ [NUL]) junk)
    by (first [solve [reassoc] | blen_norm; rewrite ?HP, ?HZ; lia]).
  eexists.
  exists (skipn (length (w3 :: LF :: R ++ [NUL]))
            ((Z1 ++ [w2]) ++ w3 :: LF :: R ++ [NUL]) ++ junk).
  split; [reflexivity|].
  cbn [with_entry curBibEntry curBibInd curBibLength has_doi].
  split; [unfold P; reassoc|].
  split.
  { blen_norm. rewrite blen_skipn. blen_norm. blen_kw.
    rewrite HP, HZ. unfold blen. simpl length. rewrite ?length_app.
    simpl length. lia. }
  split; [reflexivity|]. split; [lia|reflexivity].
Qed.

(** ** An entry with one line that is edited

    Before the line and after it the scan leaves the text alone; [old] is
    the text behind the newline at which the edit is made, [keep] what the
    edit leaves at that place and the scan does not visit again, [seg2] the
    text the scan goes on with. *)

Lemma entry_of_app (tag pre l : list ascii) :
  entry_of tag pre ++ l = entry_of tag (pre ++ l).
Proof. unfold entry_of. simpl. rewrite <- !app_assoc. reflexivity. Qed.

Lemma blen_entry_of (tag body : list ascii) :
  blen (entry_of tag body) = blen tag + blen body + 2.
Proof. unfold entry_of. blen_norm. lia. Qed.

Lemma fix_entry_edit (cfg : config) (pad : ascii)
    (tag pre old keep seg2 : list ascii) (d1 d1' d2 : bool) :
  turn_issn_into_missing_year cfg = false ->
  tag_ok tag = true ->
  untouched cfg (exception_flag cfg tag) false ("{"%char :: pre)
    ((LF :: old) ++ [NUL]) = Some d1 ->
  (forall s1,
      curBibEntry s1 = entry_of tag pre ++ LF :: old ++ [NUL; pad] ->
      curBibInd s1 = blen (entry_of tag pre) ->
      curBibLength s1 = blen (entry_of tag pre ++ LF :: old) ->
      has_doi s1 = d1 ->
      exists s2 junk,
        scan_body cfg (exception_flag cfg tag) s1 = Some s2
        /\ curBibEntry s2 = entry_of tag pre ++ keep ++ seg2 ++ NUL :: junk
        /\ blen (curBibEntry s2) = blen (curBibEntry s1)
        /\ curBibInd s2 + 1 = blen (entry_of tag pre ++ keep)
        /\ has_doi s2 = d1') ->
  ~ In NUL keep ->
  untouched cfg (exception_flag cfg tag) d1' seg2 [NUL] = Some d2 ->
  blen (entry_of tag pre ++ LF :: old) + 18 < ULONG_MOD ->
  fix_entry cfg pad (entry_of tag (pre ++ LF :: old))
  = Some (entry_of tag (pre ++ keep ++ seg2)).
Proof.
  intros Hy Ht U1 Hedit Hkeep U2 Hs.
  set (bU := exception_flag cfg tag) in *.
  set (entry := entry_of tag (pre ++ LF :: old)).
  set (s0 := scan_start (entry ++ [NUL; pad]) (blen entry) (1 + blen tag)).
  pose proof (blen_nonneg tag) as Htag. pose proof (blen_nonneg pre) as Hpre.
  pose proof (blen_nonneg old) as Hold.
  pose proof (blen_nonneg keep) as Hk. pose proof (blen_nonneg seg2) as Hg.
  assert (Hb0 : curBibEntry s0
                = ("@"%char :: tag)
                  ++ (("{"%char :: pre) ++ (LF :: old) ++ [NUL]) ++ [pad]).
  { unfold s0, entry, entry_of. cbn [scan_start curBibEntry]. list_eq. }
  assert (Hl0 : blen (curBibEntry s0) = blen tag + blen pre + blen old + 5).
  { rewrite Hb0. blen_norm. lia. }
  assert (Hs0 : blen tag + blen pre + blen old + 21 < ULONG_MOD).
  { revert Hs. rewrite blen_app, blen_entry_of. blen_norm. lia. }
  (* up to the line *)
  destruct (runs_untouched cfg bU ("{"%char :: pre) s0 ("@"%char :: tag)
              (LF :: old) [pad] d1 Hb0)
    as (s1 & E1 & E2 & E3 & E4 & R1).
  { unfold s0. simpl. rewrite blen_cons. reflexivity. }
  { rewrite Hl0. lia. }
  { exact U1. }
  (* the edit *)
  destruct (Hedit s1) as (s2 & junk & Hbody & F1 & F2 & F3 & F4).
  { rewrite E1. unfold s0, entry, entry_of. cbn [scan_start curBibEntry].
    list_eq. }
  { rewrite E2, blen_entry_of. blen_norm. lia. }
  { rewrite E3. unfold s0, entry. cbn [scan_start curBibLength].
    rewrite entry_of_app. reflexivity. }
  { exact E4. }
  assert (Hg1 : get (curBibEntry s1) (curBibInd s1) = Some LF).
  { rewrite E1, E2, Hb0.
    replace (("@"%char :: tag)
             ++ (("{"%char :: pre) ++ (LF :: old) ++ [NUL]) ++ [pad])
      with ((("@"%char :: tag) ++ "{"%char :: pre)
            ++ LF :: (old ++ [NUL] ++ [pad]))
      by list_eq.
    rewrite <- blen_app. apply get_at. }
  pose proof (runs_step cfg bU s1 s2 LF Hg1 eq_refl Hbody) as R2.
  (* behind the edit *)
  assert (Hl2 : blen (curBibEntry s2) = blen tag + blen pre + blen old + 5).
  { rewrite F2, E1. exact Hl0. }
  assert (Hsz : blen tag + blen pre + blen keep + blen seg2 + 3
                <= blen tag + blen pre + blen old + 5).
  { rewrite <- Hl2, F1, blen_app, blen_entry_of. blen_norm.
    pose proof (blen_nonneg junk). lia. }
  destruct (runs_untouched cfg bU seg2
              (with_ind s2 (ul (curBibInd s2 + 1)))
              (entry_of tag pre ++ keep) [] junk d2)
    as (s3 & G1 & G2 & G3 & G4 & R3).
  { cbn [with_ind curBibEntry]. rewrite F1. list_eq. }
  { cbn [with_ind curBibInd]. rewrite F3. apply ul_small.
    rewrite blen_app, blen_entry_of. lia. }
  { cbn [with_ind curBibEntry]. rewrite Hl2. lia. }
  { cbn [with_ind has_doi]. rewrite F4. exact U2. }
  cbn [with_ind curBibEntry] in G1.
  assert (Hstop : scan_loop cfg bU 1 s3 = Some s3).
  { apply scan_loop_stop. rewrite G1, G2, F1.
    replace (entry_of tag pre ++ keep ++ seg2 ++ NUL :: junk)
      with (((entry_of tag pre ++ keep) ++ seg2) ++ NUL :: junk)
      by list_eq.
    rewrite <- blen_app. apply get_at. }
  apply R3, R2, R1 in Hstop. unfold entry.
  rewrite (fix_entry_scan cfg pad tag (pre ++ LF :: old) s3 _ Hy Ht Hstop).
  - rewrite G1, F1.
    replace (entry_of tag pre ++ keep ++ seg2 ++ NUL :: junk)
      with (entry_of tag (pre ++ keep ++ seg2) ++ NUL :: junk)
      by (unfold entry_of; list_eq).
    rewrite cstr_text; [reflexivity|].
    unfold entry_of. intros [H|H]; [discriminate H|].
    apply in_app_or in H. destruct H as [H|H];
      [exact (tag_ok_no_NUL tag Ht H)|].
    change ("{"%char :: pre ++ keep ++ seg2)
      with (("{"%char :: pre) ++ keep ++ seg2) in H.
    apply in_app_or in H. destruct H as [H|H];
      [exact (untouched_no_NUL _ _ _ _ _ _ U1 H)|].
    apply in_app_or in H. destruct H as [H|H];
      [exact (Hkeep H)|exact (untouched_no_NUL _ _ _ _ _ _ U2 H)].
  - unfold blen in *. rewrite length_app. simpl length.
    unfold entry_of. simpl length. rewrite !length_app. simpl length.
    rewrite length_app. simpl length. lia.
Qed.

(** ** Which branch a line takes *)

Section Dispatch.

Variable cfg : config.
Variable bUrlException : bool.

(** The test of a line against a literal, decided on the text of the
    line. *)
Ltac line_test A l kw v :=
  let H := fresh "H" in
  assert (H : strncmp0 (A ++ LF :: l) (blen A + 1) kw = Some v)
    by (rewrite strncmp0_shift by lia; reflexivity);
  rewrite H; clear H.

Ltac enter_line s Hb Hi Hs :=
  unfold scan_body; rewrite Hb, Hi, get_at;
  change (Ascii.eqb LF LF) with true; cbv beta iota;
  rewrite !ul_small by lia.

Lemma scan_body_title (s : scan_state) (A l : list ascii) :
  curBibEntry s = A ++ LF :: kw_title ++ l ->
  curBibInd s = blen A ->
  blen A + 16 < ULONG_MOD ->
  scan_body cfg bUrlException s = fix_title s.
Proof.
  intros Hb Hi Hs. pose proof (blen_nonneg A).
  enter_line s Hb Hi Hs.
  line_test A (kw_title ++ l) kw_month false.
  line_test A (kw_title ++ l) kw_title true.
  reflexivity.
Qed.

Lemma scan_body_month (s : scan_state) (A R : list ascii)
    (c8 c9 a b c c13 : ascii) :
  curBibEntry s = A ++ LF :: kw_month ++ c8 :: c9 :: a :: b :: c :: c13 :: R ->
  curBibInd s = blen A ->
  blen A + 16 < ULONG_MOD ->
  scan_body cfg bUrlException s
  = if Ascii.eqb c9 "{" && Ascii.eqb c13 "}" then fix_month s else Some s.
Proof.
  intros Hb Hi Hs. pose proof (blen_nonneg A).
  enter_line s Hb Hi Hs.
  set (l := kw_month ++ c8 :: c9 :: a :: b :: c :: c13 :: R).
  line_test A l kw_month true.
  replace (get (A ++ LF :: l) (blen A + 9)) with (Some c9)
    by (rewrite get_shift by lia; reflexivity).
  replace (get (A ++ LF :: l) (blen A + 13)) with (Some c13)
    by (rewrite get_shift by lia; reflexivity).
  destruct (Ascii.eqb c9 "{"), (Ascii.eqb c13 "}"); reflexivity.
Qed.

Lemma scan_body_note (s : scan_state) (A kw l : list ascii) :
  (kw = kw_annote /\ keep_annote cfg = false)
  \/ (kw = kw_abstract /\ keep_abstract cfg = false) ->
  curBibEntry s = A ++ LF :: kw ++ l ->
  curBibInd s = blen A ->
  blen A + 16 < ULONG_MOD ->
  scan_body cfg bUrlException s = erase_field s.
Proof.
  intros Hkw Hb Hi Hs. pose proof (blen_nonneg A).
  enter_line s Hb Hi Hs. unfold note_line.
  destruct Hkw as [[-> Hk]|[-> Hk]].
  - line_test A (kw_annote ++ l) kw_month false.
    line_test A (kw_annote ++ l) kw_title false.
    rewrite Hk.
    line_test A (kw_annote ++ l) kw_annote true.
    reflexivity.
  - line_test A (kw_abstract ++ l) kw_month false.
    line_test A (kw_abstract ++ l) kw_title false.
    rewrite Hk.
    assert (E : (if keep_annote cfg then Some false
                 else strncmp0 (A ++ LF :: kw_abstract ++ l) (blen A + 1)
                        kw_annote) = Some false).
    { destruct (keep_annote cfg); [reflexivity|].
      rewrite strncmp0_shift by lia. reflexivity. }
    rewrite E.
    line_test A (kw_abstract ++ l) kw_abstract true.
    reflexivity.
Qed.

Lemma scan_body_url (s : scan_state) (A l : list ascii) :
  curBibEntry s = A ++ LF :: kw_url ++ l ->
  curBibInd s = blen A ->
  blen A + 16 < ULONG_MOD ->
  scan_body cfg bUrlException s
  = if url_unwanted cfg bUrlException (has_doi s) then erase_line s
    else Some s.
Proof.
  intros Hb Hi Hs. pose proof (blen_nonneg A).
  enter_line s Hb Hi Hs. unfold note_line.
  line_test A (kw_url ++ l) kw_month false.
  line_test A (kw_url ++ l) kw_title false.
  assert (E1 : (if keep_annote cfg then Some false
                else strncmp0 (A ++ LF :: kw_url ++ l) (blen A + 1)
                       kw_annote) = Some false).
  { destruct (keep_annote cfg); [reflexivity|].
    rewrite strncmp0_shift by lia. reflexivity. }
  rewrite E1.
  assert (E2 : (if keep_abstract cfg then Some false
                else strncmp0 (A ++ LF :: kw_url ++ l) (blen A + 1)
                       kw_abstract) = Some false).
  { destruct (keep_abstract cfg); [reflexivity|].
    rewrite strncmp0_shift by lia. reflexivity. }
  rewrite E2.
  line_test A (kw_url ++ l) kw_doi false.
  line_test A (kw_url ++ l) kw_file false.
  line_test A (kw_url ++ l) kw_url true.
  reflexivity.
Qed.

End Dispatch.

(** ** Lines and flags *)

Lemma one_line_spec (l : list ascii) : one_line l = true -> ~ In LF l.
Proof.
  unfold one_line. rewrite forallb_forall. intros H Hin.
  specialize (H _ Hin). discriminate H.
Qed.

(** ** The scan does not run out of rounds

    A round of the loop moves the index forward or, in an erasing branch,
    shortens the entry; as long as an edit goes through, [curBibLength]
    does not pass below zero.  So the number of rounds is bounded by the
    size of the block and the length of the entry, and the result of
    [scan_loop], a fault included, is the same for every larger fuel. *)

Ltac ul_lia :=
  unfold ul in *; change ULONG_MOD with 18446744073709551616 in *;
  Z.div_mod_to_equations; lia.

Lemma put_len (b b' : buffer) (i : Z) (c : ascii) :
  put b i c = Some b' -> blen b' = blen b.
Proof.
  unfold put. destruct ((0 <=? i) && (i <? blen b)) eqn:E; [|discriminate].
  apply andb_true_iff in E. destruct E as [E1 E2].
  apply Z.leb_le in E1. apply Z.ltb_lt in E2.
  intros H. injection H as <-. unfold blen in *.
  change (match b with [] => [] | _ :: l => skipn (Z.to_nat i) l end)
    with (skipn (S (Z.to_nat i)) b).
  rewrite length_app, length_firstn, length_cons, length_skipn. lia.
Qed.

Lemma memmove_inv (b b' : buffer) (dst src n : Z) :
  memmove b dst src n = Some b' ->
  0 <= dst /\ 0 <= src /\ 0 <= n /\ src + n <= blen b /\ dst + n <= blen b
  /\ blen b' = blen b.
Proof.
  unfold memmove.
  destruct ((0 <=? dst) && (0 <=? src) && (0 <=? n)
            && (src + n <=? blen b) && (dst + n <=? blen b)) eqn:E;
    [|discriminate].
  repeat (apply andb_true_iff in E; destruct E as [E ?]).
  repeat match goal with
         | H : (_ <=? _) = true |- _ => apply Z.leb_le in H
         end.
  intros G. injection G as <-. repeat split; try assumption.
  unfold blen in *. rewrite !length_app, !length_firstn, !length_skipn.
  lia.
Qed.

Lemma findEndOfLine_from_bounds (str : buffer) :
  blen str + 1 < ULONG_MOD ->
  forall (fuel : nat) (cur r : Z),
    0 <= cur -> findEndOfLine_from fuel str cur = Some r ->
    cur <= r < blen str.
Proof.
  intros Hs. induction fuel as [|f IH]; intros cur r H0 H; [discriminate H|].
  cbn [findEndOfLine_from] in H.
  destruct (get str cur) as [c|] eqn:E; [|discriminate].
  apply get_Some_lt in E.
  destruct (Ascii.eqb c LF).
  - injection H as <-. lia.
  - rewrite ul_small in H by lia. apply IH in H; lia.
Qed.

Section Rounds.

Variable cfg : config.
Variable bUrlException : bool.

Lemma round_keep (s : scan_state) :
  0 <= curBibLength s < ULONG_MOD -> round_ok s s.
Proof. intros H. split; [reflexivity|]. split; [exact H|]. left. lia. Qed.

Lemma fix_month_round (s s' : scan_state) :
  round_pre s -> fix_month s = Some s' -> round_ok s s'.
Proof.
  intros (Hb & Hi & Hl) H. unfold fix_month in H.
  destruct (get (curBibEntry s) (ul (curBibInd s + 10))) as [c10|];
    [|discriminate].
  destruct (put (curBibEntry s) (ul (curBibInd s + 9)) c10) as [b1|] eqn:P1;
    [|discriminate].
  destruct (get b1 (ul (curBibInd s + 11))) as [c11|]; [|discriminate].
  destruct (put b1 (ul (curBibInd s + 10)) c11) as [b2|] eqn:P2;
    [|discriminate].
  destruct (get b2 (ul (curBibInd s + 12))) as [c12|]; [|discriminate].
  destruct (put b2 (ul (curBibInd s + 11)) c12) as [b3|] eqn:P3;
    [|discriminate].
  destruct (memmove b3 (ul (curBibInd s + 12)) (ul (curBibInd s + 14))
              (ul (curBibLength s - curBibInd s - 13))) as [b4|] eqn:M;
    [|discriminate].
  injection H as <-.
  apply put_len in P1, P2, P3. apply memmove_inv in M.
  destruct M as (M1 & M2 & M3 & M4 & M5 & M6).
  unfold round_ok. cbn [with_entry curBibEntry curBibInd curBibLength].
  split; [congruence|].
  rewrite P3, P2, P1 in M4, M5.
  assert (curBibLength s - 2 >= 0 /\ ul (curBibLength s - 2)
                                     = curBibLength s - 2) by ul_lia.
  split; [lia|]. left. lia.
Qed.

Lemma fix_title_round (s s' : scan_state) :
  round_pre s -> fix_title s = Some s' -> round_ok s s'.
Proof.
  intros (Hb & Hi & Hl) H. unfold fix_title in H.
  destruct (findEndOfLine (curBibEntry s) (ul (curBibInd s + 1)))
    as [indEOL|] eqn:E; [|discriminate].
  apply findEndOfLine_from_bounds in E;
    [|change ULONG_MOD with 18446744073709551616 in *; lia|ul_lia].
  destruct (memmove (curBibEntry s) (ul (curBibInd s + 10))
              (ul (curBibInd s + 11)) (ul (indEOL - curBibInd s - 13)))
    as [b1|] eqn:M1; [|discriminate].
  destruct (memmove b1 (ul (indEOL - 3)) (ul (indEOL - 1))
              (ul (curBibLength s - indEOL + 2))) as [b2|] eqn:M2;
    [|discriminate].
  injection H as <-.
  apply memmove_inv in M1, M2.
  destruct M1 as (A1 & A2 & A3 & A4 & A5 & A6).
  destruct M2 as (B1 & B2 & B3 & B4 & B5 & B6).
  unfold round_ok. cbn [with_entry curBibEntry curBibInd curBibLength].
  split; [congruence|].
  rewrite A6 in B4, B5.
  assert (curBibLength s - 2 >= 0 /\ ul (curBibLength s - 2)
                                     = curBibLength s - 2) by ul_lia.
  split; [lia|]. left. lia.
Qed.

Lemma erase_to_round (s s' : scan_state) (indEOL : Z) :
  round_pre s -> curBibInd s + 1 <= indEOL < blen (curBibEntry s) ->
  erase_to s indEOL = Some s' -> round_ok s s'.
Proof.
  intros (Hb & Hi & Hl) He H. unfold erase_to in H.
  destruct (memmove (curBibEntry s) (ul (curBibInd s + 1)) (ul (indEOL + 1))
              (ul (curBibLength s - indEOL + 1))) as [b1|] eqn:M;
    [|discriminate].
  injection H as <-. apply memmove_inv in M.
  destruct M as (M1 & M2 & M3 & M4 & M5 & M6).
  unfold round_ok.
  cbn [with_ind with_entry curBibEntry curBibInd curBibLength].
  split; [exact M6|].
  assert (ul (curBibLength s - ul (indEOL - curBibInd s))
          = curBibLength s - (indEOL - curBibInd s)
          /\ curBibLength s - (indEOL - curBibInd s) >= 0
          /\ curBibLength s <= blen (curBibEntry s)
          /\ ul (ul (curBibInd s - 1) + 1) = curBibInd s) by ul_lia.
  split; [lia|]. right. lia.
Qed.

Lemma erase_line_round (s s' : scan_state) :
  round_pre s -> erase_line s = Some s' -> round_ok s s'.
Proof.
  intros Hp H. pose proof Hp as (Hb & Hi & Hl). unfold erase_line in H.
  destruct (findEndOfLine (curBibEntry s) (ul (curBibInd s + 1)))
    as [indEOL|] eqn:E; [|discriminate].
  apply findEndOfLine_from_bounds in E;
    [|change ULONG_MOD with 18446744073709551616 in *; lia|ul_lia].
  apply (erase_to_round s s' indEOL Hp); [|exact H]. ul_lia.
Qed.

Lemma erase_field_round (s s' : scan_state) :
  round_pre s -> erase_field s = Some s' -> round_ok s s'.
Proof.
  intros Hp H. pose proof Hp as (Hb & Hi & Hl). unfold erase_field in H.
  destruct (findEndOfField (curBibEntry s) (ul (curBibInd s + 1)))
    as [indEOL|] eqn:E; [|discriminate].
  assert (Hu : ul (curBibInd s + 1) = curBibInd s + 1) by ul_lia.
  rewrite Hu in E.
  pose proof (findEndOfField_spec (curBibEntry s) (curBibInd s + 1)) as Hsp.
  rewrite E in Hsp.
  destruct Hsp as (A & (_ & _ & B) & _);
    try (change ULONG_MOD with 18446744073709551616 in *; lia).
  apply get_Some_lt in B.
  apply (erase_to_round s s' indEOL Hp); [lia|exact H].
Qed.

Lemma fix_open_brace_round (s s' : scan_state) :
  round_pre s -> fix_open_brace s = Some s' -> round_ok s s'.
Proof.
  intros (Hb & Hi & Hl) H. unfold fix_open_brace in H.
  destruct (memmove (curBibEntry s) (ul (curBibInd s + 1))
              (ul (curBibInd s + 4)) (ul (curBibLength s - curBibInd s - 2)))
    as [b1|] eqn:M; [|discriminate].
  injection H as <-. apply memmove_inv in M.
  destruct M as (M1 & M2 & M3 & M4 & M5 & M6).
  unfold round_ok. cbn [with_entry curBibEntry curBibInd curBibLength].
  split; [exact M6|].
  assert (curBibLength s - 3 >= 0 /\ ul (curBibLength s - 3)
                                     = curBibLength s - 3) by ul_lia.
  split; [lia|]. left. lia.
Qed.

Lemma fix_close_brace_round (s s' : scan_state) :
  round_pre s -> fix_close_brace s = Some s' -> round_ok s s'.
Proof.
  intros (Hb & Hi & Hl) H. unfold fix_close_brace in H.
  destruct (put (curBibEntry s) (curBibInd s) "}") as [b0|] eqn:P;
    [|discriminate].
  destruct (memmove b0 (ul (curBibInd s + 1)) (ul (curBibInd s + 4))
              (ul (curBibLength s - curBibInd s - 2)))
    as [b1|] eqn:M; [|discriminate].
  injection H as <-. apply put_len in P. apply memmove_inv in M.
  destruct M as (M1 & M2 & M3 & M4 & M5 & M6).
  unfold round_ok. cbn [with_entry curBibEntry curBibInd curBibLength].
  split; [congruence|]. rewrite P in M4, M5.
  assert (curBibLength s - 3 >= 0 /\ ul (curBibLength s - 3)
                                     = curBibLength s - 3) by ul_lia.
  split; [lia|]. left. lia.
Qed.

Lemma scan_body_round (s s' : scan_state) :
  round_pre s -> scan_body cfg bUrlException s = Some s' -> round_ok s s'.
Proof.
  intros Hp H. pose proof Hp as (Hb & Hi & Hl).
  pose proof (round_keep s Hl) as Hk.
  unfold scan_body in H.
  repeat match type of H with
         | context [match ?x with _ => _ end] =>
             destruct x eqn:?; try discriminate H
         end;
    first
      [ injection H as <-; exact Hk
      | exact (fix_month_round s s' Hp H)
      | exact (fix_title_round s s' Hp H)
      | exact (erase_field_round s s' Hp H)
      | exact (erase_line_round s s' Hp H)
      | exact (fix_open_brace_round s s' Hp H)
      | exact (fix_close_brace_round s s' Hp H) ].
Qed.

(** The result of the loop does not depend on the fuel once the fuel is
    above the measure of the state. *)
Lemma scan_loop_fuel (m : nat) :
  forall (s : scan_state) (f1 f2 : nat),
    2 * blen (curBibEntry s) + 32 < ULONG_MOD ->
    1 <= curBibInd s ->
    0 <= curBibLength s < ULONG_MOD ->
    blen (curBibEntry s) - curBibInd s
    + Z.min (curBibLength s) (blen (curBibEntry s)) <= Z.of_nat m ->
    (m < f1)%nat -> (m < f2)%nat ->
    scan_loop cfg bUrlException f1 s = scan_loop cfg bUrlException f2 s.
Proof.
  induction m as [|m IH]; intros s f1 f2 Hb Hi Hl Hm H1 H2;
    (destruct f1 as [|f1]; [lia|]); (destruct f2 as [|f2]; [lia|]);
    cbn [scan_loop];
    destruct (get (curBibEntry s) (curBibInd s)) as [c|] eqn:G;
    try reflexivity;
    destruct (Ascii.eqb c NUL); try reflexivity;
    destruct (scan_body cfg bUrlException s) as [s'|] eqn:B;
    try reflexivity;
    apply get_Some_lt in G;
    (assert (Hp : round_pre s) by (repeat split; lia));
    destruct (scan_body_round s s' Hp B) as (R1 & R2 & R3).
  - exfalso. lia.
  - apply IH; cbn [with_ind curBibEntry curBibInd curBibLength];
      try rewrite R1; try lia.
    + destruct R3 as [(A & _)|(A & _)]; [rewrite A; ul_lia|lia].
    + destruct R3 as [(A & C)|(A & C & D)];
        [rewrite A; assert (ul (curBibInd s + 1) = curBibInd s + 1)
                      by ul_lia; lia
        |rewrite A; lia].
Qed.

End Rounds.

(** For the state in which the rewriter starts the scan, the fuel it is
    given is enough. *)
Lemma scan_loop_enough (cfg : config) (bU : bool) (b : buffer)
    (len ind : Z) (fuel : nat) :
  2 * blen b + 32 < ULONG_MOD ->
  1 <= ind -> 0 <= len <= blen b ->
  (S (2 * length b) <= fuel)%nat ->
  scan_loop cfg bU fuel (scan_start b len ind)
  = scan_loop cfg bU (S (2 * length b)) (scan_start b len ind).
Proof.
  intros Hb Hi Hl Hf.
  apply (scan_loop_fuel cfg bU (2 * length b));
    cbn [scan_start curBibEntry curBibInd curBibLength];
    try lia; unfold blen in *;
    change ULONG_MOD with 18446744073709551616 in *; lia.
Qed.



(** * The statements of the specification *)

(** The title fix in an entry that the scan leaves alone elsewhere: of a
    one-line [title] with at least five bytes behind [title =], the byte at
    offset 10 and the last byte but one are deleted, whatever they are. *)
Lemma title_line_run (cfg : config) (pad : ascii)
    (tag pre M post : list ascii) (v0 v1 v2 w2 w3 : ascii) (d1 d2 : bool) :
  turn_issn_into_missing_year cfg = false ->
  tag_ok tag = true ->
  one_line (v0 :: v1 :: v2 :: M ++ [w2; w3]) = true ->
  untouched cfg (exception_flag cfg tag) false ("{"%char :: pre)
    ((LF :: kw_title ++ v0 :: v1 :: v2 :: M ++ w2 :: w3 :: LF :: post)
       ++ [NUL]) = Some d1 ->
  untouched cfg (exception_flag cfg tag) d1
    (kw_title ++ v0 :: v1 :: M ++ w3 :: LF :: post) [NUL] = Some d2 ->
  blen (entry_of tag
          (pre ++ LF :: kw_title
               ++ v0 :: v1 :: v2 :: M ++ w2 :: w3 :: LF :: post))
  + 18 < ULONG_MOD ->
  fix_entry cfg pad
    (entry_of tag
       (pre ++ LF :: kw_title
            ++ v0 :: v1 :: v2 :: M ++ w2 :: w3 :: LF :: post))
  = Some (entry_of tag
            (pre ++ LF :: kw_title ++ v0 :: v1 :: M ++ w3 :: LF :: post)).
Proof.
  intros Hy Ht Hn U1 U2 Hs. apply one_line_spec in Hn.
  pose proof (blen_nonneg tag) as Htag. pose proof (blen_nonneg pre) as Hpre.
  pose proof (blen_nonneg M) as HM. pose proof (blen_nonneg post) as Hpost.
  assert (Hs' : blen tag + blen pre + blen M + blen post + 34 < ULONG_MOD).
  { revert Hs. rewrite blen_entry_of. blen_norm. blen_kw. lia. }
  change (pre ++ LF :: kw_title ++ v0 :: v1 :: M ++ w3 :: LF :: post)
    with (pre ++ [LF] ++ kw_title ++ v0 :: v1 :: M ++ w3 :: LF :: post).
  apply (fix_entry_edit cfg pad tag pre _ [LF] _ d1 d1 d2 Hy Ht U1).
  - intros s1 Hb Hi Hl Hd.
    assert (Hb' : curBibEntry s1
                  = entry_of tag pre ++ LF :: kw_title
                      ++ v0 :: v1 :: v2 :: M
                      ++ w2 :: w3 :: LF :: post ++ NUL :: [pad]).
    { rewrite Hb. list_eq. }
    rewrite (scan_body_title cfg _ s1 (entry_of tag pre) _ Hb' Hi)
      by (rewrite blen_entry_of; lia).
    destruct (fix_title_spec s1 (entry_of tag pre) M post [pad]
                v0 v1 v2 w2 w3 Hb')
      as (s2 & junk & E & F1 & F2 & F3 & F4 & F5).
    + exact Hn.
    + exact Hi.
    + rewrite Hl, blen_app, blen_entry_of. blen_norm. blen_kw. lia.
    + rewrite blen_entry_of. blen_norm. lia.
    + exists s2, junk. split; [exact E|].
      split; [rewrite F1; list_eq|].
      split; [exact F2|]. split; [rewrite F3; blen_norm; lia|].
      rewrite F5. exact Hd.
  - intros [H|[]]. discriminate H.
  - exact U2.
  - rewrite entry_of_app. exact Hs.
Qed.

(** C5: a one-line [title = {{T}},] loses one layer of braces and becomes
    [title = {T},]: two bytes fewer, and every byte outside the line as it
    was, when the scan meets nothing else to edit in the entry. *)
Theorem title_double_braces_removed (cfg : config) (pad : ascii)
    (tag pre T post : list ascii) (d1 d2 : bool) :
  turn_issn_into_missing_year cfg = false ->
  tag_ok tag = true ->
  one_line T = true ->
  untouched cfg (exception_flag cfg tag) false ("{"%char :: pre)
    ((LF :: kw_title ++ lit " {{" ++ T ++ lit "}}," ++ LF :: post) ++ [NUL])
  = Some d1 ->
  untouched cfg (exception_flag cfg tag) d1
    (kw_title ++ lit " {" ++ T ++ lit "}," ++ LF :: post) [NUL] = Some d2 ->
  blen (entry_of tag
          (pre ++ LF :: kw_title ++ lit " {{" ++ T ++ lit "}}," ++ LF :: post))
  + 18 < ULONG_MOD ->
  fix_entry cfg pad
    (entry_of tag
       (pre ++ LF :: kw_title ++ lit " {{" ++ T ++ lit "}}," ++ LF :: post))
  = Some (entry_of tag
            (pre ++ LF :: kw_title ++ lit " {" ++ T ++ lit "}," ++ LF :: post))
  /\ blen (entry_of tag
             (pre ++ LF :: kw_title ++ lit " {" ++ T ++ lit "}," ++ LF :: post))
     + 2
     = blen (entry_of tag
               (pre ++ LF :: kw_title ++ lit " {{" ++ T ++ lit "}},"
                    ++ LF :: post)).
Proof.
  intros Hy Ht Hn U1 U2 Hs.
  split; [|rewrite !blen_entry_of; blen_norm; blen_kw;
            change (blen (lit " {{")) with 3;
            change (blen (lit " {")) with 2;
            change (blen (lit "}},")) with 3;
            change (blen (lit "},")) with 2; lia].
  pose proof (title_line_run cfg pad tag pre (T ++ ["}"%char]) post
                " " "{" "{" "}" "," d1 d2 Hy Ht) as G.
  cbv [lit list_ascii_of_string] in *.
  rewrite <- !app_assoc in G. cbn [app] in *.
  apply G; try assumption.
  unfold one_line in *. cbn [forallb]. rewrite !forallb_app, Hn.
  reflexivity.
Qed.

(** C3, as the code has it: an entry with no [title] line, no escaped
    brace, no [month] line with braces at offsets 9 and 13 and no field
    that is to go comes out byte for byte as it went in. *)
Theorem clean_entry_unchanged (cfg : config) (pad : ascii)
    (tag body : list ascii) (d : bool) :
  turn_issn_into_missing_year cfg = false ->
  tag_ok tag = true ->
  untouched cfg (exception_flag cfg tag) false ("{"%char :: body) [NUL]
  = Some d ->
  blen (entry_of tag body) + 18 < ULONG_MOD ->
  fix_entry cfg pad (entry_of tag body) = Some (entry_of tag body).
Proof. exact (fix_entry_untouched cfg pad tag body d). Qed.

(** C4, as the code has it: on an entry with no [title] line and nothing
    else to fix, the rewriter is idempotent: it returns a result, and
    returns the same result when applied to it. *)
Theorem clean_entry_idempotent (cfg : config) (pad : ascii)
    (tag body : list ascii) (d : bool) :
  turn_issn_into_missing_year cfg = false ->
  tag_ok tag = true ->
  untouched cfg (exception_flag cfg tag) false ("{"%char :: body) [NUL]
  = Some d ->
  blen (entry_of tag body) + 18 < ULONG_MOD ->
  exists out,
    fix_entry cfg pad (entry_of tag body) = Some out
    /\ fix_entry cfg pad out = Some out.
Proof.
  intros Hy Ht U Hs. exists (entry_of tag body).
  split; exact (fix_entry_untouched cfg pad tag body d Hy Ht U Hs).
Qed.

(** ** The field-end locator *)

Lemma field_scan_unique (str : buffer) (cur : Z) (o1 o2 : option Z) :
  match o1 with
  | Some r =>
      cur + 1 <= r - 2 /\ field_end_at str (r - 2)
      /\ (forall k, cur + 1 <= k < r - 2 -> ~ field_end_at str k)
  | None => forall k, cur + 1 <= k -> ~ field_end_at str k
  end ->
  match o2 with
  | Some r =>
      cur + 1 <= r - 2 /\ field_end_at str (r - 2)
      /\ (forall k, cur + 1 <= k < r - 2 -> ~ field_end_at str k)
  | None => forall k, cur + 1 <= k -> ~ field_end_at str k
  end ->
  o1 = o2.
Proof.
  destruct o1 as [r1|], o2 as [r2|]; intros H1 H2.
  - destruct H1 as (A1 & B1 & C1), H2 as (A2 & B2 & C2). f_equal.
    destruct (Z.lt_trichotomy r1 r2) as [Hlt|[Heq|Hgt]]; [|exact Heq|].
    + exfalso. apply (C2 (r1 - 2)); [lia|exact B1].
    + exfalso. apply (C1 (r2 - 2)); [lia|exact B2].
  - destruct H1 as (A1 & B1 & _). exfalso. exact (H2 _ A1 B1).
  - destruct H2 as (A2 & B2 & _). exfalso. exact (H1 _ A2 B2).
  - reflexivity.
Qed.

(** C10: the locator has a result exactly when [},] and a newline stand
    somewhere in the buffer from one byte past the start of the field on;
    the result is then the index of that newline at the first such place.
    Without such a place the scan runs off the end of the buffer, whatever
    the number of rounds it is given. *)
Theorem findEndOfField_defined_iff (str : buffer) (startInd : Z) :
  0 <= startInd -> startInd + 3 < ULONG_MOD -> blen str + 3 < ULONG_MOD ->
  ((exists r, findEndOfField str startInd = Some r)
   <-> (exists k, startInd + 1 <= k /\ field_end_at str k))
  /\ (forall r, findEndOfField str startInd = Some r ->
        startInd + 1 <= r - 2 /\ field_end_at str (r - 2)
        /\ (forall k, startInd + 1 <= k < r - 2 -> ~ field_end_at str k))
  /\ (forall fuel, (length str < fuel)%nat ->
        findEndOfField_from fuel str startInd = findEndOfField str startInd).
Proof.
  intros H0 H1 Hs.
  pose proof (findEndOfField_spec str startInd H0 H1 Hs) as Hsp.
  split; [|split].
  - split.
    + intros (r & Hr). rewrite Hr in Hsp. destruct Hsp as (A & B & _).
      exists (r - 2). split; assumption.
    + intros (k & Hk & Hat).
      destruct (findEndOfField str startInd) as [r|]; [eauto|].
      exfalso. exact (Hsp k Hk Hat).
  - intros r Hr. rewrite Hr in Hsp. exact Hsp.
  - intros fuel Hf.
    apply (field_scan_unique str startInd); [|exact Hsp].
    apply findEndOfField_from_spec; auto. unfold blen. lia.
Qed.

(** ** The entry extractor *)

Lemma rdin_ge (inp : list ascii) (i : Z) : blen inp <= i -> rdin inp i = NUL.
Proof. intros H. unfold rdin. apply nth_overflow. unfold blen in H. lia. Qed.

Lemma rdin_lt (inp : list ascii) (i : Z) :
  0 <= i -> rdin inp i <> NUL -> i < blen inp.
Proof.
  intros H0 H. destruct (Z_lt_ge_dec i (blen inp)) as [Hlt|Hge]; [exact Hlt|].
  exfalso. apply H. apply rdin_ge. lia.
Qed.

Lemma find_start_spec (inp : list ascii) :
  blen inp + 2 < ULONG_MOD ->
  forall (fuel : nat) (c : Z),
    0 <= c -> blen inp - c < Z.of_nat fuel ->
    c <= find_start fuel inp c
    /\ (rdin inp (find_start fuel inp c) = "@"%char
        \/ rdin inp (find_start fuel inp c) = NUL)
    /\ forall k, c <= k < find_start fuel inp c ->
                 rdin inp k <> "@"%char /\ rdin inp k <> NUL.
Proof.
  intros Hs. induction fuel as [|f IH]; intros c H0 Hf; cbn [find_start].
  - split; [lia|]. split; [right; apply rdin_ge; lia|]. intros k Hk. lia.
  - destruct (Ascii.eqb_spec (rdin inp c) "@") as [E|N1].
    { split; [lia|]. split; [left; exact E|]. intros k Hk. lia. }
    destruct (Ascii.eqb_spec (rdin inp c) NUL) as [E|N2].
    { split; [lia|]. split; [right; exact E|]. intros k Hk. lia. }
    pose proof (rdin_lt inp c H0 N2) as Hlt.
    rewrite ul_small by lia.
    destruct (IH (c + 1)) as (A & B & C); try lia.
    split; [lia|]. split; [exact B|].
    intros k Hk. destruct (Z.eq_dec k c) as [->|Hne]; [auto|apply C; lia].
Qed.

Lemma at_entry_end_spec (inp : list ascii) (i : Z) :
  1 <= i -> i + 1 < ULONG_MOD ->
  at_entry_end inp i = true <-> is_terminator inp i \/ rdin inp i = NUL.
Proof.
  intros H1 Hs. unfold at_entry_end, is_terminator.
  rewrite !ul_small by lia.
  rewrite orb_true_iff, !andb_true_iff, orb_true_iff, !Ascii.eqb_eq.
  tauto.
Qed.

Lemma find_end_spec (inp : list ascii) :
  blen inp + 2 < ULONG_MOD ->
  forall (fuel : nat) (c : Z),
    1 <= c -> c <= blen inp + 1 -> blen inp - c < Z.of_nat fuel ->
    c <= find_end fuel inp c
    /\ (is_terminator inp (find_end fuel inp c)
        \/ rdin inp (find_end fuel inp c) = NUL)
    /\ forall k, c <= k < find_end fuel inp c ->
                 ~ is_terminator inp k /\ rdin inp k <> NUL.
Proof.
  intros Hs. induction fuel as [|f IH]; intros c H1 Hc Hf; cbn [find_end].
  - split; [lia|]. split; [right; apply rdin_ge; lia|]. intros k Hk. lia.
  - pose proof (at_entry_end_spec inp c H1 ltac:(lia)) as Hat.
    destruct (at_entry_end inp c).
    { split; [lia|]. split; [apply Hat; reflexivity|]. intros k Hk. lia. }
    assert (Hn : ~ (is_terminator inp c \/ rdin inp c = NUL)).
    { intros H. apply Hat in H. discriminate H. }
    assert (Hlt : c < blen inp).
    { apply rdin_lt; [lia|]. intros E. apply Hn. right. exact E. }
    rewrite ul_small by lia.
    destruct (IH (c + 1)) as (A & B & C); try lia.
    split; [lia|]. split; [exact B|].
    intros k Hk. destruct (Z.eq_dec k c) as [->|Hne]; [|apply C; lia].
    split; intros E; apply Hn; [left|right]; exact E.
Qed.

Lemma next_entry_spec (inp : list ascii) (c : Z) :
  blen inp + 2 < ULONG_MOD -> 0 <= c ->
  match next_entry inp c with
  | None =>
      ends_without_start inp c
      \/ exists a, first_start inp c a /\ ends_without_terminator inp a
  | Some (a, t, len) =>
      first_start inp c a /\ first_terminator inp a t /\ len = t - a + 2
  end.
Proof.
  intros Hs H0. unfold next_entry.
  destruct (Z_lt_ge_dec (blen inp) c) as [Hbig|Hc].
  { (* the search starts behind the input *)
    assert (E : find_start (S (length inp)) inp c = c).
    { cbn [find_start]. rewrite (rdin_ge inp c) by lia. reflexivity. }
    rewrite E, (rdin_ge inp c) by lia. cbn.
    left. exists c. split; [lia|]. split; [apply rdin_ge; lia|].
    intros k Hk. lia. }
  destruct (find_start_spec inp Hs (S (length inp)) c H0) as (A & B & C).
  { unfold blen. lia. }
  set (a := find_start (S (length inp)) inp c) in *.
  destruct (Ascii.eqb_spec (rdin inp a) NUL) as [E|N].
  { left. exists a. split; [exact A|]. split; [exact E|exact C]. }
  assert (Ha : rdin inp a = "@"%char) by (destruct B; [assumption|contradiction]).
  assert (Halt : a < blen inp) by (apply rdin_lt; [lia|exact N]).
  assert (Hfs : first_start inp c a) by (split; [exact A|split; assumption]).
  rewrite ul_small by lia.
  destruct (find_end_spec inp Hs (S (length inp)) (a + 1)) as (A' & B' & C');
    try (unfold blen in *; lia).
  set (e := find_end (S (length inp)) inp (a + 1)) in *.
  destruct (Ascii.eqb_spec (rdin inp e) NUL) as [E|N'].
  { right. exists a. split; [exact Hfs|]. exists e.
    split; [lia|]. split; [exact E|]. intros k Hk. apply C'. lia. }
  assert (He : is_terminator inp e)
    by (destruct B'; [assumption|contradiction]).
  assert (Helt : e < blen inp) by (apply rdin_lt; [lia|exact N']).
  rewrite ul_small by lia.
  split; [exact Hfs|]. split; [|reflexivity].
  split; [lia|]. split; [exact He|]. intros k Hk. apply C'. lia.
Qed.

Lemma entries_from_records (inp : list ascii) :
  blen inp + 2 < ULONG_MOD ->
  forall (fuel : nat) (c : Z),
    0 <= c -> blen inp - c < Z.of_nat fuel ->
    records_from inp c (entries_from fuel inp c).
Proof.
  intros Hs. induction fuel as [|f IH]; intros c H0 Hf.
  - simpl. apply records_none. exists c. split; [lia|].
    split; [apply rdin_ge; lia|]. intros k Hk. lia.
  - cbn [entries_from].
    pose proof (next_entry_spec inp c Hs H0) as Hn.
    destruct (next_entry inp c) as [[[a t] len]|].
    + destruct Hn as (Hfs & Hft & ->).
      apply records_next; [exact Hfs|exact Hft|].
      destruct Hfs as (A & _ & _), Hft as (B & _ & _).
      apply IH; lia.
    + destruct Hn as [Hn|(a & Hfs & Hp)].
      * apply records_none. exact Hn.
      * apply (records_partial inp c a); assumption.
Qed.

Lemma first_start_unique (inp : list ascii) (c a1 a2 : Z) :
  first_start inp c a1 -> first_start inp c a2 -> a1 = a2.
Proof.
  intros (A1 & B1 & C1) (A2 & B2 & C2).
  destruct (Z.lt_trichotomy a1 a2) as [Hlt|[Heq|Hgt]]; [|exact Heq|].
  - exfalso. destruct (C2 a1 ltac:(lia)) as [N _]. exact (N B1).
  - exfalso. destruct (C1 a2 ltac:(lia)) as [N _]. exact (N B2).
Qed.

Lemma first_terminator_unique (inp : list ascii) (a t1 t2 : Z) :
  first_terminator inp a t1 -> first_terminator inp a t2 -> t1 = t2.
Proof.
  intros (A1 & B1 & C1) (A2 & B2 & C2).
  destruct (Z.lt_trichotomy t1 t2) as [Hlt|[Heq|Hgt]]; [|exact Heq|].
  - exfalso. destruct (C2 t1 ltac:(lia)) as [N _]. exact (N B1).
  - exfalso. destruct (C1 t2 ltac:(lia)) as [N _]. exact (N B2).
Qed.

Lemma start_or_end (inp : list ascii) (c a : Z) :
  first_start inp c a -> ends_without_start inp c -> False.
Proof.
  intros (A & B & C) (e & A' & B' & C').
  destruct (Z.lt_trichotomy a e) as [Hlt|[Heq|Hgt]].
  - destruct (C' a ltac:(lia)) as [N _]. exact (N B).
  - subst e. rewrite B in B'. discriminate B'.
  - destruct (C e ltac:(lia)) as [_ N]. exact (N B').
Qed.

Lemma terminator_or_end (inp : list ascii) (a t : Z) :
  first_terminator inp a t -> ends_without_terminator inp a -> False.
Proof.
  intros (A & B & C) (e & A' & B' & C').
  destruct (Z.lt_trichotomy t e) as [Hlt|[Heq|Hgt]].
  - destruct (C' t ltac:(lia)) as [N _]. exact (N B).
  - subst e. destruct B as (B & _). rewrite B in B'. discriminate B'.
  - destruct (C e ltac:(lia)) as [_ N]. exact (N B').
Qed.

Lemma records_from_unique (inp : list ascii) (c : Z)
    (l1 : list (Z * Z * Z)) :
  records_from inp c l1 ->
  forall l2, records_from inp c l2 -> l1 = l2.
Proof.
  induction 1 as [c H1|c a H1 H2|c a t l H1 H2 H3 IH]; intros l2 R2.
  - inversion R2 as [|? ? ? ?|? a' ? ? F ? ?]; subst; try reflexivity.
    exfalso. exact (start_or_end inp c a' F H1).
  - inversion R2 as [|? ? ? ?|? a' t' ? F T ?]; subst; try reflexivity.
    exfalso. rewrite <- (first_start_unique inp c a a' H1 F) in T.
    exact (terminator_or_end inp a t' T H2).
  - inversion R2 as [? E|? a' F P|? a' t' l' F T R]; subst.
    + exfalso. exact (start_or_end inp c a H1 E).
    + exfalso. rewrite <- (first_start_unique inp c a a' H1 F) in P.
      exact (terminator_or_end inp a t H2 P).
    + pose proof (first_start_unique inp c a a' H1 F). subst a'.
      pose proof (first_terminator_unique inp a t t' H2 T). subst t'.
      f_equal. apply IH. exact R.
Qed.

Lemma records_from_in (inp : list ascii) (c : Z) (l : list (Z * Z * Z)) :
  records_from inp c l ->
  0 <= c ->
  forall a t len,
    In (a, t, len) l -> c <= a /\ a < t /\ t < blen inp /\ len = t - a + 2.
Proof.
  induction 1 as [c H1|c a H1 H2|c a t l H1 H2 H3 IH]; intros H0 a' t' len' Hin;
    try contradiction.
  destruct H1 as (A & _ & _), H2 as (B & (E & _) & _).
  destruct Hin as [Hin|Hin].
  - injection Hin as <- <- <-. repeat split; try lia.
    apply rdin_lt; [lia|]. rewrite E. discriminate.
  - destruct (IH ltac:(lia) _ _ _ Hin) as (P & Q & R & S).
    repeat split; lia.
Qed.

(** The bytes copied for an entry are a range of the input. *)
Lemma copy_entry_range (inp : list ascii) (a len : Z) :
  blen inp + 2 < ULONG_MOD ->
  0 <= a -> 0 <= len -> a + len <= blen inp + 1 ->
  copy_entry inp a len
  = firstn (Z.to_nat len) (skipn (Z.to_nat a) (inp ++ [NUL])).
Proof.
  intros Hs Ha Hl Hr. unfold copy_entry, blen in *.
  apply nth_ext
    with (d := rdin inp (ul (a + Z.of_nat 0))) (d' := NUL).
  - rewrite length_map, length_seq, length_firstn, length_skipn, length_app.
    simpl length. lia.
  - intros n Hn. rewrite length_map, length_seq in Hn.
    rewrite (map_nth (fun k => rdin inp (ul (a + Z.of_nat k)))).
    rewrite seq_nth by lia. rewrite nth_firstn.
    destruct (Nat.ltb_spec n (Z.to_nat len)) as [_|Hge]; [|lia].
    rewrite nth_skipn. cbn [Nat.add].
    rewrite ul_small by lia. unfold rdin.
    replace (Z.to_nat (a + Z.of_nat n)) with (Z.to_nat a + n)%nat by lia.
    destruct (Nat.lt_ge_cases (Z.to_nat a + n) (length inp)) as [Hlt|Hge].
    + rewrite app_nth1 by lia. reflexivity.
    + rewrite nth_overflow by lia. rewrite app_nth2 by lia.
      replace (Z.to_nat a + n - length inp)%nat with 0%nat by lia.
      reflexivity.
Qed.

(** Where the byte behind the last one of [inp] is NUL, as [rdin] reads
    it, the extractor yields exactly the records of [inp], each once and in
    the order of the input, and nothing for what is left behind the last
    complete one; the text of a record is the range of the input from its
    [@] through the byte behind its closing brace. *)
Lemma entries_are_the_records (inp : list ascii) :
  blen inp + 2 < ULONG_MOD ->
  records_from inp 0 (entries inp)
  /\ (forall l, records_from inp 0 l -> l = entries inp)
  /\ (forall a t len,
        In (a, t, len) (entries inp) ->
        0 <= a < t /\ t < blen inp
        /\ copy_entry inp a len
           = firstn (Z.to_nat (t - a + 2))
               (skipn (Z.to_nat a) (inp ++ [NUL]))).
Proof.
  intros Hs.
  assert (R : records_from inp 0 (entries inp)).
  { unfold entries. apply entries_from_records; [exact Hs|lia|].
    unfold blen. lia. }
  split; [exact R|]. split.
  - intros l Hl. exact (records_from_unique inp 0 l Hl _ R).
  - intros a t len Hin.
    destruct (records_from_in inp 0 _ R ltac:(lia) a t len Hin)
      as (P & Q & T & ->).
    split; [lia|]. split; [exact T|].
    apply copy_entry_range; lia.
Qed.

(** C9 on the code: the closing brace at the last byte of a file ends a
    record only where the byte behind the bytes of the file is NUL.
    [main] allocates that byte and tests it (lines 193-196, 235-239) but
    does not set it (line 204).  With the memory behind the seven bytes
    of the file written out, the first round of the loop yields the
    record when the byte is NUL, and does not yield it when the byte is
    neither NUL nor a newline, whatever lies further behind.  With [Z]
    in that byte and a NUL behind it no record is yielded at all. *)
Theorem last_record_needs_terminator (b : ascii) (behind : list ascii) :
  next_entry (sample_last ++ NUL :: behind) 0 = Some (0, 6, 8)
  /\ (blen behind + 10 < ULONG_MOD ->
      Ascii.eqb b NUL || Ascii.eqb b LF = false ->
      next_entry (sample_last ++ b :: behind) 0 <> Some (0, 6, 8))
  /\ entries (sample_last ++ [NUL]) = [(0, 6, 8)]
  /\ entries (sample_last ++ ["Z"%char; NUL]) = [].
Proof.
  split; [|split; [|split; vm_compute; reflexivity]].
  - vm_compute. reflexivity.
  - intros Hs Hb H.
    pose proof (next_entry_spec (sample_last ++ b :: behind) 0) as Hn.
    rewrite H in Hn.
    destruct Hn as (_ & (_ & (_ & _ & T) & _) & _).
    + rewrite blen_app, blen_cons. change (blen sample_last) with 7. lia.
    + lia.
    + apply orb_false_iff in Hb. destruct Hb as [B1 B2].
      change (rdin (sample_last ++ b :: behind) (6 + 1)) with b in T.
      destruct T as [T|T]; subst b; discriminate.
Qed.

(** * The statements on concrete entries *)

(** C1 fails as stated: under the default configuration an [article] entry
    with a [url] line and no [doi] line keeps its [url] line. *)
Lemma article_url_kept_by_default :
  exists out,
    fix_entry default_config NUL sample_url_entry = Some out
    /\ occurs (LF :: kw_url) out = true.
Proof. eexists. split; vm_compute; reflexivity. Qed.

(** C2 fails as stated: [month = {{jan}},] is not rewritten to
    [month = {jan},]; it stays as it is. *)
Lemma month_double_braces_kept :
  fix_entry default_config NUL sample_month_entry = Some sample_month_entry
  /\ fix_entry default_config NUL sample_month_entry
     <> Some (entry_of (lit "article")
                (lit "k," ++ LF :: kw_month ++ lit " {jan}," ++ LF
                     :: sample_tail)).
Proof.
  split; [vm_compute; reflexivity|].
  intros H. vm_compute in H. discriminate H.
Qed.

(** C3 fails as stated: an entry whose title has one layer of braces holds
    none of the defects, and yet its [title] line is edited. *)
Lemma single_braced_title_changed :
  fix_entry default_config NUL sample_title_entry
  = Some (entry_of (lit "article")
            (lit "k," ++ LF :: kw_title ++ lit " {ome Title," ++ LF
                 :: sample_tail))
  /\ fix_entry default_config NUL sample_title_entry
     <> Some sample_title_entry.
Proof.
  split; [vm_compute; reflexivity|].
  intros H. vm_compute in H. discriminate H.
Qed.

Lemma clean_entry_unchanged_witness :
  fix_entry default_config NUL (entry_of (lit "article") sample_url_body)
  = Some (entry_of (lit "article") sample_url_body).
Proof.
  apply (clean_entry_unchanged default_config NUL (lit "article")
           sample_url_body false);
    vm_compute; reflexivity.
Defined.

(** C4 fails as stated: on an entry that is fixed already, title in one
    layer of braces, a second run does not return what the first one
    returned. *)
Lemma fixed_title_not_idempotent :
  exists out1 out2,
    fix_entry default_config NUL sample_fixed_entry = Some out1
    /\ fix_entry default_config NUL out1 = Some out2
    /\ out2 <> out1.
Proof.
  eexists. eexists. split; [vm_compute; reflexivity|].
  split; [vm_compute; reflexivity|].
  intros H. discriminate H.
Qed.

Lemma clean_entry_idempotent_witness :
  exists out,
    fix_entry default_config NUL (entry_of (lit "misc") sample_doi_body)
    = Some out
    /\ fix_entry default_config NUL out = Some out.
Proof.
  apply (clean_entry_idempotent default_config NUL (lit "misc")
           sample_doi_body true);
    vm_compute; reflexivity.
Defined.

Lemma title_double_braces_removed_witness :
  fix_entry default_config NUL
    (entry_of (lit "article")
       (lit "k," ++ LF :: kw_title ++ lit " {{" ++ lit "Some Title"
            ++ lit "}}," ++ LF :: sample_tail))
  = Some (entry_of (lit "article")
            (lit "k," ++ LF :: kw_title ++ lit " {" ++ lit "Some Title"
                 ++ lit "}," ++ LF :: sample_tail))
  /\ blen (entry_of (lit "article")
             (lit "k," ++ LF :: kw_title ++ lit " {" ++ lit "Some Title"
                  ++ lit "}," ++ LF :: sample_tail))
     + 2
     = blen (entry_of (lit "article")
               (lit "k," ++ LF :: kw_title ++ lit " {{" ++ lit "Some Title"
                    ++ lit "}}," ++ LF :: sample_tail)).
Proof.
  apply (title_double_braces_removed default_config NUL (lit "article")
           (lit "k,") (lit "Some Title") sample_tail false false);
    vm_compute; reflexivity.
Defined.


Example entries_sample :
  map (fun e => copy_entry sample_input (fst (fst e)) (snd e))
    (entries sample_input)
  = [sample_url_entry; entry_of (lit "misc") sample_doi_body].
Proof. vm_compute. reflexivity. Qed.

Lemma findEndOfField_defined_iff_witness :
  ((exists r, findEndOfField sample_field 0 = Some r)
   <-> (exists k, 0 + 1 <= k /\ field_end_at sample_field k))
  /\ (forall r, findEndOfField sample_field 0 = Some r ->
        0 + 1 <= r - 2 /\ field_end_at sample_field (r - 2)
        /\ (forall k, 0 + 1 <= k < r - 2 -> ~ field_end_at sample_field k))
  /\ (forall fuel, (length sample_field < fuel)%nat ->
        findEndOfField_from fuel sample_field 0
        = findEndOfField sample_field 0).
Proof.
  apply (findEndOfField_defined_iff sample_field 0);
    [lia|vm_compute; reflexivity|vm_compute; reflexivity].
Defined.

Example findEndOfField_sample :
  findEndOfField sample_field 0 = Some 28
  /\ findEndOfField (kw_annote ++ lit " {a } b}, c" ++ [LF; "}"%char; LF; NUL])
       0 = None.
Proof. split; vm_compute; reflexivity. Qed.

(** * Further properties of the program *)

Lemma get_put (b b' : buffer) (i : Z) (c : ascii) :
  put b i c = Some b' ->
  forall k, get b' k = if k =? i then Some c else get b k.
Proof.
  unfold put. destruct ((0 <=? i) && (i <? blen b)) eqn:E; [|discriminate].
  apply andb_true_iff in E. destruct E as [E1 E2].
  apply Z.leb_le in E1. apply Z.ltb_lt in E2.
  intros H k. injection H as <-. unfold get, blen in *.
  destruct (Z.ltb_spec k 0) as [Hk|Hk].
  { destruct (Z.eqb_spec k i); [lia|reflexivity]. }
  destruct (Z.eqb_spec k i) as [->|Hne].
  - rewrite nth_error_app2 by (rewrite length_firstn; lia).
    rewrite length_firstn.
    replace (Z.to_nat i - Nat.min (Z.to_nat i) (length b))%nat with 0%nat
      by lia.
    reflexivity.
  - destruct (Z_lt_ge_dec k i) as [Hlt|Hge].
    + rewrite nth_error_app1 by (rewrite length_firstn; lia).
      rewrite nth_error_firstn.
      destruct (Nat.ltb_spec (Z.to_nat k) (Z.to_nat i)); [reflexivity|lia].
    + rewrite nth_error_app2 by (rewrite length_firstn; lia).
      rewrite length_firstn.
      replace (Z.to_nat k - Nat.min (Z.to_nat i) (length b))%nat
        with (S (Z.to_nat k - S (Z.to_nat i)))%nat by lia.
      cbn [nth_error].
      change (match b with [] => [] | _ :: l => skipn (Z.to_nat i) l end)
        with (skipn (S (Z.to_nat i)) b).
      rewrite nth_error_skipn. f_equal. lia.
Qed.

Lemma get_memmove (b b' : buffer) (dst src n : Z) :
  memmove b dst src n = Some b' ->
  forall k,
    get b' k
    = if (dst <=? k) && (k <? dst + n) then get b (k - dst + src)
      else get b k.
Proof.
  intros H. pose proof (memmove_inv _ _ _ _ _ H) as (A1 & A2 & A3 & A4 & A5 & _).
  unfold memmove in H.
  destruct ((0 <=? dst) && (0 <=? src) && (0 <=? n)
            && (src + n <=? blen b) && (dst + n <=? blen b)); [|discriminate].
  injection H as <-. intros k. unfold get, blen in *.
  destruct (Z.ltb_spec k 0) as [Hk|Hk].
  { destruct (Z.leb_spec dst k); [lia|]. reflexivity. }
  destruct (Z.leb_spec dst k) as [Hd|Hd]; cbn [andb].
  - rewrite nth_error_app2 by (rewrite length_firstn; lia).
    rewrite length_firstn.
    destruct (Z.ltb_spec k (dst + n)) as [Hn|Hn].
    + destruct (Z.ltb_spec (k - dst + src) 0); [lia|].
      rewrite nth_error_app1
        by (rewrite length_firstn, length_skipn; lia).
      rewrite nth_error_firstn.
      destruct (Nat.ltb_spec (Z.to_nat k - Nat.min (Z.to_nat dst) (length b))
                  (Z.to_nat n)); [|lia].
      rewrite nth_error_skipn. f_equal. lia.
    + rewrite nth_error_app2
        by (rewrite length_firstn, length_skipn; lia).
      rewrite length_firstn, length_skipn.
      rewrite nth_error_skipn. f_equal. lia.
  - rewrite nth_error_app1 by (rewrite length_firstn; lia).
    rewrite nth_error_firstn.
    destruct (Nat.ltb_spec (Z.to_nat k) (Z.to_nat dst)); [reflexivity|lia].
Qed.

Lemma nul_at_bound (b : buffer) (p : Z) : nul_at b p -> 0 <= p < blen b.
Proof. intros [H _]. exact (get_Some_lt _ _ _ H). Qed.

Lemma nul_at_not (b : buffer) (p k : Z) (c : ascii) :
  nul_at b p -> get b k = Some c -> c <> NUL -> k <> p.
Proof. intros [H _] G N ->. rewrite H in G. injection G as <-. auto. Qed.

(** Below a NUL there is a first one. *)
Lemma first_nul (b : buffer) (q : Z) :
  get b q = Some NUL -> exists p, p <= q /\ nul_at b p.
Proof.
  intros Hq. pose proof (get_Some_lt _ _ _ Hq) as Hb.
  assert (G : forall n : nat,
             (forall k, 0 <= k < Z.of_nat n -> get b k <> Some NUL)
             \/ exists p, p < Z.of_nat n /\ nul_at b p).
  { induction n as [|n [IH|(p & Hp & Hn)]].
    - left. intros k Hk. lia.
    - destruct (get b (Z.of_nat n)) as [c|] eqn:E.
      + destruct (Ascii.eqb_spec c NUL) as [->|Hne].
        * right. exists (Z.of_nat n). split; [lia|]. split; assumption.
        * left. intros k Hk.
          destruct (Z.eq_dec k (Z.of_nat n)) as [->|Hk'];
            [rewrite E; congruence|apply IH; lia].
      + left. intros k Hk.
        destruct (Z.eq_dec k (Z.of_nat n)) as [->|Hk'];
          [rewrite E; discriminate|apply IH; lia].
    - right. exists p. split; [lia|exact Hn]. }
  destruct (G (Z.to_nat q)) as [H|(p & Hp & Hn)].
  - exists q. split; [lia|]. split; [exact Hq|].
    intros k Hk. apply H. lia.
  - exists p. split; [lia|exact Hn].
Qed.

(** [strlen]: the C string of a block ends at its first NUL. *)
Lemma cstr_nul_at (b : buffer) :
  forall p, nul_at b p -> cstr b = firstn (Z.to_nat p) b.
Proof.
  induction b as [|c b IH]; intros p Hp.
  - rewrite firstn_nil. reflexivity.
  - pose proof (nul_at_bound _ _ Hp) as Hb. destruct Hp as [P1 P2].
    destruct (Z.eq_dec p 0) as [->|Hne].
    + rewrite get_head in P1. injection P1 as ->. reflexivity.
    + assert (Hc : c <> NUL).
      { intros ->. apply (P2 0); [lia|apply get_head]. }
      cbn [cstr]. destruct (Ascii.eqb_spec c NUL) as [E|_]; [contradiction|].
      replace (Z.to_nat p) with (S (Z.to_nat (p - 1))) by lia.
      cbn [firstn]. f_equal. apply IH. split.
      * rewrite <- (get_tail c) by lia.
        replace (1 + (p - 1)) with p by lia. exact P1.
      * intros k Hk. rewrite <- (get_tail c) by lia. apply P2. lia.
Qed.

Lemma cstr_length (b : buffer) (p : Z) :
  nul_at b p -> Z.of_nat (length (cstr b)) = p.
Proof.
  intros Hp. pose proof (nul_at_bound _ _ Hp) as Hb. unfold blen in Hb.
  rewrite (cstr_nul_at b p Hp), length_firstn. lia.
Qed.

Lemma put_nul (b b' : buffer) (i p : Z) (c : ascii) :
  put b i c = Some b' -> nul_at b p -> i <> p -> c <> NUL -> nul_at b' p.
Proof.
  intros H [P1 P2] Hi Hc. pose proof (get_put _ _ _ _ H) as G. split.
  - rewrite G. destruct (Z.eqb_spec p i); [lia|exact P1].
  - intros k Hk. rewrite G.
    destruct (Z.eqb_spec k i); [congruence|apply P2; exact Hk].
Qed.

(** A [memmove] to the left and the first NUL: unless the NUL stands in the
    gap and inside the target range, there is again a first NUL, not further
    right. *)
Lemma memmove_nul (b b' : buffer) (dst src n p : Z) :
  memmove b dst src n = Some b' -> dst < src -> nul_at b p ->
  p < dst \/ src <= p \/ dst + n <= p ->
  exists p',
    nul_at b' p' /\ p' <= p
    /\ (p < dst -> p' = p)
    /\ (src <= p < src + n -> p' = p - (src - dst))
    /\ (src + n <= p -> p' = p)
    /\ (dst <= p -> dst <= p').
Proof.
  intros H Hds Hp Hc. pose proof (get_memmove _ _ _ _ _ H) as G.
  pose proof (memmove_inv _ _ _ _ _ H) as (A1 & A2 & A3 & A4 & A5 & A6).
  pose proof (nul_at_bound _ _ Hp) as Hb. destruct Hp as [P1 P2].
  assert (Hlow : forall k, 0 <= k < dst -> k < p -> get b' k <> Some NUL).
  { intros k Hk Hkp. rewrite G. destruct (Z.leb_spec dst k); [lia|].
    apply P2. lia. }
  destruct (Z_lt_ge_dec p dst) as [C1|C1].
  { exists p. split; [|repeat split; lia]. split.
    - rewrite G. destruct (Z.leb_spec dst p); [lia|exact P1].
    - intros k Hk. apply Hlow; lia. }
  destruct (Z_lt_ge_dec p src) as [C2|C2].
  { (* the NUL stands in the gap and is not overwritten *)
    assert (Hn : dst + n <= p) by lia.
    assert (E : get b' p = Some NUL).
    { rewrite G. destruct (Z.leb_spec dst p); [|lia].
      destruct (Z.ltb_spec p (dst + n)); [lia|exact P1]. }
    destruct (first_nul b' p E) as (p' & Hle & Hp').
    exists p'. split; [exact Hp'|]. split; [exact Hle|].
    repeat split; try lia. intros _.
    destruct (Z_lt_ge_dec p' dst) as [Hlt|Hge]; [|lia].
    exfalso. pose proof (nul_at_bound _ _ Hp') as Hb'.
    destruct Hp' as [Q1 _]. apply (Hlow p'); [lia|lia|exact Q1]. }
  destruct (Z_lt_ge_dec p (src + n)) as [C3|C3].
  { exists (p - (src - dst)). split; [|repeat split; lia]. split.
    - rewrite G. destruct (Z.leb_spec dst (p - (src - dst))); [|lia].
      destruct (Z.ltb_spec (p - (src - dst)) (dst + n)); [|lia].
      cbn [andb]. replace (p - (src - dst) - dst + src) with p by lia.
      exact P1.
    - intros k Hk. rewrite G.
      destruct (Z.leb_spec dst k); [|apply P2; lia].
      destruct (Z.ltb_spec k (dst + n)); cbn [andb]; apply P2; lia. }
  exists p. split; [|repeat split; lia]. split.
  - rewrite G. destruct (Z.leb_spec dst p); [|lia].
    destruct (Z.ltb_spec p (dst + n)); [lia|exact P1].
  - intros k Hk. rewrite G.
    destruct (Z.leb_spec dst k); [|apply P2; lia].
    destruct (Z.ltb_spec k (dst + n)); cbn [andb]; apply P2; lia.
Qed.

Lemma strncmp0_true_nth (b : buffer) (kw : list ascii) :
  forall (j : Z) (k : nat) (c : ascii),
    strncmp0 b j kw = Some true -> nth_error kw k = Some c ->
    get b (j + Z.of_nat k) = Some c.
Proof.
  induction kw as [|x kw IH]; intros j k c H Hk;
    [destruct k; discriminate Hk|].
  cbn [strncmp0] in H. destruct (get b j) as [y|] eqn:E; [|discriminate].
  destruct (Ascii.eqb_spec y x) as [->|]; [|discriminate].
  destruct k as [|k].
  - injection Hk as <-. rewrite Z.add_0_r. exact E.
  - cbn [nth_error] in Hk.
    replace (j + Z.of_nat (S k)) with (j + 1 + Z.of_nat k) by lia.
    exact (IH _ _ _ H Hk).
Qed.

Lemma findEndOfLine_from_spec (str : buffer) :
  blen str + 1 < ULONG_MOD ->
  forall (fuel : nat) (cur : Z),
    0 <= cur -> blen str - cur < Z.of_nat fuel ->
    match findEndOfLine_from fuel str cur with
    | Some r =>
        cur <= r /\ get str r = Some LF
        /\ forall k, cur <= k < r -> get str k <> Some LF
    | None => forall k, cur <= k -> get str k <> Some LF
    end.
Proof.
  intros Hs. induction fuel as [|f IH]; intros cur H0 Hf.
  - cbn [findEndOfLine_from]. intros k Hk. rewrite get_ge_None by lia.
    discriminate.
  - cbn [findEndOfLine_from]. destruct (get str cur) as [c|] eqn:E.
    + pose proof (get_Some_lt _ _ _ E) as Hlt.
      destruct (Ascii.eqb_spec c LF) as [->|Hne].
      * split; [lia|]. split; [exact E|]. intros k Hk. lia.
      * rewrite ul_small by lia.
        specialize (IH (cur + 1) ltac:(lia) ltac:(lia)).
        destruct (findEndOfLine_from f str (cur + 1)) as [r|].
        -- destruct IH as (A & B & C). split; [lia|]. split; [exact B|].
           intros k Hk. destruct (Z.eq_dec k cur) as [->|Hk'];
             [rewrite E; congruence|apply C; lia].
        -- intros k Hk. destruct (Z.eq_dec k cur) as [->|Hk'];
             [rewrite E; congruence|apply IH; lia].
    + intros k Hk. apply get_None_ge in E; [|lia].
      rewrite get_ge_None by lia. discriminate.
Qed.

Lemma findEndOfLine_spec (str : buffer) (startInd : Z) :
  blen str + 1 < ULONG_MOD -> 0 <= startInd ->
  match findEndOfLine str startInd with
  | Some r =>
      startInd <= r /\ get str r = Some LF
      /\ forall k, startInd <= k < r -> get str k <> Some LF
  | None => forall k, startInd <= k -> get str k <> Some LF
  end.
Proof.
  intros Hs H0. unfold findEndOfLine.
  destruct (Z_lt_ge_dec (blen str) startInd) as [Hbig|Hle].
  - cbn [findEndOfLine_from]. rewrite get_ge_None by lia.
    intros k Hk. rewrite get_ge_None by lia. discriminate.
  - apply findEndOfLine_from_spec; [exact Hs|exact H0|].
    unfold blen in *. lia.
Qed.

Section Invariant.

Variable cfg : config.
Variable bUrlException : bool.

Lemma scan_inv_pre (s : scan_state) (p : Z) :
  scan_inv s p -> curBibInd s < p -> round_pre s.
Proof.
  intros (A & B & C & D & _) Hi. pose proof (nul_at_bound _ _ D).
  repeat split; lia.
Qed.

(** An edit at the index, which stands at a newline or at an opening
    brace, that touches no byte before the index. *)
Lemma edit_inv (s s' : scan_state) (p p' : Z) :
  scan_inv s p -> curBibInd s < p ->
  get (curBibEntry s) (curBibInd s) = Some LF
  \/ get (curBibEntry s) (curBibInd s) = Some "{"%char ->
  round_ok s s' ->
  bHasISSN s' = bHasISSN s -> issnInd s' = issnInd s ->
  (forall k, k < curBibInd s ->
             get (curBibEntry s') k = get (curBibEntry s) k) ->
  (curBibInd s' = curBibInd s ->
   get (curBibEntry s') (curBibInd s) <> Some NUL) ->
  nul_at (curBibEntry s') p' -> p' <= p ->
  (curBibLength s' <= p'
   \/ (p' = curBibLength s' - 1
       /\ get (curBibEntry s') (curBibLength s') = Some NUL)) ->
  exists p', p' <= p /\ scan_inv (with_ind s' (ul (curBibInd s' + 1))) p'.
Proof.
  intros (A & B & C & D & E & F) Hi Hc (R1 & R2 & R3) Hf1 Hf2 Hfr Hat Hn
         Hle Hd.
  pose proof (nul_at_bound _ _ D) as Hb.
  pose proof (nul_at_bound _ _ Hn) as Hb'.
  exists p'. split; [exact Hle|].
  assert (Hge : curBibInd s <= p').
  { destruct (Z_lt_ge_dec p' (curBibInd s)) as [Hlt|Hge]; [|lia].
    exfalso. destruct Hn as [N1 _], D as [_ D2].
    rewrite Hfr in N1 by lia. apply (D2 p'); [lia|exact N1]. }
  assert (Hind : ul (curBibInd s' + 1) = curBibInd s + 1
                 /\ curBibInd s + 1 <= p'
                 \/ ul (curBibInd s' + 1) = curBibInd s).
  { destruct R3 as [(R3 & _)|(R3 & _)]; [left|right; exact R3].
    rewrite R3. split; [ul_lia|].
    destruct (Z.eq_dec p' (curBibInd s)) as [->|Hne]; [|lia].
    exfalso. destruct Hn as [N1 _]. exact (Hat R3 N1). }
  unfold scan_inv. cbn [with_ind curBibEntry curBibInd curBibLength
                          bHasISSN issnInd].
  split; [rewrite R1; exact A|]. split; [destruct Hind as [[-> ?]| ->]; lia|].
  split; [exact R2|]. split; [exact Hn|]. split; [exact Hd|].
  rewrite Hf1, Hf2. intros Hi'. destruct (F Hi') as (F1 & F2).
  assert (Hout : issnInd s + 3 < curBibInd s).
  { destruct (Z_lt_ge_dec (issnInd s + 3) (curBibInd s)) as [Hlt|Hge'];
      [exact Hlt|].
    exfalso. destruct (F2 (curBibInd s) ltac:(lia)) as (x & G & N1 & N2 & N3).
    destruct Hc as [Hc|Hc]; rewrite Hc in G; injection G as <-; auto. }
  split; [destruct Hind as [[-> ?]| ->]; lia|].
  intros k Hk. destruct (F2 k Hk) as (x & G & N).
  exists x. split; [|exact N]. rewrite Hfr by lia. exact G.
Qed.

(** A round without an edit. *)
Lemma keep_inv (s s' : scan_state) (p : Z) :
  scan_inv s p -> curBibInd s < p ->
  curBibEntry s' = curBibEntry s -> curBibInd s' = curBibInd s ->
  curBibLength s' = curBibLength s ->
  (bHasISSN s' = bHasISSN s /\ issnInd s' = issnInd s)
  \/ (issnInd s' = curBibInd s + 1
      /\ forall k, issnInd s' <= k <= issnInd s' + 3 ->
                   plain_at (curBibEntry s) k) ->
  exists p', p' <= p /\ scan_inv (with_ind s' (ul (curBibInd s' + 1))) p'.
Proof.
  intros (A & B & C & D & E & F) Hi E1 E2 E3 Hfl.
  pose proof (nul_at_bound _ _ D) as Hb.
  exists p. split; [lia|]. unfold scan_inv.
  cbn [with_ind curBibEntry curBibInd curBibLength bHasISSN issnInd].
  rewrite E1, E2, E3.
  assert (Hu : ul (curBibInd s + 1) = curBibInd s + 1) by ul_lia.
  rewrite Hu.
  split; [exact A|]. split; [lia|]. split; [exact C|]. split; [exact D|].
  split; [exact E|].
  destruct Hfl as [[-> ->]|[-> G]].
  - intros H. destruct (F H) as (F1 & F2). split; [lia|exact F2].
  - intros _. split; [lia|exact G].
Qed.

End Invariant.

(** Decide the range tests of a pointwise description of a block. *)
Ltac range_test :=
  match goal with
  | |- context [(?a =? ?b)] => destruct (Z.eqb_spec a b)
  | |- context [(?a <? ?b)] => destruct (Z.ltb_spec0 a b)
  | |- context [(?a <=? ?b)] => destruct (Z.leb_spec0 a b)
  end.

Ltac zone G := rewrite G; repeat range_test; cbn [andb]; try lia.

Ltac same_get H :=
  match goal with
  | |- get _ ?x = _ =>
      match type of H with
      | get _ ?y = _ => replace x with y by lia; exact H
      end
  end.

Lemma esc_bytes (b : buffer) (i : Z) (kw : list ascii) :
  kw = esc_open \/ kw = esc_close ->
  strncmp0 b i kw = Some true ->
  get b i = Some "{"%char
  /\ exists c1 c2 c3,
      get b (i + 1) = Some c1 /\ get b (i + 2) = Some c2
      /\ get b (i + 3) = Some c3
      /\ c1 <> NUL /\ c2 <> NUL /\ c3 <> NUL.
Proof.
  intros Hk H.
  assert (G : forall k c, nth_error kw k = Some c ->
                          get b (i + Z.of_nat k) = Some c)
    by (intros k c; apply strncmp0_true_nth; exact H).
  destruct Hk as [-> | ->].
  - split; [rewrite <- (Z.add_0_r i); apply (G 0%nat); reflexivity|].
    exists "\"%char, "{"%char, "}"%char.
    split; [apply (G 1%nat); reflexivity|].
    split; [apply (G 2%nat); reflexivity|].
    split; [apply (G 3%nat); reflexivity|].
    repeat split; discriminate.
  - split; [rewrite <- (Z.add_0_r i); apply (G 0%nat); reflexivity|].
    exists "\"%char, "}"%char, "}"%char.
    split; [apply (G 1%nat); reflexivity|].
    split; [apply (G 2%nat); reflexivity|].
    split; [apply (G 3%nat); reflexivity|].
    repeat split; discriminate.
Qed.

Section Edits.

Variable cfg : config.
Variable bUrlException : bool.

Lemma fix_open_brace_inv (s s' : scan_state) (p : Z) :
  scan_inv s p ->
  strncmp0 (curBibEntry s) (curBibInd s) esc_open = Some true ->
  fix_open_brace s = Some s' ->
  exists p', p' <= p /\ scan_inv (with_ind s' (ul (curBibInd s' + 1))) p'.
Proof.
  intros Hinv Hm H.
  destruct (esc_bytes _ _ _ (or_introl eq_refl) Hm)
    as (G0 & c1 & c2 & c3 & G1 & G2 & G3 & N1 & N2 & N3).
  pose proof Hinv as (A & B & C & D & E & F).
  pose proof (nul_at_bound _ _ D) as Hb.
  assert (Hp : curBibInd s + 4 <= p).
  { pose proof (nul_at_not _ _ _ _ D G0 ltac:(discriminate)).
    pose proof (nul_at_not _ _ _ _ D G1 N1).
    pose proof (nul_at_not _ _ _ _ D G2 N2).
    pose proof (nul_at_not _ _ _ _ D G3 N3). lia. }
  pose proof (scan_inv_pre s p Hinv ltac:(lia)) as Hpre.
  pose proof (fix_open_brace_round s s' Hpre H) as Hround.
  unfold fix_open_brace in H.
  destruct (memmove (curBibEntry s) (ul (curBibInd s + 1))
              (ul (curBibInd s + 4)) (ul (curBibLength s - curBibInd s - 2)))
    as [b1|] eqn:M; [|discriminate].
  injection H as <-.
  pose proof (memmove_inv _ _ _ _ _ M) as (M1 & M2 & M3 & M4 & M5 & M6).
  assert (U : ul (curBibInd s + 1) = curBibInd s + 1
              /\ ul (curBibInd s + 4) = curBibInd s + 4
              /\ ul (curBibLength s - curBibInd s - 2)
                 = curBibLength s - curBibInd s - 2
              /\ ul (curBibLength s - 3) = curBibLength s - 3
              /\ curBibInd s + 2 <= curBibLength s) by ul_lia.
  destruct U as (U1 & U2 & U3 & U4 & U5).
  rewrite U1, U2, U3 in M. clear M1 M2 M3 M4 M5.
  pose proof (get_memmove _ _ _ _ _ M) as G.
  destruct (memmove_nul _ _ _ _ _ p M ltac:(lia) D ltac:(lia))
    as (p' & Hn & Hle & _ & Q2 & Q3 & Q4).
  apply (edit_inv s _ p p' Hinv ltac:(lia) (or_intror G0) Hround
           eq_refl eq_refl);
    cbn [with_entry curBibEntry curBibInd curBibLength];
    try assumption.
  - intros k Hk. zone G. reflexivity.
  - intros _. zone G. rewrite G0. discriminate.
  - rewrite U4.
    destruct (Z_lt_ge_dec p (curBibLength s + 2)) as [Hlt|Hge].
    + rewrite Q2 by lia. destruct E as [E|[E1 E2]]; [left; lia|].
      right. split; [lia|]. zone G. same_get E2.
    + rewrite Q3 by lia. left. lia.
Qed.

Lemma fix_close_brace_inv (s s' : scan_state) (p : Z) :
  scan_inv s p ->
  strncmp0 (curBibEntry s) (curBibInd s) esc_close = Some true ->
  fix_close_brace s = Some s' ->
  exists p', p' <= p /\ scan_inv (with_ind s' (ul (curBibInd s' + 1))) p'.
Proof.
  intros Hinv Hm H.
  destruct (esc_bytes _ _ _ (or_intror eq_refl) Hm)
    as (G0 & c1 & c2 & c3 & G1 & G2 & G3 & N1 & N2 & N3).
  pose proof Hinv as (A & B & C & D & E & F).
  pose proof (nul_at_bound _ _ D) as Hb.
  assert (Hp : curBibInd s + 4 <= p).
  { pose proof (nul_at_not _ _ _ _ D G0 ltac:(discriminate)).
    pose proof (nul_at_not _ _ _ _ D G1 N1).
    pose proof (nul_at_not _ _ _ _ D G2 N2).
    pose proof (nul_at_not _ _ _ _ D G3 N3). lia. }
  pose proof (scan_inv_pre s p Hinv ltac:(lia)) as Hpre.
  pose proof (fix_close_brace_round s s' Hpre H) as Hround.
  unfold fix_close_brace in H.
  destruct (put (curBibEntry s) (curBibInd s) "}") as [b0|] eqn:P;
    [|discriminate].
  destruct (memmove b0 (ul (curBibInd s + 1))
              (ul (curBibInd s + 4)) (ul (curBibLength s - curBibInd s - 2)))
    as [b1|] eqn:M; [|discriminate].
  injection H as <-.
  pose proof (put_len _ _ _ _ P) as P1.
  pose proof (get_put _ _ _ _ P) as GP.
  pose proof (put_nul _ _ _ _ _ P D ltac:(lia) ltac:(discriminate)) as D0.
  pose proof (memmove_inv _ _ _ _ _ M) as (M1 & M2 & M3 & M4 & M5 & M6).
  rewrite P1 in M4, M5.
  assert (U : ul (curBibInd s + 1) = curBibInd s + 1
              /\ ul (curBibInd s + 4) = curBibInd s + 4
              /\ ul (curBibLength s - curBibInd s - 2)
                 = curBibLength s - curBibInd s - 2
              /\ ul (curBibLength s - 3) = curBibLength s - 3
              /\ curBibInd s + 2 <= curBibLength s) by ul_lia.
  destruct U as (U1 & U2 & U3 & U4 & U5).
  rewrite U1, U2, U3 in M. clear M1 M2 M3 M4 M5.
  pose proof (get_memmove _ _ _ _ _ M) as G.
  destruct (memmove_nul _ _ _ _ _ p M ltac:(lia) D0 ltac:(lia))
    as (p' & Hn & Hle & _ & Q2 & Q3 & Q4).
  apply (edit_inv s _ p p' Hinv ltac:(lia) (or_intror G0) Hround
           eq_refl eq_refl);
    cbn [with_entry curBibEntry curBibInd curBibLength];
    try assumption.
  - intros k Hk. zone G. zone GP. reflexivity.
  - intros _. zone G. zone GP. discriminate.
  - rewrite U4.
    destruct (Z_lt_ge_dec p (curBibLength s + 2)) as [Hlt|Hge].
    + rewrite Q2 by lia. destruct E as [E|[E1 E2]]; [left; lia|].
      right. split; [lia|]. zone G. zone GP. same_get E2.
    + rewrite Q3 by lia. left. lia.
Qed.

Lemma erase_to_inv (s s' : scan_state) (p indEOL : Z) :
  scan_inv s p -> curBibInd s < p ->
  get (curBibEntry s) (curBibInd s) = Some LF ->
  curBibInd s + 1 <= indEOL ->
  get (curBibEntry s) indEOL = Some LF ->
  erase_to s indEOL = Some s' ->
  exists p', p' <= p /\ scan_inv (with_ind s' (ul (curBibInd s' + 1))) p'.
Proof.
  intros Hinv Hi G0 Hle GE H.
  pose proof Hinv as (A & B & C & D & E & F).
  pose proof (nul_at_bound _ _ D) as Hb.
  pose proof (get_Some_lt _ _ _ GE) as HbE.
  pose proof (scan_inv_pre s p Hinv Hi) as Hpre.
  pose proof (erase_to_round s s' indEOL Hpre ltac:(lia) H) as Hround.
  pose proof (nul_at_not _ _ _ _ D GE ltac:(discriminate)) as HpE.
  unfold erase_to in H.
  destruct (memmove (curBibEntry s) (ul (curBibInd s + 1)) (ul (indEOL + 1))
              (ul (curBibLength s - indEOL + 1))) as [b1|] eqn:M;
    [|discriminate].
  injection H as <-.
  pose proof (memmove_inv _ _ _ _ _ M) as (M1 & M2 & M3 & M4 & M5 & M6).
  assert (U : ul (curBibInd s + 1) = curBibInd s + 1
              /\ ul (indEOL + 1) = indEOL + 1
              /\ ul (curBibLength s - indEOL + 1)
                 = curBibLength s - indEOL + 1
              /\ ul (curBibLength s - ul (indEOL - curBibInd s))
                 = curBibLength s - (indEOL - curBibInd s)
              /\ indEOL - 1 <= curBibLength s) by ul_lia.
  destruct U as (U1 & U2 & U3 & U4 & U5).
  rewrite U1, U2, U3 in M. clear M1 M2 M3 M4 M5.
  pose proof (get_memmove _ _ _ _ _ M) as G.
  assert (Hcond : p < curBibInd s + 1 \/ indEOL + 1 <= p
                  \/ curBibInd s + 1 + (curBibLength s - indEOL + 1) <= p).
  { destruct (Z_lt_ge_dec p (indEOL + 1)) as [Hlt|Hge]; [|lia].
    right. right. destruct E as [E|[E1 E2]]; [lia|].
    assert (curBibLength s <> indEOL)
      by (intros Hx; rewrite Hx, GE in E2; discriminate E2).
    lia. }
  destruct (memmove_nul _ _ _ _ _ p M ltac:(lia) D Hcond)
    as (p' & Hn & Hle' & _ & Q2 & Q3 & Q4).
  apply (edit_inv s _ p p' Hinv Hi (or_introl G0) Hround eq_refl eq_refl);
    cbn [with_ind with_entry curBibEntry curBibInd curBibLength];
    try assumption.
  - intros k Hk. zone G. reflexivity.
  - intros Hx. exfalso. ul_lia.
  - rewrite U4. specialize (Q4 ltac:(lia)).
    destruct (Z_lt_ge_dec p (indEOL + 1)) as [Hlt|Hge].
    { left. destruct E as [E|[E1 E2]]; [lia|].
      assert (curBibLength s <> indEOL)
        by (intros Hx; rewrite Hx, GE in E2; discriminate E2).
      lia. }
    destruct (Z_lt_ge_dec p (curBibLength s + 2)) as [Hlt|Hge'].
    + rewrite Q2 by lia. destruct E as [E|[E1 E2]]; [left; lia|].
      right. split; [lia|]. zone G. same_get E2.
    + rewrite Q3 by lia. left. lia.
Qed.

Lemma erase_line_inv (s s' : scan_state) (p : Z) :
  scan_inv s p -> curBibInd s < p ->
  get (curBibEntry s) (curBibInd s) = Some LF ->
  erase_line s = Some s' ->
  exists p', p' <= p /\ scan_inv (with_ind s' (ul (curBibInd s' + 1))) p'.
Proof.
  intros Hinv Hi G0 H. pose proof Hinv as (A & B & C & D & E & F).
  pose proof (nul_at_bound _ _ D) as Hb.
  unfold erase_line in H.
  assert (Hu : ul (curBibInd s + 1) = curBibInd s + 1) by ul_lia.
  rewrite Hu in H.
  pose proof (findEndOfLine_spec (curBibEntry s) (curBibInd s + 1)
                ltac:(change ULONG_MOD with 18446744073709551616 in *; lia)
                ltac:(lia)) as Hsp.
  destruct (findEndOfLine (curBibEntry s) (curBibInd s + 1)) as [indEOL|];
    [|discriminate].
  destruct Hsp as (S1 & S2 & _).
  exact (erase_to_inv s s' p indEOL Hinv Hi G0 S1 S2 H).
Qed.

Lemma erase_field_inv (s s' : scan_state) (p : Z) :
  scan_inv s p -> curBibInd s < p ->
  get (curBibEntry s) (curBibInd s) = Some LF ->
  erase_field s = Some s' ->
  exists p', p' <= p /\ scan_inv (with_ind s' (ul (curBibInd s' + 1))) p'.
Proof.
  intros Hinv Hi G0 H. pose proof Hinv as (A & B & C & D & E & F).
  pose proof (nul_at_bound _ _ D) as Hb.
  unfold erase_field in H.
  assert (Hu : ul (curBibInd s + 1) = curBibInd s + 1) by ul_lia.
  rewrite Hu in H.
  pose proof (findEndOfField_spec (curBibEntry s) (curBibInd s + 1)
                ltac:(lia)
                ltac:(change ULONG_MOD with 18446744073709551616 in *; lia)
                ltac:(change ULONG_MOD with 18446744073709551616 in *; lia))
    as Hsp.
  destruct (findEndOfField (curBibEntry s) (curBibInd s + 1)) as [indEOL|];
    [|discriminate].
  destruct Hsp as (S1 & (_ & _ & S2) & _).
  replace (indEOL - 2 + 2) with indEOL in S2 by lia.
  exact (erase_to_inv s s' p indEOL Hinv Hi G0 ltac:(lia) S2 H).
Qed.

Lemma fix_month_inv (s s' : scan_state) (p : Z) :
  scan_inv s p -> curBibInd s < p ->
  get (curBibEntry s) (curBibInd s) = Some LF ->
  get (curBibEntry s) (ul (curBibInd s + 13)) = Some "}"%char ->
  fix_month s = Some s' ->
  exists p', p' <= p /\ scan_inv (with_ind s' (ul (curBibInd s' + 1))) p'.
Proof.
  intros Hinv Hi G0 G13 H.
  pose proof Hinv as (A & B & C & D & E & F).
  pose proof (nul_at_bound _ _ D) as Hb.
  pose proof (scan_inv_pre s p Hinv Hi) as Hpre.
  pose proof (fix_month_round s s' Hpre H) as Hround.
  unfold fix_month in H.
  destruct (get (curBibEntry s) (ul (curBibInd s + 10))) as [c10|] eqn:G10;
    [|discriminate].
  destruct (put (curBibEntry s) (ul (curBibInd s + 9)) c10) as [b1|] eqn:P1;
    [|discriminate].
  destruct (get b1 (ul (curBibInd s + 11))) as [c11|] eqn:G11;
    [|discriminate].
  destruct (put b1 (ul (curBibInd s + 10)) c11) as [b2|] eqn:P2;
    [|discriminate].
  destruct (get b2 (ul (curBibInd s + 12))) as [c12|] eqn:G12;
    [|discriminate].
  destruct (put b2 (ul (curBibInd s + 11)) c12) as [b3|] eqn:P3;
    [|discriminate].
  destruct (memmove b3 (ul (curBibInd s + 12)) (ul (curBibInd s + 14))
              (ul (curBibLength s - curBibInd s - 13))) as [b4|] eqn:M;
    [|discriminate].
  injection H as <-.
  pose proof (put_len _ _ _ _ P1) as L1.
  pose proof (put_len _ _ _ _ P2) as L2.
  pose proof (put_len _ _ _ _ P3) as L3.
  pose proof (memmove_inv _ _ _ _ _ M) as (M1 & M2 & M3 & M4 & M5 & M6).
  rewrite L3, L2, L1 in M4, M5.
  assert (U : ul (curBibInd s + 9) = curBibInd s + 9
              /\ ul (curBibInd s + 10) = curBibInd s + 10
              /\ ul (curBibInd s + 11) = curBibInd s + 11
              /\ ul (curBibInd s + 12) = curBibInd s + 12
              /\ ul (curBibInd s + 13) = curBibInd s + 13
              /\ ul (curBibInd s + 14) = curBibInd s + 14
              /\ ul (curBibLength s - curBibInd s - 13)
                 = curBibLength s - curBibInd s - 13
              /\ ul (curBibLength s - 2) = curBibLength s - 2
              /\ curBibInd s + 13 <= curBibLength s) by ul_lia.
  destruct U as (U9 & U10 & U11 & U12 & U13 & U14 & Un & Ul & Hlen).
  rewrite ?U9, ?U10, ?U11, ?U12, ?U13, ?U14, ?Un in *.
  clear M1 M2 M3 M4 M5.
  pose proof (nul_at_not _ _ _ _ D G13 ltac:(discriminate)) as Hp13.
  assert (Hp : curBibInd s + 14 <= p).
  { destruct E as [E|[E1 E2]]; [lia|].
    assert (curBibLength s <> curBibInd s + 13)
      by (intros Hx; rewrite Hx, G13 in E2; discriminate E2).
    lia. }
  pose proof (get_put _ _ _ _ P1) as GP1.
  pose proof (get_put _ _ _ _ P2) as GP2.
  pose proof (get_put _ _ _ _ P3) as GP3.
  pose proof (get_memmove _ _ _ _ _ M) as G.
  assert (D1 : nul_at b1 p).
  { apply (put_nul _ _ _ _ _ P1 D); [lia|].
    intros ->. destruct D as [_ D2]. apply (D2 (curBibInd s + 10)); [lia|].
    exact G10. }
  assert (D2 : nul_at b2 p).
  { apply (put_nul _ _ _ _ _ P2 D1); [lia|].
    intros ->. destruct D1 as [_ D2]. apply (D2 (curBibInd s + 11)); [lia|].
    exact G11. }
  assert (D3 : nul_at b3 p).
  { apply (put_nul _ _ _ _ _ P3 D2); [lia|].
    intros ->. destruct D2 as [_ D2]. apply (D2 (curBibInd s + 12)); [lia|].
    exact G12. }
  destruct (memmove_nul _ _ _ _ _ p M ltac:(lia) D3 ltac:(lia))
    as (p' & Hn & Hle & _ & Q2 & Q3 & Q4).
  apply (edit_inv s _ p p' Hinv Hi (or_introl G0) Hround eq_refl eq_refl);
    cbn [with_entry curBibEntry curBibInd curBibLength];
    try assumption.
  - intros k Hk. zone G. zone GP3. zone GP2. zone GP1. reflexivity.
  - intros _. zone G. zone GP3. zone GP2. zone GP1. rewrite G0. discriminate.
  - rewrite Ul.
    destruct (Z_lt_ge_dec p (curBibLength s + 1)) as [Hlt|Hge].
    + rewrite Q2 by lia. destruct E as [E|[E1 E2]]; [left; lia|].
      right. split; [lia|]. zone G. zone GP3. zone GP2. zone GP1.
      same_get E2.
    + rewrite Q3 by lia. left. lia.
Qed.

Lemma fix_title_inv (s s' : scan_state) (p : Z) :
  scan_inv s p -> curBibInd s < p ->
  get (curBibEntry s) (curBibInd s) = Some LF ->
  fix_title s = Some s' ->
  exists p', p' <= p /\ scan_inv (with_ind s' (ul (curBibInd s' + 1))) p'.
Proof.
  intros Hinv Hi G0 H.
  pose proof Hinv as (A & B & C & D & E & F).
  pose proof (nul_at_bound _ _ D) as Hb.
  pose proof (scan_inv_pre s p Hinv Hi) as Hpre.
  pose proof (fix_title_round s s' Hpre H) as Hround.
  unfold fix_title in H.
  assert (Hu : ul (curBibInd s + 1) = curBibInd s + 1) by ul_lia.
  rewrite Hu in H.
  pose proof (findEndOfLine_spec (curBibEntry s) (curBibInd s + 1)
                ltac:(change ULONG_MOD with 18446744073709551616 in *; lia)
                ltac:(lia)) as Hsp.
  destruct (findEndOfLine (curBibEntry s) (curBibInd s + 1)) as [indEOL|];
    [|discriminate].
  destruct Hsp as (S1 & GE & _).
  pose proof (get_Some_lt _ _ _ GE) as HbE.
  pose proof (nul_at_not _ _ _ _ D GE ltac:(discriminate)) as HpE.
  destruct (memmove (curBibEntry s) (ul (curBibInd s + 10))
              (ul (curBibInd s + 11)) (ul (indEOL - curBibInd s - 13)))
    as [b1|] eqn:M1; [|discriminate].
  destruct (memmove b1 (ul (indEOL - 3)) (ul (indEOL - 1))
              (ul (curBibLength s - indEOL + 2))) as [b2|] eqn:M2;
    [|discriminate].
  injection H as <-.
  pose proof (memmove_inv _ _ _ _ _ M1) as (A1 & A2 & A3 & A4 & A5 & A6).
  pose proof (memmove_inv _ _ _ _ _ M2) as (B1 & B2 & B3 & B4 & B5 & B6).
  rewrite A6 in B4, B5.
  assert (U : ul (curBibInd s + 10) = curBibInd s + 10
              /\ ul (curBibInd s + 11) = curBibInd s + 11
              /\ ul (indEOL - curBibInd s - 13) = indEOL - curBibInd s - 13
              /\ ul (indEOL - 3) = indEOL - 3
              /\ ul (indEOL - 1) = indEOL - 1
              /\ ul (curBibLength s - indEOL + 2)
                 = curBibLength s - indEOL + 2
              /\ ul (curBibLength s - 2) = curBibLength s - 2
              /\ curBibInd s + 13 <= indEOL
              /\ indEOL - 2 <= curBibLength s) by ul_lia.
  destruct U as (U10 & U11 & Un1 & U3 & U1 & Un2 & Ul & HE & Hlen).
  rewrite ?U10, ?U11, ?Un1, ?U3, ?U1, ?Un2 in *.
  clear A1 A2 A3 A4 A5 B1 B2 B3 B4 B5.
  assert (Hlp : curBibLength s <= p + 1)
    by (destruct E as [E|[E1 E2]]; lia).
  pose proof (get_memmove _ _ _ _ _ M1) as GM1.
  pose proof (get_memmove _ _ _ _ _ M2) as GM2.
  destruct (memmove_nul _ _ _ _ _ p M1 ltac:(lia) D ltac:(lia))
    as (p1 & Hn1 & Hle1 & _ & Q2 & Q3 & Q4).
  specialize (Q4 ltac:(lia)).
  destruct (memmove_nul _ _ _ _ _ p1 M2 ltac:(lia) Hn1 ltac:(lia))
    as (p2 & Hn2 & Hle2 & R1 & R2 & R3 & R4).
  apply (edit_inv s _ p p2 Hinv Hi (or_introl G0) Hround eq_refl eq_refl);
    cbn [with_entry curBibEntry curBibInd curBibLength];
    try assumption; try lia.
  - intros k Hk. zone GM2. zone GM1. reflexivity.
  - intros _. zone GM2. zone GM1. rewrite G0. discriminate.
  - rewrite Ul. destruct E as [E|[E1 E2]]; [left; lia|].
    assert (curBibLength s <> indEOL)
      by (intros Hx; rewrite Hx, GE in E2; discriminate E2).
    destruct (Z_lt_ge_dec p indEOL) as [Hlt|Hge]; [left; lia|].
    right. split; [lia|]. zone GM2. zone GM1. same_get E2.
Qed.

Lemma issn_bytes (b : buffer) (j : Z) :
  strncmp0 b j kw_issn = Some true ->
  forall k, j <= k <= j + 3 -> plain_at b k.
Proof.
  intros H k Hk.
  assert (G : forall n c, nth_error kw_issn n = Some c ->
                          get b (j + Z.of_nat n) = Some c)
    by (intros n c; apply strncmp0_true_nth; exact H).
  assert (Hc : k = j + Z.of_nat 0 \/ k = j + Z.of_nat 1
               \/ k = j + Z.of_nat 2 \/ k = j + Z.of_nat 3) by lia.
  destruct Hc as [-> |[-> |[-> | ->]]]; eexists;
    (split; [apply G; reflexivity|]); repeat split; discriminate.
Qed.

(** One round of the loop keeps the invariant, and the first NUL does not
    move to the right. *)
Lemma scan_body_inv (s s' : scan_state) (p : Z) (c : ascii) :
  scan_inv s p ->
  get (curBibEntry s) (curBibInd s) = Some c -> c <> NUL ->
  scan_body cfg bUrlException s = Some s' ->
  exists p', p' <= p /\ scan_inv (with_ind s' (ul (curBibInd s' + 1))) p'.
Proof.
  intros Hinv Hg Hc H. pose proof Hinv as (A & B & C & D & E & F).
  pose proof (nul_at_bound _ _ D) as Hb.
  pose proof (nul_at_not _ _ _ _ D Hg Hc) as Hne.
  assert (Hi : curBibInd s < p) by lia.
  assert (Hkeep : forall t,
             curBibEntry t = curBibEntry s -> curBibInd t = curBibInd s ->
             curBibLength t = curBibLength s ->
             bHasISSN t = bHasISSN s -> issnInd t = issnInd s ->
             exists p', p' <= p
                        /\ scan_inv (with_ind t (ul (curBibInd t + 1))) p').
  { intros t T1 T2 T3 T4 T5.
    apply (keep_inv s t p Hinv Hi T1 T2 T3). left. split; assumption. }
  unfold scan_body in H. rewrite Hg in H.
  destruct (Ascii.eqb_spec c LF) as [->|Hlf].
  - destruct (strncmp0 (curBibEntry s) (ul (curBibInd s + 1)) kw_month)
      as [[|]|] eqn:Em; [| |discriminate].
    { destruct (get (curBibEntry s) (ul (curBibInd s + 9))) as [c9|];
        [|discriminate].
      destruct (Ascii.eqb c9 "{");
        [|injection H as <-; apply Hkeep; reflexivity].
      destruct (get (curBibEntry s) (ul (curBibInd s + 13))) as [c13|] eqn:G13;
        [|discriminate].
      destruct (Ascii.eqb_spec c13 "}") as [->|];
        [|injection H as <-; apply Hkeep; reflexivity].
      exact (fix_month_inv s s' p Hinv Hi Hg G13 H). }
    destruct (strncmp0 (curBibEntry s) (ul (curBibInd s + 1)) kw_title)
      as [[|]|]; [| |discriminate].
    { exact (fix_title_inv s s' p Hinv Hi Hg H). }
    destruct (note_line cfg (curBibEntry s) (ul (curBibInd s + 1)))
      as [[|]|]; [| |discriminate].
    { exact (erase_field_inv s s' p Hinv Hi Hg H). }
    destruct (strncmp0 (curBibEntry s) (ul (curBibInd s + 1)) kw_doi)
      as [[|]|]; [| |discriminate].
    { injection H as <-. apply Hkeep; reflexivity. }
    destruct (strncmp0 (curBibEntry s) (ul (curBibInd s + 1)) kw_file)
      as [[|]|]; [| |discriminate].
    { exact (erase_line_inv s s' p Hinv Hi Hg H). }
    destruct (strncmp0 (curBibEntry s) (ul (curBibInd s + 1)) kw_url)
      as [[|]|]; [| |discriminate].
    { destruct (url_unwanted cfg bUrlException (has_doi s)).
      - exact (erase_line_inv s s' p Hinv Hi Hg H).
      - injection H as <-. apply Hkeep; reflexivity. }
    destruct (strncmp0 (curBibEntry s) (ul (curBibInd s + 1)) kw_year)
      as [[|]|]; [| |discriminate].
    { injection H as <-. apply Hkeep; reflexivity. }
    destruct (strncmp0 (curBibEntry s) (ul (curBibInd s + 1)) kw_issn)
      as [[|]|] eqn:Ei; [| |discriminate];
      injection H as <-; [|apply Hkeep; reflexivity].
    assert (Hu : ul (curBibInd s + 1) = curBibInd s + 1) by ul_lia.
    rewrite Hu in *.
    apply (keep_inv s _ p Hinv Hi); try reflexivity.
    right. split; [reflexivity|]. cbn [with_issn issnInd].
    apply issn_bytes. exact Ei.
  - destruct (strncmp0 (curBibEntry s) (curBibInd s) esc_open)
      as [[|]|] eqn:Eo; [| |discriminate].
    { exact (fix_open_brace_inv s s' p Hinv Eo H). }
    destruct (strncmp0 (curBibEntry s) (curBibInd s) esc_close)
      as [[|]|] eqn:Ec; [| |discriminate].
    { exact (fix_close_brace_inv s s' p Hinv Ec H). }
    injection H as <-. apply Hkeep; reflexivity.
Qed.

(** The loop keeps the invariant; it ends at the first NUL. *)
Lemma scan_loop_inv (fuel : nat) :
  forall (s r : scan_state) (p : Z),
    scan_inv s p ->
    scan_loop cfg bUrlException fuel s = Some r ->
    exists p', p' <= p /\ scan_inv r p'.
Proof.
  induction fuel as [|f IH]; intros s r p Hinv H; [discriminate H|].
  cbn [scan_loop] in H.
  destruct (get (curBibEntry s) (curBibInd s)) as [c|] eqn:Hg;
    [|discriminate].
  destruct (Ascii.eqb_spec c NUL) as [->|Hc].
  - injection H as <-. exists p. split; [lia|exact Hinv].
  - destruct (scan_body cfg bUrlException s) as [s'|] eqn:Hb;
      [|discriminate].
    destruct (scan_body_inv s s' p c Hinv Hg Hc Hb) as (p1 & Hle & Hinv1).
    destruct (IH _ _ _ Hinv1 H) as (p2 & Hle2 & Hinv2).
    exists p2. split; [lia|exact Hinv2].
Qed.

(** The renaming of [issn] does not move the first NUL. *)
Lemma backfill_nul (s : scan_state) (p : Z) (b' : buffer) :
  scan_inv s p -> backfill cfg s = Some b' -> nul_at b' p.
Proof.
  intros (A & B & C & D & E & F) H. unfold backfill in H.
  destruct (turn_issn_into_missing_year cfg && negb (bHasYear s)
            && bHasISSN s) eqn:Ec; [|injection H as <-; exact D].
  apply andb_true_iff in Ec. destruct Ec as [_ Ec].
  destruct (F Ec) as (F1 & F2).
  pose proof (nul_at_bound _ _ D) as Hb.
  assert (Hp : issnInd s + 3 < p).
  { assert (forall k, issnInd s <= k <= issnInd s + 3 -> k <> p).
    { intros k Hk. destruct (F2 k Hk) as (x & G & N & _).
      exact (nul_at_not _ _ _ _ D G N). }
    pose proof (H0 (issnInd s)). pose proof (H0 (issnInd s + 1)).
    pose proof (H0 (issnInd s + 2)). pose proof (H0 (issnInd s + 3)). lia. }
  assert (U : ul (issnInd s + 1) = issnInd s + 1
              /\ ul (issnInd s + 2) = issnInd s + 2
              /\ ul (issnInd s + 3) = issnInd s + 3) by ul_lia.
  destruct U as (U1 & U2 & U3). rewrite U1, U2, U3 in H.
  destruct (put (curBibEntry s) (issnInd s) "y") as [b1|] eqn:P1;
    [|discriminate].
  destruct (put b1 (issnInd s + 1) "e") as [b2|] eqn:P2; [|discriminate].
  destruct (put b2 (issnInd s + 2) "a") as [b3|] eqn:P3; [|discriminate].
  pose proof (put_nul _ _ _ _ _ P1 D ltac:(lia) ltac:(discriminate)) as D1.
  pose proof (put_nul _ _ _ _ _ P2 D1 ltac:(lia) ltac:(discriminate)) as D2.
  pose proof (put_nul _ _ _ _ _ P3 D2 ltac:(lia) ltac:(discriminate)) as D3.
  exact (put_nul _ _ _ _ _ H D3 ltac:(lia) ltac:(discriminate)).
Qed.

End Edits.

Lemma scan_type_index (fuel : nat) :
  forall (b : buffer) (i : Z) (acc : list ascii) (r : list ascii * Z),
    1 <= i <= BIB_TYPE_MAX -> scan_type fuel b i acc = Some r ->
    1 <= snd r <= BIB_TYPE_MAX /\ snd r < blen b.
Proof.
  induction fuel as [|f IH]; intros b i acc r Hi H; cbn [scan_type] in H;
    destruct (get b i) as [c|] eqn:G; try discriminate;
    apply get_Some_lt in G;
    destruct (negb (Ascii.eqb c "{") && (i <? BIB_TYPE_MAX)) eqn:E;
    try discriminate; try (injection H as <-; cbn [snd]; lia).
  apply andb_true_iff in E. destruct E as [_ E]. apply Z.ltb_lt in E.
  unfold BIB_TYPE_MAX in *.
  rewrite ul_small in H
    by (change ULONG_MOD with 18446744073709551616; lia).
  apply IH in H; lia.
Qed.

Section Length.

Variable cfg : config.

(** At the last byte of the block the loop stops at once or leaves the
    block. *)
Lemma scan_loop_last (bU : bool) (fuel : nat) (s r : scan_state) :
  curBibInd s = blen (curBibEntry s) - 1 ->
  blen (curBibEntry s) + 1 < ULONG_MOD ->
  scan_loop cfg bU fuel s = Some r -> r = s.
Proof.
  intros Hi Hs H. destruct fuel as [|f]; [discriminate H|].
  cbn [scan_loop] in H.
  destruct (get (curBibEntry s) (curBibInd s)) as [c|] eqn:G;
    [|discriminate].
  destruct (Ascii.eqb c NUL); [injection H as <-; reflexivity|].
  exfalso. pose proof (blen_nonneg (curBibEntry s)) as Hnn.
  assert (Hu : ul (curBibInd s + 1) = blen (curBibEntry s))
    by (rewrite ul_small; lia).
  assert (Hn : get (curBibEntry s) (curBibInd s + 1) = None)
    by (apply get_ge_None; lia).
  assert (Hend : forall t, curBibEntry t = curBibEntry s ->
                           curBibInd t = curBibInd s ->
                           scan_loop cfg bU f
                             (with_ind t (ul (curBibInd t + 1))) = None).
  { intros t T1 T2. destruct f as [|f]; [reflexivity|].
    cbn [scan_loop with_ind curBibEntry curBibInd].
    rewrite T1, T2, Hu, get_ge_None by lia. reflexivity. }
  unfold scan_body in H. rewrite G in H.
  assert (Hk : forall kw, kw <> [] ->
                 strncmp0 (curBibEntry s) (ul (curBibInd s + 1)) kw = None).
  { intros kw Hkw. destruct kw as [|x kw]; [contradiction|].
    cbn [strncmp0]. rewrite Hu, get_ge_None by lia. reflexivity. }
  destruct (Ascii.eqb c LF).
  - rewrite Hk in H by discriminate. discriminate H.
  - unfold esc_open, esc_close in H. cbn [strncmp0] in H.
    rewrite G, Hn in H.
    destruct (Ascii.eqb c "{"); [discriminate H|].
    rewrite Hend in H by reflexivity. discriminate H.
Qed.

Lemma fix_entry_length_at (pad : ascii) (entry out : list ascii) (p : Z) :
  2 * blen entry + 36 < ULONG_MOD ->
  nul_at (entry ++ [NUL; pad]) p -> blen entry <= p + 1 ->
  fix_entry cfg pad entry = Some out -> blen out <= p.
Proof.
  intros Hs Hp Hlen H. unfold fix_entry in H. cbv zeta in H.
  set (b := entry ++ [NUL; pad]) in *.
  assert (Hb : blen b = blen entry + 2) by (unfold b; blen_norm; lia).
  destruct (scan_type (Z.to_nat BIB_TYPE_MAX) b 1 []) as [r|] eqn:T;
    [|discriminate].
  apply scan_type_index in T; [|unfold BIB_TYPE_MAX; lia].
  destruct T as (T1 & T2).
  destruct (scan_loop cfg (exception_flag cfg (fst r))
              (S (2 * length b)) (scan_start b (blen entry) (snd r)))
    as [sf|] eqn:L; [|discriminate].
  destruct (backfill cfg sf) as [b'|] eqn:B; [|discriminate].
  injection H as <-.
  pose proof (nul_at_bound _ _ Hp) as Hpb.
  assert (Hlast : get b (blen entry) = Some NUL)
    by (unfold b; apply get_at).
  assert (Hple : p <= blen entry).
  { destruct (Z_lt_ge_dec (blen entry) p) as [Hlt|Hge]; [|lia].
    exfalso. destruct Hp as [_ P2]. apply (P2 (blen entry)); [|exact Hlast].
    pose proof (blen_nonneg entry). lia. }
  destruct (Z_lt_ge_dec p (snd r)) as [Hbig|Hin].
  - (* the type scan went past the first NUL *)
    assert (Hsf : sf = scan_start b (blen entry) (snd r)).
    { destruct (Z.eq_dec (snd r) (blen entry)) as [Heq|Hne].
      - revert L. cbn [scan_loop scan_start curBibEntry curBibInd].
        rewrite Heq, Hlast. cbn. congruence.
      - apply (scan_loop_last _ _ _ _) in L; [exact L| |];
          cbn [scan_start curBibEntry curBibInd];
          change ULONG_MOD with 18446744073709551616 in *; lia. }
    subst sf. unfold backfill in B.
    cbn [scan_start bHasISSN curBibEntry] in B.
    rewrite andb_false_r in B. injection B as <-.
    rewrite <- (cstr_length b p Hp). unfold blen. lia.
  - assert (Hinv : scan_inv (scan_start b (blen entry) (snd r)) p).
    { unfold scan_inv.
      cbn [scan_start curBibEntry curBibInd curBibLength bHasISSN issnInd].
      pose proof (blen_nonneg entry).
      split; [rewrite Hb; lia|]. split; [lia|].
      split; [change ULONG_MOD with 18446744073709551616 in *; lia|].
      split; [exact Hp|].
      split; [|discriminate].
      destruct (Z.eq_dec p (blen entry)) as [->|Hne]; [left; lia|].
      right. split; [lia|exact Hlast]. }
    destruct (scan_loop_inv cfg _ _ _ _ _ Hinv L) as (p' & Hle & Hinv').
    pose proof (backfill_nul cfg sf p' b' Hinv' B) as Hn.
    pose proof (cstr_length b' p' Hn) as E. unfold blen. lia.
Qed.

Lemma nul_at_app (t x : list ascii) :
  ~ In NUL t -> nul_at (t ++ NUL :: x) (blen t).
Proof.
  intros Hn. split; [apply get_at|].
  intros k Hk G.
  destruct (get_lt_Some t k Hk) as [c Hc].
  rewrite (get_ext t (NUL :: x) k c Hc) in G. injection G as ->.
  apply Hn. unfold get in Hc. destruct (k <? 0); [discriminate|].
  exact (nth_error_In _ _ Hc).
Qed.

Lemma blen_copy_entry (inp : list ascii) (a len : Z) :
  0 <= len -> blen (copy_entry inp a len) = len.
Proof.
  intros H. unfold copy_entry, blen. rewrite length_map, length_seq. lia.
Qed.

Lemma get_copy_entry (inp : list ascii) (a len k : Z) :
  0 <= a -> 0 <= k < len -> a + len < ULONG_MOD ->
  get (copy_entry inp a len) k = Some (rdin inp (a + k)).
Proof.
  intros Ha Hk Hs. unfold get, copy_entry.
  destruct (Z.ltb_spec k 0); [lia|].
  rewrite nth_error_map, nth_error_seq.
  destruct (Nat.ltb_spec (Z.to_nat k) (Z.to_nat len)); [|lia].
  cbn [option_map Nat.add]. rewrite ul_small by lia.
  do 2 f_equal. lia.
Qed.

(** The block of an entry that the extractor yields: its first NUL is the
    terminator, or the byte before it when the input ends with the entry. *)
Lemma entry_block_nul (inp : list ascii) (pad : ascii) (a e : Z) :
  blen inp + 2 < ULONG_MOD -> 0 <= a ->
  rdin inp a = "@"%char -> first_terminator inp a e ->
  exists p,
    nul_at (copy_entry inp a (e - a + 2) ++ [NUL; pad]) p
    /\ e - a + 2 <= p + 1 /\ a + p <= blen inp.
Proof.
  intros Hs Ha Hat (T1 & (T2 & T3 & T4) & T5).
  assert (He : e < blen inp)
    by (apply rdin_lt; [lia|rewrite T2; discriminate]).
  set (len := e - a + 2).
  assert (Hl : blen (copy_entry inp a len) = len)
    by (apply blen_copy_entry; unfold len; lia).
  assert (Hget : forall k, 0 <= k < len ->
            get (copy_entry inp a len ++ [NUL; pad]) k
            = Some (rdin inp (a + k))).
  { intros k Hk. apply get_ext. apply get_copy_entry; unfold len in *; lia. }
  assert (Hbody : forall k, 0 <= k < len - 1 -> rdin inp (a + k) <> NUL).
  { intros k Hk. destruct (Z.eq_dec k 0) as [->|Hk0].
    - rewrite Z.add_0_r, Hat. discriminate.
    - destruct (Z.eq_dec (a + k) e) as [->|Hke];
        [rewrite T2; discriminate|].
      apply T5. unfold len in Hk. lia. }
  destruct (Ascii.eqb_spec (rdin inp (e + 1)) NUL) as [En|En].
  - exists (len - 1). split; [|unfold len; lia]. split.
    + rewrite Hget by (unfold len; lia).
      replace (a + (len - 1)) with (e + 1) by (unfold len; lia).
      rewrite En. reflexivity.
    + intros k Hk. rewrite Hget by lia. intros G. injection G as G.
      exact (Hbody k Hk G).
  - assert (He1 : e + 1 < blen inp) by (apply rdin_lt; [lia|exact En]).
    exists len. split; [|unfold len; lia]. split.
    + apply (get_at' _ (copy_entry inp a len) [pad] NUL);
        [reflexivity|symmetry; exact Hl].
    + intros k Hk. rewrite Hget by lia. intros G. injection G as G.
      destruct (Z.eq_dec k (len - 1)) as [->|Hne].
      * replace (a + (len - 1)) with (e + 1) in G by (unfold len; lia).
        exact (En G).
      * exact (Hbody k ltac:(lia) G).
Qed.

Lemma main_loop_length (pad : ascii) (inp : list ascii) (fuel : nat) :
  2 * blen inp + 40 < ULONG_MOD ->
  forall (cur : Z) (acc out : list ascii),
    0 <= cur ->
    (forall a, cur <= a -> rdin inp a = "@"%char -> blen acc <= a) ->
    blen acc <= blen inp ->
    main_loop fuel cfg pad inp cur acc = Some out ->
    blen out <= blen inp.
Proof.
  intros Hs. induction fuel as [|f IH]; intros cur acc out Hc Hacc Hle H;
    [discriminate H|].
  cbn [main_loop] in H.
  pose proof (next_entry_spec inp cur
                ltac:(change ULONG_MOD with 18446744073709551616 in *; lia)
                Hc) as Hn.
  destruct (next_entry inp cur) as [[[a e] len]|];
    [|injection H as <-; exact Hle].
  destruct Hn as (Hfs & Hft & ->).
  destruct (fix_entry cfg pad (copy_entry inp a (e - a + 2)))
    as [fixed|] eqn:Hf; [|discriminate].
  pose proof Hfs as (F1 & F2 & F3). pose proof Hft as (T1 & (T2 & T3 & T4) & T5).
  destruct (entry_block_nul inp pad a e
              ltac:(change ULONG_MOD with 18446744073709551616 in *; lia)
              ltac:(lia) F2 Hft) as (p & Hp & Hp1 & Hp2).
  assert (He : e < blen inp)
    by (apply rdin_lt; [lia|rewrite T2; discriminate]).
  assert (Hfl : blen fixed <= p).
  { apply (fix_entry_length_at pad _ _ p) in Hf; [exact Hf| |exact Hp|].
    - rewrite blen_copy_entry by lia. lia.
    - rewrite blen_copy_entry by lia. exact Hp1. }
  pose proof (Hacc a F1 F2) as Ha.
  pose proof (nul_at_bound _ _ Hp) as Hpb.
  rewrite blen_app, blen_cons, blen_cons, blen_nil, blen_copy_entry in Hpb
    by lia.
  apply (IH e (acc ++ fixed) out); try lia; try exact H.
  - intros a' Ha' Hat'. rewrite blen_app.
    assert (a' <> e) by (intros ->; rewrite T2 in Hat'; discriminate Hat').
    assert (a' <> e + 1)
      by (intros ->; destruct T4 as [T4|T4]; rewrite T4 in Hat';
          discriminate Hat').
    assert (p <= e - a + 2).
    { destruct (Z_lt_ge_dec (e - a + 2) p) as [Hlt|Hge]; [|lia].
      exfalso. destruct Hp as [_ P2]. apply (P2 (e - a + 2)); [lia|].
      apply (get_at' _ (copy_entry inp a (e - a + 2)) [pad] NUL);
        [reflexivity|symmetry; apply blen_copy_entry; lia]. }
    lia.
  - rewrite blen_app. lia.
Qed.

End Length.

(** ** The line locator *)

Lemma line_scan_unique (str : buffer) (cur : Z) (o1 o2 : option Z) :
  match o1 with
  | Some r =>
      cur <= r /\ get str r = Some LF
      /\ forall k, cur <= k < r -> get str k <> Some LF
  | None => forall k, cur <= k -> get str k <> Some LF
  end ->
  match o2 with
  | Some r =>
      cur <= r /\ get str r = Some LF
      /\ forall k, cur <= k < r -> get str k <> Some LF
  | None => forall k, cur <= k -> get str k <> Some LF
  end ->
  o1 = o2.
Proof.
  destruct o1 as [r1|], o2 as [r2|]; intros H1 H2.
  - destruct H1 as (A1 & B1 & C1), H2 as (A2 & B2 & C2). f_equal.
    destruct (Z.lt_trichotomy r1 r2) as [Hlt|[Heq|Hgt]]; [|exact Heq|].
    + exfalso. apply (C2 r1); [lia|exact B1].
    + exfalso. apply (C1 r2); [lia|exact B2].
  - destruct H1 as (A1 & B1 & _). exfalso. exact (H2 _ A1 B1).
  - destruct H2 as (A2 & B2 & _). exfalso. exact (H1 _ A2 B2).
  - reflexivity.
Qed.

(** X1: [findEndOfLine] has a result exactly when a newline stands in the
    block at the start index or behind it, and the result is the index of
    the first such newline.  A NUL does not stop the search: without a
    newline it runs off the end of the block, whatever the number of rounds
    it is given. *)
Theorem findEndOfLine_first_newline (str : buffer) (startInd : Z) :
  0 <= startInd -> blen str + 1 < ULONG_MOD ->
  ((exists r, findEndOfLine str startInd = Some r)
   <-> (exists k, startInd <= k /\ get str k = Some LF))
  /\ (forall r, findEndOfLine str startInd = Some r ->
        startInd <= r /\ get str r = Some LF
        /\ (forall k, startInd <= k < r -> get str k <> Some LF))
  /\ (forall fuel, (length str < fuel)%nat ->
        findEndOfLine_from fuel str startInd = findEndOfLine str startInd).
Proof.
  intros H0 Hs.
  pose proof (findEndOfLine_spec str startInd Hs H0) as Hsp.
  split; [|split].
  - split.
    + intros (r & Hr). rewrite Hr in Hsp. destruct Hsp as (A & B & _).
      exists r. split; assumption.
    + intros (k & Hk & Hat).
      destruct (findEndOfLine str startInd) as [r|]; [eauto|].
      exfalso. exact (Hsp k Hk Hat).
  - intros r Hr. rewrite Hr in Hsp. exact Hsp.
  - intros fuel Hf.
    apply (line_scan_unique str startInd); [|exact Hsp].
    destruct (Z_lt_ge_dec (blen str) startInd) as [Hbig|Hle].
    + destruct fuel as [|f]; cbn [findEndOfLine_from];
        [|rewrite get_ge_None by lia];
        intros k Hk; rewrite get_ge_None by lia; discriminate.
    + apply findEndOfLine_from_spec; [exact Hs|exact H0|].
      unfold blen in *. lia.
Qed.

(** ** The rounds of the scan *)


(** ** The length of the output *)

Lemma no_nul_block (pad : ascii) (entry : list ascii) :
  forallb (fun c => negb (Ascii.eqb c NUL)) (removelast entry) = true ->
  exists p,
    nul_at (entry ++ [NUL; pad]) p /\ blen entry <= p + 1 /\ p <= blen entry.
Proof.
  intros H.
  assert (Hr : ~ In NUL (removelast entry)).
  { rewrite forallb_forall in H. intros Hin. specialize (H _ Hin).
    discriminate H. }
  destruct entry as [|c0 entry0] eqn:Ee.
  { exists 0. split; [|rewrite blen_nil; lia].
    split; [reflexivity|]. intros k Hk. lia. }
  rewrite <- Ee in *.
  assert (Hne : entry <> []) by (rewrite Ee; discriminate).
  pose proof (app_removelast_last NUL Hne) as El.
  set (r := removelast entry) in *. set (x := last entry NUL) in *.
  destruct (Ascii.eqb_spec x NUL) as [Ex|Ex].
  - exists (blen r). rewrite El, Ex. split; [|blen_norm; lia].
    rewrite <- app_assoc. apply nul_at_app. exact Hr.
  - exists (blen entry). split; [|lia].
    apply nul_at_app. rewrite El. intros Hin.
    apply in_app_or in Hin. destruct Hin as [Hin|[Hin|[]]];
      [exact (Hr Hin)|exact (Ex Hin)].
Qed.

(** X3: no fix makes an entry longer.  Of an entry that holds no NUL
    before its last byte, which is what the extractor yields, the rewritten
    text is at most as long as the entry. *)
Theorem fix_entry_no_longer (cfg : config) (pad : ascii)
    (entry out : list ascii) :
  2 * blen entry + 36 < ULONG_MOD ->
  forallb (fun c => negb (Ascii.eqb c NUL)) (removelast entry) = true ->
  fix_entry cfg pad entry = Some out ->
  blen out <= blen entry.
Proof.
  intros Hs Hn H.
  destruct (no_nul_block pad entry Hn) as (p & Hp & H1 & H2).
  pose proof (fix_entry_length_at cfg pad entry out p Hs Hp H1 H). lia.
Qed.

(** X4: the output is no longer than the input, as the allocation of
    [outputContent] assumes: what [strcat] appends for the entries fits in
    the [fileLength + 1] bytes of the output block. *)
Theorem output_no_longer_than_input (cfg : config) (pad : ascii)
    (inp out : list ascii) :
  2 * blen inp + 40 < ULONG_MOD ->
  mendeleyBibFix cfg pad inp = Some out ->
  blen out <= blen inp.
Proof.
  intros Hs H. unfold mendeleyBibFix in H.
  apply (main_loop_length cfg pad inp (S (length inp)) Hs 0 [] out);
    try exact H;
    try lia.
  - intros a Ha _. rewrite blen_nil. exact Ha.
  - rewrite blen_nil. apply blen_nonneg.
Qed.

(** ** An entry with one place that is edited

    As [fix_entry_edit], for an edit at a byte [c] that need not be a
    newline. *)
Lemma fix_entry_edit_at (cfg : config) (pad : ascii) (c : ascii)
    (tag pre old keep seg2 : list ascii) (d1 d1' d2 : bool) :
  turn_issn_into_missing_year cfg = false ->
  tag_ok tag = true ->
  Ascii.eqb c NUL = false ->
  untouched cfg (exception_flag cfg tag) false ("{"%char :: pre)
    ((c :: old) ++ [NUL]) = Some d1 ->
  (forall s1,
      curBibEntry s1 = entry_of tag pre ++ c :: old ++ [NUL; pad] ->
      curBibInd s1 = blen (entry_of tag pre) ->
      curBibLength s1 = blen (entry_of tag pre ++ c :: old) ->
      has_doi s1 = d1 ->
      exists s2 junk,
        scan_body cfg (exception_flag cfg tag) s1 = Some s2
        /\ curBibEntry s2 = entry_of tag pre ++ keep ++ seg2 ++ NUL :: junk
        /\ blen (curBibEntry s2) = blen (curBibEntry s1)
        /\ curBibInd s2 + 1 = blen (entry_of tag pre ++ keep)
        /\ has_doi s2 = d1') ->
  ~ In NUL keep ->
  untouched cfg (exception_flag cfg tag) d1' seg2 [NUL] = Some d2 ->
  blen (entry_of tag pre ++ c :: old) + 18 < ULONG_MOD ->
  fix_entry cfg pad (entry_of tag (pre ++ c :: old))
  = Some (entry_of tag (pre ++ keep ++ seg2)).
Proof.
  intros Hy Ht Hc U1 Hedit Hkeep U2 Hs.
  set (bU := exception_flag cfg tag) in *.
  set (entry := entry_of tag (pre ++ c :: old)).
  set (s0 := scan_start (entry ++ [NUL; pad]) (blen entry) (1 + blen tag)).
  pose proof (blen_nonneg tag) as Htag. pose proof (blen_nonneg pre) as Hpre.
  pose proof (blen_nonneg old) as Hold.
  pose proof (blen_nonneg keep) as Hk. pose proof (blen_nonneg seg2) as Hg.
  assert (Hb0 : curBibEntry s0
                = ("@"%char :: tag)
                  ++ (("{"%char :: pre) ++ (c :: old) ++ [NUL]) ++ [pad]).
  { unfold s0, entry, entry_of. cbn [scan_start curBibEntry]. list_eq. }
  assert (Hl0 : blen (curBibEntry s0) = blen tag + blen pre + blen old + 5).
  { rewrite Hb0. blen_norm. lia. }
  assert (Hs0 : blen tag + blen pre + blen old + 21 < ULONG_MOD).
  { revert Hs. rewrite blen_app, blen_entry_of. blen_norm. lia. }
  destruct (runs_untouched cfg bU ("{"%char :: pre) s0 ("@"%char :: tag)
              (c :: old) [pad] d1 Hb0)
    as (s1 & E1 & E2 & E3 & E4 & R1).
  { unfold s0. simpl. rewrite blen_cons. reflexivity. }
  { rewrite Hl0. lia. }
  { exact U1. }
  destruct (Hedit s1) as (s2 & junk & Hbody & F1 & F2 & F3 & F4).
  { rewrite E1. unfold s0, entry, entry_of. cbn [scan_start curBibEntry].
    list_eq. }
  { rewrite E2, blen_entry_of. blen_norm. lia. }
  { rewrite E3. unfold s0, entry. cbn [scan_start curBibLength].
    rewrite entry_of_app. reflexivity. }
  { exact E4. }
  assert (Hg1 : get (curBibEntry s1) (curBibInd s1) = Some c).
  { rewrite E1, E2, Hb0.
    replace (("@"%char :: tag)
             ++ (("{"%char :: pre) ++ (c :: old) ++ [NUL]) ++ [pad])
      with ((("@"%char :: tag) ++ "{"%char :: pre)
            ++ c :: (old ++ [NUL] ++ [pad]))
      by list_eq.
    rewrite <- blen_app. apply get_at. }
  pose proof (runs_step cfg bU s1 s2 c Hg1 Hc Hbody) as R2.
  assert (Hl2 : blen (curBibEntry s2) = blen tag + blen pre + blen old + 5).
  { rewrite F2, E1. exact Hl0. }
  assert (Hsz : blen tag + blen pre + blen keep + blen seg2 + 3
                <= blen tag + blen pre + blen old + 5).
  { rewrite <- Hl2, F1, blen_app, blen_entry_of. blen_norm.
    pose proof (blen_nonneg junk). lia. }
  destruct (runs_untouched cfg bU seg2
              (with_ind s2 (ul (curBibInd s2 + 1)))
              (entry_of tag pre ++ keep) [] junk d2)
    as (s3 & G1 & G2 & G3 & G4 & R3).
  { cbn [with_ind curBibEntry]. rewrite F1. list_eq. }
  { cbn [with_ind curBibInd]. rewrite F3. apply ul_small.
    rewrite blen_app, blen_entry_of. lia. }
  { cbn [with_ind curBibEntry]. rewrite Hl2. lia. }
  { cbn [with_ind has_doi]. rewrite F4. exact U2. }
  cbn [with_ind curBibEntry] in G1.
  assert (Hstop : scan_loop cfg bU 1 s3 = Some s3).
  { apply scan_loop_stop. rewrite G1, G2, F1.
    replace (entry_of tag pre ++ keep ++ seg2 ++ NUL :: junk)
      with (((entry_of tag pre ++ keep) ++ seg2) ++ NUL :: junk)
      by list_eq.
    rewrite <- blen_app. apply get_at. }
  apply R3, R2, R1 in Hstop. unfold entry.
  rewrite (fix_entry_scan cfg pad tag (pre ++ c :: old) s3 _ Hy Ht Hstop).
  - rewrite G1, F1.
    replace (entry_of tag pre ++ keep ++ seg2 ++ NUL :: junk)
      with (entry_of tag (pre ++ keep ++ seg2) ++ NUL :: junk)
      by (unfold entry_of; list_eq).
    rewrite cstr_text; [reflexivity|].
    unfold entry_of. intros [H|H]; [discriminate H|].
    apply in_app_or in H. destruct H as [H|H];
      [exact (tag_ok_no_NUL tag Ht H)|].
    change ("{"%char :: pre ++ keep ++ seg2)
      with (("{"%char :: pre) ++ keep ++ seg2) in H.
    apply in_app_or in H. destruct H as [H|H];
      [exact (untouched_no_NUL _ _ _ _ _ _ U1 H)|].
    apply in_app_or in H. destruct H as [H|H];
      [exact (Hkeep H)|exact (untouched_no_NUL _ _ _ _ _ _ U2 H)].
  - unfold blen in *. rewrite length_app. simpl length.
    unfold entry_of. simpl length. rewrite !length_app. simpl length.
    rewrite length_app. simpl length. lia.
Qed.

(** ** The escaped braces *)

Lemma fix_open_brace_spec (s : scan_state) (A R junk : list ascii)
    (j0 : ascii) :
  curBibEntry s = A ++ esc_open ++ R ++ NUL :: j0 :: junk ->
  curBibInd s = blen A ->
  curBibLength s = blen A + 4 + blen R ->
  blen A + blen R + blen junk + 16 < ULONG_MOD ->
  exists s' junk',
    fix_open_brace s = Some s'
    /\ curBibEntry s' = A ++ "{"%char :: R ++ NUL :: j0 :: junk'
    /\ blen (curBibEntry s') = blen (curBibEntry s)
    /\ curBibInd s' = blen A
    /\ curBibLength s' = blen A + 1 + blen R
    /\ has_doi s' = has_doi s.
Proof.
  destruct s as [buf i len y isn ii d].
  cbn [curBibEntry curBibInd curBibLength has_doi]. intros -> -> -> Hs.
  pose proof (blen_nonneg A) as HA. pose proof (blen_nonneg R) as HR.
  pose proof (blen_nonneg junk) as HJ.
  unfold fix_open_brace. cbn [curBibEntry curBibInd curBibLength].
  rewrite !ul_small by lia.
  rewrite (memmove_delete' _ (A ++ ["{"%char]) ["\"%char; "{"%char; "}"%char]
             (R ++ [NUL; j0]) junk)
    by (first [unfold esc_open; list_eq | blen_norm; lia]).
  eexists.
  exists (skipn (length (R ++ [NUL; j0]))
            (["\"%char; "{"%char; "}"%char] ++ R ++ [NUL; j0]) ++ junk).
  split; [reflexivity|].
  cbn [with_entry curBibEntry curBibInd curBibLength has_doi].
  split; [list_eq|].
  split.
  { unfold esc_open. blen_norm. rewrite blen_skipn. blen_norm. unfold blen.
    rewrite length_app. simpl length. lia. }
  split; [reflexivity|]. split; [lia|reflexivity].
Qed.

Lemma fix_close_brace_spec (s : scan_state) (A R junk : list ascii)
    (j0 : ascii) :
  curBibEntry s = A ++ esc_close ++ R ++ NUL :: j0 :: junk ->
  curBibInd s = blen A ->
  curBibLength s = blen A + 4 + blen R ->
  blen A + blen R + blen junk + 16 < ULONG_MOD ->
  exists s' junk',
    fix_close_brace s = Some s'
    /\ curBibEntry s' = A ++ "}"%char :: R ++ NUL :: j0 :: junk'
    /\ blen (curBibEntry s') = blen (curBibEntry s)
    /\ curBibInd s' = blen A
    /\ curBibLength s' = blen A + 1 + blen R
    /\ has_doi s' = has_doi s.
Proof.
  destruct s as [buf i len y isn ii d].
  cbn [curBibEntry curBibInd curBibLength has_doi]. intros -> -> -> Hs.
  pose proof (blen_nonneg A) as HA. pose proof (blen_nonneg R) as HR.
  pose proof (blen_nonneg junk) as HJ.
  unfold fix_close_brace. cbn [curBibEntry curBibInd curBibLength].
  rewrite !ul_small by lia.
  rewrite (put_at' _ A ("\"%char :: "}"%char :: "}"%char
                          :: R ++ NUL :: j0 :: junk) "{" "}")
    by (first [unfold esc_close; list_eq | reflexivity]).
  rewrite (memmove_delete' _ (A ++ ["}"%char]) ["\"%char; "}"%char; "}"%char]
             (R ++ [NUL; j0]) junk)
    by (first [list_eq | blen_norm; lia]).
  eexists.
  exists (skipn (length (R ++ [NUL; j0]))
            (["\"%char; "}"%char; "}"%char] ++ R ++ [NUL; j0]) ++ junk).
  split; [reflexivity|].
  cbn [with_entry curBibEntry curBibInd curBibLength has_doi].
  split; [list_eq|].
  split.
  { unfold esc_close. blen_norm. rewrite blen_skipn. blen_norm. unfold blen.
    rewrite length_app. simpl length. lia. }
  split; [reflexivity|]. split; [lia|reflexivity].
Qed.

Lemma scan_body_brace (cfg : config) (bU : bool) (s : scan_state)
    (A l : list ascii) (esc : list ascii) :
  esc = esc_open \/ esc = esc_close ->
  curBibEntry s = A ++ esc ++ l ->
  curBibInd s = blen A ->
  scan_body cfg bU s
  = if list_eqb esc esc_open then fix_open_brace s else fix_close_brace s.
Proof.
  intros He Hb Hi. unfold scan_body. rewrite Hb, Hi.
  assert (G : get (A ++ esc ++ l) (blen A) = Some "{"%char)
    by (destruct He as [-> | ->]; apply get_at).
  rewrite G. change (Ascii.eqb "{" LF) with false. cbv beta iota.
  replace (blen A) with (blen A + 0) by lia.
  rewrite !strncmp0_shift by lia.
  destruct He as [-> | ->]; reflexivity.
Qed.

(** X5: an escaped brace loses its escape: [{\{}] becomes [{] and [{\}}]
    becomes [}], three bytes fewer, and the scan goes on behind the brace;
    the rest of the entry, which the scan leaves alone, stays as it is. *)
Theorem escaped_brace_unescaped (cfg : config) (pad : ascii)
    (tag pre post esc : list ascii) (d1 d2 : bool) :
  turn_issn_into_missing_year cfg = false ->
  tag_ok tag = true ->
  esc = esc_open \/ esc = esc_close ->
  untouched cfg (exception_flag cfg tag) false ("{"%char :: pre)
    ((esc ++ post) ++ [NUL]) = Some d1 ->
  untouched cfg (exception_flag cfg tag) d1 post [NUL] = Some d2 ->
  blen (entry_of tag (pre ++ esc ++ post)) + 18 < ULONG_MOD ->
  fix_entry cfg pad (entry_of tag (pre ++ esc ++ post))
  = Some (entry_of tag
            (pre ++ (if list_eqb esc esc_open then "{"%char else "}"%char)
                 :: post)).
Proof.
  intros Hy Ht He U1 U2 Hs.
  pose proof (blen_nonneg tag) as Htag. pose proof (blen_nonneg pre) as Hpre.
  pose proof (blen_nonneg post) as Hpost.
  assert (Hs' : blen tag + blen pre + blen post + 24 < ULONG_MOD).
  { revert Hs. rewrite blen_entry_of. blen_norm.
    destruct He as [-> | ->];
      [change (blen esc_open) with 4|change (blen esc_close) with 4]; lia. }
  assert (Hesc : exists t, esc = "{"%char :: t /\ blen t = 3)
    by (destruct He as [-> | ->]; eexists; split; reflexivity).
  destruct Hesc as (t & Et & Hlt).
  set (k := if list_eqb esc esc_open then "{"%char else "}"%char).
  replace (pre ++ esc ++ post) with (pre ++ "{"%char :: t ++ post)
    by (rewrite Et; reflexivity).
  change (pre ++ k :: post) with (pre ++ [k] ++ post).
  apply (fix_entry_edit_at cfg pad "{" tag pre (t ++ post) [k] post d1 d1 d2
           Hy Ht eq_refl).
  - rewrite Et in U1. exact U1.
  - intros s1 Hb Hi Hl Hd.
    assert (Hb' : curBibEntry s1
                  = entry_of tag pre ++ esc ++ post ++ NUL :: pad :: []).
    { rewrite Hb, Et. list_eq. }
    rewrite (scan_body_brace cfg _ s1 (entry_of tag pre)
               (post ++ NUL :: pad :: []) esc He Hb' Hi).
    fold k.
    assert (Hlen : curBibLength s1 = blen (entry_of tag pre) + 4 + blen post).
    { rewrite Hl. blen_norm. lia. }
    destruct He as [-> | ->].
    + destruct (fix_open_brace_spec s1 (entry_of tag pre) post [] pad Hb' Hi
                  Hlen)
        as (s2 & junk & E & F1 & F2 & F3 & F4 & F5).
      { rewrite blen_entry_of, blen_nil. lia. }
      exists s2, (pad :: junk). split; [exact E|].
      split; [rewrite F1; list_eq|]. split; [exact F2|].
      split; [rewrite F3; blen_norm; lia|]. rewrite F5. exact Hd.
    + destruct (fix_close_brace_spec s1 (entry_of tag pre) post [] pad Hb' Hi
                  Hlen)
        as (s2 & junk & E & F1 & F2 & F3 & F4 & F5).
      { rewrite blen_entry_of, blen_nil. lia. }
      exists s2, (pad :: junk). split; [exact E|].
      split; [rewrite F1; list_eq|]. split; [exact F2|].
      split; [rewrite F3; blen_norm; lia|]. rewrite F5. exact Hd.
  - unfold k. destruct (list_eqb esc esc_open); intros [H|[]];
      discriminate H.
  - exact U2.
  - rewrite entry_of_app. rewrite Et in Hs. exact Hs.
Qed.

(** ** The [file] line and the [url] line *)

Lemma note_line_other (cfg : config) (A l : list ascii) (c : ascii) :
  c <> "a"%char ->
  note_line cfg (A ++ LF :: c :: l) (blen A + 1) = Some false.
Proof.
  intros Hc. unfold note_line.
  assert (E : forall kw, hd_error kw = Some "a"%char ->
                strncmp0 (A ++ LF :: c :: l) (blen A + 1) kw = Some false).
  { intros kw Hkw. rewrite strncmp0_shift by lia.
    apply strncmp0_other with (x := c).
    - reflexivity.
    - rewrite Hkw. congruence.
    - intros ->. discriminate Hkw. }
  rewrite !E by reflexivity.
  destruct (keep_annote cfg), (keep_abstract cfg); reflexivity.
Qed.

Lemma scan_body_file (cfg : config) (bU : bool) (s : scan_state)
    (A l : list ascii) :
  curBibEntry s = A ++ LF :: kw_file ++ l ->
  curBibInd s = blen A ->
  blen A + 16 < ULONG_MOD ->
  scan_body cfg bU s = erase_line s.
Proof.
  intros Hb Hi Hs. pose proof (blen_nonneg A).
  unfold scan_body. rewrite Hb, Hi, get_at.
  change (Ascii.eqb LF LF) with true. cbv beta iota.
  rewrite !ul_small by lia.
  change (LF :: kw_file ++ l) with (LF :: "f"%char :: (lit "ile =" ++ l)).
  rewrite note_line_other by discriminate.
  rewrite !strncmp0_shift by lia. reflexivity.
Qed.

(** ** The flags of the year *)

Lemma fix_flags (s s' : scan_state) :
  fix_month s = Some s' \/ fix_title s = Some s' \/ erase_field s = Some s'
  \/ erase_line s = Some s' \/ fix_open_brace s = Some s'
  \/ fix_close_brace s = Some s' ->
  bHasYear s' = bHasYear s /\ bHasISSN s' = bHasISSN s
  /\ issnInd s' = issnInd s.
Proof.
  unfold fix_month, fix_title, erase_field, erase_line, erase_to,
    fix_open_brace, fix_close_brace.
  intros [H|[H|[H|[H|[H|H]]]]];
    repeat match type of H with
           | context [match ?x with _ => _ end] =>
               destruct x; try discriminate H
           end;
    injection H as <-; repeat split.
Qed.

Lemma other_keyword (b : buffer) (j : Z) (kw1 kw2 : list ascii) :
  strncmp0 b j kw1 = Some true ->
  hd_error kw1 <> hd_error kw2 -> kw1 <> [] -> kw2 <> [] ->
  strncmp0 b j kw2 = Some false.
Proof.
  intros H Hne H1 H2. destruct kw1 as [|c kw1]; [contradiction|].
  apply strncmp0_true_head in H.
  apply strncmp0_other with (x := c); [exact H| |exact H2].
  intros E. apply Hne. symmetry. exact E.
Qed.

Lemma note_line_head (cfg : config) (b : buffer) (j : Z) :
  note_line cfg b j = Some true -> get b j = Some "a"%char.
Proof.
  unfold note_line. intros H.
  destruct (keep_annote cfg).
  - destruct (keep_abstract cfg); [discriminate|].
    exact (strncmp0_true_head _ _ _ _ H).
  - destruct (strncmp0 b j kw_annote) as [[|]|] eqn:E; [| |discriminate].
    + exact (strncmp0_true_head _ _ _ _ E).
    + destruct (keep_abstract cfg); [discriminate|].
      exact (strncmp0_true_head _ _ _ _ H).
Qed.

(** What a round does to the flags of the year: [bHasYear] is set at a
    [year] line, [bHasISSN] and [issnInd] at an [issn] line, and nothing
    else touches them. *)
Lemma scan_body_flags (cfg : config) (bU : bool) (s s' : scan_state)
    (c : ascii) :
  get (curBibEntry s) (curBibInd s) = Some c ->
  scan_body cfg bU s = Some s' ->
  let at_line kw :=
    Ascii.eqb c LF
    && match strncmp0 (curBibEntry s) (ul (curBibInd s + 1)) kw with
       | Some true => true
       | _ => false
       end in
  bHasYear s' = bHasYear s || at_line kw_year
  /\ bHasISSN s' = bHasISSN s || at_line kw_issn
  /\ issnInd s' = if at_line kw_issn then ul (curBibInd s + 1) else issnInd s.
Proof.
  intros Hg H. cbv zeta. unfold scan_body in H. rewrite Hg in H.
  destruct (Ascii.eqb c LF); cbn [andb].
  - assert (Hoth : forall kw x,
               hd_error kw = Some x -> x <> "y"%char -> x <> "i"%char ->
               get (curBibEntry s) (ul (curBibInd s + 1)) = Some x ->
               strncmp0 (curBibEntry s) (ul (curBibInd s + 1)) kw_year
               = Some false
               /\ strncmp0 (curBibEntry s) (ul (curBibInd s + 1)) kw_issn
                  = Some false).
    { intros kw x Hh N1 N2 G.
      split; apply strncmp0_other with (x := x); try exact G;
        try discriminate; cbn; congruence. }
    assert (Hfix : forall x,
               x <> "y"%char -> x <> "i"%char ->
               get (curBibEntry s) (ul (curBibInd s + 1)) = Some x ->
               fix_month s = Some s' \/ fix_title s = Some s'
               \/ erase_field s = Some s' \/ erase_line s = Some s'
               \/ fix_open_brace s = Some s' \/ fix_close_brace s = Some s'
               \/ s' = s \/ s' = with_doi s ->
               bHasYear s' = bHasYear s
                             || match strncmp0 (curBibEntry s)
                                        (ul (curBibInd s + 1)) kw_year with
                                | Some true => true
                                | _ => false
                                end
               /\ bHasISSN s' = bHasISSN s
                                || match strncmp0 (curBibEntry s)
                                           (ul (curBibInd s + 1)) kw_issn with
                                   | Some true => true
                                   | _ => false
                                   end
               /\ issnInd s'
                  = if match strncmp0 (curBibEntry s)
                               (ul (curBibInd s + 1)) kw_issn with
                       | Some true => true
                       | _ => false
                       end
                    then ul (curBibInd s + 1) else issnInd s).
    { intros x N1 N2 G Hc.
      destruct (Hoth [x] x eq_refl N1 N2 G) as [-> ->].
      assert (F : bHasYear s' = bHasYear s /\ bHasISSN s' = bHasISSN s
                  /\ issnInd s' = issnInd s).
      { destruct Hc as [Hc|[Hc|[Hc|[Hc|[Hc|[Hc|[-> | ->]]]]]]];
          try (repeat split; reflexivity); apply fix_flags; tauto. }
      destruct F as (F1 & F2 & F3). rewrite F1, F2, F3, !orb_false_r. auto. }
    destruct (strncmp0 (curBibEntry s) (ul (curBibInd s + 1)) kw_month)
      as [[|]|] eqn:Em; [| |discriminate].
    { apply strncmp0_true_head in Em.
      apply (Hfix "m"%char); try discriminate; try exact Em.
      destruct (get (curBibEntry s) (ul (curBibInd s + 9))) as [c9|];
        [|discriminate].
      destruct (Ascii.eqb c9 "{"); [|injection H as <-; tauto].
      destruct (get (curBibEntry s) (ul (curBibInd s + 13))) as [c13|];
        [|discriminate].
      destruct (Ascii.eqb c13 "}"); [tauto|injection H as <-; tauto]. }
    destruct (strncmp0 (curBibEntry s) (ul (curBibInd s + 1)) kw_title)
      as [[|]|] eqn:Et; [| |discriminate].
    { apply strncmp0_true_head in Et.
      apply (Hfix "t"%char); try discriminate; try exact Et. tauto. }
    destruct (note_line cfg (curBibEntry s) (ul (curBibInd s + 1)))
      as [[|]|] eqn:En; [| |discriminate].
    { apply note_line_head in En.
      apply (Hfix "a"%char); try discriminate; try exact En. tauto. }
    destruct (strncmp0 (curBibEntry s) (ul (curBibInd s + 1)) kw_doi)
      as [[|]|] eqn:Ed; [| |discriminate].
    { apply strncmp0_true_head in Ed. injection H as <-.
      apply (Hfix "d"%char); try discriminate; try exact Ed. tauto. }
    destruct (strncmp0 (curBibEntry s) (ul (curBibInd s + 1)) kw_file)
      as [[|]|] eqn:Ef; [| |discriminate].
    { apply strncmp0_true_head in Ef.
      apply (Hfix "f"%char); try discriminate; try exact Ef. tauto. }
    destruct (strncmp0 (curBibEntry s) (ul (curBibInd s + 1)) kw_url)
      as [[|]|] eqn:Eu; [| |discriminate].
    { apply strncmp0_true_head in Eu.
      apply (Hfix "u"%char); try discriminate; try exact Eu.
      destruct (url_unwanted cfg bU (has_doi s));
        [tauto|injection H as <-; tauto]. }
    destruct (strncmp0 (curBibEntry s) (ul (curBibInd s + 1)) kw_year)
      as [[|]|] eqn:Ey; [| |discriminate].
    { injection H as <-.
      rewrite (other_keyword _ _ kw_year kw_issn Ey)
        by (cbn; congruence).
      cbn [with_year bHasYear bHasISSN issnInd].
      rewrite orb_true_r, orb_false_r. auto. }
    destruct (strncmp0 (curBibEntry s) (ul (curBibInd s + 1)) kw_issn)
      as [[|]|] eqn:Ei; [| |discriminate]; injection H as <-;
      cbn [with_issn bHasYear bHasISSN issnInd];
      rewrite ?orb_true_r, ?orb_false_r; auto.
  - assert (F : bHasYear s' = bHasYear s /\ bHasISSN s' = bHasISSN s
                /\ issnInd s' = issnInd s).
    { destruct (strncmp0 (curBibEntry s) (curBibInd s) esc_open)
        as [[|]|]; [| |discriminate].
      { apply (fix_flags s s'). tauto. }
      destruct (strncmp0 (curBibEntry s) (curBibInd s) esc_close)
        as [[|]|]; [| |discriminate].
      { apply (fix_flags s s'). tauto. }
      injection H as <-. auto. }
    destruct F as (F1 & F2 & F3). rewrite F1, F2, F3, !orb_false_r. auto.
Qed.

Lemma line_here_block (A t x kw : list ascii) (c : ascii) :
  ~ In NUL kw ->
  Ascii.eqb c LF
  && match strncmp0 (A ++ ((c :: t) ++ [NUL]) ++ x) (blen A + 1) kw with
     | Some true => true
     | _ => false
     end
  = line_here kw ((c :: t) ++ [NUL]).
Proof.
  intros Hn. destruct (keyword_at t x A c kw Hn) as (v & E1 & E2).
  unfold line_here. cbn [app]. cbn [app] in E1, E2. rewrite E1, E2.
  reflexivity.
Qed.

Lemma line_starts_app (kw s1 : list ascii) :
  forall s2 rest,
    line_starts kw (s1 ++ s2) rest
    = line_starts kw s1 (s2 ++ rest) || line_starts kw s2 rest.
Proof.
  induction s1 as [|c s1 IH]; intros s2 rest; [reflexivity|].
  cbn [app line_starts]. rewrite IH, <- app_assoc, orb_assoc. reflexivity.
Qed.

Lemma issn_pos_app (s1 : list ascii) :
  forall s2 rest pos cur,
    issn_pos (s1 ++ s2) rest pos cur
    = issn_pos s2 rest (pos + blen s1) (issn_pos s1 (s2 ++ rest) pos cur).
Proof.
  induction s1 as [|c s1 IH]; intros s2 rest pos cur.
  - rewrite blen_nil, Z.add_0_r. reflexivity.
  - cbn [app issn_pos]. rewrite IH, <- app_assoc, blen_cons.
    f_equal. lia.
Qed.

Lemma issn_pos_none (seg : list ascii) :
  forall rest pos cur,
    line_starts kw_issn seg rest = false -> issn_pos seg rest pos cur = cur.
Proof.
  induction seg as [|c seg IH]; intros rest pos cur H; [reflexivity|].
  cbn [line_starts] in H. apply orb_false_iff in H. destruct H as [H1 H2].
  cbn [issn_pos]. rewrite H1. apply IH. exact H2.
Qed.

(** The loop passes over text that is left alone: the flags of the year
    at the end are those of the lines it has met. *)
Lemma runs_untouched_flags (cfg : config) (bU : bool) (seg : list ascii) :
  forall (s : scan_state) (A t x : list ascii) (d' : bool),
    curBibEntry s = A ++ (seg ++ t ++ [NUL]) ++ x ->
    curBibInd s = blen A ->
    blen (curBibEntry s) + 16 < ULONG_MOD ->
    untouched cfg bU (has_doi s) seg (t ++ [NUL]) = Some d' ->
    exists s',
      curBibEntry s' = curBibEntry s
      /\ curBibInd s' = blen A + blen seg
      /\ curBibLength s' = curBibLength s
      /\ runs cfg bU s s' (length seg)
      /\ bHasYear s' = bHasYear s || line_starts kw_year seg (t ++ [NUL])
      /\ bHasISSN s' = bHasISSN s || line_starts kw_issn seg (t ++ [NUL])
      /\ issnInd s' = issn_pos seg (t ++ [NUL]) (blen A) (issnInd s).
Proof.
  induction seg as [|c seg IH]; intros s A t x d' Hb Hi Hs Hu.
  - exists s. rewrite blen_nil. cbn [line_starts issn_pos].
    rewrite !orb_false_r. repeat split; try lia. apply runs_refl.
  - cbn [untouched] in Hu.
    destruct (quiet_here cfg bU (has_doi s)
                ((c :: seg) ++ t ++ [NUL])) eqn:Hq; [|discriminate].
    assert (Hb' : curBibEntry s = A ++ (((c :: seg) ++ t) ++ [NUL]) ++ x).
    { rewrite Hb. rewrite <- (app_assoc (c :: seg) t [NUL]). reflexivity. }
    assert (Hq' : quiet_here cfg bU (has_doi s)
                    (((c :: seg) ++ t) ++ [NUL]) = true).
    { rewrite <- app_assoc. exact Hq. }
    destruct (scan_body_quiet cfg bU s A _ x Hb' Hi Hs Hq')
      as (s1 & Hbody & E1 & E2 & E3 & E4).
    assert (Hc : Ascii.eqb c NUL = false).
    { simpl in Hq. apply andb_true_iff in Hq. destruct Hq as [Hq _].
      apply negb_true_iff in Hq. exact Hq. }
    assert (Hg : get (curBibEntry s) (curBibInd s) = Some c).
    { rewrite Hb, Hi. simpl app. apply get_at. }
    pose proof (runs_step cfg bU s s1 c Hg Hc Hbody) as R1.
    pose proof (blen_nonneg A) as HA.
    assert (Hsm : blen A + 1 < ULONG_MOD).
    { rewrite Hb in Hs. blen_norm_in Hs.
      pose proof (blen_nonneg seg). pose proof (blen_nonneg t).
      pose proof (blen_nonneg x). lia. }
    destruct (scan_body_flags cfg bU s s1 c Hg Hbody) as (Y1 & Y2 & Y3).
    rewrite Hi, ul_small in Y1, Y2, Y3 by lia.
    rewrite Hb' in Y1, Y2, Y3.
    change ((c :: seg) ++ t) with (c :: seg ++ t) in Y1, Y2, Y3.
    rewrite line_here_block in Y1, Y2, Y3
      by (intros K; simpl in K; intuition discriminate).
    change ((c :: seg ++ t) ++ [NUL]) with (c :: (seg ++ t) ++ [NUL])
      in Y1, Y2, Y3.
    rewrite <- (app_assoc seg t [NUL]) in Y1, Y2, Y3.
    destruct (IH (with_ind s1 (ul (curBibInd s1 + 1))) (A ++ [c]) t x d')
      as (s2 & F1 & F2 & F3 & R2 & Z1 & Z2 & Z3).
    + simpl. rewrite E1, Hb. rewrite <- (app_assoc A [c]). reflexivity.
    + simpl. rewrite E2, Hi. rewrite ul_small by lia.
      blen_norm. lia.
    + simpl. rewrite E1. exact Hs.
    + simpl. rewrite E4. rewrite <- (app_assoc (c :: seg) t [NUL]).
      exact Hu.
    + exists s2. simpl in F1, F3. cbn [with_ind bHasYear bHasISSN issnInd] in *.
      rewrite F1, F2, F3, E1, E3.
      blen_norm. repeat split; try lia.
      * change (length (c :: seg)) with (1 + length seg)%nat.
        eapply runs_trans; [exact R1|exact R2].
      * rewrite Z1, Y1. cbn [line_starts app]. rewrite orb_assoc.
        reflexivity.
      * rewrite Z2, Y2. cbn [line_starts app]. rewrite orb_assoc.
        reflexivity.
      * rewrite Z3, Y3. cbn [issn_pos app].
        replace (blen (A ++ [c])) with (blen A + 1) by (blen_norm; lia).
        reflexivity.
Qed.

Lemma fix_entry_backfill (cfg : config) (pad : ascii) (tag body : list ascii)
    (sf : scan_state) (fuel : nat) :
  tag_ok tag = true ->
  scan_loop cfg (exception_flag cfg tag) fuel
    (scan_start (entry_of tag body ++ [NUL; pad])
       (blen (entry_of tag body)) (1 + blen tag)) = Some sf ->
  (fuel <= S (length (entry_of tag body ++ [NUL; pad])))%nat ->
  fix_entry cfg pad (entry_of tag body)
  = (b' <- backfill cfg sf ;; Some (cstr b')).
Proof.
  intros Ht Hrun Hf. unfold fix_entry.
  replace (entry_of tag body ++ [NUL; pad])
    with ("@"%char :: tag ++ "{"%char :: (body ++ [NUL; pad]))
    by (unfold entry_of; simpl; rewrite <- app_assoc; reflexivity).
  rewrite (scan_type_tag tag _ Ht). cbn [fst snd].
  replace ("@"%char :: tag ++ "{"%char :: (body ++ [NUL; pad]))
    with (entry_of tag body ++ [NUL; pad])
    by (unfold entry_of; simpl; rewrite <- app_assoc; reflexivity).
  rewrite (scan_loop_mono cfg _ fuel
             (S (2 * length (entry_of tag body ++ [NUL; pad]))) _ _ Hrun)
    by lia.
  reflexivity.
Qed.

(** The state in which the scan of an entry that it leaves alone ends. *)
Lemma untouched_end (cfg : config) (pad : ascii) (tag body : list ascii)
    (d : bool) :
  tag_ok tag = true ->
  untouched cfg (exception_flag cfg tag) false ("{"%char :: body) [NUL]
  = Some d ->
  blen (entry_of tag body) + 18 < ULONG_MOD ->
  exists sf,
    fix_entry cfg pad (entry_of tag body)
    = (b' <- backfill cfg sf ;; Some (cstr b'))
    /\ curBibEntry sf = entry_of tag body ++ [NUL; pad]
    /\ bHasYear sf = line_starts kw_year ("{"%char :: body) [NUL]
    /\ bHasISSN sf = line_starts kw_issn ("{"%char :: body) [NUL]
    /\ issnInd sf = issn_pos ("{"%char :: body) [NUL] (1 + blen tag) 0.
Proof.
  intros Ht Hu Hs.
  set (s0 := scan_start (entry_of tag body ++ [NUL; pad])
               (blen (entry_of tag body)) (1 + blen tag)).
  assert (Hb : curBibEntry s0
               = ("@"%char :: tag) ++ (("{"%char :: body) ++ [] ++ [NUL])
                 ++ [pad]).
  { unfold s0, entry_of. simpl. rewrite <- !app_assoc. reflexivity. }
  destruct (runs_untouched_flags cfg (exception_flag cfg tag)
              ("{"%char :: body) s0 ("@"%char :: tag) [] [pad] d)
    as (s1 & E1 & E2 & E3 & R & Y1 & Y2 & Y3).
  - exact Hb.
  - unfold s0. simpl. rewrite blen_cons. reflexivity.
  - unfold s0. cbn [scan_start curBibEntry]. blen_norm. blen_norm_in Hs.
    lia.
  - exact Hu.
  - assert (Hstop : scan_loop cfg (exception_flag cfg tag) 1 s1 = Some s1).
    { apply scan_loop_stop. rewrite E1, E2, Hb.
      replace (("@"%char :: tag) ++ (("{"%char :: body) ++ [] ++ [NUL])
               ++ [pad])
        with ((("@"%char :: tag) ++ "{"%char :: body) ++ NUL :: [pad])
        by (simpl; rewrite <- !app_assoc; reflexivity).
      rewrite <- blen_app. apply get_at. }
    apply R in Hstop. exists s1.
    split.
    { apply (fix_entry_backfill cfg pad tag body s1 _ Ht Hstop).
      unfold entry_of. simpl. rewrite !length_app. simpl. lia. }
    split; [rewrite E1; reflexivity|].
    cbn [app] in Y1, Y2, Y3. rewrite blen_cons in Y3.
    repeat split; assumption.
Qed.

(** X9: with the renaming of [issn] to [year] on, an entry that the scan
    leaves alone and that holds an [issn] line and no [year] line comes out
    with the four bytes [issn] of its last [issn] line overwritten by
    [year]; nothing else changes. *)
Theorem issn_renamed_to_year (cfg : config) (pad : ascii)
    (tag pre post : list ascii) (d : bool) :
  turn_issn_into_missing_year cfg = true ->
  tag_ok tag = true ->
  untouched cfg (exception_flag cfg tag) false
    ("{"%char :: pre ++ LF :: kw_issn ++ post) [NUL] = Some d ->
  line_starts kw_year ("{"%char :: pre ++ LF :: kw_issn ++ post) [NUL]
  = false ->
  line_starts kw_issn (kw_issn ++ post) [NUL] = false ->
  blen (entry_of tag (pre ++ LF :: kw_issn ++ post)) + 18 < ULONG_MOD ->
  fix_entry cfg pad (entry_of tag (pre ++ LF :: kw_issn ++ post))
  = Some (entry_of tag (pre ++ LF :: kw_year ++ post)).
Proof.
  intros Hy Ht Hu Hny Hni Hs.
  destruct (untouched_end cfg pad tag _ d Ht Hu Hs)
    as (sf & -> & Eb & Ey & Ei & Ep).
  pose proof (blen_nonneg tag) as Htag. pose proof (blen_nonneg pre) as Hpre.
  pose proof (blen_nonneg post) as Hpost.
  assert (Hhere : line_here kw_issn ((LF :: kw_issn ++ post) ++ [NUL])
                  = true).
  { unfold line_here. cbn [app]. change (Ascii.eqb LF LF) with true.
    cbn [andb]. change 1 with (blen [LF] + 0).
    replace (LF :: (kw_issn ++ post) ++ [NUL])
      with ([LF] ++ kw_issn ++ post ++ [NUL]) by list_eq.
    rewrite strncmp0_shift by lia.
    rewrite strncmp0_here. reflexivity. }
  rewrite Hny in Ey.
  change ("{"%char :: pre ++ LF :: kw_issn ++ post)
    with (("{"%char :: pre) ++ (LF :: kw_issn ++ post)) in Ei, Ep.
  rewrite line_starts_app in Ei.
  replace (line_starts kw_issn (LF :: kw_issn ++ post) [NUL]) with true
    in Ei by (cbn [line_starts]; rewrite Hhere; reflexivity).
  rewrite orb_true_r in Ei.
  rewrite issn_pos_app in Ep. cbn [issn_pos] in Ep.
  rewrite Hhere in Ep. rewrite issn_pos_none in Ep by exact Hni.
  unfold backfill. rewrite Hy, Ey, Ei, Ep, Eb. cbn [negb andb].
  set (P := entry_of tag pre ++ [LF]).
  assert (HP : blen P = 1 + blen tag + blen ("{"%char :: pre) + 1).
  { unfold P. rewrite blen_app, blen_entry_of. blen_norm. lia. }
  rewrite <- HP.
  assert (Hs' : blen P + 8 < ULONG_MOD).
  { revert Hs. rewrite HP, blen_entry_of. blen_norm.
    change (blen kw_issn) with 6. lia. }
  pose proof (blen_nonneg P) as HP0.
  rewrite !ul_small by lia.
  set (T := lit " =" ++ post ++ [NUL; pad]).
  rewrite (put_at' _ P ("s"%char :: "s"%char :: "n"%char :: T) "i" "y")
    by (first [unfold P, T, entry_of; list_eq | reflexivity]).
  rewrite (put_at' _ (P ++ ["y"%char]) ("s"%char :: "n"%char :: T) "s" "e")
    by (first [list_eq | blen_norm; lia]).
  rewrite (put_at' _ (P ++ ["y"%char; "e"%char]) ("n"%char :: T) "s" "a")
    by (first [list_eq | blen_norm; lia]).
  rewrite (put_at' _ (P ++ ["y"%char; "e"%char; "a"%char]) T "n" "r")
    by (first [list_eq | blen_norm; lia]).
  f_equal.
  replace ((P ++ ["y"%char; "e"%char; "a"%char]) ++ "r"%char :: T)
    with (entry_of tag (pre ++ LF :: kw_year ++ post) ++ NUL :: [pad])
    by (unfold P, T, entry_of; list_eq).
  apply cstr_text.
  pose proof (untouched_no_NUL _ _ _ _ _ _ Hu) as Hn.
  unfold entry_of. intros [H|H]; [discriminate H|].
  apply in_app_or in H. destruct H as [H|H];
    [exact (tag_ok_no_NUL tag Ht H)|].
  destruct H as [H|H]; [discriminate H|].
  apply in_app_or in H. destruct H as [H|H].
  { apply Hn. right. apply in_or_app. left. exact H. }
  destruct H as [H|H]; [discriminate H|].
  apply in_app_or in H. destruct H as [H|H].
  { simpl in H. intuition discriminate. }
  apply Hn. right. apply in_or_app. right. right.
  apply in_or_app. right. exact H.
Qed.

(** X10: with the renaming on, an entry that the scan leaves alone and
    that holds a [year] line, or no [issn] line, comes out as it went
    in. *)
Theorem issn_kept_beside_year (cfg : config) (pad : ascii)
    (tag body : list ascii) (d : bool) :
  tag_ok tag = true ->
  untouched cfg (exception_flag cfg tag) false ("{"%char :: body) [NUL]
  = Some d ->
  line_starts kw_year ("{"%char :: body) [NUL]
  || negb (line_starts kw_issn ("{"%char :: body) [NUL]) = true ->
  blen (entry_of tag body) + 18 < ULONG_MOD ->
  fix_entry cfg pad (entry_of tag body) = Some (entry_of tag body).
Proof.
  intros Ht Hu Hl Hs.
  destruct (untouched_end cfg pad tag _ d Ht Hu Hs)
    as (sf & -> & Eb & Ey & Ei & Ep).
  unfold backfill. rewrite Ey, Ei, Eb.
  replace (turn_issn_into_missing_year cfg
           && negb (line_starts kw_year ("{"%char :: body) [NUL])
           && line_starts kw_issn ("{"%char :: body) [NUL]) with false.
  2:{ symmetry. destruct (line_starts kw_year ("{"%char :: body) [NUL]);
        [apply andb_false_iff; left; apply andb_false_r|].
      cbn [orb] in Hl. apply negb_true_iff in Hl. rewrite Hl.
      apply andb_false_r. }
  f_equal. apply (cstr_text (entry_of tag body) [pad]).
  unfold entry_of. intros [H|H]; [discriminate H|].
  apply in_app_or in H. destruct H as [H|H].
  - exact (tag_ok_no_NUL tag Ht H).
  - exact (untouched_no_NUL _ _ _ _ _ _ Hu H).
Qed.

(** ** The output as a whole *)

Lemma main_loop_entries (cfg : config) (pad : ascii) (inp : list ascii) :
  blen inp + 2 < ULONG_MOD ->
  forall (fuel : nat) (cur : Z) (acc : list ascii),
    0 <= cur -> 0 < Z.of_nat fuel -> blen inp - cur < Z.of_nat fuel ->
    main_loop fuel cfg pad inp cur acc
    = (r <- fix_all cfg pad inp (entries_from fuel inp cur) ;;
       Some (acc ++ r)).
Proof.
  intros Hs. induction fuel as [|f IH]; intros cur acc Hc H0 Hf; [lia|].
  cbn [main_loop entries_from].
  pose proof (next_entry_spec inp cur Hs Hc) as Hn.
  destruct (next_entry inp cur) as [[[a e] len]|];
    [|cbn [fix_all]; rewrite app_nil_r; reflexivity].
  destruct Hn as ((A1 & _ & _) & (B1 & (B2 & _) & _) & _).
  assert (He : e < blen inp)
    by (apply rdin_lt; [lia|rewrite B2; discriminate]).
  cbn [fix_all].
  destruct (fix_entry cfg pad (copy_entry inp a len)) as [o|];
    [|reflexivity].
  rewrite IH by lia.
  destruct (fix_all cfg pad inp (entries_from f inp e)) as [r|];
    [|reflexivity].
  rewrite app_assoc. reflexivity.
Qed.

Lemma fix_all_results (cfg : config) (pad : ascii) (inp : list ascii) :
  forall (l : list (Z * Z * Z)) (outs : list (list ascii)),
    map (fun r => fix_entry cfg pad (copy_entry inp (fst (fst r)) (snd r))) l
    = map Some outs ->
    fix_all cfg pad inp l = Some (concat outs).
Proof.
  induction l as [|[[a e] len] l IH]; intros outs H.
  - destruct outs; [reflexivity|discriminate H].
  - destruct outs as [|o outs]; [discriminate H|].
    cbn [map fst snd] in H. injection H as Ho Hl.
    cbn [fix_all concat]. rewrite Ho, (IH outs Hl). reflexivity.
Qed.

(** X11: where the rewriter has a result for every record that the
    extractor yields, the output is these results, in the order of the
    records and with nothing between them. *)
Theorem output_is_fixed_records (cfg : config) (pad : ascii)
    (inp : list ascii) (outs : list (list ascii)) :
  blen inp + 2 < ULONG_MOD ->
  map (fun r => fix_entry cfg pad (copy_entry inp (fst (fst r)) (snd r)))
    (entries inp)
  = map Some outs ->
  mendeleyBibFix cfg pad inp = Some (concat outs).
Proof.
  intros Hs H. unfold mendeleyBibFix.
  rewrite (main_loop_entries cfg pad inp Hs) by (unfold blen; lia).
  fold (entries inp). rewrite (fix_all_results cfg pad inp _ outs H).
  reflexivity.
Qed.

Lemma rdin_get (inp : list ascii) (k : Z) (c : ascii) :
  0 <= k -> rdin inp k = c -> c <> NUL -> get inp k = Some c.
Proof.
  intros Hk H Hc. pose proof (rdin_lt inp k Hk ltac:(congruence)) as Hlt.
  destruct (get_lt_Some inp k ltac:(lia)) as [x Hx].
  rewrite Hx. f_equal. unfold get in Hx.
  destruct (Z.ltb_spec k 0) as [Hk0|Hk0]; [lia|].
  unfold rdin in H. rewrite (nth_error_nth _ _ _ Hx) in H. exact H.
Qed.

Lemma get_rdin (inp : list ascii) (k : Z) (c : ascii) :
  get inp k = Some c -> rdin inp k = c.
Proof.
  unfold get, rdin. destruct (Z.ltb_spec k 0) as [Hk|Hk]; [discriminate|].
  intros G. exact (nth_error_nth _ _ _ G).
Qed.

Lemma occurs_at (p : list ascii) (l : list ascii) :
  forall k, 0 <= k ->
    (forall j c, nth_error p j = Some c ->
                 get l (k + Z.of_nat j) = Some c) ->
    occurs p l = true.
Proof.
  assert (Hpre : forall p l,
             (forall j c, nth_error p j = Some c ->
                          get l (Z.of_nat j) = Some c) ->
             prefixb p l = true).
  { clear. induction p as [|x p IH]; intros l H; [reflexivity|].
    destruct l as [|y l].
    - specialize (H 0%nat x eq_refl). discriminate H.
    - cbn [prefixb].
      pose proof (H 0%nat x eq_refl) as H0. cbn in H0. injection H0 as ->.
      rewrite Ascii.eqb_refl. cbn [andb]. apply IH.
      intros j c Hj. specialize (H (S j) c Hj).
      rewrite Nat2Z.inj_succ, <- Z.add_1_l, get_tail in H by lia.
      exact H. }
  induction l as [|y l IH]; intros k Hk H.
  - destruct p as [|x p]; [reflexivity|].
    specialize (H 0%nat x eq_refl). unfold get in H.
    destruct (k + Z.of_nat 0 <? 0); [discriminate|].
    destruct (Z.to_nat (k + Z.of_nat 0)); discriminate.
  - cbn [occurs]. destruct (Z.eq_dec k 0) as [->|Hne].
    + rewrite (Hpre p (y :: l)); [reflexivity|].
      intros j c Hj. exact (H j c Hj).
    + rewrite (IH (k - 1)); [apply orb_true_r|lia|].
      intros j c Hj. specialize (H j c Hj).
      replace (k + Z.of_nat j) with (1 + (k - 1 + Z.of_nat j)) in H by lia.
      rewrite get_tail in H by lia. exact H.
Qed.

(** X12: an input that holds no [@], the empty input among them, or no
    closing brace at the start of a line gives the empty output: what is
    not part of a complete entry is dropped. *)
Theorem no_record_no_output (cfg : config) (pad : ascii) (inp : list ascii) :
  blen inp + 2 < ULONG_MOD ->
  forallb (fun c => negb (Ascii.eqb c "@")) inp
  || negb (occurs [LF; "}"%char] inp) = true ->
  mendeleyBibFix cfg pad inp = Some [].
Proof.
  intros Hs H. unfold mendeleyBibFix. cbn [main_loop].
  pose proof (next_entry_spec inp 0 Hs ltac:(lia)) as Hn.
  destruct (next_entry inp 0) as [[[a e] len]|]; [exfalso|reflexivity].
  destruct Hn as ((A1 & A2 & _) & (B1 & (B2 & B3 & _) & _) & _).
  apply orb_true_iff in H. destruct H as [H|H].
  - rewrite forallb_forall in H.
    pose proof (rdin_get inp a _ A1 A2 ltac:(discriminate)) as G.
    unfold get in G. destruct (a <? 0); [discriminate|].
    apply nth_error_In in G. specialize (H _ G). discriminate H.
  - apply negb_true_iff in H.
    rewrite (occurs_at [LF; "}"%char] inp (e - 1)) in H;
      [discriminate H|lia|].
    intros j c Hj. destruct j as [|[|j]]; cbn in Hj.
    + injection Hj as <-. rewrite Z.add_0_r.
      apply rdin_get; [lia|exact B3|discriminate].
    + injection Hj as <-. replace (e - 1 + Z.of_nat 1) with e by lia.
      apply rdin_get; [lia|exact B2|discriminate].
    + destruct j; discriminate Hj.
Qed.

(** ** Inputs with nothing to fix *)

Lemma get_removelast (l : list ascii) (j : Z) :
  0 <= j < blen l - 1 -> get (removelast l) j = get l j.
Proof.
  intros Hj. destruct l as [|c l]; [rewrite blen_nil in Hj; lia|].
  assert (Hne : c :: l <> []) by discriminate.
  pose proof (app_removelast_last NUL Hne) as E.
  set (r := removelast (c :: l)) in *.
  assert (Hr : blen r = blen (c :: l) - 1).
  { pose proof (f_equal blen E) as G. rewrite blen_app in G.
    change (blen [last (c :: l) NUL]) with 1 in G. lia. }
  destruct (get_lt_Some r j ltac:(lia)) as [x Hx].
  rewrite Hx, E. symmetry. apply get_ext. exact Hx.
Qed.

Lemma get_mid (A l x : list ascii) (k : Z) :
  blen A <= k < blen A + blen l -> get (A ++ l ++ x) k = get l (k - blen A).
Proof.
  intros Hk. destruct (get_lt_Some l (k - blen A) ltac:(lia)) as [c Hc].
  rewrite Hc. replace k with (blen A + (k - blen A)) by lia.
  apply get_in. exact Hc.
Qed.

Lemma next_entry_is (inp : list ascii) (cur a e : Z) :
  blen inp + 2 < ULONG_MOD -> 0 <= cur ->
  first_start inp cur a -> first_terminator inp a e ->
  next_entry inp cur = Some (a, e, e - a + 2).
Proof.
  intros Hs Hc Hfs Hft. pose proof (next_entry_spec inp cur Hs Hc) as Hn.
  destruct (next_entry inp cur) as [[[a' e'] len']|].
  - destruct Hn as (Hfs' & Hft' & ->).
    pose proof (first_start_unique inp cur a a' Hfs Hfs'). subst a'.
    pose proof (first_terminator_unique inp a e e' Hft Hft'). subst e'.
    reflexivity.
  - exfalso. destruct Hn as [Hn|(a' & Hfs' & Hn)].
    + exact (start_or_end inp cur a Hfs Hn).
    + pose proof (first_start_unique inp cur a a' Hfs Hfs'). subst a'.
      exact (terminator_or_end inp a e Hft Hn).
Qed.

Lemma next_entry_none (inp : list ascii) (cur : Z) :
  blen inp + 2 < ULONG_MOD -> 0 <= cur ->
  (forall k, cur <= k < blen inp -> rdin inp k <> "@"%char) ->
  next_entry inp cur = None.
Proof.
  intros Hs Hc H. pose proof (next_entry_spec inp cur Hs Hc) as Hn.
  destruct (next_entry inp cur) as [[[a e] len]|]; [exfalso|reflexivity].
  destruct Hn as ((A1 & A2 & _) & _).
  apply (H a); [|exact A2]. split; [exact A1|].
  apply rdin_lt; [lia|rewrite A2; discriminate].
Qed.

(** The first entry of an input that starts behind [pre] with the leading
    text and the entry of a clean record. *)
Lemma clean_record_next (cfg : config) (pre junk tag body rest : list ascii)
    (cur : Z) :
  let inp := pre ++ (junk ++ record_text tag body) ++ rest in
  blen inp + 2 < ULONG_MOD ->
  clean_record cfg (junk, tag, body) = true ->
  0 <= cur <= blen pre ->
  (forall k, cur <= k < blen pre ->
             rdin inp k <> "@"%char /\ rdin inp k <> NUL) ->
  next_entry inp cur
  = Some (blen (pre ++ junk),
          blen (pre ++ junk) + blen (record_text tag body) - 2,
          blen (record_text tag body))
  /\ copy_entry inp (blen (pre ++ junk)) (blen (record_text tag body))
     = record_text tag body
  /\ forall k, blen (pre ++ junk) + blen (record_text tag body) - 2 <= k
               < blen (pre ++ junk) + blen (record_text tag body) ->
               rdin inp k <> "@"%char /\ rdin inp k <> NUL.
Proof.
  intros inp Hs Hcl Hcur Hgap.
  unfold clean_record in Hcl.
  apply andb_true_iff in Hcl. destruct Hcl as [Hcl Hocc].
  apply andb_true_iff in Hcl. destruct Hcl as [Hcl Hun].
  apply andb_true_iff in Hcl. destruct Hcl as [Hjunk Ht].
  apply negb_true_iff in Hocc.
  destruct (untouched cfg (exception_flag cfg tag) false
              ("{"%char :: body ++ closing) [NUL]) as [d|] eqn:Hu;
    [clear Hun|discriminate].
  set (t := record_text tag body) in *.
  set (P := pre ++ junk).
  set (E := entry_of tag body).
  assert (Et : t = E ++ closing)
    by (unfold t, E, record_text; symmetry; apply entry_of_app).
  assert (Hinp : inp = P ++ t ++ rest) by (unfold inp, P; list_eq).
  pose proof (blen_nonneg pre) as Hpre. pose proof (blen_nonneg junk) as Hj.
  pose proof (blen_nonneg P) as HP. pose proof (blen_nonneg E) as HE.
  pose proof (blen_nonneg rest) as Hrest.
  assert (Hn : blen t = blen E + 3) by (rewrite Et; blen_norm; reflexivity).
  assert (HE1 : 2 <= blen E)
    by (unfold E; rewrite blen_entry_of;
        pose proof (blen_nonneg tag); pose proof (blen_nonneg body); lia).
  assert (Hlen : blen inp = blen P + blen t + blen rest)
    by (rewrite Hinp; blen_norm; lia).
  assert (Hnn : ~ In NUL t).
  { unfold t, record_text, entry_of. intros [H|H]; [discriminate H|].
    apply in_app_or in H. destruct H as [H|H];
      [exact (tag_ok_no_NUL tag Ht H)|].
    exact (untouched_no_NUL _ _ _ _ _ _ Hu H). }
  assert (Hin : forall k, blen P <= k < blen P + blen t ->
                  exists c, get t (k - blen P) = Some c /\ rdin inp k = c
                            /\ c <> NUL).
  { intros k Hk.
    destruct (get_lt_Some t (k - blen P) ltac:(lia)) as [c Hc].
    exists c. split; [exact Hc|]. split.
    - apply get_rdin. rewrite Hinp, get_mid by lia. exact Hc.
    - intros ->. apply Hnn. unfold get in Hc.
      destruct (k - blen P <? 0); [discriminate|].
      exact (nth_error_In _ _ Hc). }
  assert (Hat : forall j c, get t j = Some c -> rdin inp (blen P + j) = c).
  { intros j c Hc. apply get_rdin. rewrite Hinp. apply get_in. exact Hc. }
  assert (Hfs : first_start inp cur (blen P)).
  { split; [unfold P; rewrite blen_app; lia|]. split.
    - rewrite <- (Z.add_0_r (blen P)). apply Hat. reflexivity.
    - intros k Hk. destruct (Z_lt_ge_dec k (blen pre)) as [Hlt|Hge];
        [apply Hgap; lia|].
      assert (G : exists c, rdin inp k = c /\ In c junk).
      { destruct (get_lt_Some junk (k - blen pre)) as [c Hc].
        { unfold P in Hk. rewrite blen_app in Hk. lia. }
        exists c. split.
        - apply get_rdin. unfold inp. rewrite <- app_assoc.
          rewrite get_mid by (unfold P in Hk; rewrite blen_app in Hk; lia).
          exact Hc.
        - unfold get in Hc. destruct (k - blen pre <? 0); [discriminate|].
          exact (nth_error_In _ _ Hc). }
      destruct G as (c & -> & Hc).
      rewrite forallb_forall in Hjunk. specialize (Hjunk c Hc).
      apply andb_true_iff in Hjunk. destruct Hjunk as [J1 J2].
      apply negb_true_iff in J1, J2.
      split; intros ->; discriminate. }
  assert (C0 : rdin inp (blen P + blen E) = LF).
  { apply Hat. rewrite Et. replace (blen E) with (blen E + 0) by lia.
    rewrite get_shift by lia. reflexivity. }
  assert (C1 : rdin inp (blen P + blen E + 1) = "}"%char).
  { rewrite <- Z.add_assoc. apply Hat. rewrite Et.
    rewrite get_shift by lia. reflexivity. }
  assert (C2 : rdin inp (blen P + blen E + 2) = LF).
  { rewrite <- Z.add_assoc. apply Hat. rewrite Et.
    rewrite get_shift by lia. reflexivity. }
  assert (Hft : first_terminator inp (blen P) (blen P + blen t - 2)).
  { replace (blen P + blen t - 2) with (blen P + blen E + 1) by lia.
    split; [lia|]. split.
    - split; [exact C1|]. split.
      + replace (blen P + blen E + 1 - 1) with (blen P + blen E) by lia.
        exact C0.
      + left. replace (blen P + blen E + 1 + 1) with (blen P + blen E + 2)
          by lia. exact C2.
    - intros k Hk. split.
      + intros (T1 & T2 & T3).
        destruct (Hin (k - 1) ltac:(lia)) as (c0 & G0 & R0 & _).
        destruct (Hin k ltac:(lia)) as (c1 & G1 & R1 & _).
        destruct (Hin (k + 1) ltac:(lia)) as (c2 & G2 & R2 & N2).
        rewrite T1 in R1. rewrite T2 in R0. subst c0 c1.
        assert (c2 = LF) by (destruct T3 as [T3|T3]; congruence).
        subst c2.
        rewrite (occurs_at closing (removelast t) (k - 1 - blen P)) in Hocc;
          [discriminate Hocc|lia|].
        intros j c Hjc.
        assert (Hj3 : (j < 3)%nat)
          by (apply (nth_error_Some closing); rewrite Hjc; discriminate).
        rewrite get_removelast by lia.
        destruct j as [|[|[|j]]]; [| | |lia]; cbn in Hjc;
          injection Hjc as <-.
        * rewrite Z.add_0_r. exact G0.
        * replace (k - 1 - blen P + Z.of_nat 1) with (k - blen P) by lia.
          exact G1.
        * replace (k - 1 - blen P + Z.of_nat 2) with (k + 1 - blen P)
            by lia.
          rewrite G2, H. reflexivity.
      + destruct (Hin k ltac:(lia)) as (c & _ & R & N). rewrite R. exact N. }
  split; [|split].
  - rewrite (next_entry_is inp cur (blen P) (blen P + blen t - 2) Hs)
      by (first [lia | assumption]).
    do 3 f_equal. lia.
  - rewrite copy_entry_range by lia.
    rewrite Hinp. rewrite <- !app_assoc.
    rewrite !to_nat_blen, skipn_len_app, firstn_len_app.
    reflexivity.
  - intros k Hk.
    assert (Hc : k = blen P + blen E + 1 \/ k = blen P + blen E + 2) by lia.
    destruct Hc as [-> | ->]; [rewrite C1|rewrite C2];
      split; discriminate.
Qed.

Lemma main_loop_clean (cfg : config) (pad : ascii) (tail : list ascii)
    (rs : list (list ascii * list ascii * list ascii)) :
  turn_issn_into_missing_year cfg = false ->
  forallb (fun c => negb (Ascii.eqb c "@")) tail = true ->
  forall (pre acc : list ascii) (cur : Z) (fuel : nat),
    2 * blen (pre ++ file_of rs ++ tail) + 40 < ULONG_MOD ->
    forallb (clean_record cfg) rs = true ->
    0 <= cur <= blen pre ->
    (forall k, cur <= k < blen pre ->
               rdin (pre ++ file_of rs ++ tail) k <> "@"%char
               /\ rdin (pre ++ file_of rs ++ tail) k <> NUL) ->
    (length rs < fuel)%nat ->
    main_loop fuel cfg pad (pre ++ file_of rs ++ tail) cur acc
    = Some (acc ++ records_of rs).
Proof.
  intros Hy Htail.
  induction rs as [|[[junk tag] body] rs IH];
    intros pre acc cur fuel Hs Hcl Hcur Hgap Hf;
    (destruct fuel as [|f]; [simpl in Hf; lia|]); cbn [main_loop].
  - unfold file_of, records_of in *. cbn [map concat app] in *.
    pose proof (blen_nonneg (pre ++ tail)) as Hnn.
    rewrite next_entry_none; [rewrite app_nil_r; reflexivity| |lia|].
    + change ULONG_MOD with 18446744073709551616 in *. lia.
    + intros k Hk. destruct (Z_lt_ge_dec k (blen pre)) as [Hlt|Hge];
        [apply Hgap; lia|].
      rewrite blen_app in Hk.
      destruct (get_lt_Some tail (k - blen pre) ltac:(lia)) as [c Hc].
      replace k with (blen pre + (k - blen pre)) by lia.
      rewrite (get_rdin _ _ c) by (rewrite get_shift by lia; exact Hc).
      rewrite forallb_forall in Htail. unfold get in Hc.
      destruct (k - blen pre <? 0); [discriminate|].
      specialize (Htail c (nth_error_In _ _ Hc)).
      apply negb_true_iff in Htail. intros ->. discriminate Htail.
  - cbn [forallb] in Hcl. apply andb_true_iff in Hcl.
    destruct Hcl as [Hc1 Hcl].
    assert (Ei : pre ++ file_of ((junk, tag, body) :: rs) ++ tail
                 = pre ++ (junk ++ record_text tag body)
                   ++ (file_of rs ++ tail)).
    { unfold file_of. cbn [map concat fst snd]. list_eq. }
    rewrite Ei in *.
    destruct (clean_record_next cfg pre junk tag body (file_of rs ++ tail)
                cur ltac:(change ULONG_MOD with 18446744073709551616 in *;
                          lia) Hc1 Hcur Hgap)
      as (N1 & N2 & N3).
    rewrite N1, N2.
    assert (Hfix : fix_entry cfg pad (record_text tag body)
                   = Some (record_text tag body)).
    { unfold clean_record in Hc1.
      apply andb_true_iff in Hc1. destruct Hc1 as [Hc1 _].
      apply andb_true_iff in Hc1. destruct Hc1 as [Hc1 Hun].
      apply andb_true_iff in Hc1. destruct Hc1 as [_ Ht].
      destruct (untouched cfg (exception_flag cfg tag) false
                  ("{"%char :: body ++ closing) [NUL]) as [d|] eqn:Hu;
        [|discriminate].
      apply (fix_entry_untouched cfg pad tag (body ++ closing) d Hy Ht Hu).
      fold (record_text tag body).
      revert Hs. blen_norm. pose proof (blen_nonneg pre).
      pose proof (blen_nonneg junk). pose proof (blen_nonneg (file_of rs)).
      pose proof (blen_nonneg tail).
      change ULONG_MOD with 18446744073709551616. lia. }
    rewrite Hfix.
    replace (pre ++ (junk ++ record_text tag body) ++ file_of rs ++ tail)
      with ((pre ++ junk ++ record_text tag body) ++ file_of rs ++ tail)
      in * by list_eq.
    rewrite (IH (pre ++ junk ++ record_text tag body)); try assumption.
    + unfold records_of. cbn [map concat fst snd]. rewrite <- app_assoc.
      reflexivity.
    + revert N3. blen_norm. pose proof (blen_nonneg pre).
      pose proof (blen_nonneg junk).
      assert (5 <= blen (record_text tag body)).
      { unfold record_text. rewrite blen_entry_of. blen_norm.
        pose proof (blen_nonneg tag). pose proof (blen_nonneg body).
        change (blen closing) with 3. lia. }
      lia.
    + intros k Hk. apply N3. revert Hk. blen_norm. lia.
    + simpl in Hf. lia.
Qed.

(** X13: an input made of entries with nothing to fix, each closed by a
    brace on a line of its own and a newline, comes out as these entries,
    byte for byte and in their order; the text before and between the
    entries, and the text behind the last one, is dropped. *)
Theorem clean_file_keeps_records (cfg : config) (pad : ascii)
    (rs : list (list ascii * list ascii * list ascii)) (tail : list ascii) :
  turn_issn_into_missing_year cfg = false ->
  forallb (clean_record cfg) rs = true ->
  forallb (fun c => negb (Ascii.eqb c "@")) tail = true ->
  2 * blen (file_of rs ++ tail) + 40 < ULONG_MOD ->
  mendeleyBibFix cfg pad (file_of rs ++ tail) = Some (records_of rs).
Proof.
  intros Hy Hcl Htail Hs. unfold mendeleyBibFix.
  apply (main_loop_clean cfg pad tail rs Hy Htail [] [] 0); try assumption.
  - rewrite blen_nil. lia.
  - intros k Hk. rewrite blen_nil in Hk. lia.
  - rewrite length_app. unfold file_of.
    assert (G : forall l : list (list ascii * list ascii * list ascii),
               forallb (clean_record cfg) l = true ->
               (length l
                <= length (concat
                     (map (fun r => fst (fst r)
                                    ++ record_text (snd (fst r)) (snd r)) l)))%nat).
    { induction l as [|[[j t] b] l IHl]; intros Hl; [simpl; lia|].
      cbn [forallb] in Hl. apply andb_true_iff in Hl.
      destruct Hl as [_ Hl]. specialize (IHl Hl).
      cbn [map concat fst snd length]. rewrite !length_app.
      assert (1 <= length (record_text t b))%nat
        by (unfold record_text, entry_of; cbn [length]; lia).
      lia. }
    specialize (G rs Hcl). lia.
Qed.

(** ** The entry at the end of an input without a final newline *)

(** The rewriter on an entry that the extractor has taken together with
    the NUL behind the input. *)
Lemma fix_entry_untouched_nul (cfg : config) (pad : ascii)
    (tag body : list ascii) (d : bool) :
  turn_issn_into_missing_year cfg = false ->
  tag_ok tag = true ->
  untouched cfg (exception_flag cfg tag) false ("{"%char :: body) [NUL]
  = Some d ->
  blen (entry_of tag body) + 20 < ULONG_MOD ->
  fix_entry cfg pad (entry_of tag body ++ [NUL]) = Some (entry_of tag body).
Proof.
  intros Hy Ht Hu Hs. rewrite entry_of_app.
  set (s0 := scan_start (entry_of tag (body ++ [NUL]) ++ [NUL; pad])
               (blen (entry_of tag (body ++ [NUL]))) (1 + blen tag)).
  assert (Hb : curBibEntry s0
               = ("@"%char :: tag) ++ (("{"%char :: body) ++ [] ++ [NUL])
                 ++ [NUL; pad]).
  { unfold s0, entry_of. cbn [scan_start curBibEntry]. list_eq. }
  destruct (runs_untouched cfg (exception_flag cfg tag) ("{"%char :: body)
              s0 ("@"%char :: tag) [] [NUL; pad] d)
    as (s1 & E1 & E2 & E3 & E4 & R).
  - exact Hb.
  - unfold s0. simpl. rewrite blen_cons. reflexivity.
  - rewrite Hb. revert Hs. rewrite blen_entry_of. blen_norm. lia.
  - exact Hu.
  - assert (Hstop : scan_loop cfg (exception_flag cfg tag) 1 s1 = Some s1).
    { apply scan_loop_stop. rewrite E1, E2, Hb.
      replace (("@"%char :: tag) ++ (("{"%char :: body) ++ [] ++ [NUL])
               ++ [NUL; pad])
        with ((("@"%char :: tag) ++ "{"%char :: body) ++ NUL :: [NUL; pad])
        by list_eq.
      rewrite <- blen_app. apply get_at. }
    apply R in Hstop.
    rewrite (fix_entry_scan cfg pad tag (body ++ [NUL]) s1 _ Hy Ht Hstop).
    + rewrite E1, Hb.
      replace (("@"%char :: tag) ++ (("{"%char :: body) ++ [] ++ [NUL])
               ++ [NUL; pad])
        with (entry_of tag body ++ NUL :: [NUL; pad])
        by (unfold entry_of; list_eq).
      rewrite cstr_text; [reflexivity|].
      unfold entry_of. intros [H|H]; [discriminate H|].
      apply in_app_or in H. destruct H as [H|H].
      * exact (tag_ok_no_NUL tag Ht H).
      * exact (untouched_no_NUL _ _ _ _ _ _ Hu H).
    + unfold entry_of. simpl. rewrite !length_app. simpl.
      rewrite length_app. simpl. lia.
Qed.

(** ** The entry type *)

Lemma scan_type_seg (fuel : nat) :
  forall (b : buffer) (i : Z) (acc t : list ascii) (i' : Z),
    1 <= i <= BIB_TYPE_MAX ->
    scan_type fuel b i acc = Some (t, i') ->
    exists seg,
      t = acc ++ seg /\ blen seg = i' - i /\ i' <= BIB_TYPE_MAX
      /\ (forall k, 0 <= k < blen seg -> get seg k = get b (i + k))
      /\ ~ In "{"%char seg
      /\ (i' < BIB_TYPE_MAX -> get b i' = Some "{"%char).
Proof.
  assert (Hstop : forall (b : buffer) (i : Z) (acc : list ascii) (c : ascii),
             1 <= i <= BIB_TYPE_MAX -> get b i = Some c ->
             negb (Ascii.eqb c "{") && (i <? BIB_TYPE_MAX) = false ->
             exists seg,
               acc = acc ++ seg /\ blen seg = i - i /\ i <= BIB_TYPE_MAX
               /\ (forall k, 0 <= k < blen seg -> get seg k = get b (i + k))
               /\ ~ In "{"%char seg
               /\ (i < BIB_TYPE_MAX -> get b i = Some "{"%char)).
  { intros b i acc c Hi G E. exists [].
    rewrite app_nil_r, blen_nil.
    split; [reflexivity|]. split; [lia|]. split; [lia|].
    split; [intros k Hk; lia|]. split; [intros []|].
    intros Hlt. apply andb_false_iff in E. destruct E as [E|E].
    - apply negb_false_iff, Ascii.eqb_eq in E. subst c. exact G.
    - apply Z.ltb_ge in E. lia. }
  induction fuel as [|f IH]; intros b i acc t i' Hi H; cbn [scan_type] in H;
    destruct (get b i) as [c|] eqn:G; try discriminate;
    destruct (negb (Ascii.eqb c "{") && (i <? BIB_TYPE_MAX)) eqn:E;
    try discriminate;
    try (injection H as <- <-; exact (Hstop b i acc c Hi G E)).
  apply andb_true_iff in E. destruct E as [Ec E].
  apply negb_true_iff in Ec. apply Z.ltb_lt in E.
  unfold BIB_TYPE_MAX in *.
  rewrite ul_small in H
    by (change ULONG_MOD with 18446744073709551616; lia).
  destruct (IH b (i + 1) (acc ++ [c]) t i' ltac:(lia) H)
    as (seg & Et & L & B & S1 & S2 & S3).
  exists (c :: seg). rewrite <- app_assoc in Et.
  split; [exact Et|]. split; [rewrite blen_cons; lia|]. split; [exact B|].
  split; [|split].
  - intros k Hk. rewrite blen_cons in Hk.
    destruct (Z.eq_dec k 0) as [->|Hne].
    + rewrite get_head, Z.add_0_r, G. reflexivity.
    + replace k with (1 + (k - 1)) at 1 by lia.
      rewrite get_tail by lia. rewrite S1 by lia. f_equal. lia.
  - intros [Hx|Hx]; [|exact (S2 Hx)].
    subst c. discriminate Ec.
  - exact S3.
Qed.

Lemma scan_type_fuel (f1 : nat) :
  forall (f2 : nat) (b : buffer) (i : Z) (acc : list ascii),
    1 <= i <= BIB_TYPE_MAX ->
    BIB_TYPE_MAX - i <= Z.of_nat f1 -> BIB_TYPE_MAX - i <= Z.of_nat f2 ->
    scan_type f1 b i acc = scan_type f2 b i acc.
Proof.
  unfold BIB_TYPE_MAX.
  induction f1 as [|f1 IH]; intros f2 b i acc Hi H1 H2.
  - assert (i = 25) by lia. subst i.
    destruct f2; cbn [scan_type]; unfold BIB_TYPE_MAX;
      destruct (get b 25); try reflexivity;
      rewrite andb_false_r; reflexivity.
  - destruct f2 as [|f2].
    + assert (i = 25) by lia. subst i.
      cbn [scan_type]. unfold BIB_TYPE_MAX.
      destruct (get b 25); try reflexivity.
      rewrite andb_false_r. reflexivity.
    + cbn [scan_type]. destruct (get b i) as [c|]; [|reflexivity].
      destruct (negb (Ascii.eqb c "{") && (i <? BIB_TYPE_MAX)) eqn:E;
        [|reflexivity].
      apply andb_true_iff in E. destruct E as [_ E].
      apply Z.ltb_lt in E. unfold BIB_TYPE_MAX in E.
      rewrite ul_small
        by (change ULONG_MOD with 18446744073709551616; lia).
      apply IH; lia.
Qed.

(** X15: the entry type fits its buffer.  The bytes copied into [bibType]
    are those behind the [@] up to the first opening brace, at most 24 of
    them, so that the terminator is written inside the 25 bytes of the
    array; an entry type of 24 bytes or more is cut after its 24th byte and
    the scan goes on at index 25.  The loop needs no more than 24 rounds. *)
Theorem bibType_fits (b : buffer) (t : list ascii) (i : Z) :
  scan_type (Z.to_nat BIB_TYPE_MAX) b 1 [] = Some (t, i) ->
  blen t = i - 1 /\ 1 <= i <= BIB_TYPE_MAX
  /\ blen t < BIB_TYPE_MAX
  /\ (forall k, 0 <= k < blen t -> get t k = get b (1 + k))
  /\ ~ In "{"%char t
  /\ (i < BIB_TYPE_MAX -> get b i = Some "{"%char)
  /\ (forall fuel, (24 <= fuel)%nat ->
        scan_type fuel b 1 [] = Some (t, i)).
Proof.
  intros H.
  destruct (scan_type_seg _ b 1 [] t i ltac:(unfold BIB_TYPE_MAX; lia) H)
    as (seg & E & L & B & S1 & S2 & S3).
  cbn [app] in E. subst seg.
  split; [exact L|]. split; [pose proof (blen_nonneg t); lia|].
  split; [lia|]. split; [exact S1|]. split; [exact S2|].
  split; [exact S3|].
  intros fuel Hf. rewrite <- H.
  apply scan_type_fuel; unfold BIB_TYPE_MAX; lia.
Qed.

Lemma scan_type_defined (b : buffer) :
  BIB_TYPE_MAX < blen b ->
  forall (fuel : nat) (i : Z) (acc : list ascii),
    1 <= i <= BIB_TYPE_MAX -> BIB_TYPE_MAX - i <= Z.of_nat fuel ->
    exists r, scan_type fuel b i acc = Some r.
Proof.
  intros Hb. unfold BIB_TYPE_MAX in *.
  induction fuel as [|f IH]; intros i acc Hi Hf;
    destruct (get_lt_Some b i ltac:(lia)) as [c G];
    cbn [scan_type]; rewrite G; cbn.
  - assert (i = 25) by lia. subst i. unfold BIB_TYPE_MAX.
    rewrite andb_false_r. eauto.
  - destruct (negb (Ascii.eqb c "{") && (i <? BIB_TYPE_MAX)) eqn:E;
      [|eauto].
    apply andb_true_iff in E. destruct E as [_ E].
    apply Z.ltb_lt in E. unfold BIB_TYPE_MAX in E.
    rewrite ul_small
      by (change ULONG_MOD with 18446744073709551616; lia).
    apply IH; lia.
Qed.

(** X16: in an entry of fewer than 24 bytes with no opening brace, the
    scan of the entry type (lines 270-276) does not stop at the terminator
    of the entry: it goes on through the bytes that lie behind it in
    memory, whatever they are, up to the first opening brace among them or
    to index 25, and the scan of the fields starts there, behind the
    terminator. *)
Theorem braceless_short_entry_passes_terminator (entry rest : list ascii) :
  blen entry < BIB_TYPE_MAX - 1 ->
  forallb (fun c => negb (Ascii.eqb c "{")) entry = true ->
  BIB_TYPE_MAX <= blen entry + blen rest ->
  exists t i,
    scan_type (Z.to_nat BIB_TYPE_MAX) (entry ++ NUL :: rest) 1 []
    = Some (t, i)
    /\ blen entry < i <= BIB_TYPE_MAX.
Proof.
  intros Hl Hno Hr. pose proof (blen_nonneg entry) as Hnn.
  assert (Hmax : BIB_TYPE_MAX = 25) by reflexivity.
  assert (Hb : BIB_TYPE_MAX < blen (entry ++ NUL :: rest))
    by (rewrite blen_app, blen_cons; lia).
  assert (H1 : 1 <= 1 <= BIB_TYPE_MAX) by (rewrite Hmax; lia).
  destruct (scan_type_defined _ Hb (Z.to_nat BIB_TYPE_MAX) 1 [] H1
              ltac:(rewrite Hmax; lia)) as [[t i] E].
  exists t, i. split; [exact E|].
  destruct (scan_type_seg _ _ _ _ _ _ H1 E)
    as (seg & _ & Ls & Hi25 & _ & _ & Hbr).
  pose proof (blen_nonneg seg) as Hseg.
  split; [|exact Hi25].
  destruct (Z_lt_ge_dec (blen entry) i) as [Hlt|Hge]; [exact Hlt|].
  exfalso. specialize (Hbr ltac:(lia)).
  destruct (Z.eq_dec i (blen entry)) as [->|Hne].
  - rewrite get_at in Hbr. discriminate Hbr.
  - destruct (get_lt_Some entry i ltac:(lia)) as (c & Gc).
    rewrite (get_ext _ _ _ _ Gc) in Hbr. injection Hbr as ->.
    unfold get in Gc. destruct (i <? 0); [discriminate|].
    apply nth_error_In in Gc.
    rewrite forallb_forall in Hno. specialize (Hno _ Gc).
    discriminate Hno.
Qed.

(** ** Entries on which the rewriter leaves its block *)

(** The loop passes over text that is left alone, round by round: what it
    does from the state behind the text, a fault included, is what it does
    from the state before it. *)
Lemma steps_untouched (cfg : config) (bU : bool) (seg : list ascii) :
  forall (s : scan_state) (A t x : list ascii) (d' : bool),
    curBibEntry s = A ++ (seg ++ t ++ [NUL]) ++ x ->
    curBibInd s = blen A ->
    blen (curBibEntry s) + 16 < ULONG_MOD ->
    untouched cfg bU (has_doi s) seg (t ++ [NUL]) = Some d' ->
    exists s',
      curBibEntry s' = curBibEntry s
      /\ curBibInd s' = blen A + blen seg
      /\ curBibLength s' = curBibLength s
      /\ forall fuel,
           scan_loop cfg bU (length seg + fuel) s = scan_loop cfg bU fuel s'.
Proof.
  induction seg as [|c seg IH]; intros s A t x d' Hb Hi Hs Hu.
  - exists s. rewrite blen_nil. repeat split; try lia.
  - cbn [untouched] in Hu.
    destruct (quiet_here cfg bU (has_doi s)
                ((c :: seg) ++ t ++ [NUL])) eqn:Hq; [|discriminate].
    assert (Hb' : curBibEntry s = A ++ (((c :: seg) ++ t) ++ [NUL]) ++ x).
    { rewrite Hb. rewrite <- (app_assoc (c :: seg) t [NUL]). reflexivity. }
    assert (Hq' : quiet_here cfg bU (has_doi s)
                    (((c :: seg) ++ t) ++ [NUL]) = true).
    { rewrite <- app_assoc. exact Hq. }
    destruct (scan_body_quiet cfg bU s A _ x Hb' Hi Hs Hq')
      as (s1 & Hbody & E1 & E2 & E3 & E4).
    assert (Hc : Ascii.eqb c NUL = false).
    { simpl in Hq. apply andb_true_iff in Hq. destruct Hq as [Hq _].
      apply negb_true_iff in Hq. exact Hq. }
    assert (Hg : get (curBibEntry s) (curBibInd s) = Some c).
    { rewrite Hb, Hi. simpl app. apply get_at. }
    pose proof (blen_nonneg A) as HA.
    assert (Hsm : blen A + 1 < ULONG_MOD).
    { rewrite Hb in Hs. blen_norm_in Hs.
      pose proof (blen_nonneg seg). pose proof (blen_nonneg t).
      pose proof (blen_nonneg x). lia. }
    destruct (IH (with_ind s1 (ul (curBibInd s1 + 1))) (A ++ [c]) t x d')
      as (s2 & F1 & F2 & F3 & R2).
    + simpl. rewrite E1, Hb. rewrite <- (app_assoc A [c]). reflexivity.
    + simpl. rewrite E2, Hi. rewrite ul_small by lia.
      blen_norm. lia.
    + simpl. rewrite E1. exact Hs.
    + simpl. rewrite E4. rewrite <- (app_assoc (c :: seg) t [NUL]).
      exact Hu.
    + exists s2. simpl in F1, F3. rewrite F1, F2, F3, E1, E3.
      blen_norm. repeat split; try lia.
      intros fuel. rewrite <- R2.
      change (length (c :: seg) + fuel)%nat with (S (length seg + fuel)).
      cbn [scan_loop]. rewrite Hg, Hc, Hbody. reflexivity.
Qed.

(** An entry in which the round at a newline behind text that is left
    alone has no result. *)
Lemma fix_entry_fault (cfg : config) (pad : ascii)
    (tag pre old : list ascii) (d1 : bool) :
  tag_ok tag = true ->
  untouched cfg (exception_flag cfg tag) false ("{"%char :: pre)
    ((LF :: old) ++ [NUL]) = Some d1 ->
  (forall s1,
      curBibEntry s1 = entry_of tag pre ++ LF :: old ++ [NUL; pad] ->
      curBibInd s1 = blen (entry_of tag pre) ->
      curBibLength s1 = blen (entry_of tag pre ++ LF :: old) ->
      scan_body cfg (exception_flag cfg tag) s1 = None) ->
  blen (entry_of tag pre ++ LF :: old) + 18 < ULONG_MOD ->
  fix_entry cfg pad (entry_of tag (pre ++ LF :: old)) = None.
Proof.
  intros Ht U1 Hedit Hs.
  set (bU := exception_flag cfg tag) in *.
  set (entry := entry_of tag (pre ++ LF :: old)).
  set (s0 := scan_start (entry ++ [NUL; pad]) (blen entry) (1 + blen tag)).
  pose proof (blen_nonneg tag) as Htag. pose proof (blen_nonneg pre) as Hpre.
  pose proof (blen_nonneg old) as Hold.
  assert (Hb0 : curBibEntry s0
                = ("@"%char :: tag)
                  ++ (("{"%char :: pre) ++ (LF :: old) ++ [NUL]) ++ [pad]).
  { unfold s0, entry, entry_of. cbn [scan_start curBibEntry]. list_eq. }
  assert (Hl0 : blen (curBibEntry s0) = blen tag + blen pre + blen old + 5).
  { rewrite Hb0. blen_norm. lia. }
  assert (Hs0 : blen tag + blen pre + blen old + 21 < ULONG_MOD).
  { revert Hs. rewrite blen_app, blen_entry_of. blen_norm. lia. }
  destruct (steps_untouched cfg bU ("{"%char :: pre) s0 ("@"%char :: tag)
              (LF :: old) [pad] d1 Hb0)
    as (s1 & E1 & E2 & E3 & R1).
  { unfold s0. simpl. rewrite blen_cons. reflexivity. }
  { rewrite Hl0. lia. }
  { exact U1. }
  assert (Hnone : scan_body cfg bU s1 = None).
  { apply Hedit.
    - rewrite E1. unfold s0, entry, entry_of. cbn [scan_start curBibEntry].
      list_eq.
    - rewrite E2, blen_entry_of. blen_norm. lia.
    - rewrite E3. unfold s0, entry. cbn [scan_start curBibLength].
      rewrite entry_of_app. reflexivity. }
  assert (Hg1 : get (curBibEntry s1) (curBibInd s1) = Some LF).
  { rewrite E1, E2, Hb0.
    replace (("@"%char :: tag)
             ++ (("{"%char :: pre) ++ (LF :: old) ++ [NUL]) ++ [pad])
      with ((("@"%char :: tag) ++ "{"%char :: pre)
            ++ LF :: (old ++ [NUL] ++ [pad]))
      by list_eq.
    rewrite <- blen_app. apply get_at. }
  unfold fix_entry. cbv zeta. fold entry.
  replace (entry ++ [NUL; pad])
    with ("@"%char :: tag ++ "{"%char :: ((pre ++ LF :: old) ++ [NUL; pad]))
    by (unfold entry, entry_of; list_eq).
  rewrite (scan_type_tag tag _ Ht). cbn [fst snd].
  replace ("@"%char :: tag ++ "{"%char :: ((pre ++ LF :: old) ++ [NUL; pad]))
    with (entry ++ [NUL; pad])
    by (unfold entry, entry_of; list_eq).
  fold bU. fold s0.
  assert (Hfuel : exists f,
             S (2 * length (entry ++ [NUL; pad]))
             = (length ("{"%char :: pre) + S f)%nat).
  { exists (2 * length (entry ++ [NUL; pad]) - length ("{"%char :: pre))%nat.
    assert (length ("{"%char :: pre) <= length (entry ++ [NUL; pad]))%nat.
    { unfold entry, entry_of. cbn [length app].
      rewrite !length_app. cbn [length]. rewrite !length_app.
      cbn [length]. lia. }
    lia. }
  destruct Hfuel as (f & ->).
  rewrite R1. cbn [scan_loop]. rewrite Hg1. change (Ascii.eqb LF NUL) with false.
  cbv iota. rewrite Hnone. reflexivity.
Qed.

(** A move over more bytes than the block holds has no result. *)
Lemma memmove_over (b : buffer) (dst src n : Z) :
  blen b < src + n -> memmove b dst src n = None.
Proof.
  intros H. unfold memmove.
  destruct (Z.leb_spec (src + n) (blen b)) as [Hle|_]; [lia|].
  rewrite andb_false_r. reflexivity.
Qed.

(** X17: a [title] line with fewer than five bytes behind [title =], as
    [title = {},] has, leaves the entry without a result: the length of the
    first move of the title fix is the length of the line less twelve, which
    wraps around below zero, and the move would run out of the block. *)
Theorem short_title_faults (cfg : config) (pad : ascii)
    (tag pre v post : list ascii) (d1 : bool) :
  tag_ok tag = true ->
  one_line v = true ->
  blen v < 5 ->
  untouched cfg (exception_flag cfg tag) false ("{"%char :: pre)
    ((LF :: kw_title ++ v ++ LF :: post) ++ [NUL]) = Some d1 ->
  blen (entry_of tag (pre ++ LF :: kw_title ++ v ++ LF :: post)) + 18
  < ULONG_MOD ->
  fix_entry cfg pad (entry_of tag (pre ++ LF :: kw_title ++ v ++ LF :: post))
  = None.
Proof.
  intros Ht Hv Hlen U1 Hs.
  rewrite <- entry_of_app in Hs.
  apply (fix_entry_fault cfg pad tag pre _ d1 Ht U1); [|exact Hs].
  intros s1 Hb Hi Hl.
  pose proof (blen_nonneg (entry_of tag pre)) as HA.
  pose proof (blen_nonneg v) as Hv0. pose proof (blen_nonneg post) as Hp0.
  assert (Hsz : blen (entry_of tag pre) + blen v + blen post + 27
                < ULONG_MOD).
  { revert Hs. blen_norm. blen_kw. lia. }
  assert (Hb' : curBibEntry s1
                = entry_of tag pre
                  ++ LF :: kw_title ++ (v ++ LF :: post ++ [NUL; pad])).
  { rewrite Hb. list_eq. }
  rewrite (scan_body_title cfg _ s1 _ _ Hb' Hi) by lia.
  unfold fix_title. rewrite Hi, (ul_small (blen (entry_of tag pre) + 1))
    by lia.
  assert (E : findEndOfLine (curBibEntry s1) (blen (entry_of tag pre) + 1)
              = Some (blen (entry_of tag pre) + 8 + blen v)).
  { rewrite Hb.
    replace (entry_of tag pre
             ++ LF :: (kw_title ++ v ++ LF :: post) ++ [NUL; pad])
      with ((entry_of tag pre ++ [LF])
            ++ (kw_title ++ v) ++ LF :: (post ++ [NUL; pad]))
      by list_eq.
    replace (blen (entry_of tag pre) + 1)
      with (blen (entry_of tag pre ++ [LF])) by (blen_norm; lia).
    rewrite findEndOfLine_at.
    - apply f_equal. blen_norm. blen_kw. lia.
    - intros H. apply in_app_or in H. destruct H as [H|H];
        [exact (kw_title_no_LF H)|].
      unfold one_line in Hv. rewrite forallb_forall in Hv.
      specialize (Hv _ H). discriminate Hv.
    - blen_norm. blen_kw. lia. }
  rewrite E.
  rewrite memmove_over; [reflexivity|].
  assert (Hbl : blen (curBibEntry s1)
                = blen (entry_of tag pre) + blen v + blen post + 11).
  { rewrite Hb. blen_norm. blen_kw. lia. }
  rewrite Hbl.
  assert (Hn : ul (blen (entry_of tag pre) + 8 + blen v
                   - blen (entry_of tag pre) - 13)
               = ULONG_MOD + blen v - 5).
  { unfold ul.
    replace (blen (entry_of tag pre) + 8 + blen v
             - blen (entry_of tag pre) - 13)
      with ((blen v - 5) + (-1) * 0) by lia.
    assert (H5 : 5 < ULONG_MOD) by (vm_compute; reflexivity).
    symmetry. apply Z.mod_unique with (q := -1); lia. }
  rewrite Hn, (ul_small (blen (entry_of tag pre) + 11)) by lia. lia.
Qed.

(** No [},] newline at or behind an index of the block when none occurs in
    the text that ends the block. *)
Lemma no_field_end_block (P F : list ascii) (pad : ascii) :
  occurs field_end F = false ->
  forall k, blen P <= k -> ~ field_end_at (P ++ F ++ [NUL; pad]) k.
Proof.
  intros Hocc k Hk (G0 & G1 & G2).
  pose proof (blen_nonneg P) as HP. pose proof (blen_nonneg F) as HF.
  assert (Hget : forall m, 0 <= m ->
             get (P ++ F ++ [NUL; pad]) (blen P + m)
             = get (F ++ [NUL; pad]) m).
  { intros m Hm. apply get_shift. exact Hm. }
  replace k with (blen P + (k - blen P)) in G0 by lia.
  replace (k + 1) with (blen P + (k - blen P + 1)) in G1 by lia.
  replace (k + 2) with (blen P + (k - blen P + 2)) in G2 by lia.
  rewrite Hget in G0, G1, G2 by lia.
  set (m := k - blen P) in *.
  assert (Hm : 0 <= m) by (unfold m; lia).
  assert (Hnul : get (F ++ [NUL; pad]) (blen F) = Some NUL) by apply get_at.
  assert (Hend : forall j, blen F + 2 <= j -> get (F ++ [NUL; pad]) j = None).
  { intros j Hj. apply get_ge_None. blen_norm. lia. }
  assert (Hin : forall j, 0 <= j < blen F ->
                  get (F ++ [NUL; pad]) j = get F j).
  { intros j Hj. destruct (get_lt_Some F j Hj) as (c & Gc).
    rewrite Gc. apply get_ext. exact Gc. }
  destruct (Z.lt_ge_cases (m + 2) (blen F)) as [Hlt|Hge].
  - rewrite Hin in G0, G1, G2 by lia.
    assert (Ho : occurs field_end F = true).
    { apply (occurs_at field_end F m Hm). intros j c Hj.
      unfold field_end in Hj.
      destruct j as [|[|[|j]]]; cbn [nth_error] in Hj;
        try (injection Hj as <-).
      - rewrite Z.add_0_r. exact G0.
      - exact G1.
      - exact G2.
      - destruct j; discriminate Hj. }
    rewrite Ho in Hocc. discriminate Hocc.
  - destruct (Z.eq_dec m (blen F)) as [E|N0];
      [rewrite E, Hnul in G0; discriminate G0|].
    destruct (Z.eq_dec (m + 1) (blen F)) as [E|N1];
      [rewrite E, Hnul in G1; discriminate G1|].
    destruct (Z.eq_dec (m + 2) (blen F)) as [E|N2];
      [rewrite E, Hnul in G2; discriminate G2|].
    rewrite Hend in G2 by lia. discriminate G2.
Qed.

(** X18: an [annote] or [abstract] field that is to go and has no [},]
    newline behind it in its entry, as when it is the last field, leaves the
    entry without a result: the search for the end of the field runs out of
    the block. *)
Theorem unclosed_note_faults (cfg : config) (pad : ascii)
    (tag pre kw F : list ascii) (d1 : bool) :
  tag_ok tag = true ->
  (kw = kw_annote /\ keep_annote cfg = false)
  \/ (kw = kw_abstract /\ keep_abstract cfg = false) ->
  occurs field_end F = false ->
  untouched cfg (exception_flag cfg tag) false ("{"%char :: pre)
    ((LF :: kw ++ F) ++ [NUL]) = Some d1 ->
  blen (entry_of tag (pre ++ LF :: kw ++ F)) + 18 < ULONG_MOD ->
  fix_entry cfg pad (entry_of tag (pre ++ LF :: kw ++ F)) = None.
Proof.
  intros Ht Hkw Hocc U1 Hs.
  rewrite <- entry_of_app in Hs.
  apply (fix_entry_fault cfg pad tag pre _ d1 Ht U1); [|exact Hs].
  intros s1 Hb Hi Hl.
  pose proof (blen_nonneg (entry_of tag pre)) as HA.
  pose proof (blen_nonneg F) as HF. pose proof (blen_nonneg kw) as HK.
  assert (Hsz : blen (entry_of tag pre) + blen kw + blen F + 19 < ULONG_MOD).
  { revert Hs. blen_norm. lia. }
  assert (Hb' : curBibEntry s1
                = entry_of tag pre ++ LF :: kw ++ (F ++ [NUL; pad])).
  { rewrite Hb. list_eq. }
  rewrite (scan_body_note cfg _ s1 _ kw _ Hkw Hb' Hi) by lia.
  unfold erase_field. rewrite Hi, (ul_small (blen (entry_of tag pre) + 1))
    by lia.
  assert (Hbl : blen (curBibEntry s1)
                = blen (entry_of tag pre) + blen kw + blen F + 3).
  { rewrite Hb. blen_norm. lia. }
  pose proof (findEndOfField_spec (curBibEntry s1)
                (blen (entry_of tag pre) + 1)) as Hspec.
  destruct (findEndOfField (curBibEntry s1) (blen (entry_of tag pre) + 1))
    as [r|]; [|reflexivity].
  exfalso.
  destruct Hspec as (Hr & Hfe & _); [lia|lia|lia|].
  assert (Hkw_brace : forall j c, 0 <= j < blen kw ->
                        get kw j = Some c -> c <> "}"%char).
  { intros j c Hj G. unfold get in G. destruct (j <? 0); [discriminate|].
    apply nth_error_In in G.
    destruct Hkw as [[-> _]|[-> _]]; simpl in G;
      repeat (destruct G as [G|G]; [subst c; discriminate|]);
      contradiction. }
  destruct (Z.lt_ge_cases (r - 2) (blen (entry_of tag pre) + 1 + blen kw))
    as [Hlt|Hge].
  - destruct Hfe as (G0 & _).
    rewrite Hb in G0.
    replace (entry_of tag pre ++ LF :: (kw ++ F) ++ [NUL; pad])
      with ((entry_of tag pre ++ [LF]) ++ kw ++ (F ++ [NUL; pad]))
      in G0 by list_eq.
    rewrite get_mid in G0 by (blen_norm; lia).
    apply (Hkw_brace _ _ (get_Some_lt _ _ _ G0) G0). reflexivity.
  - rewrite Hb in Hfe.
    replace (entry_of tag pre ++ LF :: (kw ++ F) ++ [NUL; pad])
      with ((entry_of tag pre ++ LF :: kw) ++ F ++ [NUL; pad])
      in Hfe by list_eq.
    apply (no_field_end_block (entry_of tag pre ++ LF :: kw) F pad Hocc
             (r - 2)); [|exact Hfe].
    rewrite blen_app, blen_cons. lia.
Qed.

(** ** The program in its surroundings *)

Lemma terminated_cons (c : ascii) (b : buffer) :
  terminated (c :: b) = Ascii.eqb c NUL || terminated b.
Proof.
  unfold terminated. cbn [existsb]. rewrite Ascii.eqb_sym. reflexivity.
Qed.

Lemma strlen_cstr (b : buffer) :
  terminated b = true -> strlen b = Some (blen (cstr b)).
Proof.
  induction b as [|c b IH]; intros H; [discriminate H|].
  rewrite terminated_cons in H. cbn [strlen cstr].
  destruct (Ascii.eqb c NUL); [reflexivity|].
  cbn [orb] in H. rewrite (IH H), blen_cons. reflexivity.
Qed.

Lemma strcpy_cstr (src : buffer) :
  forall dst : buffer,
    terminated src = true -> blen (cstr src) < blen dst ->
    strcpy dst src
    = Some (cstr src ++ NUL :: skipn (S (length (cstr src))) dst).
Proof.
  induction src as [|c src IH]; intros dst H Hl; [discriminate H|].
  rewrite terminated_cons in H. cbn [cstr] in *.
  destruct dst as [|x dst];
    [exfalso; rewrite blen_nil in Hl;
     pose proof (blen_nonneg (if Ascii.eqb c NUL then [] else c :: cstr src));
     lia|].
  cbn [strcpy].
  destruct (Ascii.eqb_spec c NUL) as [->|Hc]; [reflexivity|].
  cbn [orb] in H. rewrite !blen_cons in Hl.
  rewrite (IH dst H) by lia. reflexivity.
Qed.

Lemma cstr_copy (t : list ascii) : cstr (cstr t ++ [NUL]) = cstr t.
Proof.
  induction t as [|c t IH]; [reflexivity|].
  cbn [cstr]. destruct (Ascii.eqb c NUL) eqn:E; [reflexivity|].
  cbn [app cstr]. rewrite E, IH. reflexivity.
Qed.

Lemma blen_malloc (w : world) (k : nat) (size : Z) (b : buffer) :
  0 <= size -> malloc w k size = Some b -> blen b = size.
Proof.
  intros Hs H. unfold malloc in H.
  destruct (malloc_ok w k); [|discriminate H].
  injection H as <-. unfold blen. rewrite length_map, length_seq. lia.
Qed.

Lemma stringWrite_spec (w : world) (k : nat) (src : buffer) :
  terminated src = true ->
  stringWrite w k src
  = if malloc_ok w k then Ok (cstr src ++ [NUL])
    else Stop (Exited No_memory_for_string).
Proof.
  intros H. unfold stringWrite, stringAllocate.
  rewrite (strlen_cstr src H).
  pose proof (blen_nonneg (cstr src)) as Hn.
  destruct (malloc w k (blen (cstr src) + 1)) as [b|] eqn:E.
  - assert (Hp : 0 <= blen (cstr src) + 1) by lia.
    pose proof (blen_malloc w k _ b Hp E) as Hb.
    unfold malloc in E. destruct (malloc_ok w k); [|discriminate E].
    rewrite (strcpy_cstr src b H) by lia.
    rewrite skipn_all2; [reflexivity|]. unfold blen in Hb. lia.
  - unfold malloc in E. destruct (malloc_ok w k); [discriminate E|].
    reflexivity.
Qed.

(** X19: [stringWrite] returns a block that holds the bytes of its
    argument before the first NUL and one NUL behind them, and nothing
    else: no byte that [malloc] left shows, and nothing behind the first
    NUL of the argument is copied.  When [malloc] returns no block the run
    ends with the message of [stringAllocate]. *)
Theorem stringWrite_copies (w : world) (k : nat) (src : buffer) :
  terminated src = true ->
  stringWrite w k src
  = (if malloc_ok w k then Ok (cstr src ++ [NUL])
     else Stop (Exited No_memory_for_string))
  /\ cstr (cstr src ++ [NUL]) = cstr src
  /\ blen (cstr src ++ [NUL]) = blen (cstr src) + 1.
Proof.
  intros H. split; [exact (stringWrite_spec w k src H)|].
  split; [apply cstr_copy|]. blen_norm. lia.
Qed.

(** The argument at place [i], or the default when there are not that
    many. *)
Lemma arg_nth (argv : list buffer) (i : nat) (default : buffer) :
  (if Z.of_nat i <? Z.of_nat (length argv) then nth i argv []
   else default)
  = nth i argv default.
Proof.
  destruct (Z.ltb_spec (Z.of_nat i) (Z.of_nat (length argv))) as [Hlt|Hge].
  - apply nth_indep. lia.
  - symmetry. apply nth_overflow. lia.
Qed.

Lemma arg_terminated (argv : list buffer) (i : nat) (default : buffer) :
  forallb terminated argv = true -> terminated default = true ->
  terminated (nth i argv default) = true.
Proof.
  intros Ha Hd. destruct (Nat.lt_ge_cases i (length argv)) as [Hlt|Hge].
  - rewrite forallb_forall in Ha. apply Ha. apply nth_In. exact Hlt.
  - rewrite nth_overflow by exact Hge. exact Hd.
Qed.

(** The start of a run: the two names. *)
Lemma main_names (w : world) (argv : list buffer) :
  forallb terminated argv = true ->
  malloc_ok w 0 = true -> malloc_ok w 1 = true ->
  stringWrite w 0
    (if 2 <? Z.of_nat (length argv) then nth 2 argv [] else INPUT_DEFAULT)
  = Ok (input_name argv ++ [NUL])
  /\ stringWrite w 1
       (if 1 <? Z.of_nat (length argv) then nth 1 argv []
        else OUTPUT_DEFAULT)
     = Ok (output_name argv ++ [NUL]).
Proof.
  intros Ha M0 M1.
  pose proof (arg_nth argv 2 INPUT_DEFAULT) as A2.
  pose proof (arg_nth argv 1 OUTPUT_DEFAULT) as A1.
  change (Z.of_nat 2) with 2 in A2. change (Z.of_nat 1) with 1 in A1.
  rewrite A1, A2.
  rewrite !stringWrite_spec, M0, M1
    by (apply arg_terminated; [exact Ha|reflexivity]).
  split; reflexivity.
Qed.

(** The block of the input after [fread]. *)
Lemma input_block (w : world) (content : list ascii) (b : buffer) :
  blen content + 1 < ULONG_MOD ->
  malloc w 2 (ul (blen content + 1)) = Some b ->
  content ++ skipn (length content) b
  = content ++ [fresh w 2 (length content)].
Proof.
  intros Hs H. pose proof (blen_nonneg content) as Hn.
  rewrite ul_small in H by lia. unfold malloc in H.
  destruct (malloc_ok w 2); [|discriminate H]. injection H as <-.
  f_equal.
  replace (Z.to_nat (blen content + 1)) with (length content + 1)%nat
    by (unfold blen; lia).
  rewrite seq_app, map_app, skipn_app, length_map, length_seq.
  rewrite skipn_all2 by (rewrite length_map, length_seq; lia).
  rewrite Nat.sub_diag. reflexivity.
Qed.

(** One round of the loop of [main]: the fixed entry fits behind the
    output string, which stays in front of every entry still to come. *)
Lemma entry_step (cfg : config) (pad : ascii) (inp : list ascii)
    (cur a e len : Z) (acc fixed : list ascii) :
  2 * blen inp + 40 < ULONG_MOD -> 0 <= cur ->
  (forall a, cur <= a -> rdin inp a = "@"%char -> blen acc <= a) ->
  next_entry inp cur = Some (a, e, len) ->
  fix_entry cfg pad (copy_entry inp a len) = Some fixed ->
  blen acc + blen fixed <= blen inp
  /\ 0 <= e
  /\ forall a', e <= a' -> rdin inp a' = "@"%char ->
                blen (acc ++ fixed) <= a'.
Proof.
  intros Hs Hc Hacc En Hf.
  pose proof (next_entry_spec inp cur
                ltac:(change ULONG_MOD with 18446744073709551616 in *; lia)
                Hc) as Hn.
  rewrite En in Hn. destruct Hn as (Hfs & Hft & ->).
  pose proof Hfs as (F1 & F2 & F3).
  pose proof Hft as (T1 & (T2 & T3 & T4) & T5).
  destruct (entry_block_nul inp pad a e
              ltac:(change ULONG_MOD with 18446744073709551616 in *; lia)
              ltac:(lia) F2 Hft) as (p & Hp & Hp1 & Hp2).
  assert (He : e < blen inp)
    by (apply rdin_lt; [lia|rewrite T2; discriminate]).
  assert (Hfl : blen fixed <= p).
  { apply (fix_entry_length_at cfg pad _ _ p) in Hf;
      [exact Hf| |exact Hp|].
    - rewrite blen_copy_entry by lia. lia.
    - rewrite blen_copy_entry by lia. exact Hp1. }
  pose proof (Hacc a F1 F2) as Ha.
  pose proof (nul_at_bound _ _ Hp) as Hpb.
  rewrite blen_app, blen_cons, blen_cons, blen_nil, blen_copy_entry in Hpb
    by lia.
  split; [lia|]. split; [lia|].
  intros a' Ha' Hat'. rewrite blen_app.
  assert (a' <> e) by (intros ->; rewrite T2 in Hat'; discriminate Hat').
  assert (a' <> e + 1)
    by (intros ->; destruct T4 as [T4|T4]; rewrite T4 in Hat';
        discriminate Hat').
  assert (p <= e - a + 2).
  { destruct (Z_lt_ge_dec (e - a + 2) p) as [Hlt|Hge]; [|lia].
    exfalso. destruct Hp as [_ P2]. apply (P2 (e - a + 2)); [lia|].
    apply (get_at' _ (copy_entry inp a (e - a + 2)) [pad] NUL);
      [reflexivity|symmetry; apply blen_copy_entry; lia]. }
  lia.
Qed.

Section Run.

Variable w : world.
Variable cfg : config.
Variable inp : list ascii.

(** The loop with fuel for every byte of the input has a result. *)
Lemma main_run_defined :
  blen inp + 2 < ULONG_MOD ->
  forall (fuel : nat) (cur : Z) (acc : list ascii) (n : Z) (k : nat),
    0 <= cur -> 0 < Z.of_nat fuel -> blen inp - cur < Z.of_nat fuel ->
    main_run fuel w cfg inp cur acc n k <> None.
Proof.
  intros Hs. induction fuel as [|f IH]; intros cur acc n k Hc H0 Hf; [lia|].
  cbn [main_run].
  pose proof (next_entry_spec inp cur Hs Hc) as Hn.
  destruct (next_entry inp cur) as [[[a e] len]|]; [|discriminate].
  destruct Hn as ((A1 & _ & _) & (B1 & (B2 & _) & _) & _).
  assert (He : e < blen inp)
    by (apply rdin_lt; [lia|rewrite B2; discriminate]).
  destruct (malloc_ok w k); [|discriminate].
  destruct (fix_entry cfg (beyond w k) (copy_entry inp a len)) as [fixed|];
    [|discriminate].
  destruct (blen acc + blen fixed <=? blen inp); [|discriminate].
  apply IH; lia.
Qed.

(** [strcat] stays inside the block of the output, and the output string
    is no longer than the input. *)
Lemma main_run_fits :
  2 * blen inp + 40 < ULONG_MOD ->
  forall (fuel : nat) (cur : Z) (acc : list ascii) (n : Z) (k : nat)
         (r : loop_end),
    0 <= cur ->
    (forall a, cur <= a -> rdin inp a = "@"%char -> blen acc <= a) ->
    blen acc <= blen inp ->
    main_run fuel w cfg inp cur acc n k = Some r ->
    r <> Stopped (Undefined Output_overrun)
    /\ forall out n' k', r = Done out n' k' -> blen out <= blen inp.
Proof.
  intros Hs. induction fuel as [|f IH]; intros cur acc n k r Hc Hacc Hle H;
    [discriminate H|].
  cbn [main_run] in H.
  destruct (next_entry inp cur) as [[[a e] len]|] eqn:En.
  2:{ injection H as <-. split; [discriminate|].
      intros out n' k' E. injection E as <- _ _. exact Hle. }
  destruct (malloc_ok w k).
  2:{ injection H as <-. split; discriminate. }
  destruct (fix_entry cfg (beyond w k) (copy_entry inp a len))
    as [fixed|] eqn:Hf.
  2:{ injection H as <-. split; discriminate. }
  destruct (entry_step cfg _ inp cur a e len acc fixed Hs Hc Hacc En Hf)
    as (S1 & S2 & S3).
  destruct (Z.leb_spec (blen acc + blen fixed) (blen inp)) as [Hin|Hout];
    [|lia].
  apply (IH e (acc ++ fixed) (ul (n + 1)) (S k) r); try assumption.
  rewrite blen_app. lia.
Qed.

(** The count and the blocks when the loop is left through a [break]. *)
Lemma main_run_count :
  forall (fuel : nat) (cur : Z) (acc : list ascii) (n : Z) (k : nat)
         (out : list ascii) (n' : Z) (k' : nat),
    0 <= n -> n + Z.of_nat fuel < ULONG_MOD ->
    main_run fuel w cfg inp cur acc n k = Some (Done out n' k') ->
    n' = n + Z.of_nat (length (entries_from fuel inp cur))
    /\ k' = (k + length (entries_from fuel inp cur))%nat.
Proof.
  induction fuel as [|f IH]; intros cur acc n k out n' k' Hn Hf H;
    [discriminate H|].
  cbn [main_run entries_from] in *.
  destruct (next_entry inp cur) as [[[a e] len]|].
  2:{ injection H as _ <- <-. cbn [length]. split; lia. }
  destruct (malloc_ok w k); [|discriminate H].
  destruct (fix_entry cfg (beyond w k) (copy_entry inp a len)) as [fixed|];
    [|discriminate H].
  destruct (blen acc + blen fixed <=? blen inp); [|discriminate H].
  rewrite ul_small in H by lia.
  destruct (IH e (acc ++ fixed) (n + 1) (S k) out n' k' ltac:(lia)
              ltac:(lia) H) as [-> ->].
  cbn [length]. split; lia.
Qed.

(** And where every allocation succeeds as well, the loop is left through
    a [break] whenever [main_loop] has a result. *)
Lemma main_loop_main_run (pad : ascii) :
  (forall k, beyond w k = pad) -> (forall k, malloc_ok w k = true) ->
  2 * blen inp + 40 < ULONG_MOD ->
  forall (fuel : nat) (cur : Z) (acc : list ascii) (n : Z) (k : nat)
         (out : list ascii),
    0 <= cur ->
    (forall a, cur <= a -> rdin inp a = "@"%char -> blen acc <= a) ->
    main_loop fuel cfg pad inp cur acc = Some out ->
    exists n' k', main_run fuel w cfg inp cur acc n k = Some (Done out n' k').
Proof.
  intros Hpad Hm Hs.
  induction fuel as [|f IH]; intros cur acc n k out Hc Hacc H;
    [discriminate H|].
  cbn [main_run main_loop] in *.
  destruct (next_entry inp cur) as [[[a e] len]|] eqn:En.
  2:{ injection H as <-. eauto. }
  rewrite Hm, Hpad.
  destruct (fix_entry cfg pad (copy_entry inp a len)) as [fixed|] eqn:Hf;
    [|discriminate H].
  destruct (entry_step cfg pad inp cur a e len acc fixed Hs Hc Hacc En Hf)
    as (S1 & S2 & S3).
  destruct (Z.leb_spec (blen acc + blen fixed) (blen inp)) as [Hin|Hout];
    [|lia].
  apply IH; assumption.
Qed.

End Run.

(** The loop on an input of records with nothing to fix. *)
Lemma main_run_clean (w : world) (cfg : config) (tail : list ascii)
    (rs : list (list ascii * list ascii * list ascii)) :
  turn_issn_into_missing_year cfg = false ->
  forallb (fun c => negb (Ascii.eqb c "@")) tail = true ->
  (forall k, malloc_ok w k = true) ->
  forall (pre acc : list ascii) (cur : Z) (fuel : nat) (n : Z) (k : nat),
    2 * blen (pre ++ file_of rs ++ tail) + 40 < ULONG_MOD ->
    forallb (clean_record cfg) rs = true ->
    0 <= cur <= blen pre ->
    (forall j, cur <= j < blen pre ->
               rdin (pre ++ file_of rs ++ tail) j <> "@"%char
               /\ rdin (pre ++ file_of rs ++ tail) j <> NUL) ->
    (length rs < fuel)%nat ->
    blen acc <= blen pre ->
    0 <= n -> n + Z.of_nat (length rs) < ULONG_MOD ->
    main_run fuel w cfg (pre ++ file_of rs ++ tail) cur acc n k
    = Some (Done (acc ++ records_of rs) (n + Z.of_nat (length rs))
              (k + length rs)).
Proof.
  intros Hy Htail Hm.
  induction rs as [|[[junk tag] body] rs IH];
    intros pre acc cur fuel n k Hs Hcl Hcur Hgap Hf Hacc Hn Hnn;
    (destruct fuel as [|f]; [simpl in Hf; lia|]); cbn [main_run].
  - unfold file_of, records_of in *. cbn [map concat app length] in *.
    pose proof (blen_nonneg (pre ++ tail)) as Hnn'.
    rewrite next_entry_none;
      [rewrite app_nil_r, Z.add_0_r, Nat.add_0_r; reflexivity| |lia|].
    + change ULONG_MOD with 18446744073709551616 in *. lia.
    + intros j Hj. destruct (Z_lt_ge_dec j (blen pre)) as [Hlt|Hge];
        [apply Hgap; lia|].
      rewrite blen_app in Hj.
      assert (Hr : 0 <= j - blen pre < blen tail) by lia.
      destruct (get_lt_Some tail (j - blen pre) Hr) as [c Hc].
      replace j with (blen pre + (j - blen pre)) by lia.
      rewrite (get_rdin _ _ c) by (rewrite get_shift by lia; exact Hc).
      rewrite forallb_forall in Htail. unfold get in Hc.
      destruct (j - blen pre <? 0); [discriminate|].
      specialize (Htail c (nth_error_In _ _ Hc)).
      apply negb_true_iff in Htail. intros ->. discriminate Htail.
  - cbn [forallb] in Hcl. apply andb_true_iff in Hcl.
    destruct Hcl as [Hc1 Hcl].
    assert (Ei : pre ++ file_of ((junk, tag, body) :: rs) ++ tail
                 = pre ++ (junk ++ record_text tag body)
                   ++ (file_of rs ++ tail)).
    { unfold file_of. cbn [map concat fst snd]. list_eq. }
    rewrite Ei in *.
    assert (Hs2 : blen (pre ++ (junk ++ record_text tag body)
                            ++ file_of rs ++ tail) + 2 < ULONG_MOD)
      by (change ULONG_MOD with 18446744073709551616 in *; lia).
    destruct (clean_record_next cfg pre junk tag body (file_of rs ++ tail)
                cur Hs2 Hc1 Hcur Hgap)
      as (N1 & N2 & N3).
    rewrite N1, N2, Hm.
    pose proof (blen_nonneg pre) as Hp0. pose proof (blen_nonneg junk) as Hj0.
    pose proof (blen_nonneg (file_of rs)) as Hf0.
    pose proof (blen_nonneg tail) as Ht0.
    assert (Hfix : fix_entry cfg (beyond w k) (record_text tag body)
                   = Some (record_text tag body)).
    { unfold clean_record in Hc1.
      apply andb_true_iff in Hc1. destruct Hc1 as [Hc1 _].
      apply andb_true_iff in Hc1. destruct Hc1 as [Hc1 Hun].
      apply andb_true_iff in Hc1. destruct Hc1 as [_ Ht].
      destruct (untouched cfg (exception_flag cfg tag) false
                  ("{"%char :: body ++ closing) [NUL]) as [d|] eqn:Hu;
        [|discriminate].
      apply (fix_entry_untouched cfg _ tag (body ++ closing) d Hy Ht Hu).
      fold (record_text tag body).
      revert Hs. blen_norm.
      change ULONG_MOD with 18446744073709551616. lia. }
    rewrite Hfix.
    assert (H5 : 5 <= blen (record_text tag body)).
    { unfold record_text. rewrite blen_entry_of. blen_norm.
      pose proof (blen_nonneg tag). pose proof (blen_nonneg body).
      change (blen closing) with 3. lia. }
    destruct (Z.leb_spec (blen acc + blen (record_text tag body))
                (blen (pre ++ (junk ++ record_text tag body)
                           ++ file_of rs ++ tail))) as [Hin|Hout].
    2:{ exfalso. revert Hout. blen_norm. lia. }
    cbn [length] in Hnn.
    rewrite ul_small by lia.
    replace (pre ++ (junk ++ record_text tag body) ++ file_of rs ++ tail)
      with ((pre ++ junk ++ record_text tag body) ++ file_of rs ++ tail)
      in * by list_eq.
    rewrite (IH (pre ++ junk ++ record_text tag body)); try assumption.
    + unfold records_of. cbn [map concat fst snd length].
      rewrite <- app_assoc. f_equal. f_equal; lia.
    + revert N3. blen_norm. lia.
    + intros j Hj. apply N3. revert Hj. blen_norm. lia.
    + simpl in Hf. lia.
    + blen_norm. lia.
    + lia.
    + lia.
Qed.

(** An input in which no entry starts or none is closed. *)
Lemma no_entry_next (inp : list ascii) :
  blen inp + 2 < ULONG_MOD ->
  forallb (fun c => negb (Ascii.eqb c "@")) inp
  || negb (occurs [LF; "}"%char] inp) = true ->
  next_entry inp 0 = None.
Proof.
  intros Hs H.
  pose proof (next_entry_spec inp 0 Hs ltac:(lia)) as Hn.
  destruct (next_entry inp 0) as [[[a e] len]|]; [exfalso|reflexivity].
  destruct Hn as ((A1 & A2 & _) & (B1 & (B2 & B3 & _) & _) & _).
  apply orb_true_iff in H. destruct H as [H|H].
  - rewrite forallb_forall in H.
    pose proof (rdin_get inp a _ A1 A2 ltac:(discriminate)) as G.
    unfold get in G. destruct (a <? 0); [discriminate|].
    apply nth_error_In in G. specialize (H _ G). discriminate H.
  - apply negb_true_iff in H.
    rewrite (occurs_at [LF; "}"%char] inp (e - 1)) in H;
      [discriminate H|lia|].
    intros j c Hj. destruct j as [|[|j]]; cbn in Hj.
    + injection Hj as <-. rewrite Z.add_0_r.
      apply rdin_get; [lia|exact B3|discriminate].
    + injection Hj as <-. replace (e - 1 + Z.of_nat 1) with e by lia.
      apply rdin_get; [lia|exact B2|discriminate].
    + destruct j; discriminate Hj.
Qed.

(** A run up to the loop, where the names and the two blocks of the
    contents are allocated and the input file is there. *)
Lemma main_body (w : world) (argv : list buffer) (content : list ascii) :
  forallb terminated argv = true ->
  malloc_ok w 0 = true -> malloc_ok w 1 = true ->
  malloc_ok w 2 = true -> malloc_ok w 3 = true ->
  file_content w (input_name argv) = Some content ->
  blen content + 1 < ULONG_MOD ->
  main w argv
  = if terminated (content ++ [fresh w 2 (length content)]) then
      match main_run (S (length content)) w default_config content 0 [] 0 4
      with
      | None => None
      | Some (Stopped s) => stops s
      | Some (Done outputContent numEntry blocks) =>
          if can_create w (output_name argv) then
            Some {| written := Some (output_name argv, outputContent);
                    ending := if (blocks =? 4)%nat
                              then Undefined Free_of_unset_pointer
                              else Returned numEntry |}
          else Some (ends (Exited (Cannot_create_output
                                     (output_name argv))))
      end
    else None.
Proof.
  intros Ha M0 M1 M2 M3 Hfile Hs.
  destruct (main_names w argv Ha M0 M1) as [N1 N2].
  unfold main. cbv zeta. rewrite N1, N2.
  assert (C1 : cstr (input_name argv ++ [NUL]) = input_name argv)
    by apply cstr_copy.
  assert (C2 : cstr (output_name argv ++ [NUL]) = output_name argv)
    by apply cstr_copy.
  rewrite C1, C2, Hfile.
  destruct (malloc w 2 (ul (blen content + 1))) as [b2|] eqn:E2.
  2:{ unfold malloc in E2. rewrite M2 in E2. discriminate E2. }
  destruct (malloc w 3 (ul (blen content + 1))) as [b3|] eqn:E3.
  2:{ unfold malloc in E3. rewrite M3 in E3. discriminate E3. }
  rewrite (input_block w content b2 Hs E2). reflexivity.
Qed.

(** X20: a run on an input file of records with nothing to fix, with every
    allocation granted and a NUL in the block of the input: the output
    file holds the records without the text between them, and the run
    returns after reporting their number. *)
Theorem clean_run_writes_records (w : world) (argv : list buffer)
    (rs : list (list ascii * list ascii * list ascii)) (tail : list ascii) :
  forallb terminated argv = true ->
  (forall k, malloc_ok w k = true) ->
  file_content w (input_name argv) = Some (file_of rs ++ tail) ->
  terminated ((file_of rs ++ tail)
              ++ [fresh w 2 (length (file_of rs ++ tail))]) = true ->
  can_create w (output_name argv) = true ->
  rs <> [] ->
  forallb (clean_record default_config) rs = true ->
  forallb (fun c => negb (Ascii.eqb c "@")) tail = true ->
  2 * blen (file_of rs ++ tail) + 40 < ULONG_MOD ->
  main w argv
  = Some {| written := Some (output_name argv, records_of rs);
            ending := Returned (Z.of_nat (length rs)) |}.
Proof.
  intros Ha Hm Hfile Hterm Hcan Hrs Hcl Htail Hs.
  pose proof (blen_nonneg (file_of rs ++ tail)) as Hnn.
  rewrite (main_body w argv _ Ha (Hm _) (Hm _) (Hm _) (Hm _) Hfile)
    by (change ULONG_MOD with 18446744073709551616 in *; lia).
  rewrite Hterm.
  assert (G : (length rs <= length (file_of rs ++ tail))%nat).
  { rewrite length_app. unfold file_of.
    assert (G : forall l : list (list ascii * list ascii * list ascii),
               (length l
                <= length (concat
                     (map (fun r => fst (fst r)
                                    ++ record_text (snd (fst r)) (snd r)) l)))%nat).
    { induction l as [|[[j t] b] l IHl]; [simpl; lia|].
      cbn [map concat fst snd length]. rewrite !length_app.
      assert (1 <= length (record_text t b))%nat
        by (unfold record_text, entry_of; cbn [length]; lia).
      lia. }
    specialize (G rs). lia. }
  pose proof (main_run_clean w default_config tail rs eq_refl Htail Hm
                [] [] 0 (S (length (file_of rs ++ tail))) 0 4) as R.
  cbn [app] in R. rewrite R; clear R.
  - rewrite Hcan. cbn [app]. rewrite Z.add_0_l.
    destruct rs as [|r0 rs]; [contradiction Hrs; reflexivity|].
    reflexivity.
  - exact Hs.
  - exact Hcl.
  - rewrite blen_nil. lia.
  - intros j Hj. rewrite blen_nil in Hj. lia.
  - lia.
  - rewrite blen_nil. lia.
  - lia.
  - unfold blen in Hs. change ULONG_MOD with 18446744073709551616 in *. lia.
Qed.

(** X21: a run on an input file in which no entry starts or none is
    closed, an empty file among them: the output file is created empty,
    and then, at the end of [main], [free] is applied to [curBibEntry],
    which no statement has set. *)
Theorem run_without_entry_frees_unset_pointer (w : world)
    (argv : list buffer) (content : list ascii) :
  forallb terminated argv = true ->
  malloc_ok w 0 = true -> malloc_ok w 1 = true ->
  malloc_ok w 2 = true -> malloc_ok w 3 = true ->
  file_content w (input_name argv) = Some content ->
  terminated (content ++ [fresh w 2 (length content)]) = true ->
  can_create w (output_name argv) = true ->
  forallb (fun c => negb (Ascii.eqb c "@")) content
  || negb (occurs [LF; "}"%char] content) = true ->
  blen content + 2 < ULONG_MOD ->
  main w argv
  = Some {| written := Some (output_name argv, []);
            ending := Undefined Free_of_unset_pointer |}.
Proof.
  intros Ha M0 M1 M2 M3 Hfile Hterm Hcan Hno Hs.
  rewrite (main_body w argv _ Ha M0 M1 M2 M3 Hfile) by lia.
  rewrite Hterm. cbn [main_run].
  rewrite (no_entry_next content Hs Hno), Hcan. reflexivity.
Qed.

(** X23: when the input file is not there the run ends with the message
    that names it, the second argument or [library.bib], and writes no
    file. *)
Theorem missing_input_ends_run (w : world) (argv : list buffer) :
  forallb terminated argv = true ->
  malloc_ok w 0 = true -> malloc_ok w 1 = true ->
  file_content w (input_name argv) = None ->
  main w argv = Some (ends (Exited (Input_not_found (input_name argv)))).
Proof.
  intros Ha M0 M1 Hfile.
  destruct (main_names w argv Ha M0 M1) as [N1 N2].
  unfold main. cbv zeta. rewrite N1, N2.
  assert (C1 : cstr (input_name argv ++ [NUL]) = input_name argv)
    by apply cstr_copy.
  rewrite C1, Hfile. reflexivity.
Qed.

(** X22: [strcat] never writes behind the block of the output, which has
    the size of the input.  The loop of [main] has an outcome, it is never
    left because a fixed entry and its NUL do not fit behind the output
    string, and the output string with which it is left through a [break]
    is no longer than the input.  The moves of the rewriter inside the
    block of an entry are another matter. *)
Theorem strcat_stays_inside_output_block (w : world) (cfg : config)
    (inp : list ascii) :
  2 * blen inp + 40 < ULONG_MOD ->
  exists r,
    main_run (S (length inp)) w cfg inp 0 [] 0 4 = Some r
    /\ r <> Stopped (Undefined Output_overrun)
    /\ forall out n k, r = Done out n k -> blen out <= blen inp.
Proof.
  intros Hs. pose proof (blen_nonneg inp) as Hnn.
  destruct (main_run (S (length inp)) w cfg inp 0 [] 0 4) as [r|] eqn:E.
  2:{ exfalso. revert E.
      apply main_run_defined;
        [change ULONG_MOD with 18446744073709551616 in *; lia|lia|lia|
         unfold blen; lia]. }
  exists r. split; [reflexivity|].
  apply (main_run_fits w cfg inp Hs (S (length inp)) 0 [] 0 4 r);
    try exact E; try lia.
  - intros a Ha _. rewrite blen_nil. exact Ha.
  - rewrite blen_nil. lia.
Qed.

(** X24: when the loop of [main] is left through a [break], [numEntry],
    the number that the last message reports (line 425), is the number of
    the entries of the input, zero when there is none, and one block has
    been allocated for every entry. *)
Theorem reported_count_is_entries (w : world) (cfg : config)
    (inp out : list ascii) (n : Z) (k : nat) :
  blen inp + 2 < ULONG_MOD ->
  main_run (S (length inp)) w cfg inp 0 [] 0 4 = Some (Done out n k) ->
  n = Z.of_nat (length (entries inp))
  /\ k = (4 + length (entries inp))%nat.
Proof.
  intros Hs H.
  exact (main_run_count w cfg inp (S (length inp)) 0 [] 0 4 out n k
           ltac:(lia) ltac:(unfold blen in Hs; lia) H).
Qed.

(** X25: where the bytes behind the blocks of the entries are all [pad],
    every allocation is granted, the block of the input holds a NUL and the
    output file can be created, a run on an input file for which
    [mendeleyBibFix] has a result writes that result, and reports the
    number of the entries when there is one. *)
Theorem run_writes_fixed_input (w : world) (argv : list buffer)
    (content out : list ascii) (pad : ascii) :
  forallb terminated argv = true ->
  (forall k, malloc_ok w k = true) ->
  (forall k, beyond w k = pad) ->
  file_content w (input_name argv) = Some content ->
  terminated (content ++ [fresh w 2 (length content)]) = true ->
  can_create w (output_name argv) = true ->
  2 * blen content + 40 < ULONG_MOD ->
  mendeleyBibFix default_config pad content = Some out ->
  main w argv
  = Some {| written := Some (output_name argv, out);
            ending := match entries content with
                      | [] => Undefined Free_of_unset_pointer
                      | _ :: _ =>
                          Returned (Z.of_nat (length (entries content)))
                      end |}.
Proof.
  intros Ha Hm Hpad Hfile Hterm Hcan Hs El.
  pose proof (blen_nonneg content) as Hnn.
  rewrite (main_body w argv _ Ha (Hm _) (Hm _) (Hm _) (Hm _) Hfile)
    by (change ULONG_MOD with 18446744073709551616 in *; lia).
  rewrite Hterm. unfold mendeleyBibFix in El.
  assert (Hinv : forall a, 0 <= a -> rdin content a = "@"%char ->
                           blen (@nil ascii) <= a)
    by (intros a Ha0 _; rewrite blen_nil; exact Ha0).
  destruct (main_loop_main_run w default_config content pad Hpad Hm Hs
              (S (length content)) 0 [] 0 4 out ltac:(lia) Hinv El)
    as (n' & k' & Hr).
  rewrite Hr, Hcan.
  destruct (main_run_count w default_config content
              (S (length content)) 0 [] 0 4 out n' k' ltac:(lia)
              ltac:(unfold blen in Hs;
                    change ULONG_MOD with 18446744073709551616 in *; lia)
              Hr) as [En Ek].
  fold (entries content) in En, Ek. subst n' k'.
  destruct (entries content) as [|x l]; reflexivity.
Qed.

(** The extractor on an input whose last byte is the closing brace of its
    only entry, where the byte behind the input is NUL. *)
Lemma last_entry_found (cfg : config) (junk tag body : list ascii)
    (d : bool) :
  forallb (fun c => negb (Ascii.eqb c "@") && negb (Ascii.eqb c NUL)) junk
  = true ->
  tag_ok tag = true ->
  untouched cfg (exception_flag cfg tag) false
    ("{"%char :: body ++ [LF; "}"%char]) [NUL] = Some d ->
  occurs closing (entry_of tag (body ++ [LF; "}"%char])) = false ->
  2 * blen (junk ++ entry_of tag (body ++ [LF; "}"%char])) + 40 < ULONG_MOD ->
  let t := entry_of tag (body ++ [LF; "}"%char]) in
  let inp := junk ++ t in
  next_entry inp 0
  = Some (blen junk, blen junk + blen t - 1, blen (t ++ [NUL]))
  /\ copy_entry inp (blen junk) (blen (t ++ [NUL])) = t ++ [NUL]
  /\ next_entry inp (blen junk + blen t - 1) = None.
Proof.
  intros Hjunk Ht Hu Hocc Hs t inp.
  set (E := entry_of tag body).
  assert (Et : t = E ++ [LF; "}"%char])
    by (unfold t, E; symmetry; apply entry_of_app).
  pose proof (blen_nonneg junk) as Hj. pose proof (blen_nonneg E) as HE.
  assert (Hn : blen t = blen E + 2) by (rewrite Et; blen_norm; reflexivity).
  assert (HE1 : 2 <= blen E)
    by (unfold E; rewrite blen_entry_of;
        pose proof (blen_nonneg tag); pose proof (blen_nonneg body); lia).
  assert (Hlen : blen inp = blen junk + blen t)
    by (unfold inp; blen_norm; lia).
  fold t in Hs, Hocc. fold inp in Hs.
  assert (Hsm : blen inp + 2 < ULONG_MOD)
    by (change ULONG_MOD with 18446744073709551616 in *; lia).
  assert (Hnn : ~ In NUL t).
  { unfold t, entry_of. intros [H|H]; [discriminate H|].
    apply in_app_or in H. destruct H as [H|H];
      [exact (tag_ok_no_NUL tag Ht H)|].
    exact (untouched_no_NUL _ _ _ _ _ _ Hu H). }
  assert (Hin : forall k, blen junk <= k < blen junk + blen t ->
                  exists c, get t (k - blen junk) = Some c /\ rdin inp k = c
                            /\ c <> NUL).
  { intros k Hk.
    destruct (get_lt_Some t (k - blen junk) ltac:(lia)) as [c Hc].
    exists c. split; [exact Hc|]. split.
    - apply get_rdin. unfold inp.
      replace k with (blen junk + (k - blen junk)) by lia.
      rewrite get_shift by lia. exact Hc.
    - intros ->. apply Hnn. unfold get in Hc.
      destruct (k - blen junk <? 0); [discriminate|].
      exact (nth_error_In _ _ Hc). }
  assert (Hat : forall j c, get t j = Some c -> rdin inp (blen junk + j) = c).
  { intros j c Hc. apply get_rdin. unfold inp.
    pose proof (get_Some_lt _ _ _ Hc). rewrite get_shift by lia. exact Hc. }
  assert (Hfs : first_start inp 0 (blen junk)).
  { split; [lia|]. split.
    - rewrite <- (Z.add_0_r (blen junk)). apply Hat. reflexivity.
    - intros k Hk.
      destruct (get_lt_Some junk k ltac:(lia)) as [c Hc].
      rewrite (get_rdin inp k c) by (unfold inp; apply get_ext; exact Hc).
      unfold get in Hc. destruct (k <? 0); [discriminate|].
      rewrite forallb_forall in Hjunk.
      specialize (Hjunk c (nth_error_In _ _ Hc)).
      apply andb_true_iff in Hjunk. destruct Hjunk as [J1 J2].
      apply negb_true_iff in J1, J2.
      split; intros ->; discriminate. }
  assert (C0 : rdin inp (blen junk + blen E) = LF).
  { apply Hat. rewrite Et. replace (blen E) with (blen E + 0) by lia.
    rewrite get_shift by lia. reflexivity. }
  assert (C1 : rdin inp (blen junk + blen E + 1) = "}"%char).
  { rewrite <- Z.add_assoc. apply Hat. rewrite Et.
    rewrite get_shift by lia. reflexivity. }
  assert (C2 : rdin inp (blen junk + blen E + 2) = NUL)
    by (apply rdin_ge; lia).
  assert (Hft : first_terminator inp (blen junk) (blen junk + blen E + 1)).
  { split; [lia|]. split.
    - split; [exact C1|]. split.
      + replace (blen junk + blen E + 1 - 1) with (blen junk + blen E)
          by lia.
        exact C0.
      + right. replace (blen junk + blen E + 1 + 1)
          with (blen junk + blen E + 2) by lia.
        exact C2.
    - intros k Hk. split.
      + intros (T1 & T2 & T3).
        destruct (Hin (k - 1) ltac:(lia)) as (c0 & G0 & R0 & _).
        destruct (Hin k ltac:(lia)) as (c1 & G1 & R1 & _).
        destruct (Hin (k + 1) ltac:(lia)) as (c2 & G2 & R2 & N2).
        rewrite T1 in R1. rewrite T2 in R0. subst c0 c1.
        assert (Hc2 : c2 = LF) by (destruct T3 as [T3|T3]; congruence).
        rewrite (occurs_at closing t (k - 1 - blen junk)) in Hocc;
          [discriminate Hocc|lia|].
        intros j c Hjc.
        destruct j as [|[|[|j]]]; cbn in Hjc;
          [| | |destruct j; discriminate Hjc]; injection Hjc as <-.
        * rewrite Z.add_0_r. exact G0.
        * replace (k - 1 - blen junk + Z.of_nat 1) with (k - blen junk)
            by lia.
          exact G1.
        * replace (k - 1 - blen junk + Z.of_nat 2) with (k + 1 - blen junk)
            by lia.
          rewrite G2, Hc2. reflexivity.
      + destruct (Hin k ltac:(lia)) as (c & _ & R & N). rewrite R. exact N. }
  replace (blen junk + blen t - 1) with (blen junk + blen E + 1) by lia.
  split; [|split].
  - rewrite (next_entry_is inp 0 (blen junk) (blen junk + blen E + 1) Hsm)
      by (first [lia | assumption]).
    f_equal. f_equal. blen_norm. lia.
  - rewrite copy_entry_range by (blen_norm; lia).
    unfold inp. rewrite <- app_assoc.
    rewrite !to_nat_blen, skipn_len_app.
    rewrite <- (app_nil_r (t ++ [NUL])) at 2. apply firstn_len_app.
  - apply next_entry_none; [exact Hsm|lia|].
    intros k Hk. assert (k = blen junk + blen E + 1) by lia. subst k.
    rewrite C1. discriminate.
Qed.

(** X14: where the byte behind the bytes of the file in the block of the
    input is NUL, an entry with nothing to fix whose closing brace is the
    last byte of the file, with no newline behind it, is still extracted:
    the run writes it as it stands in the file and reports one entry.  The
    program does not set that byte; it is NUL only where [malloc] left it
    so. *)
Theorem last_entry_without_newline (w : world) (argv : list buffer)
    (junk tag body : list ascii) (d : bool) :
  forallb terminated argv = true ->
  (forall k, malloc_ok w k = true) ->
  file_content w (input_name argv)
  = Some (junk ++ entry_of tag (body ++ [LF; "}"%char])) ->
  fresh w 2 (length (junk ++ entry_of tag (body ++ [LF; "}"%char]))) = NUL ->
  can_create w (output_name argv) = true ->
  forallb (fun c => negb (Ascii.eqb c "@") && negb (Ascii.eqb c NUL)) junk
  = true ->
  tag_ok tag = true ->
  untouched default_config (exception_flag default_config tag) false
    ("{"%char :: body ++ [LF; "}"%char]) [NUL] = Some d ->
  occurs closing (entry_of tag (body ++ [LF; "}"%char])) = false ->
  2 * blen (junk ++ entry_of tag (body ++ [LF; "}"%char])) + 40 < ULONG_MOD ->
  main w argv
  = Some {| written := Some (output_name argv,
                             entry_of tag (body ++ [LF; "}"%char]));
            ending := Returned 1 |}.
Proof.
  intros Ha Hm Hfile Hnul Hcan Hjunk Ht Hu Hocc Hs.
  destruct (last_entry_found default_config junk tag body d Hjunk Ht Hu Hocc
              Hs) as (N1 & C & N2).
  set (t := entry_of tag (body ++ [LF; "}"%char])) in *.
  set (inp := junk ++ t) in *.
  pose proof (blen_nonneg inp) as Hnn.
  pose proof (blen_nonneg junk) as Hj.
  assert (Hlen : blen inp = blen junk + blen t)
    by (unfold inp; blen_norm; lia).
  assert (H2 : 2 <= blen t).
  { unfold t. rewrite blen_entry_of.
    pose proof (blen_nonneg tag). pose proof (blen_nonneg (body ++ [LF; "}"%char])).
    lia. }
  rewrite (main_body w argv inp Ha (Hm _) (Hm _) (Hm _) (Hm _) Hfile)
    by (change ULONG_MOD with 18446744073709551616 in *; lia).
  rewrite Hnul.
  assert (Hterm : terminated (inp ++ [NUL]) = true).
  { unfold terminated. rewrite existsb_app. cbn. apply orb_true_r. }
  rewrite Hterm.
  destruct (length inp) as [|f] eqn:Hl.
  { exfalso. unfold blen in Hlen, H2, Hj. rewrite Hl in Hlen. lia. }
  cbn [main_run]. rewrite N1, Hm, C.
  unfold t at 1.
  rewrite (fix_entry_untouched_nul default_config _ tag
             (body ++ [LF; "}"%char]) d eq_refl Ht Hu)
    by (fold t; change ULONG_MOD with 18446744073709551616 in *; lia).
  fold t. rewrite blen_nil.
  destruct (Z.leb_spec (0 + blen t) (blen inp)) as [_|Hout]; [|lia].
  rewrite N2, Hcan. cbn [app]. reflexivity.
Qed.

(** ** The rewriting of an entry, on its text *)

Lemma prefixb_split (p : list ascii) :
  forall l, prefixb p l = true -> l = p ++ skipn (length p) l.
Proof.
  induction p as [|c p IH]; intros l H; [reflexivity|].
  destruct l as [|x l]; [discriminate H|].
  cbn [prefixb] in H. apply andb_true_iff in H. destruct H as [H1 H2].
  apply Ascii.eqb_eq in H1. subst x.
  cbn [length skipn app]. f_equal. exact (IH l H2).
Qed.

Lemma split_line_spec (l : list ascii) :
  forall v R, split_line l = Some (v, R) -> l = v ++ LF :: R /\ ~ In LF v.
Proof.
  induction l as [|c l IH]; intros v R H; [discriminate H|].
  cbn [split_line] in H.
  destruct (Ascii.eqb_spec c LF) as [->|Hc].
  - injection H as <- <-. split; [reflexivity|]. intros [].
  - destruct (split_line l) as [[v' R']|]; [|discriminate H].
    cbn [fst snd] in H. injection H as <- <-.
    destruct (IH v' R' eq_refl) as [-> Hn].
    split; [reflexivity|]. intros [E|E]; [exact (Hc E)|exact (Hn E)].
Qed.

Lemma after_field_spec (l : list ascii) :
  forall R, after_field l = Some R ->
    exists F, l = F ++ field_end ++ R /\ no_field_end F = true.
Proof.
  induction l as [|c l IH]; intros R H; [discriminate H|].
  cbn [after_field] in H.
  destruct (prefixb field_end (c :: l)) eqn:E.
  - injection H as <-. exists []. split; [|reflexivity].
    exact (prefixb_split field_end _ E).
  - destruct (IH R H) as (F & -> & HF). exists (c :: F).
    split; [reflexivity|].
    cbn [no_field_end]. rewrite HF, andb_true_r.
    apply negb_true_iff.
    change ((c :: F) ++ field_end ++ R)
      with (((c :: F) ++ field_end) ++ R) in E.
    rewrite <- E. symmetry.
    replace (c :: F ++ field_end ++ R) with (((c :: F) ++ field_end) ++ R)
      by list_eq.
    apply prefixb_field_end_app.
    rewrite length_app. cbn [length field_end]. lia.
Qed.

Lemma title_value_spec (v : list ascii) :
  5 <= blen v ->
  exists v0 v1 v2 M w2 w3,
    v = v0 :: v1 :: v2 :: M ++ [w2; w3]
    /\ title_value v = v0 :: v1 :: M ++ [w3].
Proof.
  intros H. unfold blen in H.
  destruct v as [|v0 [|v1 [|v2 t]]]; cbn [length] in H; try lia.
  assert (Ht : (2 <= length t)%nat) by lia.
  destruct (@exists_last _ t) as (t1 & w3 & ->);
    [intros ->; simpl in Ht; lia|].
  rewrite length_app in Ht. cbn [length] in Ht.
  destruct (@exists_last _ t1) as (M & w2 & ->);
    [intros ->; simpl in Ht; lia|].
  exists v0, v1, v2, M, w2, w3. split; [list_eq|].
  unfold title_value. cbn [length firstn skipn app].
  rewrite !length_app. cbn [length].
  replace (S (S (S (length M + 1 + 1))) - 5)%nat with (length M) by lia.
  replace (S (S (S (length M + 1 + 1))) - 1)%nat
    with (S (S (S (length M + 1)))) by lia.
  cbn [skipn].
  rewrite <- app_assoc. rewrite firstn_app, firstn_all, Nat.sub_diag.
  cbn [firstn]. rewrite app_nil_r.
  replace (length M + 1)%nat with (length (M ++ [w2]))
    by (rewrite length_app; reflexivity).
  rewrite app_assoc, skipn_app, skipn_all, Nat.sub_diag. reflexivity.
Qed.

Lemma month_fix_spec (r r' : list ascii) :
  month_fix r = Some r' ->
  exists c8 a b c R,
    r = kw_month ++ c8 :: "{"%char :: a :: b :: c :: "}"%char :: R
    /\ r' = kw_month ++ c8 :: a :: b :: c :: R.
Proof.
  unfold month_fix. intros H.
  destruct (prefixb kw_month r) eqn:E; [|discriminate H].
  apply prefixb_split in E. change (length kw_month) with 7%nat in E.
  destruct (skipn 7 r) as [|c8 [|c9 [|a [|b [|c [|c13 R]]]]]];
    try discriminate H.
  destruct (Ascii.eqb_spec c9 "{") as [->|_]; [|discriminate H].
  destruct (Ascii.eqb_spec c13 "}") as [->|_]; [|discriminate H].
  injection H as <-. exists c8, a, b, c, R. split; [exact E|reflexivity].
Qed.

Section TextRun.

Variable cfg : config.
Variable bU : bool.

Lemma text_fix_no_NUL (fuel : nat) :
  forall (d : bool) (rest out : list ascii),
    text_fix cfg bU fuel d rest = Some out -> ~ In NUL out.
Proof.
  induction fuel as [|f IH]; intros d rest out H; [discriminate H|].
  cbn [text_fix] in H. destruct rest as [|c r];
    [injection H as <-; intros []|].
  assert (Hcons : forall x d' r',
            x <> NUL ->
            (o <- text_fix cfg bU f d' r' ;; Some (x :: o)) = Some out ->
            ~ In NUL out).
  { intros x d' r' Hx E.
    destruct (text_fix cfg bU f d' r') as [o|] eqn:Eo; [|discriminate E].
    injection E as <-. intros [G|G]; [exact (Hx G)|exact (IH _ _ _ Eo G)]. }
  destruct (quiet_here cfg bU d ((c :: r) ++ [NUL])) eqn:Q.
  - apply (Hcons c _ _) in H; [exact H|].
    cbn [app quiet_here] in Q. apply andb_true_iff in Q.
    destruct Q as [Q _]. apply negb_true_iff in Q.
    intros ->. discriminate Q.
  - destruct (Ascii.eqb c LF).
    + destruct (month_fix r) as [r'|].
      * apply (Hcons LF _ _) in H; [exact H|discriminate].
      * destruct (prefixb kw_title r).
        { destruct (split_line (skipn 7 r)) as [p|]; [|discriminate H].
          destruct (5 <=? blen (fst p)); [|discriminate H].
          apply (Hcons LF _ _) in H; [exact H|discriminate]. }
        destruct (note_to_go cfg r).
        { destruct (after_field (tl r)) as [R|]; [|discriminate H].
          exact (IH _ _ _ H). }
        destruct (prefixb kw_file r
                  || prefixb kw_url r && url_unwanted cfg bU d);
          [|discriminate H].
        destruct (split_line r) as [p|]; [|discriminate H].
        exact (IH _ _ _ H).
    + destruct (prefixb esc_open (c :: r)).
      * apply (Hcons "{"%char _ _) in H; [exact H|discriminate].
      * destruct (prefixb esc_close (c :: r)); [|discriminate H].
        apply (Hcons "}"%char _ _) in H; [exact H|discriminate].
Qed.

(** One round of the loop at the head of the text, from a state and the
    state the body leaves. *)
Lemma text_step (s s2 : scan_state) (A rest A' rest' junk' : list ascii)
    (c : ascii) (d d' : bool) (N : Z) :
  at_text s A (c :: rest) d N ->
  N + 16 < ULONG_MOD ->
  c <> NUL ->
  scan_body cfg bU s = Some s2 ->
  curBibEntry s2 = A' ++ rest' ++ NUL :: junk' ->
  blen (curBibEntry s2) = N ->
  curBibInd s2 + 1 = blen A' ->
  curBibLength s2 = blen (A' ++ rest') ->
  has_doi s2 = d' ->
  blen A' + blen rest' + 2 <= N ->
  exists s', runs cfg bU s s' 1 /\ at_text s' A' rest' d' N.
Proof.
  intros ((junk & Hb & Hj) & Hi & Hl & Hd & HN) Hs Hc Hbody F1 F2 F3 F4 F5 F6.
  pose proof (blen_nonneg A') as HA'. pose proof (blen_nonneg rest') as HR'.
  exists (with_ind s2 (ul (curBibInd s2 + 1))). split.
  - apply (runs_step cfg bU s s2 c); [|apply Ascii.eqb_neq; exact Hc|
                                       exact Hbody].
    rewrite Hb, Hi. apply get_at.
  - unfold at_text. cbn [with_ind curBibEntry curBibInd curBibLength has_doi].
    split.
    + exists junk'. split; [exact F1|].
      rewrite F1 in F2. revert F2. blen_norm. lia.
    + rewrite F3, ul_small by lia. repeat split; assumption.
Qed.

Lemma text_fix_run (N : Z) (fuel : nat) :
  N + 16 < ULONG_MOD ->
  forall (d : bool) (rest out : list ascii) (s : scan_state)
         (A : list ascii),
    text_fix cfg bU fuel d rest = Some out ->
    at_text s A rest d N -> 1 <= blen A ->
    exists sf n junk,
      runs cfg bU s sf n
      /\ curBibEntry sf = (A ++ out) ++ NUL :: junk
      /\ curBibInd sf = blen (A ++ out).
Proof.
  intros HN. induction fuel as [|f IH]; intros d rest out s A H Hat HA;
    [discriminate H|].
  cbn [text_fix] in H. destruct rest as [|c r].
  { injection H as <-. destruct Hat as ((junk & Hb & _) & Hi & _).
    exists s, 0%nat, junk. split; [apply runs_refl|].
    rewrite app_nil_r. split; [exact Hb|exact Hi]. }
  pose proof Hat as ((junk & Hb & Hj) & Hi & Hl & Hd & HNb).
  pose proof (blen_nonneg A) as HA0. pose proof (blen_nonneg r) as Hr0.
  pose proof (blen_nonneg junk) as Hj0.
  assert (Hsz : blen A + blen r + blen junk + 2 = N).
  { rewrite <- HNb, Hb. blen_norm. lia. }
  destruct junk as [|j0 junk]; [rewrite blen_nil in Hj; lia|].
  pose proof (blen_nonneg junk) as Hj1.
  (* what is left to do behind a round *)
  assert (Hnext : forall s' A' rest' d' x out',
            runs cfg bU s s' 1 -> at_text s' A' rest' d' N ->
            1 <= blen A' ->
            text_fix cfg bU f d' rest' = Some out' ->
            A ++ x ++ out' = A' ++ out' ->
            out = x ++ out' ->
            exists sf n junk0,
              runs cfg bU s sf n
              /\ curBibEntry sf = (A ++ out) ++ NUL :: junk0
              /\ curBibInd sf = blen (A ++ out)).
  { intros s' A' rest' d' x out' R1 Hat' HA' Hfix EA ->.
    destruct (IH d' rest' out' s' A' Hfix Hat' HA')
      as (sf & n & junk0 & R2 & G1 & G2).
    exists sf, (1 + n)%nat, junk0.
    split; [exact (runs_trans cfg bU _ _ _ _ _ R1 R2)|].
    rewrite EA. split; assumption. }
  destruct (quiet_here cfg bU d ((c :: r) ++ [NUL])) eqn:Q.
  { (* nothing to edit here *)
    destruct (text_fix cfg bU f (d || doi_here ((c :: r) ++ [NUL])) r)
      as [out'|] eqn:Ef; [|discriminate H].
    injection H as <-.
    assert (Hc : c <> NUL).
    { cbn [app quiet_here] in Q. apply andb_true_iff in Q.
      destruct Q as [Q _]. apply negb_true_iff in Q.
      intros ->. discriminate Q. }
    destruct (scan_body_quiet cfg bU s A (c :: r) (j0 :: junk))
      as (s1 & Hbody & E1 & E2 & E3 & E4).
    { rewrite Hb. list_eq. }
    { exact Hi. }
    { lia. }
    { rewrite Hd. exact Q. }
    destruct (text_step s s1 A r (A ++ [c]) r (j0 :: junk) c d
                (d || doi_here ((c :: r) ++ [NUL])) N Hat HN Hc Hbody)
      as (s' & R1 & Hat').
    { rewrite E1, Hb. list_eq. }
    { rewrite E1. exact HNb. }
    { rewrite E2, Hi. blen_norm. lia. }
    { rewrite E3, Hl. blen_norm. lia. }
    { rewrite E4, Hd. reflexivity. }
    { blen_norm. lia. }
    apply (Hnext s' (A ++ [c]) r _ [c] out' R1 Hat'); try assumption.
    - blen_norm. lia.
    - list_eq.
    - reflexivity. }
  destruct (Ascii.eqb_spec c LF) as [->|HcLF].
  - (* at a newline *)
    destruct (month_fix r) as [r'|] eqn:Em.
    { (* the braces of a month *)
      destruct (text_fix cfg bU f d r') as [out'|] eqn:Ef; [|discriminate H].
      injection H as <-.
      destruct (month_fix_spec r r' Em) as (c8 & a & b & c & R & -> & ->).
      pose proof (blen_nonneg R) as HR0.
      assert (HrR : blen (kw_month
                          ++ c8 :: "{"%char :: a :: b :: c :: "}"%char :: R)
                    = 13 + blen R) by (blen_norm; blen_kw; lia).
      rewrite HrR in Hsz.
      assert (Hbody : scan_body cfg bU s = fix_month s).
      { rewrite (scan_body_month cfg bU s A (R ++ NUL :: j0 :: junk)
                   c8 "{" a b c "}");
          [reflexivity| |exact Hi|lia].
        rewrite Hb. list_eq. }
      destruct (fix_month_spec s A R (j0 :: junk) c8 a b c)
        as (s2 & junk' & Hfm & F1 & F2 & F3 & F4 & F5).
      { rewrite Hb. list_eq. }
      { exact Hi. }
      { rewrite Hl. blen_norm. blen_kw. lia. }
      { revert Hsz. blen_norm. lia. }
      rewrite <- Hbody in Hfm.
      destruct (text_step s s2 A _ (A ++ [LF])
                  (kw_month ++ c8 :: a :: b :: c :: R) junk' LF d d N
                  Hat HN ltac:(discriminate) Hfm)
        as (s' & R1 & Hat').
      { rewrite F1. list_eq. }
      { rewrite F2. exact HNb. }
      { rewrite F3. blen_norm. lia. }
      { rewrite F4. blen_norm. blen_kw. lia. }
      { rewrite F5. exact Hd. }
      { revert Hsz. blen_norm. blen_kw. lia. }
      apply (Hnext s' (A ++ [LF]) _ d [LF] out' R1 Hat'); try assumption.
      - blen_norm. lia.
      - list_eq.
      - reflexivity. }
    destruct (prefixb kw_title r) eqn:Et.
    { (* a title *)
      destruct (split_line (skipn 7 r)) as [[v R]|] eqn:Es;
        [|discriminate H].
      cbn [fst snd] in H.
      destruct (Z.leb_spec 5 (blen v)) as [Hv|_]; [|discriminate H].
      destruct (text_fix cfg bU f d (kw_title ++ title_value v ++ LF :: R))
        as [out'|] eqn:Ef; [|discriminate H].
      injection H as <-.
      apply prefixb_split in Et. change (length kw_title) with 7%nat in Et.
      destruct (split_line_spec _ _ _ Es) as [Er Hnl].
      rewrite Er in Et.
      destruct (title_value_spec v Hv)
        as (v0 & v1 & v2 & M & w2 & w3 & Ev & Etv).
      rewrite Etv in Ef. rewrite Ev in Et, Hnl. clear Etv Ev Er Es.
      subst r.
      pose proof (blen_nonneg R) as HR0. pose proof (blen_nonneg M) as HM0.
      assert (HrR : blen (kw_title
                          ++ (v0 :: v1 :: v2 :: M ++ [w2; w3]) ++ LF :: R)
                    = 13 + blen M + blen R) by (blen_norm; blen_kw; lia).
      rewrite HrR in Hsz.
      assert (Hbody : scan_body cfg bU s = fix_title s).
      { apply (scan_body_title cfg bU s A
                 ((v0 :: v1 :: v2 :: M ++ [w2; w3]) ++ LF :: R
                  ++ NUL :: j0 :: junk)); [|exact Hi|lia].
        rewrite Hb. list_eq. }
      destruct (fix_title_spec s A M R (j0 :: junk) v0 v1 v2 w2 w3)
        as (s2 & junk' & Hft & F1 & F2 & F3 & F4 & F5).
      { rewrite Hb. list_eq. }
      { exact Hnl. }
      { exact Hi. }
      { rewrite Hl. blen_norm. blen_kw. lia. }
      { revert Hsz. blen_norm. lia. }
      rewrite <- Hbody in Hft.
      destruct (text_step s s2 A _ (A ++ [LF])
                  (kw_title ++ (v0 :: v1 :: M ++ [w3]) ++ LF :: R) junk'
                  LF d d N Hat HN ltac:(discriminate) Hft)
        as (s' & R1 & Hat').
      { rewrite F1. list_eq. }
      { rewrite F2. exact HNb. }
      { rewrite F3. blen_norm. lia. }
      { rewrite F4. blen_norm. blen_kw. lia. }
      { rewrite F5. exact Hd. }
      { revert Hsz. blen_norm. blen_kw. lia. }
      apply (Hnext s' (A ++ [LF]) _ d [LF] out' R1 Hat'); try assumption.
      - blen_norm. lia.
      - list_eq.
      - reflexivity. }
    destruct (note_to_go cfg r) eqn:En.
    { (* a field that goes *)
      destruct (after_field (tl r)) as [R|] eqn:Ea; [|discriminate H].
      assert (Hkw : exists kw l,
                 ((kw = kw_annote /\ keep_annote cfg = false)
                  \/ (kw = kw_abstract /\ keep_abstract cfg = false))
                 /\ r = kw ++ l).
      { unfold note_to_go in En. apply orb_true_iff in En.
        destruct En as [En|En]; apply andb_true_iff in En;
          destruct En as [K P]; apply negb_true_iff in K;
          apply prefixb_split in P.
        - exists kw_annote, (skipn (length kw_annote) r).
          split; [left; split; [reflexivity|exact K]|exact P].
        - exists kw_abstract, (skipn (length kw_abstract) r).
          split; [right; split; [reflexivity|exact K]|exact P]. }
      destruct Hkw as (kw & l & Hkw & Er).
      assert (Hbody : scan_body cfg bU s = erase_field s).
      { apply (scan_body_note cfg bU s A kw (l ++ NUL :: j0 :: junk) Hkw);
          [|exact Hi|lia].
        rewrite Hb, Er. list_eq. }
      destruct r as [|c0 r0].
      { exfalso. destruct Hkw as [[-> _]|[-> _]]; discriminate Er. }
      cbn [tl] in Ea.
      destruct (after_field_spec r0 R Ea) as (F & -> & HF).
      destruct (erase_field_spec s A F R junk c0 j0)
        as (s2 & junk' & Hef & F1 & F2 & F3 & F4 & F5).
      { rewrite Hb. list_eq. }
      { exact HF. }
      { exact Hi. }
      { exact HA. }
      { rewrite Hl. f_equal. list_eq. }
      { lia. }
      rewrite <- Hbody in Hef.
      pose proof (blen_nonneg R) as HR0. pose proof (blen_nonneg F) as HF0.
      destruct (text_step s s2 A _ A (LF :: R) (j0 :: junk') LF d d N
                  Hat HN ltac:(discriminate) Hef)
        as (s' & R1 & Hat').
      { rewrite F1. list_eq. }
      { rewrite F2. exact HNb. }
      { rewrite F3. lia. }
      { exact F4. }
      { rewrite F5. exact Hd. }
      { revert Hsz. blen_norm. blen_kw. lia. }
      apply (Hnext s' A _ d [] out R1 Hat'); try assumption; reflexivity. }
    destruct (prefixb kw_file r
              || prefixb kw_url r && url_unwanted cfg bU d) eqn:Ee;
      [|discriminate H].
    (* a line that goes *)
    destruct (split_line r) as [[L R]|] eqn:Es; [|discriminate H].
    cbn [snd] in H.
    destruct (split_line_spec _ _ _ Es) as [Er Hnl].
    assert (Hbody : scan_body cfg bU s = erase_line s).
    { apply orb_true_iff in Ee. destruct Ee as [P|P].
      - apply prefixb_split in P.
        apply (scan_body_file cfg bU s A
                 (skipn (length kw_file) r ++ NUL :: j0 :: junk));
          [|exact Hi|lia].
        rewrite Hb. rewrite P at 1. list_eq.
      - apply andb_true_iff in P. destruct P as [P U].
        apply prefixb_split in P.
        rewrite (scan_body_url cfg bU s A
                   (skipn (length kw_url) r ++ NUL :: j0 :: junk));
          [rewrite Hd, U; reflexivity| |exact Hi|lia].
        rewrite Hb. rewrite P at 1. list_eq. }
    subst r.
    destruct (erase_line_spec s A L R junk j0)
      as (s2 & junk' & Hel & F1 & F2 & F3 & F4 & F5).
    { rewrite Hb. list_eq. }
    { exact Hnl. }
    { exact Hi. }
    { exact HA. }
    { rewrite Hl. f_equal. }
    { lia. }
    rewrite <- Hbody in Hel.
    pose proof (blen_nonneg R) as HR0. pose proof (blen_nonneg L) as HL0.
    destruct (text_step s s2 A _ A (LF :: R) (j0 :: junk') LF d d N
                Hat HN ltac:(discriminate) Hel)
      as (s' & R1 & Hat').
    { rewrite F1. list_eq. }
    { rewrite F2. exact HNb. }
    { rewrite F3. lia. }
    { exact F4. }
    { rewrite F5. exact Hd. }
    { revert Hsz. blen_norm. lia. }
    apply (Hnext s' A _ d [] out R1 Hat'); try assumption; reflexivity.
  - (* at another byte: the escaped braces *)
    assert (Hesc : exists esc x,
               (esc = esc_open \/ esc = esc_close)
               /\ c :: r = esc ++ skipn 4 (c :: r)
               /\ x = (if list_eqb esc esc_open then "{"%char else "}"%char)
               /\ (o <- text_fix cfg bU f d (skipn 4 (c :: r)) ;;
                   Some (x :: o)) = Some out).
    { destruct (prefixb esc_open (c :: r)) eqn:P1.
      - exists esc_open, "{"%char. split; [left; reflexivity|].
        split; [exact (prefixb_split esc_open _ P1)|].
        split; [reflexivity|exact H].
      - destruct (prefixb esc_close (c :: r)) eqn:P2; [|discriminate H].
        exists esc_close, "}"%char. split; [right; reflexivity|].
        split; [exact (prefixb_split esc_close _ P2)|].
        split; [reflexivity|exact H]. }
    destruct Hesc as (esc & x & Hesc & Er & Ex & Hx).
    destruct (text_fix cfg bU f d (skipn 4 (c :: r))) as [out'|] eqn:Ef;
      [|discriminate Hx].
    injection Hx as <-.
    set (R := skipn 4 (c :: r)) in *.
    pose proof (blen_nonneg R) as HR0.
    assert (Hlen : blen (c :: r) = 4 + blen R).
    { rewrite Er, blen_app.
      destruct Hesc as [-> | ->];
        [change (blen esc_open) with 4|change (blen esc_close) with 4];
        lia. }
    rewrite blen_cons in Hlen.
    assert (Hc : c <> NUL).
    { destruct Hesc as [-> | ->]; injection Er as -> _; discriminate. }
    assert (Hbody : scan_body cfg bU s
                    = if list_eqb esc esc_open then fix_open_brace s
                      else fix_close_brace s).
    { apply (scan_body_brace cfg bU s A (R ++ NUL :: j0 :: junk) esc Hesc);
        [|exact Hi].
      rewrite Hb, Er. list_eq. }
    assert (Hspec : exists s2 junk',
               scan_body cfg bU s = Some s2
               /\ curBibEntry s2 = A ++ x :: R ++ NUL :: j0 :: junk'
               /\ blen (curBibEntry s2) = blen (curBibEntry s)
               /\ curBibInd s2 = blen A
               /\ curBibLength s2 = blen A + 1 + blen R
               /\ has_doi s2 = has_doi s).
    { rewrite Hbody, Ex. destruct Hesc as [-> | ->].
      - change (list_eqb esc_open esc_open) with true. cbv iota.
        apply (fix_open_brace_spec s A R junk j0).
        + rewrite Hb, Er. list_eq.
        + exact Hi.
        + rewrite Hl. blen_norm. lia.
        + revert Hsz. blen_norm. lia.
      - change (list_eqb esc_close esc_open) with false. cbv iota.
        apply (fix_close_brace_spec s A R junk j0).
        + rewrite Hb, Er. list_eq.
        + exact Hi.
        + rewrite Hl. blen_norm. lia.
        + revert Hsz. blen_norm. lia. }
    destruct Hspec as (s2 & junk' & Hsb & F1 & F2 & F3 & F4 & F5).
    destruct (text_step s s2 A r (A ++ [x]) R (j0 :: junk') c d d N
                Hat HN Hc Hsb)
      as (s' & R1 & Hat').
    { rewrite F1. list_eq. }
    { rewrite F2. exact HNb. }
    { rewrite F3. blen_norm. lia. }
    { rewrite F4. blen_norm. lia. }
    { rewrite F5. exact Hd. }
    { revert Hsz. blen_norm. lia. }
    apply (Hnext s' (A ++ [x]) R d [x] out' R1 Hat'); try assumption.
    + blen_norm. lia.
    + list_eq.
    + reflexivity.
Qed.

End TextRun.

(** The rewriter on an entry through whose text [text_fix] walks. *)
Lemma fix_entry_text (cfg : config) (pad : ascii)
    (tag body out : list ascii) (fuel : nat) :
  turn_issn_into_missing_year cfg = false ->
  tag_ok tag = true ->
  text_fix cfg (exception_flag cfg tag) fuel false ("{"%char :: body)
  = Some out ->
  2 * blen (entry_of tag body) + 40 < ULONG_MOD ->
  fix_entry cfg pad (entry_of tag body) = Some ("@"%char :: tag ++ out).
Proof.
  intros Hy Ht Hfix Hs.
  set (bU := exception_flag cfg tag) in *.
  set (entry := entry_of tag body) in *.
  set (b := entry ++ [NUL; pad]).
  set (s0 := scan_start b (blen entry) (1 + blen tag)).
  pose proof (blen_nonneg tag) as Htag.
  pose proof (blen_nonneg body) as Hbody.
  pose proof (blen_nonneg entry) as Hent.
  assert (Hbl : blen b = blen entry + 2) by (unfold b; blen_norm; lia).
  assert (Hel : blen entry = blen tag + blen body + 2)
    by (unfold entry; rewrite blen_entry_of; lia).
  assert (Hmod : ULONG_MOD = 18446744073709551616) by reflexivity.
  assert (Hat : at_text s0 ("@"%char :: tag) ("{"%char :: body) false
                  (blen b)).
  { unfold at_text, s0. cbn [scan_start curBibEntry curBibInd curBibLength
                               has_doi].
    split; [exists [pad]; split;
            [unfold b, entry, entry_of; list_eq|rewrite blen_cons, blen_nil;
                                                 lia]|].
    split; [rewrite blen_cons; reflexivity|].
    split; [unfold entry, entry_of; f_equal; list_eq|].
    split; reflexivity. }
  destruct (text_fix_run cfg bU (blen b) fuel ltac:(lia) false
              ("{"%char :: body) out s0 ("@"%char :: tag) Hfix Hat
              ltac:(rewrite blen_cons; lia))
    as (sf & n & junk & R & G1 & G2).
  assert (Hstop : scan_loop cfg bU 1 sf = Some sf).
  { apply scan_loop_stop. rewrite G1, G2. apply get_at. }
  apply R in Hstop.
  assert (Hrun : scan_loop cfg bU (S (2 * length b)) s0 = Some sf).
  { destruct (Nat.le_gt_cases (n + 1) (S (2 * length b))) as [Hle|Hgt].
    - exact (scan_loop_mono cfg bU _ _ _ _ Hstop Hle).
    - rewrite <- Hstop. symmetry. unfold s0.
      apply scan_loop_enough; lia. }
  unfold fix_entry. cbv zeta. fold entry. fold b.
  assert (Eb : b = "@"%char :: tag ++ "{"%char :: (body ++ [NUL; pad]))
    by (unfold b, entry, entry_of; list_eq).
  rewrite Eb at 1. rewrite (scan_type_tag tag _ Ht). cbn [fst snd].
  fold bU. fold s0. rewrite Hrun.
  unfold backfill. rewrite Hy. cbn [andb]. rewrite G1.
  rewrite cstr_text; [reflexivity|].
  intros Hin. apply in_app_or in Hin. destruct Hin as [Hin|Hin].
  - destruct Hin as [Hin|Hin]; [discriminate Hin|].
    exact (tag_ok_no_NUL tag Ht Hin).
  - exact (text_fix_no_NUL cfg bU fuel _ _ _ Hfix Hin).
Qed.

(** X26: the rewriter does to an entry what [text_fix] does to its text:
    every fix is made where the scan meets it, one after the other and
    each on the text the fixes before it have left, and the bytes between
    them stay.  An entry with several defects comes out with all of them
    fixed. *)
Theorem rewriter_follows_text_fix (cfg : config) (pad : ascii)
    (tag body out : list ascii) (fuel : nat) :
  turn_issn_into_missing_year cfg = false ->
  tag_ok tag = true ->
  text_fix cfg (exception_flag cfg tag) fuel false ("{"%char :: body)
  = Some out ->
  2 * blen (entry_of tag body) + 40 < ULONG_MOD ->
  fix_entry cfg pad (entry_of tag body) = Some ("@"%char :: tag ++ out).
Proof. exact (fix_entry_text cfg pad tag body out fuel). Qed.

(** ** The walk through the text, in parts *)

Section TextParts.

Variable cfg : config.
Variable bU : bool.

(** [text_next] is the step of [text_fix]. *)
Lemma text_fix_next (f : nat) (d : bool) (rest : list ascii) :
  text_fix cfg bU (S f) d rest
  = match rest with
    | [] => Some []
    | _ :: _ =>
        match text_next cfg bU d rest with
        | Some (o, d', rest') =>
            out <- text_fix cfg bU f d' rest' ;; Some (o ++ out)
        | None => None
        end
    end.
Proof.
  cbn [text_fix]. destruct rest as [|c r]; [reflexivity|].
  unfold text_next.
  destruct (quiet_here cfg bU d ((c :: r) ++ [NUL])); [reflexivity|].
  destruct (Ascii.eqb c LF).
  - destruct (month_fix r) as [r'|]; [reflexivity|].
    destruct (prefixb kw_title r).
    + destruct (split_line (skipn 7 r)) as [p|]; [|reflexivity].
      destruct (5 <=? blen (fst p)); reflexivity.
    + destruct (note_to_go cfg r).
      * destruct (after_field (tl r)) as [R|]; [|reflexivity].
        cbn [app].
        destruct (text_fix cfg bU f d (LF :: R)); reflexivity.
      * destruct (prefixb kw_file r
                  || prefixb kw_url r && url_unwanted cfg bU d);
          [|reflexivity].
        destruct (split_line r) as [p|]; [|reflexivity].
        cbn [app].
        destruct (text_fix cfg bU f d (LF :: snd p)); reflexivity.
  - destruct (prefixb esc_open (c :: r)); [reflexivity|].
    destruct (prefixb esc_close (c :: r)); reflexivity.
Qed.

Lemma text_fix_mono (f : nat) :
  forall (f' : nat) (d : bool) (rest out : list ascii),
    text_fix cfg bU f d rest = Some out -> (f <= f')%nat ->
    text_fix cfg bU f' d rest = Some out.
Proof.
  induction f as [|f IH]; intros f' d rest out H Hle; [discriminate H|].
  destruct f' as [|f']; [lia|].
  rewrite text_fix_next in *.
  destruct rest as [|c r]; [exact H|].
  destruct (text_next cfg bU d (c :: r)) as [[[o d'] rest']|];
    [|discriminate H].
  destruct (text_fix cfg bU f d' rest') as [o'|] eqn:E; [|discriminate H].
  rewrite (IH f' d' rest' o' E) by lia. exact H.
Qed.

(** The walk up to [stop], and then the walk from [stop] on. *)
Lemma text_upto_fix (f1 : nat) :
  forall (d : bool) (rest stop o1 : list ascii) (d1 : bool) (f2 : nat)
         (o2 : list ascii),
    text_upto cfg bU f1 d rest stop = Some (o1, d1) ->
    text_fix cfg bU f2 d1 stop = Some o2 ->
    text_fix cfg bU (f1 + f2) d rest = Some (o1 ++ o2).
Proof.
  induction f1 as [|f IH]; intros d rest stop o1 d1 f2 o2 H1 H2;
    cbn [text_upto] in H1; unfold list_eqb in H1;
    destruct (list_eq_dec ascii_dec rest stop) as [->|Hne].
  - injection H1 as <- <-. exact H2.
  - discriminate H1.
  - injection H1 as <- <-.
    apply (text_fix_mono f2 (S f + f2) _ stop o2 H2). lia.
  - change (S f + f2)%nat with (S (f + f2)). rewrite text_fix_next.
    destruct (text_next cfg bU d rest) as [[[o d'] rest']|] eqn:En;
      [|discriminate H1].
    destruct rest as [|c r]; [discriminate En|].
    destruct (text_upto cfg bU f d' rest' stop) as [[o' d'']|] eqn:Eu;
      [|discriminate H1].
    cbn [fst snd] in H1. injection H1 as <- <-.
    rewrite (IH d' rest' stop o' d'' f2 o2 Eu H2).
    rewrite app_assoc. reflexivity.
Qed.

(** Text that the scan leaves alone is walked through byte by byte. *)
Lemma untouched_upto (seg : list ascii) :
  forall (d d' : bool) (rest : list ascii),
    untouched cfg bU d seg (rest ++ [NUL]) = Some d' ->
    text_upto cfg bU (length seg) d (seg ++ rest) rest = Some (seg, d').
Proof.
  induction seg as [|c seg IH]; intros d d' rest H.
  - cbn [untouched] in H. injection H as <-.
    cbn [length app text_upto]. unfold list_eqb.
    destruct (list_eq_dec ascii_dec rest rest) as [_|N];
      [reflexivity|contradiction N; reflexivity].
  - cbn [untouched] in H.
    destruct (quiet_here cfg bU d ((c :: seg) ++ rest ++ [NUL])) eqn:Q;
      [|discriminate H].
    cbn [length text_upto]. unfold list_eqb.
    destruct (list_eq_dec ascii_dec ((c :: seg) ++ rest) rest) as [E|_].
    { exfalso. apply (f_equal (@length ascii)) in E.
      rewrite length_app in E. cbn [length] in E. lia. }
    unfold text_next. cbn [app].
    change (c :: (seg ++ rest) ++ [NUL])
      with ((c :: seg ++ rest) ++ [NUL]).
    replace ((c :: seg ++ rest) ++ [NUL]) with ((c :: seg) ++ rest ++ [NUL])
      by list_eq.
    rewrite Q. rewrite (IH _ _ _ H). reflexivity.
Qed.

End TextParts.

Section TextLines.

Variable cfg : config.
Variable bU : bool.

Lemma text_fix_step (f : nat) (d d' : bool) (rest o rest' o2 : list ascii) :
  text_next cfg bU d rest = Some (o, d', rest') ->
  text_fix cfg bU f d' rest' = Some o2 ->
  text_fix cfg bU (S f) d rest = Some (o ++ o2).
Proof.
  intros Hn Hf. rewrite text_fix_next.
  destruct rest as [|c r]; [discriminate Hn|].
  rewrite Hn, Hf. reflexivity.
Qed.

Lemma split_line_app (L R : list ascii) :
  ~ In LF L -> split_line (L ++ LF :: R) = Some (L, R).
Proof.
  induction L as [|c L IH]; intros Hn; cbn [app split_line].
  - change (Ascii.eqb LF LF) with true. reflexivity.
  - destruct (Ascii.eqb_spec c LF) as [->|_];
      [exfalso; apply Hn; left; reflexivity|].
    rewrite IH by (intros H; apply Hn; right; exact H). reflexivity.
Qed.



(** A line that goes: a [file] line, or a [url] line where the url is
    not wanted. *)
Lemma text_next_line_erased (d : bool) (kw V post : list ascii) :
  kw = kw_file \/ (kw = kw_url /\ url_unwanted cfg bU d = true) ->
  one_line V = true ->
  text_next cfg bU d (LF :: kw ++ V ++ LF :: post)
  = Some ([], d, LF :: post).
Proof.
  intros Hkw HV.
  assert (Hs : split_line (kw ++ V ++ LF :: post) = Some (kw ++ V, post)).
  { rewrite app_assoc. apply split_line_app.
    intros H. apply in_app_or in H. destruct H as [H|H].
    - destruct Hkw as [->|[-> _]]; simpl in H;
        repeat (destruct H as [H|H]; [discriminate H|]); exact H.
    - exact (one_line_spec V HV H). }
  unfold text_next.
  assert (Q : quiet_here cfg bU d ((LF :: kw ++ V ++ LF :: post) ++ [NUL])
              = false).
  { destruct Hkw as [->|[-> U]]; cbn [app quiet_here];
      change (Ascii.eqb LF NUL) with false;
      change (Ascii.eqb LF LF) with true; cbv iota; cbn [negb andb];
      unfold quiet_line.
    - replace (absent _ 1 kw_file) with false by reflexivity.
      rewrite andb_false_r. reflexivity.
    - replace (absent _ 1 kw_url) with false by reflexivity.
      rewrite U. cbn [negb orb]. rewrite andb_false_r. reflexivity. }
  rewrite Q. change (Ascii.eqb LF LF) with true. cbv iota.
  assert (Hm : month_fix (kw ++ V ++ LF :: post) = None)
    by (destruct Hkw as [->|[-> _]]; reflexivity).
  assert (Ht : prefixb kw_title (kw ++ V ++ LF :: post) = false)
    by (destruct Hkw as [->|[-> _]]; reflexivity).
  assert (Hn : note_to_go cfg (kw ++ V ++ LF :: post) = false).
  { unfold note_to_go.
    replace (prefixb kw_annote (kw ++ V ++ LF :: post)) with false
      by (destruct Hkw as [->|[-> _]]; reflexivity).
    replace (prefixb kw_abstract (kw ++ V ++ LF :: post)) with false
      by (destruct Hkw as [->|[-> _]]; reflexivity).
    rewrite !andb_false_r. reflexivity. }
  rewrite Hm, Ht, Hn.
  replace (prefixb kw_file (kw ++ V ++ LF :: post)
           || prefixb kw_url (kw ++ V ++ LF :: post)
              && url_unwanted cfg bU d) with true.
  - rewrite Hs. reflexivity.
  - destruct Hkw as [->|[-> U]]; [reflexivity|].
    rewrite U. reflexivity.
Qed.


(** A month line: the braces at offsets 9 and 13 go; without one of them
    the scan passes. *)
Lemma text_next_month (d : bool) (c8 c9 a b c c13 : ascii)
    (post : list ascii) :
  text_next cfg bU d (LF :: kw_month ++ c8 :: c9 :: a :: b :: c :: c13 :: post)
  = Some ([LF], d,
          kw_month
            ++ (if Ascii.eqb c9 "{" && Ascii.eqb c13 "}"
                then c8 :: a :: b :: c :: post
                else c8 :: c9 :: a :: b :: c :: c13 :: post)).
Proof.
  unfold text_next. cbn [app quiet_here].
  change (Ascii.eqb LF NUL) with false.
  change (Ascii.eqb LF LF) with true. cbv iota. cbn [negb andb].
  unfold quiet_line.
  replace (absent _ 1 kw_month) with false by reflexivity.
  replace (absent _ 1 kw_title) with true by reflexivity.
  replace (absent _ 1 kw_annote) with true by reflexivity.
  replace (absent _ 1 kw_abstract) with true by reflexivity.
  replace (absent _ 1 kw_file) with true by reflexivity.
  replace (absent _ 1 kw_url) with true by reflexivity.
  rewrite !orb_true_r. cbn [orb andb].
  replace (byte_isnt (LF :: (kw_month
             ++ c8 :: c9 :: a :: b :: c :: c13 :: post) ++ [NUL]) 9 "{")
    with (negb (Ascii.eqb c9 "{")) by reflexivity.
  replace (byte_isnt (LF :: (kw_month
             ++ c8 :: c9 :: a :: b :: c :: c13 :: post) ++ [NUL]) 13 "}")
    with (negb (Ascii.eqb c13 "}")) by reflexivity.
  unfold month_fix.
  replace (prefixb kw_month
             (kw_month ++ c8 :: c9 :: a :: b :: c :: c13 :: post))
    with true by reflexivity.
  change (skipn 7 (kw_month ++ c8 :: c9 :: a :: b :: c :: c13 :: post))
    with (c8 :: c9 :: a :: b :: c :: c13 :: post).
  cbv iota.
  replace (doi_here _) with false by reflexivity.
  rewrite orb_false_r.
  destruct (Ascii.eqb c9 "{"); destruct (Ascii.eqb c13 "}");
    cbn [negb orb andb]; reflexivity.
Qed.


(** The head of a [url] line that stays. *)
Lemma untouched_url_head (d : bool) (X : list ascii) :
  url_unwanted cfg bU d = false ->
  untouched cfg bU d (LF :: kw_url) (X ++ [NUL]) = Some d.
Proof.
  intros U. unfold kw_url, lit. cbn [list_ascii_of_string untouched app].
  cbn [quiet_here].
  change (Ascii.eqb LF NUL) with false.
  change (Ascii.eqb LF LF) with true. cbv iota. cbn [negb andb].
  unfold quiet_line. rewrite U.
  replace (absent _ 1 kw_month) with true by reflexivity.
  replace (absent _ 1 kw_title) with true by reflexivity.
  replace (absent _ 1 kw_annote) with true by reflexivity.
  replace (absent _ 1 kw_abstract) with true by reflexivity.
  replace (absent _ 1 kw_file) with true by reflexivity.
  rewrite !orb_true_r. cbn [negb orb andb].
  replace (doi_here _) with false by reflexivity.
  rewrite orb_false_r.
  repeat (cbn [quiet_here]; match goal with
          | |- context [Ascii.eqb ?x NUL] =>
              change (Ascii.eqb x NUL) with false
          end;
          match goal with
          | |- context [Ascii.eqb ?x LF] =>
              change (Ascii.eqb x LF) with false
          end; cbv iota; cbn [negb andb];
          replace (absent _ 0 esc_open) with true by reflexivity;
          replace (absent _ 0 esc_close) with true by reflexivity;
          cbn [andb];
          replace (doi_here _) with false by reflexivity;
          rewrite orb_false_r).
  reflexivity.
Qed.

End TextLines.

(** The rewriter on an entry whose text is walked in two parts. *)
Lemma fix_entry_parts (cfg : config) (pad : ascii)
    (tag body stop o1 o2 : list ascii) (d1 : bool) (f1 f2 : nat) :
  turn_issn_into_missing_year cfg = false ->
  tag_ok tag = true ->
  text_upto cfg (exception_flag cfg tag) f1 false ("{"%char :: body) stop
  = Some (o1, d1) ->
  text_fix cfg (exception_flag cfg tag) f2 d1 stop = Some o2 ->
  2 * blen (entry_of tag body) + 40 < ULONG_MOD ->
  fix_entry cfg pad (entry_of tag body)
  = Some ("@"%char :: tag ++ o1 ++ o2).
Proof.
  intros Hy Ht H1 H2 Hs.
  apply (fix_entry_text cfg pad tag body (o1 ++ o2) (f1 + f2) Hy Ht);
    [|exact Hs].
  exact (text_upto_fix cfg _ f1 _ _ _ _ _ _ _ H1 H2).
Qed.

(** ** The statements on a line among other lines

    The entry holds other lines that the scan edits, a title line
    among them: the scan comes to the line of the statement as
    [text_upto] tells, and goes on behind it as [text_fix] tells. *)

Section TextDoi.

Variable cfg : config.
Variable bU : bool.

(** Behind a [doi] line [has_doi] is set, and it stays set. *)
Lemma text_next_doi (d d' : bool) (X o r : list ascii) :
  text_next cfg bU d (LF :: kw_doi ++ X) = Some (o, d', r) -> d' = true.
Proof.
  unfold text_next.
  destruct (quiet_here cfg bU d ((LF :: kw_doi ++ X) ++ [NUL])).
  - intros H. injection H as _ <- _.
    replace (doi_here ((LF :: kw_doi ++ X) ++ [NUL])) with true
      by reflexivity.
    apply orb_true_r.
  - change (Ascii.eqb LF LF) with true. cbv iota.
    replace (month_fix (kw_doi ++ X)) with (@None (list ascii))
      by reflexivity.
    replace (prefixb kw_title (kw_doi ++ X)) with false by reflexivity.
    unfold note_to_go.
    replace (prefixb kw_annote (kw_doi ++ X)) with false by reflexivity.
    replace (prefixb kw_abstract (kw_doi ++ X)) with false by reflexivity.
    rewrite !andb_false_r. cbn [orb].
    replace (prefixb kw_file (kw_doi ++ X)) with false by reflexivity.
    replace (prefixb kw_url (kw_doi ++ X)) with false by reflexivity.
    cbn [andb orb]. discriminate.
Qed.

Lemma text_next_keeps_doi (d' : bool) (rest o r : list ascii) :
  text_next cfg bU true rest = Some (o, d', r) -> d' = true.
Proof.
  unfold text_next. destruct rest as [|c rest]; [discriminate|].
  destruct (quiet_here cfg bU true ((c :: rest) ++ [NUL]));
    [intros H; injection H as _ <- _; reflexivity|].
  destruct (Ascii.eqb c LF).
  - destruct (month_fix rest); [intros H; injection H as _ <- _; reflexivity|].
    destruct (prefixb kw_title rest).
    + destruct (split_line (skipn 7 rest)) as [p|]; [|discriminate].
      destruct (5 <=? blen (fst p)); [|discriminate].
      intros H; injection H as _ <- _; reflexivity.
    + destruct (note_to_go cfg rest).
      * destruct (after_field (tl rest)); [|discriminate].
        intros H; injection H as _ <- _; reflexivity.
      * destruct (prefixb kw_file rest
                  || prefixb kw_url rest && url_unwanted cfg bU true);
          [|discriminate].
        destruct (split_line rest); [|discriminate].
        intros H; injection H as _ <- _; reflexivity.
  - destruct (prefixb esc_open (c :: rest));
      [intros H; injection H as _ <- _; reflexivity|].
    destruct (prefixb esc_close (c :: rest)); [|discriminate].
    intros H; injection H as _ <- _; reflexivity.
Qed.

Lemma text_upto_keeps_doi (f : nat) :
  forall (rest stop o : list ascii) (d' : bool),
    text_upto cfg bU f true rest stop = Some (o, d') -> d' = true.
Proof.
  induction f as [|f IH]; intros rest stop o d' H; cbn [text_upto] in H;
    destruct (list_eqb rest stop);
    try (injection H as _ <-; reflexivity); try discriminate H.
  destruct (text_next cfg bU true rest) as [[[o0 d0] r0]|] eqn:En;
    [|discriminate H].
  apply text_next_keeps_doi in En. subst d0.
  destruct (text_upto cfg bU f true r0 stop) as [[o1 d1]|] eqn:Eu;
    [|discriminate H].
  cbn [fst snd] in H. injection H as _ <-.
  exact (IH _ _ _ _ Eu).
Qed.

Lemma text_upto_doi (f : nat) (d d' : bool) (X stop o : list ascii) :
  (length stop < length (LF :: kw_doi ++ X))%nat ->
  text_upto cfg bU f d (LF :: kw_doi ++ X) stop = Some (o, d') ->
  d' = true.
Proof.
  intros Hlen H. destruct f as [|f]; cbn [text_upto] in H;
    unfold list_eqb in H;
    destruct (list_eq_dec ascii_dec (LF :: kw_doi ++ X) stop) as [E|_];
    try (exfalso; rewrite E in Hlen; lia); try discriminate H.
  destruct (text_next cfg bU d (LF :: kw_doi ++ X)) as [[[o0 d0] r0]|] eqn:En;
    [|discriminate H].
  apply text_next_doi in En. subst d0.
  destruct (text_upto cfg bU f true r0 stop) as [[o1 d1]|] eqn:Eu;
    [|discriminate H].
  cbn [fst snd] in H. injection H as _ <-.
  exact (text_upto_keeps_doi f _ _ _ _ Eu).
Qed.

End TextDoi.

(** C1, as the code has it: in an [article] entry in which the scan comes
    to a [url] line with no [doi] line met before it, the [url] line stays
    when the global override is on, as it is in the default configuration,
    and goes when the override is off.  Where it stays, the newline and
    [url =] are put out and the value of the line is walked like any text.
    What stands before the line and behind it is rewritten as the walk
    through the text tells, the title line among it. *)
Theorem article_url_follows_override (cfg : config) (pad : ascii)
    (pre V post o1 o2 : list ascii) (f1 f2 : nat) :
  turn_issn_into_missing_year cfg = false ->
  one_line V = true ->
  text_upto cfg (exception_flag cfg (lit "article")) f1 false
    ("{"%char :: pre ++ LF :: kw_url ++ V ++ LF :: post)
    (LF :: kw_url ++ V ++ LF :: post) = Some (o1, false) ->
  text_fix cfg (exception_flag cfg (lit "article")) f2 false
    (if turn_every_entry_url_exception cfg then V ++ LF :: post
     else LF :: post) = Some o2 ->
  2 * blen (entry_of (lit "article") (pre ++ LF :: kw_url ++ V ++ LF :: post))
  + 40 < ULONG_MOD ->
  fix_entry cfg pad
    (entry_of (lit "article") (pre ++ LF :: kw_url ++ V ++ LF :: post))
  = Some ("@"%char :: lit "article"
            ++ o1 ++ (if turn_every_entry_url_exception cfg
                      then LF :: kw_url ++ o2 else o2)).
Proof.
  intros Hy HV H1 H2 Hs.
  assert (Hb : exception_flag cfg (lit "article")
               = turn_every_entry_url_exception cfg) by reflexivity.
  rewrite Hb in H1, H2.
  destruct (turn_every_entry_url_exception cfg) eqn:Ho.
  - assert (U : url_unwanted cfg true false = false).
    { unfold url_unwanted. rewrite andb_false_r. reflexivity. }
    pose proof (untouched_upto cfg true (LF :: kw_url) false false
                  (V ++ LF :: post)
                  (untouched_url_head cfg true false _ U)) as W.
    pose proof (text_upto_fix cfg true _ _ _ _ _ _ _ _ W H2) as T.
    apply (fix_entry_parts cfg pad (lit "article") _
             (LF :: kw_url ++ V ++ LF :: post) o1 _ false f1
             (length (LF :: kw_url) + f2) Hy eq_refl);
      [rewrite Hb; exact H1|rewrite Hb; exact T|exact Hs].
  - assert (N : text_next cfg false false (LF :: kw_url ++ V ++ LF :: post)
                = Some ([], false, LF :: post)).
    { apply text_next_line_erased; [|exact HV].
      right. split; reflexivity. }
    pose proof (text_fix_step cfg false f2 _ _ _ _ _ _ N H2) as T.
    apply (fix_entry_parts cfg pad (lit "article") _
             (LF :: kw_url ++ V ++ LF :: post) o1 _ false f1 (S f2) Hy
             eq_refl);
      [rewrite Hb; exact H1|rewrite Hb; exact T|exact Hs].
Qed.

(** C2, as the code has it: a [month] line to which the scan comes, with
    an opening brace at offset 9 and a closing brace at offset 13, that is
    [month = {mmm}], loses that pair of braces and becomes [month = mmm],
    two bytes fewer; a [month] line without a brace at one of the two
    offsets, [month = {{mmm}},] among them, stays as it is.  The line
    itself holds nothing else that the scan edits; what stands before it
    and behind it is rewritten as the walk through the text tells. *)
Theorem month_braces_removed (cfg : config) (pad : ascii)
    (tag pre post o1 o2 : list ascii) (c8 c9 a b c c13 : ascii)
    (d1 d2 : bool) (f1 f2 : nat) :
  turn_issn_into_missing_year cfg = false ->
  tag_ok tag = true ->
  text_upto cfg (exception_flag cfg tag) f1 false
    ("{"%char :: pre
       ++ LF :: kw_month ++ c8 :: c9 :: a :: b :: c :: c13 :: post)
    (LF :: kw_month ++ c8 :: c9 :: a :: b :: c :: c13 :: post)
  = Some (o1, d1) ->
  untouched cfg (exception_flag cfg tag) d1
    (kw_month
       ++ (if Ascii.eqb c9 "{" && Ascii.eqb c13 "}"
           then [c8; a; b; c] else [c8; c9; a; b; c; c13]))
    (post ++ [NUL]) = Some d2 ->
  text_fix cfg (exception_flag cfg tag) f2 d2 post = Some o2 ->
  2 * blen (entry_of tag
              (pre ++ LF :: kw_month
                   ++ c8 :: c9 :: a :: b :: c :: c13 :: post))
  + 40 < ULONG_MOD ->
  fix_entry cfg pad
    (entry_of tag
       (pre ++ LF :: kw_month ++ c8 :: c9 :: a :: b :: c :: c13 :: post))
  = Some ("@"%char :: tag
            ++ o1 ++ LF :: kw_month
            ++ (if Ascii.eqb c9 "{" && Ascii.eqb c13 "}"
                then [c8; a; b; c] else [c8; c9; a; b; c; c13])
            ++ o2).
Proof.
  intros Hy Ht H1 U H2 Hs.
  set (bU := exception_flag cfg tag) in *.
  set (line := if Ascii.eqb c9 "{" && Ascii.eqb c13 "}"
               then [c8; a; b; c] else [c8; c9; a; b; c; c13]) in *.
  pose proof (untouched_upto cfg bU _ _ _ _ U) as W.
  pose proof (text_upto_fix cfg bU _ _ _ _ _ _ _ _ W H2) as T.
  pose proof (text_next_month cfg bU d1 c8 c9 a b c c13 post) as N.
  assert (E : kw_month
              ++ (if Ascii.eqb c9 "{" && Ascii.eqb c13 "}"
                  then c8 :: a :: b :: c :: post
                  else c8 :: c9 :: a :: b :: c :: c13 :: post)
              = (kw_month ++ line) ++ post).
  { unfold line. destruct (Ascii.eqb c9 "{" && Ascii.eqb c13 "}"); list_eq. }
  rewrite E in N.
  pose proof (text_fix_step cfg bU _ _ _ _ _ _ _ N T) as T2.
  rewrite (fix_entry_parts cfg pad tag _ _ o1 _ d1 f1 _ Hy Ht H1 T2 Hs).
  cbn [app]. rewrite <- app_assoc. reflexivity.
Qed.


(** C7: in a [misc] entry in which the scan comes to a [doi] line and
    later to a [url] line, under the policy that keeps a URL only without a
    DOI, the [url] line is erased: the flag was set at the [doi] line,
    before the [url] line is looked at.  The value of the global override
    does not matter; what stands before the [doi] line, between the two
    lines and behind the [url] line is rewritten as the walk through the
    text tells, a title line among it. *)
Theorem misc_url_erased_after_doi (cfg : config) (pad : ascii)
    (pre mid V post o1 o2 o3 : list ascii) (d1 d2 : bool)
    (f1 f2 f3 : nat) :
  turn_issn_into_missing_year cfg = false ->
  keep_url_only_if_no_doi cfg = true ->
  one_line V = true ->
  text_upto cfg (exception_flag cfg (lit "misc")) f1 false
    ("{"%char :: pre ++ LF :: kw_doi ++ mid ++ LF :: kw_url ++ V ++ LF :: post)
    (LF :: kw_doi ++ mid ++ LF :: kw_url ++ V ++ LF :: post)
  = Some (o1, d1) ->
  text_upto cfg (exception_flag cfg (lit "misc")) f2 d1
    (LF :: kw_doi ++ mid ++ LF :: kw_url ++ V ++ LF :: post)
    (LF :: kw_url ++ V ++ LF :: post)
  = Some (o2, d2) ->
  text_fix cfg (exception_flag cfg (lit "misc")) f3 true (LF :: post)
  = Some o3 ->
  2 * blen (entry_of (lit "misc")
              (pre ++ LF :: kw_doi ++ mid ++ LF :: kw_url ++ V ++ LF :: post))
  + 40 < ULONG_MOD ->
  fix_entry cfg pad
    (entry_of (lit "misc")
       (pre ++ LF :: kw_doi ++ mid ++ LF :: kw_url ++ V ++ LF :: post))
  = Some ("@"%char :: lit "misc" ++ o1 ++ o2 ++ o3).
Proof.
  intros Hy Hk HV H1 H2 H3 Hs.
  assert (Hb : exception_flag cfg (lit "misc") = true) by reflexivity.
  rewrite Hb in H1, H2, H3.
  assert (Hd : d2 = true).
  { apply (text_upto_doi cfg true f2 d1 d2 _ _ o2) in H2; [exact H2|].
    cbn [length]. rewrite !length_app. cbn [length].
    rewrite !length_app. cbn [length]. lia. }
  subst d2.
  assert (N : text_next cfg true true (LF :: kw_url ++ V ++ LF :: post)
              = Some ([], true, LF :: post)).
  { apply text_next_line_erased; [|exact HV].
    right. split; [reflexivity|].
    unfold url_unwanted. rewrite Hk. reflexivity. }
  pose proof (text_fix_step cfg true f3 _ _ _ _ _ _ N H3) as T3.
  pose proof (text_upto_fix cfg true _ _ _ _ _ _ _ _ H2 T3) as T2.
  apply (fix_entry_parts cfg pad (lit "misc") _
           (LF :: kw_doi ++ mid ++ LF :: kw_url ++ V ++ LF :: post)
           o1 _ d1 f1 (f2 + S f3) Hy eq_refl);
    [rewrite Hb; exact H1|rewrite Hb; exact T2|exact Hs].
Qed.


(** X6: a [file] line to which the scan comes is erased, whatever the
    options for the url, the notes and the abstract are (the renaming of
    [issn] off): the line goes from its first byte through its newline, and
    what stands before it and behind it is rewritten as the walk through
    the text tells. *)
Theorem file_line_erased (cfg : config) (pad : ascii)
    (tag pre V post o1 o2 : list ascii) (d1 : bool) (f1 f2 : nat) :
  turn_issn_into_missing_year cfg = false ->
  tag_ok tag = true ->
  one_line V = true ->
  text_upto cfg (exception_flag cfg tag) f1 false
    ("{"%char :: pre ++ LF :: kw_file ++ V ++ LF :: post)
    (LF :: kw_file ++ V ++ LF :: post) = Some (o1, d1) ->
  text_fix cfg (exception_flag cfg tag) f2 d1 (LF :: post) = Some o2 ->
  2 * blen (entry_of tag (pre ++ LF :: kw_file ++ V ++ LF :: post)) + 40
  < ULONG_MOD ->
  fix_entry cfg pad (entry_of tag (pre ++ LF :: kw_file ++ V ++ LF :: post))
  = Some ("@"%char :: tag ++ o1 ++ o2).
Proof.
  intros Hy Ht HV H1 H2 Hs.
  pose proof (text_next_line_erased cfg (exception_flag cfg tag) d1 kw_file
                V post (or_introl eq_refl) HV) as N.
  pose proof (text_fix_step cfg _ f2 _ _ _ _ _ _ N H2) as T.
  exact (fix_entry_parts cfg pad tag _ _ o1 _ d1 f1 _ Hy Ht H1 T Hs).
Qed.

(** X7: an entry of a type of the exception list, [misc] or
    [unpublished], keeps a [url] line to which the scan comes with no
    [doi] line met before it, whatever the override and the options for
    the notes and the abstract are (the renaming of [issn] off): the
    newline and [url =] stay, and the value of the line and what follows
    are rewritten like any text. *)
Theorem exception_type_keeps_url (cfg : config) (pad : ascii)
    (tag pre V post o1 o2 : list ascii) (f1 f2 : nat) :
  turn_issn_into_missing_year cfg = false ->
  tag = lit "misc" \/ tag = lit "unpublished" ->
  text_upto cfg (exception_flag cfg tag) f1 false
    ("{"%char :: pre ++ LF :: kw_url ++ V ++ LF :: post)
    (LF :: kw_url ++ V ++ LF :: post) = Some (o1, false) ->
  text_fix cfg (exception_flag cfg tag) f2 false (V ++ LF :: post)
  = Some o2 ->
  2 * blen (entry_of tag (pre ++ LF :: kw_url ++ V ++ LF :: post)) + 40
  < ULONG_MOD ->
  fix_entry cfg pad (entry_of tag (pre ++ LF :: kw_url ++ V ++ LF :: post))
  = Some ("@"%char :: tag ++ o1 ++ LF :: kw_url ++ o2).
Proof.
  intros Hy Htag H1 H2 Hs.
  assert (Ht : tag_ok tag = true) by (destruct Htag as [-> | ->]; reflexivity).
  assert (Hb : exception_flag cfg tag = true)
    by (destruct Htag as [-> | ->]; reflexivity).
  rewrite Hb in H1, H2.
  assert (U : url_unwanted cfg true false = false).
  { unfold url_unwanted. rewrite andb_false_r. reflexivity. }
  pose proof (untouched_upto cfg true (LF :: kw_url) false false
                (V ++ LF :: post)
                (untouched_url_head cfg true false _ U)) as W.
  pose proof (text_upto_fix cfg true _ _ _ _ _ _ _ _ W H2) as T.
  apply (fix_entry_parts cfg pad tag _
           (LF :: kw_url ++ V ++ LF :: post) o1 _ false f1
           (length (LF :: kw_url) + f2) Hy Ht);
    [rewrite Hb; exact H1|rewrite Hb; exact T|exact Hs].
Qed.

(** X8: with the global override off, an entry whose type is not in the
    exception list loses every [url] line to which the scan comes, with or
    without a [doi] line before it (the renaming of [issn] off): the line
    goes from its first byte through its newline, and what stands before
    it and behind it is rewritten as the walk through the text tells. *)
Theorem other_type_loses_url (cfg : config) (pad : ascii)
    (tag pre V post o1 o2 : list ascii) (d1 : bool) (f1 f2 : nat) :
  turn_issn_into_missing_year cfg = false ->
  turn_every_entry_url_exception cfg = false ->
  tag_ok tag = true ->
  url_exception tag = false ->
  one_line V = true ->
  text_upto cfg (exception_flag cfg tag) f1 false
    ("{"%char :: pre ++ LF :: kw_url ++ V ++ LF :: post)
    (LF :: kw_url ++ V ++ LF :: post) = Some (o1, d1) ->
  text_fix cfg (exception_flag cfg tag) f2 d1 (LF :: post) = Some o2 ->
  2 * blen (entry_of tag (pre ++ LF :: kw_url ++ V ++ LF :: post)) + 40
  < ULONG_MOD ->
  fix_entry cfg pad (entry_of tag (pre ++ LF :: kw_url ++ V ++ LF :: post))
  = Some ("@"%char :: tag ++ o1 ++ o2).
Proof.
  intros Hy Ho Ht He HV H1 H2 Hs.
  assert (Hb : exception_flag cfg tag = false)
    by (unfold exception_flag; rewrite He, Ho; reflexivity).
  assert (N : text_next cfg (exception_flag cfg tag) d1
                (LF :: kw_url ++ V ++ LF :: post)
              = Some ([], d1, LF :: post)).
  { apply text_next_line_erased; [|exact HV].
    right. split; [reflexivity|]. rewrite Hb. reflexivity. }
  pose proof (text_fix_step cfg _ f2 _ _ _ _ _ _ N H2) as T.
  exact (fix_entry_parts cfg pad tag _ _ o1 _ d1 f1 _ Hy Ht H1 T Hs).
Qed.

(** ** The properties on concrete inputs *)

Lemma findEndOfLine_first_newline_witness :
  ((exists r, findEndOfLine sample_field 3 = Some r)
   <-> (exists k, 3 <= k /\ get sample_field k = Some LF))
  /\ (forall r, findEndOfLine sample_field 3 = Some r ->
        3 <= r /\ get sample_field r = Some LF
        /\ (forall k, 3 <= k < r -> get sample_field k <> Some LF))
  /\ (forall fuel, (length sample_field < fuel)%nat ->
        findEndOfLine_from fuel sample_field 3
        = findEndOfLine sample_field 3).
Proof.
  apply (findEndOfLine_first_newline sample_field 3);
    [lia|vm_compute; reflexivity].
Defined.


Lemma fix_entry_no_longer_witness :
  blen (entry_of (lit "article")
          (lit "k," ++ LF :: kw_title ++ lit " {ome Title," ++ LF
               :: sample_tail))
  <= blen sample_title_entry.
Proof.
  apply (fix_entry_no_longer default_config NUL sample_title_entry);
    vm_compute; reflexivity.
Defined.

Lemma output_no_longer_than_input_witness :
  blen (sample_url_entry ++ entry_of (lit "misc") sample_doi_body)
  <= blen sample_input.
Proof.
  apply (output_no_longer_than_input default_config NUL sample_input);
    vm_compute; reflexivity.
Defined.

Lemma escaped_brace_unescaped_witness :
  fix_entry default_config NUL
    (entry_of (lit "article")
       ((lit "k," ++ LF :: lit "note = {a ") ++ esc_close
          ++ lit " b}," ++ LF :: sample_tail))
  = Some (entry_of (lit "article")
            ((lit "k," ++ LF :: lit "note = {a ")
               ++ (if list_eqb esc_close esc_open then "{"%char else "}"%char)
               :: lit " b}," ++ LF :: sample_tail)).
Proof.
  apply (escaped_brace_unescaped default_config NUL (lit "article")
           (lit "k," ++ LF :: lit "note = {a ")
           (lit " b}," ++ LF :: sample_tail) esc_close false false);
    try (vm_compute; reflexivity).
  right. reflexivity.
Defined.

Lemma issn_renamed_to_year_witness :
  fix_entry year_backfill_on NUL
    (entry_of (lit "article")
       (lit "k," ++ LF :: kw_issn ++ lit " {in press}" ++ [LF; "}"%char; LF]))
  = Some (entry_of (lit "article")
            (lit "k," ++ LF :: kw_year ++ lit " {in press}"
                 ++ [LF; "}"%char; LF])).
Proof.
  apply (issn_renamed_to_year year_backfill_on NUL (lit "article")
           (lit "k,") (lit " {in press}" ++ [LF; "}"%char; LF]) false);
    vm_compute; reflexivity.
Defined.

Lemma issn_kept_beside_year_witness :
  fix_entry year_backfill_on NUL
    (entry_of (lit "article")
       (lit "k," ++ LF :: kw_issn ++ lit " {1234-5678}," ++ LF :: sample_tail))
  = Some (entry_of (lit "article")
            (lit "k," ++ LF :: kw_issn ++ lit " {1234-5678}," ++ LF
                 :: sample_tail)).
Proof.
  apply (issn_kept_beside_year year_backfill_on NUL (lit "article")
           (lit "k," ++ LF :: kw_issn ++ lit " {1234-5678}," ++ LF
                :: sample_tail) false);
    vm_compute; reflexivity.
Defined.

Lemma no_record_no_output_witness :
  mendeleyBibFix default_config NUL (lit "article{k," ++ LF :: sample_tail)
  = Some [].
Proof.
  apply (no_record_no_output default_config NUL
           (lit "article{k," ++ LF :: sample_tail));
    vm_compute; reflexivity.
Defined.

Lemma clean_file_keeps_records_witness :
  mendeleyBibFix default_config NUL
    (file_of sample_records ++ LF :: lit "% end")
  = Some (records_of sample_records).
Proof.
  apply (clean_file_keeps_records default_config NUL sample_records
           (LF :: lit "% end"));
    vm_compute; reflexivity.
Defined.

Lemma bibType_fits_witness :
  blen (lit "article") = 8 - 1 /\ 1 <= 8 <= BIB_TYPE_MAX
  /\ blen (lit "article") < BIB_TYPE_MAX
  /\ (forall k, 0 <= k < blen (lit "article") ->
        get (lit "article") k = get (sample_url_entry ++ [NUL; NUL]) (1 + k))
  /\ ~ In "{"%char (lit "article")
  /\ (8 < BIB_TYPE_MAX ->
      get (sample_url_entry ++ [NUL; NUL]) 8 = Some "{"%char)
  /\ (forall fuel, (24 <= fuel)%nat ->
        scan_type fuel (sample_url_entry ++ [NUL; NUL]) 1 []
        = Some (lit "article", 8)).
Proof.
  apply (bibType_fits (sample_url_entry ++ [NUL; NUL]) (lit "article") 8).
  vm_compute. reflexivity.
Defined.

Lemma short_title_faults_witness :
  fix_entry default_config NUL
    (entry_of (lit "article")
       (lit "k," ++ LF :: kw_title ++ lit " {}," ++ LF :: sample_tail))
  = None.
Proof.
  apply (short_title_faults default_config NUL (lit "article") (lit "k,")
           (lit " {},") sample_tail false);
    vm_compute; reflexivity.
Defined.

Lemma unclosed_note_faults_witness :
  fix_entry default_config NUL
    (entry_of (lit "article")
       (lit "k," ++ LF :: kw_annote ++ lit " {read this}" ++ closing))
  = None.
Proof.
  apply (unclosed_note_faults default_config NUL (lit "article") (lit "k,")
           kw_annote (lit " {read this}" ++ closing) false);
    try (vm_compute; reflexivity).
  left. split; reflexivity.
Defined.

Lemma stringWrite_copies_witness :
  stringWrite (sample_world [] [] "x" (fun _ => false)) 0
    (lit "in.bib" ++ NUL :: lit "rest")
  = Ok (lit "in.bib" ++ [NUL])
  /\ cstr (cstr (lit "in.bib" ++ NUL :: lit "rest") ++ [NUL])
     = cstr (lit "in.bib" ++ NUL :: lit "rest")
  /\ blen (cstr (lit "in.bib" ++ NUL :: lit "rest") ++ [NUL])
     = blen (cstr (lit "in.bib" ++ NUL :: lit "rest")) + 1.
Proof.
  apply (stringWrite_copies (sample_world [] [] "x" (fun _ => false)) 0
           (lit "in.bib" ++ NUL :: lit "rest")).
  vm_compute. reflexivity.
Defined.

Lemma clean_run_writes_records_witness :
  main (sample_world (lit "in.bib")
          (file_of sample_records ++ LF :: lit "% end") "x"
          (fun k => Nat.eqb k 2))
    sample_argv
  = Some {| written := Some (lit "out.bib", records_of sample_records);
            ending := Returned 2 |}.
Proof.
  apply (clean_run_writes_records
           (sample_world (lit "in.bib")
              (file_of sample_records ++ LF :: lit "% end") "x"
              (fun k => Nat.eqb k 2))
           sample_argv sample_records (LF :: lit "% end"));
    try (vm_compute; reflexivity).
  unfold sample_records. discriminate.
Defined.

Lemma run_without_entry_frees_unset_pointer_witness :
  main (sample_world (lit "library.bib") [] "x" (fun k => Nat.eqb k 2)) []
  = Some {| written := Some (lit "library_fixed.bib", []);
            ending := Undefined Free_of_unset_pointer |}.
Proof.
  apply (run_without_entry_frees_unset_pointer
           (sample_world (lit "library.bib") [] "x" (fun k => Nat.eqb k 2))
           [] []);
    vm_compute; reflexivity.
Defined.

Lemma missing_input_ends_run_witness :
  main (sample_world (lit "other.bib") [] "x" (fun _ => false)) sample_argv
  = Some (ends (Exited (Input_not_found (lit "in.bib")))).
Proof.
  apply (missing_input_ends_run
           (sample_world (lit "other.bib") [] "x" (fun _ => false))
           sample_argv);
    vm_compute; reflexivity.
Defined.

Lemma rewriter_follows_text_fix_witness :
  fix_entry default_config "x" (entry_of (lit "article") sample_export_body)
  = Some ("@"%char :: lit "article" ++ "{"%char :: sample_export_fixed).
Proof.
  apply (rewriter_follows_text_fix default_config "x" (lit "article")
           sample_export_body ("{"%char :: sample_export_fixed) 400);
    vm_compute; reflexivity.
Defined.

Lemma article_url_follows_override_witness :
  fix_entry override_off "x"
    (entry_of (lit "article")
       (sample_head ++ LF :: kw_url ++ lit " {http://x}," ++ LF :: sample_tail))
  = Some ("@"%char :: lit "article"
            ++ ("{"%char :: sample_head_fixed) ++ LF :: sample_tail).
Proof.
  apply (article_url_follows_override override_off "x" sample_head
           (lit " {http://x},") sample_tail
           ("{"%char :: sample_head_fixed) (LF :: sample_tail) 100 100);
    vm_compute; reflexivity.
Defined.

Lemma month_braces_removed_witness :
  fix_entry default_config "x"
    (entry_of (lit "inproceedings") sample_export_body)
  = Some ("@"%char :: lit "inproceedings" ++ "{"%char :: sample_export_fixed).
Proof.
  apply (month_braces_removed default_config "x" (lit "inproceedings")
           (lit "Smith2010," ++ LF
              :: kw_abstract ++ lit " {We show" ++ LF :: lit "that x.}," ++ LF
              :: lit "author = {Smith, J.}," ++ LF
              :: kw_doi ++ lit " {10.1000/182}," ++ LF
              :: kw_file ++ lit " {:home/x.pdf:pdf},")
           (lit "," ++ LF
              :: kw_title ++ lit " {{Sets " ++ esc_open ++ lit "a" ++ esc_close ++ lit "}}," ++ LF
              :: kw_url ++ lit " {http://x.org}," ++ LF
              :: lit "year = {2010}" ++ closing)
           ("{"%char :: lit "Smith2010," ++ LF
              :: lit "author = {Smith, J.}," ++ LF
              :: kw_doi ++ lit " {10.1000/182},")
           (lit "," ++ LF
              :: kw_title ++ lit " {Sets {a}}," ++ LF
              :: lit "year = {2010}" ++ closing)
           " " "{" "j" "a" "n" "}" true true 400 400);
    vm_compute; reflexivity.
Defined.

Lemma misc_url_erased_after_doi_witness :
  fix_entry override_off "x" (entry_of (lit "misc") sample_export_body)
  = Some ("@"%char :: lit "misc" ++ "{"%char :: sample_export_fixed).
Proof.
  apply (misc_url_erased_after_doi override_off "x"
           (lit "Smith2010," ++ LF
              :: kw_abstract ++ lit " {We show" ++ LF :: lit "that x.}," ++ LF
              :: lit "author = {Smith, J.},")
           (lit " {10.1000/182}," ++ LF
              :: kw_file ++ lit " {:home/x.pdf:pdf}," ++ LF
              :: kw_month ++ lit " {jan}," ++ LF
              :: kw_title ++ lit " {{Sets " ++ esc_open ++ lit "a" ++ esc_close ++ lit "}},")
           (lit " {http://x.org},")
           (lit "year = {2010}" ++ closing)
           ("{"%char :: lit "Smith2010," ++ LF :: lit "author = {Smith, J.},")
           (LF :: kw_doi ++ lit " {10.1000/182}," ++ LF
               :: kw_month ++ lit " jan," ++ LF
               :: kw_title ++ lit " {Sets {a}},")
           (LF :: lit "year = {2010}" ++ closing)
           false true 400 400 400);
    vm_compute; reflexivity.
Defined.


Lemma file_line_erased_witness :
  fix_entry default_config "x"
    (entry_of (lit "incollection") sample_export_body)
  = Some ("@"%char :: lit "incollection" ++ "{"%char :: sample_export_fixed).
Proof.
  apply (file_line_erased default_config "x" (lit "incollection")
           (lit "Smith2010," ++ LF
              :: kw_abstract ++ lit " {We show" ++ LF :: lit "that x.}," ++ LF
              :: lit "author = {Smith, J.}," ++ LF
              :: kw_doi ++ lit " {10.1000/182},")
           (lit " {:home/x.pdf:pdf},")
           (kw_month ++ lit " {jan}," ++ LF
              :: kw_title ++ lit " {{Sets " ++ esc_open ++ lit "a" ++ esc_close ++ lit "}}," ++ LF
              :: kw_url ++ lit " {http://x.org}," ++ LF
              :: lit "year = {2010}" ++ closing)
           ("{"%char :: lit "Smith2010," ++ LF
              :: lit "author = {Smith, J.}," ++ LF
              :: kw_doi ++ lit " {10.1000/182},")
           (LF :: kw_month ++ lit " jan," ++ LF
               :: kw_title ++ lit " {Sets {a}}," ++ LF
               :: lit "year = {2010}" ++ closing)
           true 400 400);
    vm_compute; reflexivity.
Defined.

Lemma other_type_loses_url_witness :
  fix_entry override_off "x" (entry_of (lit "book") sample_export_body)
  = Some ("@"%char :: lit "book" ++ "{"%char :: sample_export_fixed).
Proof.
  apply (other_type_loses_url override_off "x" (lit "book")
           (lit "Smith2010," ++ LF
              :: kw_abstract ++ lit " {We show" ++ LF :: lit "that x.}," ++ LF
              :: lit "author = {Smith, J.}," ++ LF
              :: kw_doi ++ lit " {10.1000/182}," ++ LF
              :: kw_file ++ lit " {:home/x.pdf:pdf}," ++ LF
              :: kw_month ++ lit " {jan}," ++ LF
              :: kw_title ++ lit " {{Sets " ++ esc_open ++ lit "a" ++ esc_close ++ lit "}},")
           (lit " {http://x.org},")
           (lit "year = {2010}" ++ closing)
           ("{"%char :: lit "Smith2010," ++ LF
              :: lit "author = {Smith, J.}," ++ LF
              :: kw_doi ++ lit " {10.1000/182}," ++ LF
              :: kw_month ++ lit " jan," ++ LF
              :: kw_title ++ lit " {Sets {a}},")
           (LF :: lit "year = {2010}" ++ closing)
           true 400 400);
    vm_compute; reflexivity.
Defined.


Lemma exception_type_keeps_url_witness :
  fix_entry override_off "x"
    (entry_of (lit "misc")
       (sample_head ++ LF :: kw_url ++ lit " {http://x}," ++ LF :: sample_tail))
  = Some ("@"%char :: lit "misc"
            ++ ("{"%char :: sample_head_fixed)
            ++ LF :: kw_url ++ lit " {http://x}," ++ LF :: sample_tail).
Proof.
  apply (exception_type_keeps_url override_off "x" (lit "misc") sample_head
           (lit " {http://x},") sample_tail
           ("{"%char :: sample_head_fixed)
           (lit " {http://x}," ++ LF :: sample_tail) 100 100);
    try (vm_compute; reflexivity).
  left. reflexivity.
Defined.

Lemma output_is_fixed_records_witness :
  mendeleyBibFix default_config "x" sample_input
  = Some (concat [sample_url_entry; entry_of (lit "misc") sample_doi_body]).
Proof.
  apply (output_is_fixed_records default_config "x" sample_input
           [sample_url_entry; entry_of (lit "misc") sample_doi_body]);
    vm_compute; reflexivity.
Defined.

Lemma braceless_short_entry_passes_terminator_witness :
  exists t i,
    scan_type (Z.to_nat BIB_TYPE_MAX)
      (("@"%char :: lit "comment" ++ [LF; "}"%char; LF])
         ++ NUL :: lit "abcdefghijklm{nopqrstuvwxyz") 1 []
    = Some (t, i)
    /\ blen ("@"%char :: lit "comment" ++ [LF; "}"%char; LF]) < i
       <= BIB_TYPE_MAX.
Proof.
  apply (braceless_short_entry_passes_terminator
           ("@"%char :: lit "comment" ++ [LF; "}"%char; LF])
           (lit "abcdefghijklm{nopqrstuvwxyz"));
    vm_compute; first [reflexivity | discriminate].
Defined.

Lemma strcat_stays_inside_output_block_witness :
  exists r,
    main_run (S (length sample_input))
      (sample_world (lit "in.bib") sample_input "x" (fun k => Nat.eqb k 2))
      default_config sample_input 0 [] 0 4 = Some r
    /\ r <> Stopped (Undefined Output_overrun)
    /\ forall out n k, r = Done out n k -> blen out <= blen sample_input.
Proof.
  apply (strcat_stays_inside_output_block
           (sample_world (lit "in.bib") sample_input "x"
              (fun k => Nat.eqb k 2)) default_config sample_input).
  vm_compute. reflexivity.
Defined.

Lemma reported_count_is_entries_witness :
  2 = Z.of_nat (length (entries sample_input))
  /\ 6%nat = (4 + length (entries sample_input))%nat.
Proof.
  apply (reported_count_is_entries
           (sample_world (lit "in.bib") sample_input "x"
              (fun k => Nat.eqb k 2)) default_config sample_input
           (sample_url_entry ++ entry_of (lit "misc") sample_doi_body) 2 6);
    vm_compute; reflexivity.
Defined.

Lemma run_writes_fixed_input_witness :
  main (sample_world (lit "in.bib") sample_input "x"
          (fun k => Nat.eqb k 2)) sample_argv
  = Some {| written :=
              Some (output_name sample_argv,
                    sample_url_entry
                      ++ entry_of (lit "misc") sample_doi_body);
            ending := match entries sample_input with
                      | [] => Undefined Free_of_unset_pointer
                      | _ :: _ =>
                          Returned
                            (Z.of_nat (length (entries sample_input)))
                      end |}.
Proof.
  apply (run_writes_fixed_input
           (sample_world (lit "in.bib") sample_input "x"
              (fun k => Nat.eqb k 2)) sample_argv sample_input
           (sample_url_entry ++ entry_of (lit "misc") sample_doi_body) "x");
    vm_compute; reflexivity.
Defined.

Lemma last_entry_without_newline_witness :
  main (sample_world (lit "in.bib")
          (lit "% x" ++ LF
             :: entry_of (lit "book")
                  ((lit "k," ++ LF :: lit "year = {2010}")
                     ++ [LF; "}"%char]))
          "x" (fun k => Nat.eqb k 2)) sample_argv
  = Some {| written :=
              Some (output_name sample_argv,
                    entry_of (lit "book")
                      ((lit "k," ++ LF :: lit "year = {2010}")
                         ++ [LF; "}"%char]));
            ending := Returned 1 |}.
Proof.
  apply (last_entry_without_newline
           (sample_world (lit "in.bib")
              (lit "% x" ++ LF
                 :: entry_of (lit "book")
                      ((lit "k," ++ LF :: lit "year = {2010}")
                         ++ [LF; "}"%char]))
              "x" (fun k => Nat.eqb k 2)) sample_argv
           (lit "% x" ++ [LF]) (lit "book")
           (lit "k," ++ LF :: lit "year = {2010}") false);
    vm_compute; reflexivity.
Defined.
